(** * Reminder subsystem of the voice assistant (Slab2.1/assistant.py)

    A shallow embedding of the reminder scheduling code: the [Reminder]
    record, [ReminderManager] (SQLite table + APScheduler job store),
    [parse_time_local] and the reminder branch of [Assistant.handle].

    Conventions of the embedding.
    - A [datetime] is the record of calendar fields Python keeps, with an
      optional [tzinfo]; ordering of two datetimes carrying the same
      [tzinfo] is the lexicographic order of the fields, as in CPython.
    - [isoformat] / [fromisoformat] are modelled on real strings, since the
      table stores instants as TEXT and [ORDER BY when_utc] sorts the text.
    - The process state (SQLite connection, database file, scheduler job
      store, what the TTS was asked to say) is threaded explicitly through
      a small exception-and-state monad.
    - The tz database, dateutil's parser and the wall clock are outside the
      program: they are Section variables or explicit arguments.  A
      [datetime] has no [fold] attribute here, so the UTC offset of the
      process zone is a function [off] of the calendar fields; what is
      proved about instants is stated through the conversion
      [astimezone_UTC off], and what is proved about the wall clock is
      stated on the fields.
    - The state also keeps a journal of the commits and of the jobs armed,
      in the order in which they happened.  The program never reads it; it
      is there so that "committed before armed" can be stated.
    - An integer bound to a SQL parameter is checked against the signed
      64-bit range, as the sqlite3 module does before the statement runs.

    The command layer is embedded after it: [Assistant.handle] with the
    patterns of its intent parser, run by a backtracking matcher that
    follows module [re], [NewsClient.headlines] and [Assistant.loop_text].
    The reply of the weather client and the parsed feed are Section
    variables; the speech engines and the microphone are not modelled. *)

From Stdlib Require Import ZArith Lia Ascii DecimalString DecimalZ.
From Stdlib Require String.
From stdpp Require Import gmap strings list sorting.

Local Open Scope Z_scope.

(* ===================================================================== *)
(** * Calendar fields and datetime                                        *)
(* ===================================================================== *)

Module Datetime.

(** [dateutil.tz.UTC], the process zone [USER_TZ = tz.gettz()], and a fixed
    offset in seconds (what dateutil / [fromisoformat] attach to a string
    that spells its own offset). *)
Inductive tzinfo : Type :=
| UTC
| USER_TZ
| tzoffset (seconds : Z).

#[global] Instance tzinfo_eq_dec : EqDecision tzinfo.
Proof. solve_decision. Defined.

Record datetime : Type := mkdt {
  year : Z; month : Z; day : Z;
  hour : Z; minute : Z; second : Z; microsecond : Z;
  tzinfo_of : option tzinfo
}.

#[global] Instance datetime_eq_dec : EqDecision datetime.
Proof. solve_decision. Defined.

Definition MINYEAR : Z := 1.
Definition MAXYEAR : Z := 9999.

Definition is_leap (y : Z) : bool :=
  (y mod 4 =? 0) && (negb (y mod 100 =? 0) || (y mod 400 =? 0)).

Definition DAYS_IN_MONTH (m : Z) : Z :=
  match m with
  | 1 => 31 | 2 => 28 | 3 => 31 | 4 => 30
  | 5 => 31 | 6 => 30 | 7 => 31 | 8 => 31 | 9 => 30 | 10 => 31
  | 11 => 30 | 12 => 31 | _ => 0
  end.

Definition DAYS_BEFORE_MONTH (m : Z) : Z :=
  match m with
  | 1 => 0 | 2 => 31 | 3 => 59 | 4 => 90 | 5 => 120 | 6 => 151 | 7 => 181
  | 8 => 212 | 9 => 243 | 10 => 273 | 11 => 304 | 12 => 334 | _ => 0
  end.

Definition days_in_month (y m : Z) : Z :=
  if (m =? 2) && is_leap y then 29 else DAYS_IN_MONTH m.

(** The field check of the [datetime] constructor. *)
Definition valid_fields (d : datetime) : bool :=
  (MINYEAR <=? year d) && (year d <=? MAXYEAR) &&
  (1 <=? month d) && (month d <=? 12) &&
  (1 <=? day d) && (day d <=? days_in_month (year d) (month d)) &&
  (0 <=? hour d) && (hour d <? 24) &&
  (0 <=? minute d) && (minute d <? 60) &&
  (0 <=? second d) && (second d <? 60) &&
  (0 <=? microsecond d) && (microsecond d <? 1000000).

(** The constructor check, as a proposition. *)
Definition Valid (d : datetime) : Prop :=
  1 <= year d <= 9999 /\ 1 <= month d <= 12 /\
  1 <= day d <= days_in_month (year d) (month d) /\
  0 <= hour d < 24 /\ 0 <= minute d < 60 /\ 0 <= second d < 60 /\
  0 <= microsecond d < 1000000.

(** [d.replace(tzinfo=t)] *)
Definition replace_tzinfo (d : datetime) (t : option tzinfo) : datetime :=
  mkdt (year d) (month d) (day d) (hour d) (minute d) (second d)
       (microsecond d) t.

(** Chaining of comparisons: the first non-[Eq] result decides. *)
Definition cmp_then (c1 c2 : comparison) : comparison :=
  match c1 with Eq => c2 | _ => c1 end.

(** [datetime._cmp] on the naive fields. *)
Definition cmp_fields (a b : datetime) : comparison :=
  cmp_then (year a ?= year b)
  (cmp_then (month a ?= month b)
  (cmp_then (day a ?= day b)
  (cmp_then (hour a ?= hour b)
  (cmp_then (minute a ?= minute b)
  (cmp_then (second a ?= second b)
            (microsecond a ?= microsecond b)))))).

Definition same_date (a b : datetime) : Prop :=
  year a = year b /\ month a = month b /\ day a = day b.

(** The calendar day after [d], same time of day: what "tomorrow at the
    same clock time" means.  Used to state results, not by the program. *)
Definition next_day (d : datetime) : datetime :=
  if day d <? days_in_month (year d) (month d) then
    mkdt (year d) (month d) (day d + 1) (hour d) (minute d) (second d)
         (microsecond d) (tzinfo_of d)
  else if month d <? 12 then
    mkdt (year d) (month d + 1) 1 (hour d) (minute d) (second d)
         (microsecond d) (tzinfo_of d)
  else
    mkdt (year d + 1) 1 1 (hour d) (minute d) (second d)
         (microsecond d) (tzinfo_of d).

(** ** Ordinal arithmetic, as in CPython's [datetime] module *)

Definition MAXORDINAL : Z := 3652059.

Definition days_before_year (y : Z) : Z :=
  let y1 := y - 1 in y1 * 365 + y1 / 4 - y1 / 100 + y1 / 400.

Definition days_before_month (y m : Z) : Z :=
  DAYS_BEFORE_MONTH m + (if (2 <? m) && is_leap y then 1 else 0).

(** [_ymd2ord]: 0001-01-01 is day 1. *)
Definition ymd2ord (y m d : Z) : Z :=
  days_before_year y + days_before_month y m + d.

(** The month and day of the [n]-th day (from 0) of a year. *)
Definition month_day (leapyear : bool) (n : Z) : Z * Z :=
  let month := Z.shiftr (n + 50) 5 in
  let preceding :=
    DAYS_BEFORE_MONTH month + (if (2 <? month) && leapyear then 1 else 0) in
  if n <? preceding then
    let month := month - 1 in
    let preceding :=
      preceding
      - (DAYS_IN_MONTH month + (if (month =? 2) && leapyear then 1 else 0)) in
    (month, n - preceding + 1)
  else (month, n - preceding + 1).

(** [_ord2ymd] *)
Definition ord2ymd (n : Z) : Z * Z * Z :=
  let n := n - 1 in
  let n400 := n / 146097 in let n := n mod 146097 in
  let year := n400 * 400 + 1 in
  let n100 := n / 36524 in let n := n mod 36524 in
  let n4 := n / 1461 in let n := n mod 1461 in
  let n1 := n / 365 in let n := n mod 365 in
  let year := year + n100 * 100 + n4 * 4 + n1 in
  if (n1 =? 4) || (n100 =? 4) then (year - 1, 12, 31)
  else
    let leapyear := (n1 =? 3) && (negb (n4 =? 24) || (n100 =? 3)) in
    let '(m, d) := month_day leapyear n in (year, m, d).

Definition US_PER_DAY : Z := 86400000000.

(** Microseconds of the wall clock of [d] since 0001-01-01T00:00. *)
Definition wall_us (d : datetime) : Z :=
  (ymd2ord (year d) (month d) (day d) - 1) * US_PER_DAY
  + ((hour d * 60 + minute d) * 60 + second d) * 1000000 + microsecond d.

(** [d + timedelta(microseconds=us)] ([datetime.__add__]): the wall clock
    moves, the [tzinfo] stays.  [None] is the [OverflowError] of a result
    outside years 1..9999 (or the constructor's [ValueError]). *)
Definition timedelta_add (d : datetime) (us : Z) : option datetime :=
  let t := wall_us d + us in
  let ordinal := t / US_PER_DAY + 1 in
  let rest := t mod US_PER_DAY in
  if (0 <? ordinal) && (ordinal <=? MAXORDINAL) then
    let '(y, m, dd) := ord2ymd ordinal in
    let r := mkdt y m dd (rest / 3600000000) (rest / 60000000 mod 60)
                  (rest / 1000000 mod 60) (rest mod 1000000) (tzinfo_of d) in
    if valid_fields r then Some r else None
  else None.

(** ** ISO-8601 text, as stored in the TEXT columns *)

(** Decimal digits are the codes 48..57. *)
Definition digit_char (d : Z) : ascii := ascii_of_N (Z.to_N (48 + d)).

Definition digit_val (c : ascii) : option Z :=
  let code := Z.of_N (N_of_ascii c) in
  if (48 <=? code) && (code <=? 57) then Some (code - 48) else None.

(** ["%0wd" % v] for [0 <= v < 10^w] (the only values the constructor
    check lets through). *)
Fixpoint zpad (w : nat) (v : Z) : string :=
  match w with
  | O => EmptyString
  | S w' => String (digit_char (v / 10 ^ Z.of_nat w'))
                   (zpad w' (v mod 10 ^ Z.of_nat w'))
  end.

(** Reads exactly [w] decimal digits. *)
Fixpoint read_digits (w : nat) (acc : Z) (s : string) : option (Z * string) :=
  match w with
  | O => Some (acc, s)
  | S w' =>
      match s with
      | String c s' =>
          match digit_val c with
          | Some v => read_digits w' (acc * 10 + v) s'
          | None => None
          end
      | EmptyString => None
      end
  end.

Definition expect (c : ascii) (s : string) : option string :=
  match s with
  | String c' s' => if decide (c = c') then Some s' else None
  | EmptyString => None
  end.

(** The [+HH:MM[:SS]] rendering of a UTC offset given in seconds. *)
Definition offset_suffix (secs : Z) : string :=
  let a := Z.abs secs in
  String (if secs <? 0 then "-"%char else "+"%char)
    (zpad 2 (a / 3600) +:+ ":" +:+ zpad 2 (a / 60 mod 60) +:+
     (if a mod 60 =? 0 then "" else ":" +:+ zpad 2 (a mod 60))).

Section Zone.

(** [USER_TZ.utcoffset(d)] in seconds: the tz database of the host. *)
Variable USER_TZ_utcoffset : datetime -> Z.

Definition utcoffset (z : tzinfo) (d : datetime) : Z :=
  match z with
  | UTC => 0
  | USER_TZ => USER_TZ_utcoffset d
  | tzoffset s => s
  end.

(** [d.isoformat()] *)
Definition isoformat (d : datetime) : string :=
  zpad 4 (year d) +:+ "-" +:+ zpad 2 (month d) +:+ "-" +:+ zpad 2 (day d)
  +:+ "T" +:+ zpad 2 (hour d) +:+ ":" +:+ zpad 2 (minute d) +:+ ":"
  +:+ zpad 2 (second d)
  +:+ (if microsecond d =? 0 then "" else "." +:+ zpad 6 (microsecond d))
  +:+ match tzinfo_of d with
      | None => ""
      | Some z => offset_suffix (utcoffset z d)
      end.

(** [a._cmp(b)]: same [tzinfo] (or equal offsets) compares the fields;
    otherwise the instants; mixing naive and aware is a [TypeError]. *)
Definition datetime_cmp (a b : datetime) : option comparison :=
  match tzinfo_of a, tzinfo_of b with
  | None, None => Some (cmp_fields a b)
  | Some za, Some zb =>
      if decide (za = zb) then Some (cmp_fields a b)
      else
        let oa := utcoffset za a in
        let ob := utcoffset zb b in
        if oa =? ob then Some (cmp_fields a b)
        else Some (wall_us a - oa * 1000000 ?= wall_us b - ob * 1000000)
  | _, _ => None
  end.

(** [a <= b] and [a > b] *)
Definition datetime_le (a b : datetime) : option bool :=
  c ← datetime_cmp a b;
  Some (match c with Gt => false | _ => true end).

Definition datetime_gt (a b : datetime) : option bool :=
  c ← datetime_cmp a b;
  Some (match c with Gt => true | _ => false end).

(** [d.astimezone(tz.UTC)]: [d] itself when it already carries [tz.UTC],
    else [(d - d.utcoffset()).replace(tzinfo=UTC)]; a naive [d] is read in
    the system zone.  [None] is the [OverflowError] of the subtraction. *)
Definition astimezone_UTC (d : datetime) : option datetime :=
  match tzinfo_of d with
  | Some UTC => Some d
  | other =>
      let z := default USER_TZ other in
      r ← timedelta_add d (- (utcoffset z d * 1000000));
      Some (replace_tzinfo r (Some UTC))
  end.

End Zone.

(** The fraction and zone at the end of a UTC instant's text. *)
Definition utc_tail (us : Z) : string :=
  if us =? 0 then "+00:00"
  else String "." (zpad 6 us +:+ "+00:00").

(** The zone designator at the end of an ISO string: nothing, or
    [+HH:MM] / [-HH:MM], optionally followed by [:SS]. *)
Definition read_zone (s : string) : option (option tzinfo) :=
  match s with
  | EmptyString => Some None
  | String c s1 =>
      sign ← (if decide (c = "+"%char) then Some 1
              else if decide (c = "-"%char) then Some (-1) else None);
      '(hh, s2) ← read_digits 2 0 s1;
      s3 ← expect ":" s2;
      '(mm, s4) ← read_digits 2 0 s3;
      '(ss, s6) ← match s4 with
                  | EmptyString => Some (0, s4)
                  | _ => s5 ← expect ":" s4; read_digits 2 0 s5
                  end;
      match s6 with
      | EmptyString =>
          let off := sign * (hh * 3600 + mm * 60 + ss) in
          Some (Some (if off =? 0 then UTC else tzoffset off))
      | _ => None
      end
  end.

(** The optional [.ffffff] after the seconds. *)
Definition read_fraction (s : string) : option (Z * string) :=
  match s with
  | String "." s' => read_digits 6 0 s'
  | _ => Some (0, s)
  end.

(** [datetime.fromisoformat(s)] on the shape [isoformat] writes:
    [YYYY-MM-DDTHH:MM:SS[.ffffff][+HH:MM]]; [None] is the [ValueError]. *)
Definition fromisoformat (s : string) : option datetime :=
  '(y, s) ← read_digits 4 0 s;
  s ← expect "-" s;
  '(mo, s) ← read_digits 2 0 s;
  s ← expect "-" s;
  '(d, s) ← read_digits 2 0 s;
  s ← expect "T" s;
  '(h, s) ← read_digits 2 0 s;
  s ← expect ":" s;
  '(mi, s) ← read_digits 2 0 s;
  s ← expect ":" s;
  '(se, s) ← read_digits 2 0 s;
  '(us, s) ← read_fraction s;
  z ← read_zone s;
  let r := mkdt y mo d h mi se us z in
  if valid_fields r then Some r else None.

End Datetime.

Import Datetime.

(* ===================================================================== *)
(** * Process state and effects                                           *)
(* ===================================================================== *)

(** One row of table [reminders]. *)
Record row : Type := mkrow {
  row_id : Z;
  row_text : string;
  row_when_utc : string;
  row_created_utc : string
}.

#[global] Instance row_eq_dec : EqDecision row.
Proof. solve_decision. Defined.

(** The table together with its [sqlite_sequence] entry, the counter
    [AUTOINCREMENT] keeps of the largest rowid ever handed out. *)
Record database : Type := mkdb {
  rows : list row;
  sqlite_sequence : Z
}.

(** A scheduler job: [func] is always [self._alert], so a job is its
    trigger date and its [args]. *)
Record job : Type := mkjob {
  run_date : datetime;
  job_args : Z * string
}.

(** What the program writes where it outlives the call: the database file
    at a COMMIT, with the table the file then holds, and a job handed to
    the scheduler. *)
Inductive event : Type :=
| Committed (db : database)
| Armed (jid : string) (j : job).

Record world : Type := mkworld {
  conn : database;        (** what [self.conn] sees: committed and pending *)
  disk : database;        (** [reminders.db]: the last committed state *)
  jobs : gmap string job; (** job store of [self.scheduler], by job id *)
  spoken : list string;   (** the texts handed to [tts.say], in order *)
  faults : list bool;     (** outcome of the coming SQLite calls:
                              [true] makes the call raise *)
  journal : list event    (** the commits and the jobs armed so far, in
                              the order they took place; the program
                              never reads it *)
}.

Inductive exn : Type :=
| sqlite3_Error
| JobLookupError
| ValueError
| OverflowError
| TypeError.

Inductive outcome (A : Type) : Type :=
| Returns (a : A)
| Raises (e : exn).
Arguments Returns {A} a.
Arguments Raises {A} e.

(** Computations that read and update the process state and may raise. *)
Definition M (A : Type) : Type := world -> outcome A * world.

Definition ret {A} (a : A) : M A := fun w => (Returns a, w).

Definition raise {A} (e : exn) : M A := fun w => (Raises e, w).

Definition bind {A B} (m : M A) (k : A -> M B) : M B :=
  fun w =>
    match m w with
    | (Returns a, w') => k a w'
    | (Raises e, w') => (Raises e, w')
    end.

(** [try: m  except Exception: h] *)
Definition try_except {A} (m : M A) (h : exn -> M A) : M A :=
  fun w =>
    match m w with
    | (Returns a, w') => (Returns a, w')
    | (Raises e, w') => h e w'
    end.

Declare Scope py_scope.
Delimit Scope py_scope with py.
Notation "x <- m ;; k" := (bind m (fun x => k))
  (at level 100, m at next level, k at level 200, right associativity)
  : py_scope.
Notation "m ;; k" := (bind m (fun _ => k))
  (at level 100, k at level 200, right associativity) : py_scope.
Local Open Scope py_scope.

(** A pure step that may raise [e]. *)
Definition lift_or {A} (e : exn) (o : option A) : M A :=
  match o with
  | Some a => ret a
  | None => raise e
  end.

(** [for x in l: body(x)] *)
Fixpoint for_each {A} (l : list A) (body : A -> M unit) : M unit :=
  match l with
  | [] => ret tt
  | x :: l' => body x ;; for_each l' body
  end.

(** [[f(x) for x in l]], left to right. *)
Fixpoint map_each {A B} (l : list A) (f : A -> M B) : M (list B) :=
  match l with
  | [] => ret []
  | x :: l' => y <- f x ;; ys <- map_each l' f ;; ret (y :: ys)
  end.

(** ** SQLite connection *)

Module Sqlite.

(** Every call into SQLite first learns whether it fails (I/O error,
    locked file, full disk): the next entry of [faults]. *)
Definition step : M unit :=
  fun w =>
    match faults w with
    | true :: fs =>
        (Raises sqlite3_Error,
         mkworld (conn w) (disk w) (jobs w) (spoken w) fs (journal w))
    | false :: fs =>
        (Returns tt,
         mkworld (conn w) (disk w) (jobs w) (spoken w) fs (journal w))
    | [] => (Returns tt, w)
    end.

Definition set_conn (db : database) : M unit :=
  fun w => (Returns tt,
            mkworld db (disk w) (jobs w) (spoken w) (faults w) (journal w)).

Definition get_conn : M database := fun w => (Returns (conn w), w).

Definition max_rowid (l : list row) : Z :=
  foldr (fun r acc => Z.max (row_id r) acc) 0 l.

(** [INSERT INTO reminders (text, when_utc, created_utc) VALUES (?, ?, ?)]
    with [id INTEGER PRIMARY KEY AUTOINCREMENT]: the new rowid is one more
    than the largest rowid the table ever held.  Returns [cur.lastrowid].
    (The 2^63-1 ceiling of rowids is not modelled.) *)
Definition next_rowid (db : database) : Z :=
  Z.max (max_rowid (rows db)) (sqlite_sequence db) + 1.

Definition execute_insert (text when_utc created_utc : string) : M Z :=
  step ;;
  db <- get_conn ;;
  let rid := next_rowid db in
  set_conn (mkdb (rows db ++ [mkrow rid text when_utc created_utc]) rid) ;;
  ret rid.

(** [SELECT id, text, when_utc, created_utc FROM reminders] *)
Definition execute_select : M (list row) :=
  step ;;
  db <- get_conn ;;
  ret (rows db).

(** Order of two TEXT values under the BINARY collation (memcmp). *)
Definition text_le (a b : string) : Prop := String.leb a b = true.

#[global] Instance text_le_dec a b : Decision (text_le a b).
Proof. unfold text_le. apply _. Defined.

Definition when_le (r1 r2 : row) : Prop :=
  text_le (row_when_utc r1) (row_when_utc r2).

#[global] Instance when_le_dec r1 r2 : Decision (when_le r1 r2).
Proof. unfold when_le. apply _. Defined.

(** [SELECT ... FROM reminders ORDER BY when_utc ASC] *)
Definition execute_select_ordered : M (list row) :=
  step ;;
  db <- get_conn ;;
  ret (merge_sort when_le (rows db)).

(** Binding a Python [int] to a parameter: SQLite holds signed 64-bit
    integers, and [execute] raises [OverflowError] for an [int] outside
    that range when it binds the parameters, before the statement runs. *)
Definition bind_int (n : Z) : M unit :=
  if (- 2 ^ 63 <=? n) && (n <? 2 ^ 63) then ret tt else raise OverflowError.

(** [DELETE FROM reminders WHERE id = ?] with parameters [(rid,)]; returns
    [cur.rowcount]. *)
Definition execute_delete (rid : Z) : M Z :=
  bind_int rid ;;
  step ;;
  db <- get_conn ;;
  let kept := filter (fun r => row_id r ≠ rid) (rows db) in
  set_conn (mkdb kept (sqlite_sequence db)) ;;
  ret (Z.of_nat (length (rows db)) - Z.of_nat (length kept)).

(** [self.conn.commit()] *)
Definition commit : M unit :=
  step ;;
  fun w => (Returns tt,
            mkworld (conn w) (conn w) (jobs w) (spoken w) (faults w)
                    (journal w ++ [Committed (conn w)])).

(** [sqlite3.connect(DB_PATH)]: a new connection sees the file. *)
Definition connect : M unit :=
  fun w => (Returns tt,
            mkworld (disk w) (disk w) (jobs w) (spoken w) (faults w)
                    (journal w)).

(** [CREATE TABLE IF NOT EXISTS reminders (...)]: leaves an existing table
    alone; a missing table and an empty one are not told apart here. *)
Definition execute_create_table : M unit := step.

End Sqlite.

(** ** APScheduler job store *)

Module Scheduler.

Definition set_jobs (js : gmap string job) : M unit :=
  fun w => (Returns tt,
            mkworld (conn w) (disk w) js (spoken w) (faults w) (journal w)).

Definition get_jobs : M (gmap string job) := fun w => (Returns (jobs w), w).

(** [BackgroundScheduler(timezone="UTC")] followed by [start()]: an empty
    in-memory job store. *)
Definition start_new : M unit := set_jobs ∅.

(** [add_job(self._alert, trigger=DateTrigger(run_date), args=..., id=jid,
    replace_existing=True)] *)
Definition add_job (jid : string) (j : job) : M unit :=
  js <- get_jobs ;;
  set_jobs (<[jid := j]> js) ;;
  fun w => (Returns tt,
            mkworld (conn w) (disk w) (jobs w) (spoken w) (faults w)
                    (journal w ++ [Armed jid j])).

(** [remove_job(jid)]: [JobLookupError] when there is no such job. *)
Definition remove_job (jid : string) : M unit :=
  js <- get_jobs ;;
  match js !! jid with
  | Some _ => set_jobs (delete jid js)
  | None => raise JobLookupError
  end.

End Scheduler.

(** [tts.say(text)]: the Notifier.  What the TTS engine does with the text
    (stripping, printing, speaking) is outside the reminder subsystem; the
    call is recorded with its argument. *)
Definition tts_say (text : string) : M unit :=
  fun w => (Returns tt,
            mkworld (conn w) (disk w) (jobs w) (spoken w ++ [text]) (faults w)
                    (journal w)).

(* ===================================================================== *)
(** * Reminder and ReminderManager                                        *)
(* ===================================================================== *)

Record Reminder : Type := mkReminder {
  id : Z;
  text : string;
  when_utc : datetime;
  created_utc : datetime
}.

#[global] Instance Reminder_eq_dec : EqDecision Reminder.
Proof. solve_decision. Defined.

(** [str(n)] *)
Definition str_int (n : Z) : string := NilEmpty.string_of_int (Z.to_int n).

(** [f"reminder_{rid}"] *)
Definition job_id (rid : Z) : string := "reminder_" +:+ str_int rid.

Module ReminderManager.

Section Methods.

(** The tz database: [USER_TZ.utcoffset(d)] in seconds. *)
Variable USER_TZ_utcoffset : datetime -> Z.

Definition _alert (reminder_id : Z) (text : string) : M unit :=
  tts_say ("Reminder: " +:+ text).

Definition _schedule_job (r : Reminder) : M unit :=
  Scheduler.add_job (job_id (id r)) (mkjob (when_utc r) (id r, text r)).

(** [datetime.fromisoformat(s).replace(tzinfo=tz.UTC)] *)
Definition fromiso_utc (s : string) : M datetime :=
  d <- lift_or ValueError (fromisoformat s) ;;
  ret (replace_tzinfo d (Some UTC)).

(** [utcnow] is the reading [datetime.utcnow()] takes. *)
Definition _reschedule_existing (utcnow : datetime) : M unit :=
  cur <- Sqlite.execute_select ;;
  let now_utc := replace_tzinfo utcnow (Some UTC) in
  for_each cur (fun r =>
    when_utc <- fromiso_utc (row_when_utc r) ;;
    later <- lift_or TypeError (datetime_gt USER_TZ_utcoffset when_utc now_utc) ;;
    if later : bool then
      created <- fromiso_utc (row_created_utc r) ;;
      _schedule_job (mkReminder (row_id r) (row_text r) when_utc created)
    else ret tt).

Definition __init__ (utcnow : datetime) : M unit :=
  Sqlite.connect ;;
  Sqlite.execute_create_table ;;
  Sqlite.commit ;;
  Scheduler.start_new ;;
  _reschedule_existing utcnow.

Definition add_reminder (text : string) (when_local : datetime)
    (utcnow : datetime) : M Reminder :=
  let when_local :=
    if tzinfo_of when_local is None
    then replace_tzinfo when_local (Some USER_TZ) else when_local in
  when_utc <- lift_or OverflowError
                (astimezone_UTC USER_TZ_utcoffset when_local) ;;
  let created_utc := replace_tzinfo utcnow (Some UTC) in
  rid <- Sqlite.execute_insert text
           (isoformat USER_TZ_utcoffset when_utc)
           (isoformat USER_TZ_utcoffset created_utc) ;;
  Sqlite.commit ;;
  let r := mkReminder rid text when_utc created_utc in
  _schedule_job r ;;
  ret r.

Definition list_reminders : M (list Reminder) :=
  cur <- Sqlite.execute_select_ordered ;;
  map_each cur (fun r =>
    w <- fromiso_utc (row_when_utc r) ;;
    c <- fromiso_utc (row_created_utc r) ;;
    ret (mkReminder (row_id r) (row_text r) w c)).

Definition delete_reminder (rid : Z) : M bool :=
  rowcount <- Sqlite.execute_delete rid ;;
  Sqlite.commit ;;
  try_except (Scheduler.remove_job (job_id rid)) (fun _ => ret tt) ;;
  ret (0 <? rowcount).

End Methods.

End ReminderManager.

(* ===================================================================== *)
(** * Time resolver and the reminder branch of the command layer          *)
(* ===================================================================== *)

Section Assistant.

Variable USER_TZ_utcoffset : datetime -> Z.

(** [dateutil.parser.parse(text, default=now)]; [None] when it raises. *)
Variable dtparser_parse : string -> datetime -> option datetime.

(** [timedelta(days=1)], in microseconds. *)
Definition one_day : Z := US_PER_DAY.

(** [clock] is the wall-clock reading [datetime.now(tz=USER_TZ)] takes.
    The whole body sits in [try ... except Exception: return None], so any
    step that raises gives [None]. *)
Definition parse_time_local (text_time : string) (clock : datetime)
    : option datetime :=
  let now := replace_tzinfo clock (Some USER_TZ) in
  dt ← dtparser_parse text_time now;
  let dt :=
    if tzinfo_of dt is None then replace_tzinfo dt (Some USER_TZ) else dt in
  passed ← datetime_le USER_TZ_utcoffset dt now;
  if passed : bool then timedelta_add dt one_day else Some dt.

(** [when.strftime('%I:%M %p')] *)
Definition strftime_I_M_p (d : datetime) : string :=
  let h12 := if hour d mod 12 =? 0 then 12 else hour d mod 12 in
  zpad 2 h12 +:+ ":" +:+ zpad 2 (minute d) +:+ " "
  +:+ (if hour d <? 12 then "AM" else "PM").

(** The branch of [Assistant.handle] entered once [REMIND_AT_RE] or
    [REMIND_SIMPLE_RE] has matched: [task] and [time_text] are the two
    groups, already stripped.  [clock] and [utcnow] are the readings of
    [datetime.now(tz=USER_TZ)] and [datetime.utcnow()]. *)
Definition handle_reminder_at (task time_text : string)
    (clock utcnow : datetime) : M bool :=
  match parse_time_local time_text clock with
  | Some when =>
      r <- ReminderManager.add_reminder USER_TZ_utcoffset task when utcnow ;;
      tts_say ("Reminder set for " +:+ strftime_I_M_p when +:+ " to "
               +:+ task +:+ ".") ;;
      ret true
  | None =>
      tts_say "Sorry, I couldn't understand the time." ;;
      ret true
  end.

End Assistant.

(** ** A parser instance

    Three of the shapes dateutil reads, used to run the resolver on
    concrete text: ["HH:MM"] replaces hour and minute of [default] and
    leaves every other field, the [tzinfo] included, as [default] has it
    (dateutil only replaces the fields the text spells); ["HH:MM UTC"]
    does the same and attaches [tz.UTC]; ["YYYY-MM-DD HH:MM"] replaces the
    date as well.  Any other text is refused. *)
Definition clock_parse (text : string) (default : datetime)
    : option datetime :=
  let hh_mm (s : string) (y m d : Z) : option datetime :=
    '(h, s) ← read_digits 2 0 s;
    s ← expect ":" s;
    '(mi, s) ← read_digits 2 0 s;
    z ← (if decide (s = "") then Some (tzinfo_of default)
         else if decide (s = " UTC") then Some (Some UTC) else None);
    let r := mkdt y m d h mi (second default) (microsecond default) z in
    if valid_fields r then Some r else None in
  match hh_mm text (year default) (month default) (day default) with
  | Some r => Some r
  | None =>
      '(y, s) ← read_digits 4 0 text;
      s ← expect "-" s;
      '(m, s) ← read_digits 2 0 s;
      s ← expect "-" s;
      '(d, s) ← read_digits 2 0 s;
      s ← expect " " s;
      hh_mm s y m d
  end.

(** One more shape dateutil reads: a lone number from 1 to 31 is taken
    as the day of the month, and every other field, the time of day
    included, is the one of [default].  Any other text goes to
    [clock_parse].  (A larger number, which dateutil reads as a year, is
    not among the shapes of this instance.) *)
Definition day_parse (text : string) (default : datetime)
    : option datetime :=
  let day_of (n : Z) : option datetime :=
    let r := mkdt (year default) (month default) n (hour default)
                  (minute default) (second default) (microsecond default)
                  (tzinfo_of default) in
    if valid_fields r then Some r else None in
  match read_digits 2 0 text, read_digits 1 0 text with
  | Some (n, EmptyString), _ => day_of n
  | _, Some (n, EmptyString) => day_of n
  | _, _ => clock_parse text default
  end.

(** ** The scheduler thread *)

(** What the scheduler does with job [jid] when it comes due: a date
    trigger fires once, so the job leaves the store and its function runs
    on its args; an exception of the job is logged, not propagated.
    Nothing happens for an id that is not in the store. *)
Definition scheduler_fire (jid : string) : M unit :=
  js <- Scheduler.get_jobs ;;
  match js !! jid with
  | Some j =>
      Scheduler.set_jobs (delete jid js) ;;
      try_except
        (ReminderManager._alert (fst (job_args j)) (snd (job_args j)))
        (fun _ => ret tt)
  | None => ret tt
  end.

(* ===================================================================== *)
(** * Vocabulary of the statements                                        *)
(* ===================================================================== *)

(** [when_local] as [add_reminder] reads it: naive means [USER_TZ]. *)
Definition localized (when_local : datetime) : datetime :=
  if tzinfo_of when_local is None
  then replace_tzinfo when_local (Some USER_TZ) else when_local.

(** A TEXT value that is the ISO form of a UTC instant: what
    [add_reminder] writes into [when_utc] and [created_utc]. *)
Definition is_utc_text (s : string) : bool :=
  match fromisoformat s with
  | Some d =>
      valid_fields d
      && bool_decide (tzinfo_of d = Some UTC)
      && bool_decide (isoformat (fun _ => 0) d = s)
  | None => false
  end.

Definition wf_row (r : row) : Prop :=
  is_utc_text (row_when_utc r) = true /\
  is_utc_text (row_created_utc r) = true.

(** A table as the program leaves it: ISO UTC text in both time columns,
    distinct rowids, none above the AUTOINCREMENT counter. *)
Definition wf_db (db : database) : Prop :=
  Forall wf_row (rows db) /\
  NoDup (row_id <$> rows db) /\
  Forall (fun r => row_id r <= sqlite_sequence db) (rows db).

Definition wf (w : world) : Prop :=
  wf_db (conn w) /\ wf_db (disk w) /\
  sqlite_sequence (disk w) <= sqlite_sequence (conn w).

(** No SQLite call is going to fail. *)
Definition quiet (w : world) : Prop := faults w = [].

(** The instant a TEXT column holds, as the program reads it back. *)
Definition instant_of (s : string) : option datetime :=
  d ← fromisoformat s; Some (replace_tzinfo d (Some UTC)).

(** The [Reminder] the program builds from a row. *)
Definition reminder_of_row (r : row) : option Reminder :=
  w ← instant_of (row_when_utc r);
  c ← instant_of (row_created_utc r);
  Some (mkReminder (row_id r) (row_text r) w c).

(** Python's [a <= b] holds. *)
Definition dt_le (off : datetime -> Z) (a b : datetime) : Prop :=
  datetime_le off a b = Some true.

(** The outcome of a pure step that raises [e] when it has no result. *)
Definition lifted {A} (e : exn) (o : option A) : outcome A :=
  match o with
  | Some a => Returns a
  | None => Raises e
  end.

(** The reminder a row stands for, with a filler where the text of an
    instant cannot be read. *)
Definition reminder_or_filler (r : row) : Reminder :=
  default (mkReminder (row_id r) (row_text r)
             (mkdt 1 1 1 0 0 0 0 None) (mkdt 1 1 1 0 0 0 0 None))
          (reminder_of_row r).

(** [m] leaves the component [f] of the process state as it found it,
    whether it returns or raises. *)
Definition preserves {A X} (f : world -> X) (m : M A) : Prop :=
  forall w, f (snd (m w)) = f w.

(** The process state with other coming SQLite outcomes. *)
Definition with_faults (w : world) (fs : list bool) : world :=
  mkworld (conn w) (disk w) (jobs w) (spoken w) fs (journal w).

(** Whether recovery finds the instant of row [r] strictly after
    [now_utc]. *)
Definition due_later (off : datetime -> Z) (now_utc : datetime) (r : row)
    : bool :=
  match instant_of (row_when_utc r) with
  | Some d => default false (datetime_gt off d now_utc)
  | None => false
  end.

(** The job store after recovery has looked at row [r]. *)
Definition arm (off : datetime -> Z) (now_utc : datetime)
    (js : gmap string job) (r : row) : gmap string job :=
  if due_later off now_utc r then
    match reminder_of_row r with
    | Some R => <[job_id (id R) := mkjob (when_utc R) (id R, text R)]> js
    | None => js
    end
  else js.

(** What recovery writes when it looks at row [r]: the job it arms, if
    any. *)
Definition arm_event (off : datetime -> Z) (now_utc : datetime) (r : row)
    : list event :=
  if due_later off now_utc r then
    match reminder_of_row r with
    | Some R => [Armed (job_id (id R)) (mkjob (when_utc R) (id R, text R))]
    | None => []
    end
  else [].

(** The part of well-formedness that concerns ids only. *)
Definition ids_ok_db (db : database) : Prop :=
  NoDup (row_id <$> rows db) /\
  Forall (fun r => row_id r <= sqlite_sequence db) (rows db).

Definition ids_ok (w : world) : Prop :=
  ids_ok_db (conn w) /\ ids_ok_db (disk w) /\
  sqlite_sequence (disk w) <= sqlite_sequence (conn w).

(** ** Histories of calls *)

Inductive call : Type :=
| Add (text : string) (when_local utcnow : datetime)
| Delete (rid : Z)
| List
| Fire (jid : string)
| Restart (utcnow : datetime).

Inductive reply : Type :=
| Added (r : Reminder)
| Deleted (b : bool)
| Listed (l : list Reminder)
| Done
| Raised (e : exn).

Definition reply_of {A} (f : A -> reply) (o : outcome A) : reply :=
  match o with
  | Returns a => f a
  | Raises e => Raised e
  end.

Section History.

Variable off : datetime -> Z.

Definition exec (c : call) (w : world) : reply * world :=
  match c with
  | Add text when_local utcnow =>
      let '(o, w') := ReminderManager.add_reminder off text when_local utcnow w
      in (reply_of Added o, w')
  | Delete rid =>
      let '(o, w') := ReminderManager.delete_reminder rid w
      in (reply_of Deleted o, w')
  | List =>
      let '(o, w') := ReminderManager.list_reminders w
      in (reply_of Listed o, w')
  | Fire jid =>
      let '(o, w') := scheduler_fire jid w in (reply_of (fun _ => Done) o, w')
  | Restart utcnow =>
      let '(o, w') := ReminderManager.__init__ off utcnow w
      in (reply_of (fun _ => Done) o, w')
  end.

Fixpoint run_calls (cs : list call) (w : world) : list reply * world :=
  match cs with
  | [] => ([], w)
  | c :: cs' =>
      let '(r, w1) := exec c w in
      let '(rs, w2) := run_calls cs' w1 in
      (r :: rs, w2)
  end.

End History.

(** The datetimes a call passes are ones Python can construct. *)
Definition call_valid (c : call) : Prop :=
  match c with
  | Add _ when_local utcnow => Valid when_local /\ Valid utcnow
  | _ => True
  end.

(** The ids the store handed out along a history. *)
Definition added_ids (rs : list reply) : list Z :=
  omap (fun r => match r with Added x => Some (id x) | _ => None end) rs.

Definition is_restart (c : call) : bool :=
  match c with Restart _ => true | _ => false end.

(* ===================================================================== *)
(** * Sample data                                                         *)
(* ===================================================================== *)

Module Sample.

(** India Standard Time: +05:30 all year. *)
Definition ist (_ : datetime) : Z := 19800.

(** Hawaii Standard Time: -10:00 all year. *)
Definition hst (_ : datetime) : Z := -36000.

(** US Eastern time around 9 March 2025, the night the clocks go from
    02:00 to 03:00: -05:00 for a wall clock before 02:00 of that day,
    -04:00 from then on. *)
Definition eastern (d : datetime) : Z :=
  if wall_us d <? wall_us (mkdt 2025 3 9 2 0 0 0 None) then -18000
  else -14400.

(** 22:00 on 9 March 2025 on the local wall clock, and what
    [datetime.utcnow()] reads at that instant. *)
Definition clock : datetime := mkdt 2025 3 9 22 0 0 0 None.
Definition utcnow : datetime := mkdt 2025 3 9 16 30 0 0 None.

(** Local times later that evening and the next morning. *)
Definition tonight : datetime := mkdt 2025 3 9 23 15 0 0 None.
Definition tomorrow : datetime := mkdt 2025 3 10 8 0 0 0 (Some USER_TZ).

(** A first start: empty file, nothing armed, storage working. *)
Definition fresh : world := mkworld (mkdb [] 0) (mkdb [] 0) ∅ [] [] [].

(** A database file with one reminder that was due the day before and one
    due the day after [utcnow]. *)
Definition file_rows : list row :=
  [ mkrow 1 "call mom" "2025-03-08T10:00:00+00:00"
      "2025-03-07T09:00:00+00:00";
    mkrow 2 "stretch" "2025-03-10T10:00:00.500000+00:00"
      "2025-03-07T09:05:00+00:00" ].

Definition at_startup : world :=
  mkworld (mkdb [] 0) (mkdb file_rows 2) ∅ [] [] [].

(** A table whose rows are not in chronological order. *)
Definition unordered_rows : list row :=
  [ mkrow 1 "c" "2025-03-12T08:00:00+00:00" "2025-03-07T09:00:00+00:00";
    mkrow 2 "a" "2025-03-10T10:00:00+00:00" "2025-03-07T09:01:00+00:00";
    mkrow 4 "b" "2025-03-10T10:00:00.250000+00:00"
      "2025-03-07T09:02:00+00:00" ].

Definition unordered : world :=
  mkworld (mkdb unordered_rows 5) (mkdb unordered_rows 5) ∅ [] [] [].

(** A history with a failing INSERT (the third SQLite call), a deletion
    and a restart. *)
Definition history : list call :=
  [ Add "a" tonight utcnow; Add "b" tomorrow utcnow; Delete 1;
    Add "c" tonight utcnow; Restart utcnow; Add "d" tomorrow utcnow; List ].

Definition flaky : world :=
  mkworld (mkdb [] 0) (mkdb [] 0) ∅ [] [false; false; true] [].

End Sample.

(* ===================================================================== *)
(** * Text: the [str] methods of the command layer                        *)
(* ===================================================================== *)

(** A [string] holds the UTF-8 text of a Python [str].  [strip] follows
    Python on every such text.  [lower] and the patterns of module [Re]
    treat the letters A..Z and a..z only: on text with other letters
    Python consults the Unicode case tables, so statements about them are
    made for ASCII text. *)
Module Text.

Definition chars (s : string) : list ascii := String.list_ascii_of_string s.

Definition text_of (l : list ascii) : string := String.string_of_list_ascii l.

Definition code (c : ascii) : Z := Z.of_N (N_of_ascii c).

(** [s.isascii()] *)
Definition is_ascii (s : string) : bool :=
  forallb (fun c => code c <? 128) (chars s).

(** [c.lower()] for a letter A..Z *)
Definition lower_char (c : ascii) : ascii :=
  if (65 <=? code c) && (code c <=? 90)
  then ascii_of_N (N_of_ascii c + 32) else c.

(** [s.lower()] *)
Definition lower (s : string) : string := text_of (lower_char <$> chars s).

(** The characters [str.isspace] accepts, by their UTF-8 bytes: U+0009 to
    U+000D, U+001C to U+0020; U+0085, U+00A0; U+1680, U+2000 to U+200A,
    U+2028, U+2029, U+202F, U+205F, U+3000. *)
Definition space1 (a : Z) : bool :=
  ((9 <=? a) && (a <=? 13)) || ((28 <=? a) && (a <=? 32)).

Definition space2 (a b : Z) : bool :=
  (a =? 194) && ((b =? 133) || (b =? 160)).

Definition space3 (a b c : Z) : bool :=
  ((a =? 225) && (b =? 154) && (c =? 128))
  || ((a =? 226) && (b =? 128)
      && (((128 <=? c) && (c <=? 138)) || (c =? 168) || (c =? 169)
          || (c =? 175)))
  || ((a =? 226) && (b =? 129) && (c =? 159))
  || ((a =? 227) && (b =? 128) && (c =? 128)).

(** Drops the whitespace characters at the front; [s2] and [s3] recognise
    the two- and three-byte ones. *)
Fixpoint skip_spaces (s2 : Z -> Z -> bool) (s3 : Z -> Z -> Z -> bool)
    (l : list ascii) : list ascii :=
  match l with
  | [] => []
  | a :: l1 =>
      if space1 (code a) then skip_spaces s2 s3 l1
      else
        match l1 with
        | [] => l
        | b :: l2 =>
            if s2 (code a) (code b) then skip_spaces s2 s3 l2
            else
              match l2 with
              | [] => l
              | c :: l3 =>
                  if s3 (code a) (code b) (code c)
                  then skip_spaces s2 s3 l3 else l
              end
        end
  end.

Definition lstrip (l : list ascii) : list ascii :=
  skip_spaces space2 space3 l.

(** The same scan from the end: the bytes of a character come in reverse
    order. *)
Definition rstrip (l : list ascii) : list ascii :=
  rev (skip_spaces (fun a b => space2 b a) (fun a b c => space3 c b a)
         (rev l)).

(** [s.strip()] *)
Definition strip (s : string) : string :=
  text_of (rstrip (lstrip (chars s))).

(** Reads [p] off the front of [s], letter for letter. *)
Fixpoint skip_exact (p s : list ascii) : option (list ascii) :=
  match p with
  | [] => Some s
  | a :: p' =>
      match s with
      | c :: s' => if Ascii.eqb c a then skip_exact p' s' else None
      | [] => None
      end
  end.

(** [s.startswith(p)] *)
Definition startswith (p s : string) : bool :=
  bool_decide (is_Some (skip_exact (chars p) (chars s))).

(** [s.rsplit(sep, 1)] when [sep] occurs in [s]: the text before and the
    text after the last occurrence; [None] when [sep] does not occur. *)
Fixpoint rsplit1 (sep s : list ascii) : option (list ascii * list ascii) :=
  match s with
  | [] => None
  | c :: s' =>
      match rsplit1 sep s' with
      | Some (a, b) => Some (c :: a, b)
      | None =>
          match skip_exact sep s with
          | Some rest => Some ([], rest)
          | None => None
          end
      end
  end.

(** The limit CPython puts on [int(str)]: [sys.get_int_max_str_digits()]. *)
Definition MAX_STR_DIGITS : Z := 4300.

Fixpoint digits_value (acc : Z) (l : list ascii) : option Z :=
  match l with
  | [] => Some acc
  | c :: l' =>
      match digit_val c with
      | Some v => digits_value (acc * 10 + v) l'
      | None => None
      end
  end.

(** [int(s)] for [s] a run of decimal digits, which is what the groups
    [\d+] of the patterns hold; [None] is the [ValueError] (of a run that
    is longer than the limit; an empty run or another character does not
    occur in a [\d+] group). *)
Definition py_int (s : string) : option Z :=
  match chars s with
  | [] => None
  | l => if Z.of_nat (length l) <=? MAX_STR_DIGITS
         then digits_value 0 l else None
  end.

(** [l[:n]], with Python's reading of a negative [n]. *)
Definition slice_to {A} (n : Z) (l : list A) : list A :=
  if n <? 0 then take (Z.to_nat (Z.of_nat (length l) + n)) l
  else take (Z.to_nat n) l.

End Text.

Import Text.

(* ===================================================================== *)
(** * Regular expressions, as module [re] runs them                       *)
(* ===================================================================== *)

(** The part of the pattern language the assistant uses, all compiled with
    [re.IGNORECASE]: literal text, the classes [.], [\d], [\s], [\w],
    [[...]] and [[^...]], sequence, alternation, [?], repetition of a class
    ([+], [+?], [*]), named groups, [^] and [$].  Groups without a name
    capture nothing the program reads and are plain sub-patterns here.
    The matcher backtracks as [re] does: alternatives left to right, a
    greedy repetition from the longest run down, a lazy one from the
    shortest up. *)
Module Re.

Inductive charclass : Type :=
| Dot                      (** [.]: anything but a line feed *)
| Digit                    (** [\d] *)
| Space                    (** [\s] *)
| Word                     (** [\w] *)
| OneOf (l : list ascii)   (** [[...]] *)
| NoneOf (l : list ascii). (** [[^...]] *)

Definition char_in (c : ascii) (l : list ascii) : bool :=
  existsb (fun x => Ascii.eqb (lower_char c) (lower_char x)) l.

Definition class_test (cls : charclass) (c : ascii) : bool :=
  let n := code c in
  match cls with
  | Dot => negb (n =? 10)
  | Digit => (48 <=? n) && (n <=? 57)
  | Space => space1 n
  | Word => ((48 <=? n) && (n <=? 57)) || ((65 <=? n) && (n <=? 90))
            || ((97 <=? n) && (n <=? 122)) || (n =? 95)
  | OneOf l => char_in c l
  | NoneOf l => negb (char_in c l)
  end.

Inductive regex : Type :=
| Eps
| Lit (s : string)
| Chr (cls : charclass)
| Seq (r1 r2 : regex)
| Alt (r1 r2 : regex)
| Star (greedy : bool) (cls : charclass)
| Group (name : string) (r : regex)
| Bos
| Eos.

(** [r?] *)
Definition Opt (r : regex) : regex := Alt r Eps.

(** [c+] and [c+?] *)
Definition Plus (greedy : bool) (cls : charclass) : regex :=
  Seq (Chr cls) (Star greedy cls).

(** The pattern that is the parts in a row. *)
Definition seqs (l : list regex) : regex := foldr Seq Eps l.

(** Reads the literal [p] off the front of [s], ignoring case. *)
Fixpoint skip_lit (p s : list ascii) : option (list ascii) :=
  match p with
  | [] => Some s
  | a :: p' =>
      match s with
      | c :: s' =>
          if Ascii.eqb (lower_char c) (lower_char a)
          then skip_lit p' s' else None
      | [] => None
      end
  end.

(** The named groups of a match, last set first. *)
Definition groups : Type := list (string * list ascii).

Section Matcher.

(** Length of the subject, to tell the start of the string. *)
Variable total : nat.

Fixpoint star_loop {R} (greedy : bool) (cls : charclass) (s : list ascii)
    (k : list ascii -> option R) : option R :=
  match s with
  | c :: s' =>
      if class_test cls c then
        if greedy then
          match star_loop greedy cls s' k with
          | Some r => Some r
          | None => k s
          end
        else
          match k s with
          | Some r => Some r
          | None => star_loop greedy cls s' k
          end
      else k s
  | [] => k []
  end.

(** [mt r s g k]: match [r] at the front of [s] and hand what is left,
    with the groups, to [k]; when [k] refuses, try the next way of
    matching [r]. *)
Fixpoint mt (r : regex) (s : list ascii) (g : groups)
    (k : list ascii -> groups -> option groups) : option groups :=
  match r with
  | Eps => k s g
  | Lit p =>
      match skip_lit (chars p) s with
      | Some rest => k rest g
      | None => None
      end
  | Chr cls =>
      match s with
      | c :: s' => if class_test cls c then k s' g else None
      | [] => None
      end
  | Seq r1 r2 => mt r1 s g (fun s1 g1 => mt r2 s1 g1 k)
  | Alt r1 r2 =>
      match mt r1 s g k with
      | Some m => Some m
      | None => mt r2 s g k
      end
  | Star greedy cls => star_loop greedy cls s (fun s1 => k s1 g)
  | Group name r1 =>
      mt r1 s g (fun s1 g1 =>
        k s1 ((name, take (length s - length s1) s) :: g1))
  | Bos => if (length s =? total)%nat then k s g else None
  | Eos =>
      match s with
      | [] => k s g
      | [c] => if code c =? 10 then k s g else None
      | _ => None
      end
  end.

(** The first position, from the left, at which [r] matches. *)
Fixpoint search_from (r : regex) (s : list ascii) : option groups :=
  match mt r s [] (fun _ g => Some g) with
  | Some m => Some m
  | None =>
      match s with
      | [] => None
      | _ :: s' => search_from r s'
      end
  end.

End Matcher.

(** [r.search(text)] *)
Definition search (r : regex) (text : string) : option groups :=
  search_from (length (chars text)) r (chars text).

(** [r.match(text)] *)
Definition match_ (r : regex) (text : string) : option groups :=
  mt (length (chars text)) r (chars text) [] (fun _ g => Some g).

(** [m.group(name)]; [None] for a group that took no part in the match. *)
Definition group_opt (m : groups) (name : string) : option string :=
  (fun p => text_of (snd (snd p))) <$> list_find (fun p => fst p = name) m.

(** [m.group(name)] for a group every match sets. *)
Definition group (m : groups) (name : string) : string :=
  default "" (group_opt m name).

End Re.

Import Re.

(** ** The patterns of the intent parser *)

(** [remind me(?: to)? (?P<task>.+?) in (?P<num>\d+)\s*(?P<unit>minutes?|hours?)] *)
Definition REMIND_IN_RE : regex :=
  seqs [ Lit "remind me"; Opt (Lit " to"); Lit " ";
         Group "task" (Plus false Dot); Lit " in ";
         Group "num" (Plus true Digit); Star true Space;
         Group "unit" (Alt (Seq (Lit "minute") (Opt (Lit "s")))
                           (Seq (Lit "hour") (Opt (Lit "s")))) ].

(** [(set a )?reminder (for |at )(?P<time>[^ ]+(?:\s*[ap]m)?) (to )?(?P<task>.+)] *)
Definition REMIND_AT_RE : regex :=
  seqs [ Opt (Lit "set a "); Lit "reminder "; Alt (Lit "for ") (Lit "at ");
         Group "time"
           (Seq (Plus true (NoneOf [" "%char]))
                (Opt (seqs [Star true Space; Chr (OneOf ["a"%char; "p"%char]);
                            Lit "m"])));
         Lit " "; Opt (Lit "to "); Group "task" (Plus true Dot) ].

(** [remind me (?:to )?(?P<task>.+) at (?P<time>.+)] *)
Definition REMIND_SIMPLE_RE : regex :=
  seqs [ Lit "remind me "; Opt (Lit "to "); Group "task" (Plus true Dot);
         Lit " at "; Group "time" (Plus true Dot) ].

(** [(delete|remove|cancel) reminder (?P<id>\d+)] *)
Definition DELETE_REM_RE : regex :=
  seqs [ Alt (Lit "delete") (Alt (Lit "remove") (Lit "cancel"));
         Lit " reminder "; Group "id" (Plus true Digit) ].

(** [(weather|temperature) (in|at|for) (?P<city>.+)] *)
Definition WEATHER_RE : regex :=
  seqs [ Alt (Lit "weather") (Lit "temperature"); Lit " ";
         Alt (Lit "in") (Alt (Lit "at") (Lit "for")); Lit " ";
         Group "city" (Plus true Dot) ].

(** [(news|headlines)(?: about| on| for)? (?P<topic>\w+)?] *)
Definition NEWS_RE : regex :=
  seqs [ Alt (Lit "news") (Lit "headlines");
         Opt (Alt (Lit " about") (Alt (Lit " on") (Lit " for")));
         Lit " "; Opt (Group "topic" (Plus true Word)) ].

(** [^(time|what's the time|current time)$] *)
Definition TIME_RE : regex :=
  seqs [ Bos; Alt (Lit "time") (Alt (Lit "what's the time")
                                    (Lit "current time")); Eos ].

(** [^(date|what's the date|today's date)$] *)
Definition DATE_RE : regex :=
  seqs [ Bos; Alt (Lit "date") (Alt (Lit "what's the date")
                                    (Lit "today's date")); Eos ].

(** [(list|show) reminders] *)
Definition LIST_REMS_RE : regex :=
  seqs [ Alt (Lit "list") (Lit "show"); Lit " reminders" ].

(** [^help$] *)
Definition HELP_RE : regex := seqs [ Bos; Lit "help"; Eos ].

(** [^(quit|exit|bye)$] *)
Definition QUIT_RE : regex :=
  seqs [ Bos; Alt (Lit "quit") (Alt (Lit "exit") (Lit "bye")); Eos ].

(* ===================================================================== *)
(** * NewsClient                                                          *)
(* ===================================================================== *)

Definition GOOGLE_NEWS_RSS : string :=
  "https://news.google.com/rss?hl=en-IN&gl=IN&ceid=IN:en".

Definition GOOGLE_NEWS_TECH_RSS : string :=
  "https://news.google.com/rss/headlines/section/topic/TECHNOLOGY?hl=en-IN&gl=IN&ceid=IN:en".

Module NewsClient.

(** An entry of a parsed feed, as far as [headlines] looks at it: its
    [title] when it has one, and its [source] when it has one, with the
    [title] of that source when there is one. *)
Record entry : Type := mkentry {
  entry_title : option string;
  entry_source : option (option string)
}.

(** Python's truth value of [source]: neither [None] nor empty. *)
Definition truthy (o : option string) : bool :=
  match o with
  | Some s => negb (bool_decide (s = ""))
  | None => false
  end.

(** The body of the loop: the line for one entry. *)
Definition headline (e : entry) : string :=
  let title := strip (default "" (entry_title e)) in
  let source := entry_source e ≫= Datatypes.id in
  let '(title, source) :=
    if truthy source then (title, source)
    else
      match rsplit1 (chars " - ") (chars title) with
      | Some (t, s) => (text_of t, Some (text_of s))
      | None => (title, source)
      end in
  title +:+ (if truthy source then " — " +:+ default "" source else "").

Section Methods.

(** [feedparser.parse(url).entries]; [None] when the call raises. *)
Variable feedparser_parse : string -> option (list entry).

Definition headlines (topic : option string) (limit : Z) : list string :=
  let url :=
    if truthy topic
       && bool_decide (lower (default "" topic) ∈ ["tech"; "technology"; "it"])
    then GOOGLE_NEWS_TECH_RSS else GOOGLE_NEWS_RSS in
  match feedparser_parse url with
  | Some entries => headline <$> slice_to limit entries
  | None => []
  end.

End Methods.

End NewsClient.

(* ===================================================================== *)
(** * Assistant: the command layer                                        *)
(* ===================================================================== *)

(** [MONTHS_ABBR] and full names of the C locale, for [%b] and [%B]. *)
Definition month_abbr (m : Z) : string :=
  match m with
  | 1 => "Jan" | 2 => "Feb" | 3 => "Mar" | 4 => "Apr" | 5 => "May"
  | 6 => "Jun" | 7 => "Jul" | 8 => "Aug" | 9 => "Sep" | 10 => "Oct"
  | 11 => "Nov" | _ => "Dec"
  end.

Definition month_name (m : Z) : string :=
  match m with
  | 1 => "January" | 2 => "February" | 3 => "March" | 4 => "April"
  | 5 => "May" | 6 => "June" | 7 => "July" | 8 => "August"
  | 9 => "September" | 10 => "October" | 11 => "November" | _ => "December"
  end.

(** [d.weekday()]: Monday is 0. *)
Definition weekday (d : datetime) : Z :=
  (ymd2ord (year d) (month d) (day d) + 6) mod 7.

Definition day_name (wd : Z) : string :=
  match wd with
  | 0 => "Monday" | 1 => "Tuesday" | 2 => "Wednesday" | 3 => "Thursday"
  | 4 => "Friday" | 5 => "Saturday" | _ => "Sunday"
  end.

(** [d.strftime('%A, %B %d, %Y')] (the year as glibc prints it) *)
Definition strftime_A_B_d_Y (d : datetime) : string :=
  day_name (weekday d) +:+ ", " +:+ month_name (month d) +:+ " "
  +:+ zpad 2 (day d) +:+ ", " +:+ str_int (year d).

(** [d.strftime('%I:%M %p on %b %d')] *)
Definition strftime_I_M_p_on_b_d (d : datetime) : string :=
  strftime_I_M_p d +:+ " on " +:+ month_abbr (month d) +:+ " "
  +:+ zpad 2 (day d).

(** [timedelta(microseconds=us)], as the constructor normalises and checks
    it: [None] is the [OverflowError] of more than 999999999 days. *)
Definition timedelta (us : Z) : option Z :=
  if Z.abs (us / US_PER_DAY) <=? 999999999 then Some us else None.

Module Assistant.

Definition nl : string := String "010"%char "".

Definition help_text : string :=
  "You can say things like:" +:+ nl +:+
  "- what's the weather in <city>" +:+ nl +:+
  "- read the news / technology news" +:+ nl +:+
  "- remind me in 10 minutes to <task>" +:+ nl +:+
  "- set a reminder at 5:30 pm to <task>" +:+ nl +:+
  "- list reminders / delete reminder <id>" +:+ nl +:+
  "- time / date / help / quit".

Section Methods.

Variable USER_TZ_utcoffset : datetime -> Z.

(** The offset [USER_TZ] has at the UTC wall clock [d], in seconds: what
    [USER_TZ.fromutc] adds. *)
Variable USER_TZ_utcoffset_at_utc : datetime -> Z.

Variable dtparser_parse : string -> datetime -> option datetime.

(** [self.weather.get_weather(city)]: the reply of the weather client. *)
Variable get_weather : string -> string.

Variable feedparser_parse : string -> option (list NewsClient.entry).

(** [d.astimezone(USER_TZ)]: [d] itself when it carries [USER_TZ], else
    the UTC wall clock of [d] moved by the offset the zone has then. *)
Definition astimezone_USER_TZ (d : datetime) : option datetime :=
  match tzinfo_of d with
  | Some USER_TZ => Some d
  | other =>
      let z := default USER_TZ other in
      utc ← timedelta_add d (- (utcoffset USER_TZ_utcoffset z d * 1000000));
      r ← timedelta_add utc (USER_TZ_utcoffset_at_utc utc * 1000000);
      Some (replace_tzinfo r (Some USER_TZ))
  end.

(** The news branch once the headlines are there. *)
Definition say_headlines (items : list string) : M unit :=
  match items with
  | [] => tts_say "Sorry, I couldn't fetch headlines right now."
  | _ =>
      tts_say "Here are the top headlines:" ;;
      for_each (imap (fun i line => (Z.of_nat i + 1, line)) items)
        (fun '(i, line) => tts_say (str_int i +:+ ". " +:+ line))
  end.

(** The branch of [handle] for [REMIND_IN_RE]; the arguments are the
    groups [task], [num] and [unit] of the match. *)
Definition handle_remind_in (task_group num_group unit_group : string)
    (clock utcnow : datetime) : M bool :=
  let task := strip task_group in
  num <- lift_or ValueError (py_int num_group) ;;
  let unit := lower unit_group in
  delta <- lift_or OverflowError
             (if startswith "min" unit then timedelta (num * 60 * 1000000)
              else timedelta (num * 3600 * 1000000)) ;;
  let now := replace_tzinfo clock (Some USER_TZ) in
  when <- lift_or OverflowError (timedelta_add now delta) ;;
  r <- ReminderManager.add_reminder USER_TZ_utcoffset task when utcnow ;;
  let local_time := strftime_I_M_p when in
  tts_say ("Okay, I'll remind you at " +:+ local_time +:+ " to " +:+ task
           +:+ ".") ;;
  ret true.

(** The branch for [LIST_REMS_RE]. *)
Definition handle_list : M bool :=
  items <- ReminderManager.list_reminders ;;
  match items with
  | [] => tts_say "You have no reminders."
  | _ =>
      tts_say "Here are your reminders:" ;;
      for_each items (fun r =>
        local <- lift_or OverflowError (astimezone_USER_TZ (when_utc r)) ;;
        tts_say (str_int (id r) +:+ ": " +:+ text r +:+ " at "
                 +:+ strftime_I_M_p_on_b_d local +:+ "."))
  end ;;
  ret true.

(** The branch for [DELETE_REM_RE]; the argument is the group [id]. *)
Definition handle_delete (id_group : string) : M bool :=
  rid <- lift_or ValueError (py_int id_group) ;;
  ok <- ReminderManager.delete_reminder rid ;;
  (if ok : bool
   then tts_say ("Deleted reminder " +:+ str_int rid +:+ ".")
   else tts_say ("I couldn't find reminder " +:+ str_int rid +:+ ".")) ;;
  ret true.

(** [Assistant.handle]: [False] asks the loop to stop.  [clock] and
    [utcnow] are the readings [datetime.now(tz=USER_TZ)] and
    [datetime.utcnow()] take while the utterance is handled. *)
Definition handle (utterance : string) (clock utcnow : datetime) : M bool :=
  if bool_decide (utterance = "") then
    tts_say "I didn't hear anything. Please try again." ;; ret true
  else
    let text := strip utterance in
    let low := lower text in
    if bool_decide (is_Some (match_ QUIT_RE low)) then
      tts_say "Goodbye!" ;; ret false
    else if bool_decide (is_Some (match_ HELP_RE low)) then
      tts_say help_text ;; ret true
    else if bool_decide (is_Some (match_ TIME_RE low)) then
      tts_say ("It's " +:+ strftime_I_M_p
                 (replace_tzinfo clock (Some USER_TZ))) ;;
      ret true
    else if bool_decide (is_Some (match_ DATE_RE low)) then
      tts_say ("Today is " +:+ strftime_A_B_d_Y
                 (replace_tzinfo clock (Some USER_TZ))) ;;
      ret true
    else
      match search WEATHER_RE text with
      | Some m => tts_say (get_weather (group m "city")) ;; ret true
      | None =>
      match search NEWS_RE text with
      | Some m =>
          say_headlines
            (NewsClient.headlines feedparser_parse (group_opt m "topic") 5) ;;
          ret true
      | None =>
      match search REMIND_IN_RE text with
      | Some m =>
          handle_remind_in (group m "task") (group m "num") (group m "unit")
            clock utcnow
      | None =>
      match (match search REMIND_AT_RE text with
             | Some m => Some m
             | None => search REMIND_SIMPLE_RE text
             end) with
      | Some m =>
          handle_reminder_at USER_TZ_utcoffset dtparser_parse
            (strip (group m "task")) (strip (group m "time")) clock utcnow
      | None =>
      if bool_decide (is_Some (search LIST_REMS_RE text)) then handle_list
      else
        match search DELETE_REM_RE text with
        | Some m => handle_delete (group m "id")
        | None =>
            tts_say "I can help with weather, news, and reminders. Say 'help' to see examples." ;;
            ret true
        end
      end end end end.

(** [Assistant.loop_text]: each event is a line [input] returns, with the
    clock readings taken while it is handled; the end of the list is the
    end of the input ([EOFError] or [KeyboardInterrupt]). *)
Fixpoint read_lines (events : list (string * datetime * datetime))
    : M unit :=
  match events with
  | [] => ret tt
  | (line, clock, utcnow) :: rest =>
      cont <- handle (strip line) clock utcnow ;;
      if cont : bool then read_lines rest else ret tt
  end.

Definition loop_text (events : list (string * datetime * datetime))
    : M unit :=
  tts_say "Text mode: type your command. Type 'help' for examples, 'quit' to exit." ;;
  read_lines events.

End Methods.

End Assistant.

Import Assistant.

(* ===================================================================== *)
(** * Vocabulary of the command layer                                   *)
(* ===================================================================== *)

(** Two texts that differ in the case of letters only. *)
Definition ci_eq (p m : list ascii) : Prop :=
  lower_char <$> p = lower_char <$> m.

(** [p] occurs in [s], whatever the case of the letters. *)
Fixpoint occurs_ci (p s : list ascii) : bool :=
  match skip_lit p s with
  | Some _ => true
  | None =>
      match s with
      | [] => false
      | _ :: s' => occurs_ci p s'
      end
  end.

Definition contains_ci (p s : string) : bool := occurs_ci (chars p) (chars s).

(** The texts a pattern matches, read off the pattern. *)
Fixpoint lang (r : regex) (m : list ascii) : Prop :=
  match r with
  | Eps => m = []
  | Lit p => ci_eq (chars p) m
  | Chr cls => exists c, m = [c] /\ class_test cls c = true
  | Seq r1 r2 => exists m1 m2, m = m1 ++ m2 /\ lang r1 m1 /\ lang r2 m2
  | Alt r1 r2 => lang r1 m \/ lang r2 m
  | Star _ cls => Forall (fun c => class_test cls c = true) m
  | Group _ r1 => lang r1 m
  | Bos => m = []
  | Eos => m = []
  end.

(** The same with the groups a match sets: [run r m g g'] when [r] matches
    [m] and turns the groups [g] into [g']. *)
Fixpoint run (r : regex) (m : list ascii) (g g' : groups) : Prop :=
  match r with
  | Eps => m = [] /\ g' = g
  | Lit p => ci_eq (chars p) m /\ g' = g
  | Chr cls => (exists c, m = [c] /\ class_test cls c = true) /\ g' = g
  | Seq r1 r2 =>
      exists m1 m2 g1, m = m1 ++ m2 /\ run r1 m1 g g1 /\ run r2 m2 g1 g'
  | Alt r1 r2 => run r1 m g g' \/ run r2 m g g'
  | Star _ cls => Forall (fun c => class_test cls c = true) m /\ g' = g
  | Group name r1 => exists g1, run r1 m g g1 /\ g' = (name, m) :: g1
  | Bos => m = [] /\ g' = g
  | Eos => m = [] /\ g' = g
  end.

(** A pattern without [^] and [$]. *)
Fixpoint unanchored (r : regex) : bool :=
  match r with
  | Seq r1 r2 | Alt r1 r2 => unanchored r1 && unanchored r2
  | Group _ r1 => unanchored r1
  | Bos | Eos => false
  | _ => true
  end.

(** Every text the pattern matches contains [p], whatever the case: a
    check on the shape of the pattern. *)
Fixpoint requires_ci (p : list ascii) (r : regex) : bool :=
  match r with
  | Lit s => occurs_ci p (chars s)
  | Seq r1 r2 => requires_ci p r1 || requires_ci p r2
  | Alt r1 r2 => requires_ci p r1 && requires_ci p r2
  | Group _ r1 => requires_ci p r1
  | _ => false
  end.

(** Where the scan stops at once. *)
Definition stops s2 s3 (l : list ascii) : Prop :=
  match l with
  | [] => True
  | a :: l1 =>
      space1 (code a) = false /\
      match l1 with
      | [] => True
      | b :: l2 =>
          s2 (code a) (code b) = false /\
          match l2 with
          | [] => True
          | c :: _ => s3 (code a) (code b) (code c) = false
          end
      end
  end.

(** The process state after the texts [l] were handed to [tts.say] and
    nothing else happened. *)
Definition says (l : list string) (w : world) : world :=
  mkworld (conn w) (disk w) (jobs w) (spoken w ++ l) (faults w) (journal w).

(** The commands that end the session. *)
Definition QUIT_WORDS : list string := ["quit"; "exit"; "bye"].

(** The ways of asking for the weather: keyword, preposition, blank. *)
Definition WEATHER_PHRASES : list string :=
  [ "weather in "; "weather at "; "weather for ";
    "temperature in "; "temperature at "; "temperature for " ].

(** Whenever [m] returns, it has only added to what was spoken. *)
Definition keeps_speech {A} (m : M A) : Prop :=
  forall w a w', m w = (Returns a, w') ->
    exists l, spoken w' = spoken w ++ l.

(** Whenever [m] returns, it has spoken at least once. *)
Definition speaks {A} (m : M A) : Prop :=
  forall w a w', m w = (Returns a, w') ->
    exists l, l <> [] /\ spoken w' = spoken w ++ l.

(** The commands that are a word or a phrase by themselves. *)
Definition WORD_COMMANDS : list string :=
  QUIT_WORDS ++ [ "help"; "time"; "what's the time"; "current time";
                  "date"; "what's the date"; "today's date" ].

(** The phrases that make an utterance a request for the weather or the
    news. *)
Definition ASKS : list string := WEATHER_PHRASES ++ ["news "; "headlines "].

(** None of the phrases occurs in the text, in whatever case. *)
Definition lacks (phrases : list string) (text : string) : Prop :=
  Forall (fun p => contains_ci p text = false) phrases.

(** No word command begins with [p]. *)
Definition starts_no_word (p : string) : bool :=
  forallb (fun w => negb (bool_decide
                            (is_Some (skip_lit (chars p) (chars w)))))
    WORD_COMMANDS.

(** The ways of saying how long: the unit of "remind me ... in". *)
Definition UNIT_WORDS : list string := ["minute"; "minutes"; "hour"; "hours"].

(** The ways of asking for a deletion, up to the number. *)
Definition DELETE_PHRASES : list string :=
  ["delete reminder "; "remove reminder "; "cancel reminder "].

(** The ways of beginning "set a reminder at <time> to <task>". *)
Definition REMINDER_AT_PHRASES : list string :=
  ["set a reminder at "; "set a reminder for ";
   "reminder at "; "reminder for "].

(** What may follow the hour in a time: nothing, " am" or " pm". *)
Definition MERIDIEMS : list string := [""; " am"; " pm"].


(* ===================================================================== *)
(** * Sample dialogue                                                     *)
(* ===================================================================== *)

Module Dialogue.

(** A feed of two entries: one names its source, the other carries it at
    the end of the title. *)
Definition entries : list NewsClient.entry :=
  [ NewsClient.mkentry (Some "Monsoon arrives early")
      (Some (Some "The Hindu"));
    NewsClient.mkentry (Some " Rates held - for now - Reuters ") None ].

Definition feed (url : string) : option (list NewsClient.entry) :=
  if bool_decide (url = GOOGLE_NEWS_RSS) then Some entries else None.

(** A weather client without a network. *)
Definition weather (_ : string) : string :=
  "Sorry, I couldn't fetch the weather right now.".

(** One second after midnight on 1 January of year 1, local time. *)
Definition dawn : datetime := mkdt 1 1 1 0 0 1 0 None.

(** A restart a quarter of an hour after [Sample.utcnow]. *)
Definition later : datetime := mkdt 2025 3 9 16 45 0 0 None.

(** What is typed in a short session. *)
Definition typed : list (string * datetime * datetime) :=
  [ ("time", Sample.clock, Sample.utcnow);
    (" Quit", Sample.clock, Sample.utcnow);
    ("list reminders", Sample.clock, Sample.utcnow) ].

End Dialogue.

(* ===================================================================== *)
(** * Calendar arithmetic: ordinals and the next day                      *)
(* ===================================================================== *)

Module TimeFacts.

Ltac red_tables := cbv beta iota delta [DAYS_BEFORE_MONTH DAYS_IN_MONTH andb].

Ltac split_tests :=
  repeat (red_tables;
    match goal with
    | |- context [ ?a <? ?b ] => destruct (Z.ltb_spec a b)
    | |- context [ ?a =? ?b ] => destruct (Z.eqb_spec a b)
    end; try (exfalso; Z.to_euclidean_division_equations; lia)); red_tables.

Ltac month_cases m H :=
  assert (m = 1 \/ m = 2 \/ m = 3 \/ m = 4 \/ m = 5 \/ m = 6 \/ m = 7 \/ m = 8
          \/ m = 9 \/ m = 10 \/ m = 11 \/ m = 12) as H by lia.

Lemma month_day_ok (L : bool) (m d : Z) :
  1 <= m <= 12 ->
  1 <= d <= (if (m =? 2) && L then 29 else DAYS_IN_MONTH m) ->
  month_day L (DAYS_BEFORE_MONTH m + (if (2 <? m) && L then 1 else 0) + d - 1)
  = (m, d).
Proof.
  intros Hm Hd. month_cases m Hc.
  destruct L;
  repeat (destruct Hc as [-> | Hc]); try subst m; simpl in Hd;
  match goal with
  | |- month_day _ (?X + d - 1) = _ =>
      let v := eval vm_compute in X in change X with v
  end;
  unfold month_day; rewrite Z.shiftr_div_pow2 by lia;
  change (2 ^ 5) with 32;
  match goal with
  | |- context [ (?e) / 32 ] =>
      let q := fresh "q" in
      remember (e / 32) as q eqn:Hq;
      assert (q = 1 \/ q = 2 \/ q = 3 \/ q = 4 \/ q = 5 \/ q = 6 \/ q = 7
              \/ q = 8 \/ q = 9 \/ q = 10 \/ q = 11 \/ q = 12) as Hq'
        by (subst q; Z.to_euclidean_division_equations; lia);
      repeat (destruct Hq' as [Hq' | Hq']); rewrite Hq' in *;
      try (exfalso; Z.to_euclidean_division_equations; lia);
      repeat match goal with
        | |- context [ Z.pos ?p - 1 ] =>
            let v := eval vm_compute in (Z.pos p - 1) in
            change (Z.pos p - 1) with v
        end;
      split_tests; f_equal; lia
  end.
Qed.

Lemma doy_bound (L : bool) (m d : Z) :
  1 <= m <= 12 ->
  1 <= d <= (if (m =? 2) && L then 29 else DAYS_IN_MONTH m) ->
  0 <= DAYS_BEFORE_MONTH m + (if (2 <? m) && L then 1 else 0) + d - 1
    < 365 + (if L then 1 else 0).
Proof.
  intros Hm Hd. month_cases m Hc.
  destruct L; repeat (destruct Hc as [-> | Hc]); try subst m;
    simpl in Hd;
    match goal with
    | |- context [ ?X + d - 1 ] =>
        let v := eval vm_compute in X in change X with v
    end; cbv beta iota; lia.
Qed.

(** Years split into 400-, 100-, 4- and 1-year cycles. *)
Lemma days_before_year_decomp (y : Z) :
  1 <= y ->
  exists a b c e, 0 <= a /\ 0 <= b < 4 /\ 0 <= c < 25 /\ 0 <= e < 4 /\
    y - 1 = 400 * a + 100 * b + 4 * c + e /\
    days_before_year y = 146097 * a + 36524 * b + 1461 * c + 365 * e /\
    is_leap y = (e =? 3) && (negb (c =? 24) || (b =? 3)).
Proof.
  intros Hy.
  exists ((y - 1) / 400), ((y - 1) mod 400 / 100), ((y - 1) mod 100 / 4),
         ((y - 1) mod 4).
  unfold days_before_year, is_leap. cbv zeta.
  repeat split; try (Z.to_euclidean_division_equations; lia).
Qed.

(** [_ord2ymd] inverts [_ymd2ord] on every date of the calendar. *)
Lemma ord2ymd_ymd2ord (y m d : Z) :
  1 <= y -> 1 <= m <= 12 -> 1 <= d <= days_in_month y m ->
  ord2ymd (ymd2ord y m d) = (y, m, d).
Proof.
  intros Hy Hm Hd.
  destruct (days_before_year_decomp y Hy)
    as (a & b & c & e & Ha & Hb & Hc & He & Hy1 & Hdby & Hleap).
  unfold ymd2ord, days_before_month. unfold days_in_month in Hd.
  rewrite Hleap in *. rewrite Hdby.
  set (L := (e =? 3) && (negb (c =? 24) || (b =? 3))) in *.
  set (doy := DAYS_BEFORE_MONTH m + (if (2 <? m) && L then 1 else 0) + d - 1).
  pose proof (doy_bound L m d Hm Hd) as Hdoy. fold doy in Hdoy.
  pose proof (month_day_ok L m d Hm Hd) as Hmd. fold doy in Hmd.
  replace (146097 * a + 36524 * b + 1461 * c + 365 * e +
     (DAYS_BEFORE_MONTH m + (if (2 <? m) && L then 1 else 0)) + d)
    with (146097 * a + 36524 * b + 1461 * c + 365 * e + doy + 1)
    by (subst doy; lia).
  clearbody doy. clear Hd Hdby Hleap.
  unfold ord2ymd. cbv zeta.
  replace (146097 * a + 36524 * b + 1461 * c + 365 * e + doy + 1 - 1)
    with (146097 * a + 36524 * b + 1461 * c + 365 * e + doy) by lia.
  set (N := 146097 * a + 36524 * b + 1461 * c + 365 * e + doy).
  assert (HL : L = true -> e = 3 /\ (c <> 24 \/ b = 3)) by (subst L; lia).
  assert (HL' : L = false -> ~ (e = 3 /\ (c <> 24 \/ b = 3)))
    by (subst L; lia).
  assert (H400 : N / 146097 = a /\
                 N mod 146097 = 36524 * b + 1461 * c + 365 * e + doy).
  { subst N. destruct L; [specialize (HL eq_refl) | specialize (HL' eq_refl)];
    Z.to_euclidean_division_equations; lia. }
  destruct H400 as [-> ->].
  destruct (Z.eq_dec doy 365) as [E365 | N365].
  - (* 31 December of a leap year *)
    assert (L = true) as EL by (destruct L; [reflexivity | lia]).
    destruct (HL EL) as [-> Hcb].
    rewrite EL, E365 in Hmd. vm_compute in Hmd. injection Hmd as <- <-.
    subst doy. clear Hdoy HL HL' EL L.
    destruct (Z.eq_dec c 24) as [-> | Hc24].
    + assert (b = 3) as -> by lia.
      change (36524 * 3 + 1461 * 24 + 365 * 3 + 365) with 146096.
      change (146096 / 36524) with 4. change (146096 mod 36524) with 0.
      change (0 mod 1461) with 0. change (0 / 1461) with 0.
      change (0 / 365) with 0. change (4 =? 4) with true.
      rewrite orb_true_r. f_equal. f_equal. lia.
    + assert (H100 :
        (36524 * b + 1461 * c + 365 * 3 + 365) / 36524 = b /\
        (36524 * b + 1461 * c + 365 * 3 + 365) mod 36524 = 1461 * c + 1460)
        by (Z.to_euclidean_division_equations; lia).
      destruct H100 as [-> ->].
      assert (H4 : (1461 * c + 1460) / 1461 = c /\
                   (1461 * c + 1460) mod 1461 = 1460)
        by (Z.to_euclidean_division_equations; lia).
      destruct H4 as [-> ->].
      change (1460 / 365) with 4. change (4 =? 4) with true.
      cbv beta iota delta [orb].
      f_equal. f_equal. lia.
  - assert (Hd365 : 0 <= doy < 365) by (destruct L; lia).
    assert (H100 : (36524 * b + 1461 * c + 365 * e + doy) / 36524 = b /\
                   (36524 * b + 1461 * c + 365 * e + doy) mod 36524
                   = 1461 * c + 365 * e + doy).
    { destruct L; [specialize (HL eq_refl) | specialize (HL' eq_refl)];
      Z.to_euclidean_division_equations; lia. }
    destruct H100 as [-> ->].
    assert (H4 : (1461 * c + 365 * e + doy) / 1461 = c /\
                 (1461 * c + 365 * e + doy) mod 1461 = 365 * e + doy)
      by (Z.to_euclidean_division_equations; lia).
    destruct H4 as [-> ->].
    assert (H1 : (365 * e + doy) / 365 = e /\ (365 * e + doy) mod 365 = doy)
      by (Z.to_euclidean_division_equations; lia).
    destruct H1 as [-> ->].
    fold L. rewrite Hmd.
    replace ((e =? 4) || (b =? 4)) with false by lia.
    f_equal. f_equal. lia.
Qed.

Lemma valid_fields_spec (d : datetime) : valid_fields d = true <-> Valid d.
Proof.
  unfold valid_fields, Valid, MINYEAR, MAXYEAR.
  rewrite !andb_true_iff, !Z.leb_le, !Z.ltb_lt. tauto.
Qed.

Lemma days_in_month_range (y m : Z) :
  1 <= m <= 12 -> 28 <= days_in_month y m <= 31.
Proof.
  intros Hm. month_cases m Hc. unfold days_in_month.
  repeat (destruct Hc as [-> | Hc]); try subst m;
    destruct (is_leap y); simpl; lia.
Qed.

Lemma days_before_year_succ (y : Z) :
  days_before_year (y + 1)
  = days_before_year y + 365 + (if is_leap y then 1 else 0).
Proof.
  unfold days_before_year, is_leap. cbv zeta.
  replace (y + 1 - 1) with y by lia.
  destruct (Z.eqb_spec (y mod 4) 0), (Z.eqb_spec (y mod 100) 0),
    (Z.eqb_spec (y mod 400) 0); cbv beta iota delta [andb orb negb];
    Z.to_euclidean_division_equations; lia.
Qed.

Lemma ymd2ord_bounds (y m d : Z) :
  1 <= y <= 9999 -> 1 <= m <= 12 -> 1 <= d <= days_in_month y m ->
  1 <= ymd2ord y m d <= MAXORDINAL.
Proof.
  intros Hy Hm Hd. unfold ymd2ord, days_before_month, MAXORDINAL.
  unfold days_in_month in Hd.
  pose proof (doy_bound (is_leap y) m d Hm Hd) as Hdoy.
  assert (0 <= days_before_year y <= 3651694 - (if is_leap y then 1 else 0)).
  { unfold days_before_year, is_leap. cbv zeta.
    destruct (Z.eqb_spec (y mod 4) 0), (Z.eqb_spec (y mod 100) 0),
      (Z.eqb_spec (y mod 400) 0); cbv beta iota delta [andb orb negb];
      Z.to_euclidean_division_equations; lia. }
  destruct (is_leap y); lia.
Qed.

Lemma next_day_valid (d : datetime) :
  Valid d -> ymd2ord (year d) (month d) (day d) < MAXORDINAL ->
  Valid (next_day d).
Proof.
  intros (Hy & Hm & Hd & Hrest) Hlast. unfold next_day.
  destruct (Z.ltb_spec (day d) (days_in_month (year d) (month d))) as [H1 | H1].
  - unfold Valid; cbn. repeat split; try tauto; lia.
  - destruct (Z.ltb_spec (month d) 12) as [H2 | H2].
    + unfold Valid; cbn. pose proof (days_in_month_range (year d) (month d + 1)).
      repeat split; try tauto; lia.
    + assert (month d = 12) as Hm12 by lia.
      assert (day d = 31) as Hd31.
      { rewrite Hm12 in *. unfold days_in_month in *. simpl in *. lia. }
      assert (year d < 9999).
      { destruct (Z.eq_dec (year d) 9999) as [E | E]; [| lia].
        exfalso. rewrite E, Hm12, Hd31 in Hlast. vm_compute in Hlast.
        discriminate. }
      unfold Valid; cbn. unfold days_in_month. simpl.
      repeat split; try tauto; lia.
Qed.

Lemma ymd2ord_next_day (d : datetime) :
  Valid d ->
  ymd2ord (year (next_day d)) (month (next_day d)) (day (next_day d))
  = ymd2ord (year d) (month d) (day d) + 1.
Proof.
  intros (Hy & Hm & Hd & Hrest). unfold next_day.
  destruct (Z.ltb_spec (day d) (days_in_month (year d) (month d))) as [H1 | H1].
  - cbn. unfold ymd2ord. lia.
  - assert (day d = days_in_month (year d) (month d)) as Hlast by lia.
    destruct (Z.ltb_spec (month d) 12) as [H2 | H2].
    + cbn. unfold ymd2ord, days_before_month. rewrite Hlast.
      unfold days_in_month.
      assert (month d = 1 \/ month d = 2 \/ month d = 3 \/ month d = 4 \/
              month d = 5 \/ month d = 6 \/ month d = 7 \/ month d = 8 \/
              month d = 9 \/ month d = 10 \/ month d = 11) as Hc by lia.
      generalize (days_before_year (year d)) as X. intros X.
      destruct (is_leap (year d));
        repeat (destruct Hc as [Hc | Hc]); rewrite Hc; simpl; lia.
    + assert (month d = 12) as Hm12 by lia.
      cbn. unfold ymd2ord, days_before_month. rewrite Hlast, Hm12.
      rewrite days_before_year_succ. unfold days_in_month.
      generalize (days_before_year (year d)) as X. intros X.
      destruct (is_leap (year d)), (is_leap (year d + 1)); simpl; lia.
Qed.

Lemma time_of_day_split (h mi s us : Z) :
  0 <= h < 24 -> 0 <= mi < 60 -> 0 <= s < 60 -> 0 <= us < 1000000 ->
  let t := ((h * 60 + mi) * 60 + s) * 1000000 + us in
  0 <= t < US_PER_DAY /\
  t / 3600000000 = h /\ t / 60000000 mod 60 = mi /\
  t / 1000000 mod 60 = s /\ t mod 1000000 = us.
Proof.
  intros Hh Hmi Hs Hus t. subst t. unfold US_PER_DAY.
  repeat split; try (Z.to_euclidean_division_equations; lia).
Qed.

(** Adding [timedelta(days=1)] gives the same wall-clock time on the next
    calendar day, for every date but 9999-12-31. *)
Lemma timedelta_add_one_day (d : datetime) :
  Valid d -> ymd2ord (year d) (month d) (day d) < MAXORDINAL ->
  timedelta_add d one_day = Some (next_day d).
Proof.
  intros Hv Hlast.
  pose proof (next_day_valid d Hv Hlast) as Hnv.
  pose proof (ymd2ord_next_day d Hv) as Hord.
  destruct Hv as (Hy & Hm & Hd & Hh & Hmi & Hs & Hus).
  pose proof (ymd2ord_bounds _ _ _ Hy Hm Hd) as Hb.
  destruct (time_of_day_split _ _ _ _ Hh Hmi Hs Hus)
    as (Ht & Eh & Emi & Es & Eus).
  set (t := ((hour d * 60 + minute d) * 60 + second d) * 1000000
            + microsecond d) in *.
  set (o := ymd2ord (year d) (month d) (day d)) in *.
  unfold timedelta_add, one_day, wall_us. fold o.
  replace ((o - 1) * US_PER_DAY +
           ((hour d * 60 + minute d) * 60 + second d) * 1000000 +
           microsecond d + US_PER_DAY) with (o * US_PER_DAY + t)
    by (subst t; lia).
  assert (Hq : (o * US_PER_DAY + t) / US_PER_DAY = o /\
               (o * US_PER_DAY + t) mod US_PER_DAY = t).
  { unfold US_PER_DAY in *. Z.to_euclidean_division_equations; lia. }
  destruct Hq as [-> ->]. cbv zeta.
  replace ((0 <? o + 1) && (o + 1 <=? MAXORDINAL)) with true by lia.
  rewrite <- Hord.
  destruct Hnv as (Hy' & Hm' & Hd' & Hrest').
  rewrite (ord2ymd_ymd2ord _ _ _ (proj1 Hy') Hm' Hd').
  rewrite Eh, Emi, Es, Eus.
  assert (Heq : mkdt (year (next_day d)) (month (next_day d))
                  (day (next_day d)) (hour d) (minute d) (second d)
                  (microsecond d) (tzinfo_of d) = next_day d).
  { unfold next_day.
    destruct (day d <? days_in_month (year d) (month d)); [reflexivity |].
    destruct (month d <? 12); reflexivity. }
  rewrite Heq.
  assert (Hvn : valid_fields (next_day d) = true).
  { apply valid_fields_spec. unfold Valid. tauto. }
  rewrite Hvn. reflexivity.
Qed.

End TimeFacts.

(* ===================================================================== *)
(** * ISO text: order and round trip                                      *)
(* ===================================================================== *)

Module IsoFacts.

Import TimeFacts.

Ltac digit_cases d H :=
  assert (d = 0 \/ d = 1 \/ d = 2 \/ d = 3 \/ d = 4 \/ d = 5 \/ d = 6
          \/ d = 7 \/ d = 8 \/ d = 9) as H by lia.

Lemma digit_char_compare (a b : Z) :
  0 <= a <= 9 -> 0 <= b <= 9 ->
  Ascii.compare (digit_char a) (digit_char b) = (a ?= b).
Proof.
  intros Ha Hb. digit_cases a Ca. digit_cases b Cb.
  repeat (destruct Ca as [-> | Ca]); try subst a;
    repeat (destruct Cb as [-> | Cb]); try subst b; reflexivity.
Qed.

Lemma digit_val_char (a : Z) :
  0 <= a <= 9 -> digit_val (digit_char a) = Some a.
Proof.
  intros Ha. digit_cases a Ca.
  repeat (destruct Ca as [-> | Ca]); try subst a; reflexivity.
Qed.

Lemma ascii_compare_refl (c : ascii) : Ascii.compare c c = Eq.
Proof. unfold Ascii.compare. apply N.compare_refl. Qed.

Lemma pow10_pos (w : nat) : 0 < 10 ^ Z.of_nat w.
Proof. apply Z.pow_pos_nonneg; lia. Qed.

Lemma pow10_succ (w : nat) : 10 ^ Z.of_nat (S w) = 10 * 10 ^ Z.of_nat w.
Proof. rewrite Nat2Z.inj_succ, Z.pow_succ_r by lia. reflexivity. Qed.

(** Leading digit and remainder of a [S w]-digit number. *)
Lemma split_digit (w : nat) (a : Z) :
  0 <= a < 10 ^ Z.of_nat (S w) ->
  0 <= a / 10 ^ Z.of_nat w <= 9 /\
  0 <= a mod 10 ^ Z.of_nat w < 10 ^ Z.of_nat w /\
  a = 10 ^ Z.of_nat w * (a / 10 ^ Z.of_nat w) + a mod 10 ^ Z.of_nat w.
Proof.
  intros Ha. rewrite pow10_succ in Ha.
  pose proof (pow10_pos w) as HP.
  set (P := 10 ^ Z.of_nat w) in *.
  pose proof (Z.div_mod a P ltac:(lia)) as Hdm.
  pose proof (Z.mod_pos_bound a P HP) as Hmod.
  repeat split; try lia.
  - apply Z.div_pos; lia.
  - assert (a / P < 10); [| lia].
    apply Z.div_lt_upper_bound; lia.
Qed.

Lemma append_cons (c : ascii) (s t : string) :
  String c s +:+ t = String c (s +:+ t).
Proof. reflexivity. Qed.

Lemma compare_cons (c1 c2 : ascii) (s t : string) :
  String.compare (String c1 s) (String c2 t)
  = cmp_then (Ascii.compare c1 c2) (String.compare s t).
Proof. cbn. destruct (Ascii.compare c1 c2); reflexivity. Qed.

Lemma zpad_succ (w : nat) (v : Z) :
  zpad (S w) v = String (digit_char (v / 10 ^ Z.of_nat w))
                        (zpad w (v mod 10 ^ Z.of_nat w)).
Proof. reflexivity. Qed.

(** On equal widths the text order of two zero-padded numbers is their
    numeric order. *)
Lemma zpad_compare (w : nat) : forall (a b : Z) (s t : string),
  0 <= a < 10 ^ Z.of_nat w -> 0 <= b < 10 ^ Z.of_nat w ->
  String.compare (zpad w a +:+ s) (zpad w b +:+ t)
  = cmp_then (a ?= b) (String.compare s t).
Proof.
  induction w as [| w IH]; intros a b s t Ha Hb.
  - change (10 ^ Z.of_nat 0) with 1 in *.
    assert (a = 0) as -> by lia. assert (b = 0) as -> by lia. reflexivity.
  - destruct (split_digit w a Ha) as (Hda & Hra & Ea).
    destruct (split_digit w b Hb) as (Hdb & Hrb & Eb).
    pose proof (pow10_pos w) as HP.
    rewrite !zpad_succ, !append_cons, compare_cons.
    rewrite (digit_char_compare _ _ Hda Hdb).
    rewrite (IH _ _ s t Hra Hrb).
    set (P := 10 ^ Z.of_nat w) in *.
    set (da := a / P) in *. set (db := b / P) in *.
    set (ra := a mod P) in *. set (rb := b mod P) in *.
    destruct (Z.compare_spec da db) as [E | L | G]; cbn [cmp_then].
    + 
      replace (a ?= b) with (ra ?= rb); [reflexivity |].
      rewrite Ea, Eb, E.
      destruct (Z.compare_spec ra rb);
        symmetry; [apply Z.compare_eq_iff | apply Z.compare_lt_iff
                  | apply Z.compare_gt_iff]; lia.
    + replace (a ?= b) with Lt; [reflexivity |].
      symmetry. apply Z.compare_lt_iff. nia.
    + replace (a ?= b) with Gt; [reflexivity |].
      symmetry. apply Z.compare_gt_iff. nia.
Qed.

Lemma read_digits_zpad (w : nat) : forall (acc v : Z) (s : string),
  0 <= v < 10 ^ Z.of_nat w ->
  read_digits w acc (zpad w v +:+ s) = Some (acc * 10 ^ Z.of_nat w + v, s).
Proof.
  induction w as [| w IH]; intros acc v s Hv.
  - change (10 ^ Z.of_nat 0) with 1 in *.
    assert (v = 0) as -> by lia. cbn. f_equal. f_equal. lia.
  - destruct (split_digit w v Hv) as (Hd & Hr & Ev).
    rewrite zpad_succ, append_cons. cbn [read_digits].
    rewrite (digit_val_char _ Hd), (IH _ _ _ Hr).
    f_equal. f_equal. rewrite pow10_succ. lia.
Qed.

Lemma cmp_then_Eq_r (c : comparison) : cmp_then c Eq = c.
Proof. destruct c; reflexivity. Qed.

Lemma isoformat_UTC (off : datetime -> Z) (d : datetime) :
  tzinfo_of d = Some UTC ->
  isoformat off d
  = zpad 4 (year d) +:+ String "-" (zpad 2 (month d) +:+ String "-"
      (zpad 2 (day d) +:+ String "T" (zpad 2 (hour d) +:+ String ":"
        (zpad 2 (minute d) +:+ String ":"
          (zpad 2 (second d) +:+ utc_tail (microsecond d)))))).
Proof.
  intros Htz. unfold isoformat, utc_tail. rewrite Htz.
  destruct (microsecond d =? 0); reflexivity.
Qed.

Lemma utc_tail_compare (ua ub : Z) :
  0 <= ua < 1000000 -> 0 <= ub < 1000000 ->
  String.compare (utc_tail ua) (utc_tail ub) = (ua ?= ub).
Proof.
  intros Ha Hb. unfold utc_tail.
  destruct (Z.eqb_spec ua 0) as [-> | Na], (Z.eqb_spec ub 0) as [-> | Nb].
  - reflexivity.
  - change "+00:00" with (String "+"%char "00:00").
    rewrite compare_cons.
    change (Ascii.compare "+"%char "."%char) with Lt. cbn [cmp_then].
    symmetry. apply Z.compare_lt_iff. lia.
  - change "+00:00" with (String "+"%char "00:00").
    rewrite compare_cons.
    change (Ascii.compare "."%char "+"%char) with Gt. cbn [cmp_then].
    symmetry. apply Z.compare_gt_iff. lia.
  - rewrite compare_cons, ascii_compare_refl. cbn [cmp_then].
    rewrite (zpad_compare 6) by (change (10 ^ Z.of_nat 6) with 1000000; lia).
    apply cmp_then_Eq_r.
Qed.

(** The text order of two stored UTC instants is the order of the
    instants: what makes [ORDER BY when_utc] chronological. *)
Lemma isoformat_compare (off : datetime -> Z) (a b : datetime) :
  Valid a -> Valid b -> tzinfo_of a = Some UTC -> tzinfo_of b = Some UTC ->
  String.compare (isoformat off a) (isoformat off b) = cmp_fields a b.
Proof.
  intros (Hya & Hma & Hda & Hha & Hmia & Hsa & Husa)
         (Hyb & Hmb & Hdb & Hhb & Hmib & Hsb & Husb) Hta Htb.
  pose proof (days_in_month_range (year a) _ Hma).
  pose proof (days_in_month_range (year b) _ Hmb).
  rewrite !isoformat_UTC by assumption. unfold cmp_fields.
  rewrite (zpad_compare 4) by (change (10 ^ Z.of_nat 4) with 10000; lia).
  f_equal. rewrite compare_cons, ascii_compare_refl. cbn [cmp_then].
  rewrite (zpad_compare 2) by (change (10 ^ Z.of_nat 2) with 100; lia).
  f_equal. rewrite compare_cons, ascii_compare_refl. cbn [cmp_then].
  rewrite (zpad_compare 2) by (change (10 ^ Z.of_nat 2) with 100; lia).
  f_equal. rewrite compare_cons, ascii_compare_refl. cbn [cmp_then].
  rewrite (zpad_compare 2) by (change (10 ^ Z.of_nat 2) with 100; lia).
  f_equal. rewrite compare_cons, ascii_compare_refl. cbn [cmp_then].
  rewrite (zpad_compare 2) by (change (10 ^ Z.of_nat 2) with 100; lia).
  f_equal. rewrite compare_cons, ascii_compare_refl. cbn [cmp_then].
  rewrite (zpad_compare 2) by (change (10 ^ Z.of_nat 2) with 100; lia).
  f_equal. apply utc_tail_compare; assumption.
Qed.

Lemma read_utc_tail (us : Z) :
  0 <= us < 1000000 ->
  read_fraction (utc_tail us) = Some (us, "+00:00").
Proof.
  intros Hus. unfold utc_tail, read_fraction.
  destruct (Z.eqb_spec us 0) as [-> | Nz]; [reflexivity |].
  rewrite (read_digits_zpad 6)
    by (change (10 ^ Z.of_nat 6) with 1000000; lia).
  reflexivity.
Qed.

(** Reading back what [isoformat] wrote for a UTC instant. *)
Lemma fromisoformat_isoformat (off : datetime -> Z) (d : datetime) :
  Valid d -> tzinfo_of d = Some UTC ->
  fromisoformat (isoformat off d) = Some d.
Proof.
  intros Hv Htz.
  pose proof Hv as (Hy & Hm & Hd & Hh & Hmi & Hs & Hus).
  pose proof (days_in_month_range (year d) _ Hm).
  rewrite isoformat_UTC by assumption. unfold fromisoformat.
  rewrite (read_digits_zpad 4) by (change (10 ^ Z.of_nat 4) with 10000; lia).
  cbn [mbind option_bind expect]. rewrite decide_True by reflexivity.
  cbn [mbind option_bind].
  rewrite (read_digits_zpad 2) by (change (10 ^ Z.of_nat 2) with 100; lia).
  cbn [mbind option_bind expect]. rewrite decide_True by reflexivity.
  cbn [mbind option_bind].
  rewrite (read_digits_zpad 2) by (change (10 ^ Z.of_nat 2) with 100; lia).
  cbn [mbind option_bind expect]. rewrite decide_True by reflexivity.
  cbn [mbind option_bind].
  rewrite (read_digits_zpad 2) by (change (10 ^ Z.of_nat 2) with 100; lia).
  cbn [mbind option_bind expect]. rewrite decide_True by reflexivity.
  cbn [mbind option_bind].
  rewrite (read_digits_zpad 2) by (change (10 ^ Z.of_nat 2) with 100; lia).
  cbn [mbind option_bind expect]. rewrite decide_True by reflexivity.
  cbn [mbind option_bind].
  rewrite (read_digits_zpad 2) by (change (10 ^ Z.of_nat 2) with 100; lia).
  cbn [mbind option_bind].
  rewrite (read_utc_tail _ Hus). cbn [mbind option_bind].
  change (read_zone "+00:00") with (Some (Some UTC)). cbn [mbind option_bind].
  replace (0 * 10 ^ Z.of_nat 4 + year d) with (year d) by lia.
  replace (0 * 10 ^ Z.of_nat 2 + month d) with (month d) by lia.
  replace (0 * 10 ^ Z.of_nat 2 + day d) with (day d) by lia.
  replace (0 * 10 ^ Z.of_nat 2 + hour d) with (hour d) by lia.
  replace (0 * 10 ^ Z.of_nat 2 + minute d) with (minute d) by lia.
  replace (0 * 10 ^ Z.of_nat 2 + second d) with (second d) by lia.
  rewrite <- Htz.
  assert (E : mkdt (year d) (month d) (day d) (hour d) (minute d) (second d)
                (microsecond d) (tzinfo_of d) = d) by (destruct d; reflexivity).
  rewrite E. apply valid_fields_spec in Hv. rewrite Hv. reflexivity.
Qed.

Lemma isoformat_UTC_any (off off' : datetime -> Z) (d : datetime) :
  tzinfo_of d = Some UTC -> isoformat off d = isoformat off' d.
Proof. intros H. rewrite !isoformat_UTC by assumption. reflexivity. Qed.

Lemma is_utc_text_spec (s : string) :
  is_utc_text s = true ->
  exists d, Valid d /\ tzinfo_of d = Some UTC /\ fromisoformat s = Some d /\
            forall off, isoformat off d = s.
Proof.
  unfold is_utc_text. destruct (fromisoformat s) as [d |]; [| discriminate].
  rewrite !andb_true_iff, !bool_decide_eq_true.
  intros [[Hv Htz] Hiso]. exists d.
  repeat split; try assumption; try (apply valid_fields_spec; assumption).
  intros off. rewrite <- Hiso. apply isoformat_UTC_any. assumption.
Qed.

Lemma is_utc_text_isoformat (off : datetime -> Z) (d : datetime) :
  Valid d -> tzinfo_of d = Some UTC -> is_utc_text (isoformat off d) = true.
Proof.
  intros Hv Htz. unfold is_utc_text.
  rewrite (fromisoformat_isoformat off d Hv Htz).
  rewrite !andb_true_iff, !bool_decide_eq_true. repeat split.
  - apply valid_fields_spec. assumption.
  - assumption.
  - apply isoformat_UTC_any. assumption.
Qed.

(** ** The BINARY collation is a total preorder *)

Lemma ascii_compare_N (a b : ascii) :
  Ascii.compare a b = N.compare (N_of_ascii a) (N_of_ascii b).
Proof. reflexivity. Qed.

Lemma string_compare_trans_le (a : string) : forall b c : string,
  String.compare a b <> Gt -> String.compare b c <> Gt ->
  String.compare a c <> Gt.
Proof.
  induction a as [| x a IH]; intros b c Hab Hbc.
  - destruct c; cbn; discriminate.
  - destruct b as [| y b]; [cbn in Hab; congruence |].
    destruct c as [| z c]; [cbn in Hbc; congruence |].
    rewrite compare_cons in *. rewrite ascii_compare_N in *.
    destruct (N.compare_spec (N_of_ascii x) (N_of_ascii y)) as [E1 | L1 | G1];
      cbn [cmp_then] in Hab; try congruence;
    destruct (N.compare_spec (N_of_ascii y) (N_of_ascii z)) as [E2 | L2 | G2];
      cbn [cmp_then] in Hbc; try congruence.
    + rewrite E1, E2, N.compare_refl. cbn [cmp_then]. eauto.
    + rewrite E1. rewrite (proj2 (N.compare_lt_iff _ _) L2). discriminate.
    + rewrite <- E2. rewrite (proj2 (N.compare_lt_iff _ _) L1). discriminate.
    + rewrite (proj2 (N.compare_lt_iff _ _) (N.lt_trans _ _ _ L1 L2)).
      discriminate.
Qed.

Lemma text_le_compare (a b : string) :
  Sqlite.text_le a b <-> String.compare a b <> Gt.
Proof.
  unfold Sqlite.text_le, String.leb.
  destruct (String.compare a b); split; congruence.
Qed.

#[global] Instance when_le_total : Total Sqlite.when_le.
Proof. intros r1 r2. apply String.leb_total. Qed.

#[global] Instance when_le_trans : Transitive Sqlite.when_le.
Proof.
  intros r1 r2 r3. unfold Sqlite.when_le. rewrite !text_le_compare.
  apply string_compare_trans_le.
Qed.

End IsoFacts.

(* ===================================================================== *)
(** * ReminderManager: effects of each method                             *)
(* ===================================================================== *)

(* ===================================================================== *)
(** * Frames: what a computation cannot touch                             *)
(* ===================================================================== *)

Section Frames.

Context {X : Type} (f : world -> X).

Local Open Scope py_scope.

Lemma preserves_ret {A} (a : A) : preserves f (ret a).
Proof. intros w. reflexivity. Qed.

Lemma preserves_raise {A} (e : exn) : preserves f (raise e : M A).
Proof. intros w. reflexivity. Qed.

Lemma preserves_lift_or {A} (e : exn) (o : option A) :
  preserves f (lift_or e o).
Proof. destruct o; intros w; reflexivity. Qed.

Lemma preserves_bind {A B} (m : M A) (k : A -> M B) :
  preserves f m -> (forall a, preserves f (k a)) -> preserves f (bind m k).
Proof.
  intros Hm Hk w. unfold bind. specialize (Hm w).
  destruct (m w) as [[a | e] w1]; cbn in *.
  - rewrite (Hk a w1). exact Hm.
  - exact Hm.
Qed.

Lemma preserves_try_except {A} (m : M A) (h : exn -> M A) :
  preserves f m -> (forall e, preserves f (h e)) ->
  preserves f (try_except m h).
Proof.
  intros Hm Hh w. unfold try_except. specialize (Hm w).
  destruct (m w) as [[a | e] w1]; cbn in *.
  - exact Hm.
  - rewrite (Hh e w1). exact Hm.
Qed.

Lemma preserves_for_each {A} (l : list A) (body : A -> M unit) :
  (forall x, preserves f (body x)) -> preserves f (for_each l body).
Proof.
  intros Hb. induction l as [| x l IH]; cbn [for_each].
  - apply preserves_ret.
  - apply preserves_bind; auto.
Qed.

Lemma preserves_map_each {A B} (l : list A) (g : A -> M B) :
  (forall x, preserves f (g x)) -> preserves f (map_each l g).
Proof.
  intros Hg. induction l as [| x l IH]; cbn [map_each].
  - apply preserves_ret.
  - apply preserves_bind; [auto |]. intros y.
    apply preserves_bind; [auto |]. intros ys. apply preserves_ret.
Qed.

End Frames.

Create HintDb frame.
#[global] Hint Resolve preserves_ret preserves_raise preserves_lift_or
  preserves_bind preserves_try_except preserves_for_each preserves_map_each
  : frame.

Lemma step_cases (w : world) :
  exists fs, Sqlite.step w = (Returns tt, with_faults w fs) \/
             Sqlite.step w = (Raises sqlite3_Error, with_faults w fs).
Proof.
  destruct w as [c d j s [| [] fs]]; cbn; eauto.
Qed.

Lemma step_quiet (w : world) :
  quiet w -> Sqlite.step w = (Returns tt, w).
Proof. destruct w as [c d j s fs]. unfold quiet. cbn. intros ->. reflexivity. Qed.

Lemma step_preserves_conn : preserves conn Sqlite.step.
Proof. intros [c d j s [| [] fs]]; reflexivity. Qed.
Lemma step_preserves_disk : preserves disk Sqlite.step.
Proof. intros [c d j s [| [] fs]]; reflexivity. Qed.
Lemma step_preserves_jobs : preserves jobs Sqlite.step.
Proof. intros [c d j s [| [] fs]]; reflexivity. Qed.
Lemma step_preserves_spoken : preserves spoken Sqlite.step.
Proof. intros [c d j s [| [] fs]]; reflexivity. Qed.

#[global] Hint Resolve step_preserves_conn step_preserves_disk
  step_preserves_jobs step_preserves_spoken : frame.

Section Manager.

Variable off : datetime -> Z.

Local Open Scope py_scope.

Local Abbreviation add_reminder := (ReminderManager.add_reminder off).
Local Abbreviation list_reminders := ReminderManager.list_reminders.
Local Abbreviation delete_reminder := ReminderManager.delete_reminder.
Local Abbreviation _schedule_job := ReminderManager._schedule_job.
Local Abbreviation _alert := ReminderManager._alert.

(** Unfolds the monad and the primitive effects. *)
Ltac run :=
  cbv beta iota zeta delta
    [bind ret raise try_except lift_or
     Sqlite.step Sqlite.set_conn Sqlite.get_conn Sqlite.execute_insert
     Sqlite.execute_select Sqlite.execute_select_ordered
     Sqlite.execute_delete Sqlite.commit Sqlite.connect
     Sqlite.execute_create_table
     Scheduler.set_jobs Scheduler.get_jobs Scheduler.start_new
     Scheduler.add_job Scheduler.remove_job tts_say
     ReminderManager._schedule_job ReminderManager._alert
     Sqlite.bind_int
     conn disk jobs spoken faults journal rows sqlite_sequence
     id text when_utc created_utc].

Lemma fromiso_utc_run (s : string) (w : world) :
  ReminderManager.fromiso_utc s w = (lifted ValueError (instant_of s), w).
Proof.
  unfold ReminderManager.fromiso_utc, instant_of.
  destruct (fromisoformat s); reflexivity.
Qed.

Lemma map_each_lifted {A B} (g : A -> M B) (h : A -> option B) (e : exn) :
  (forall x w, g x w = (lifted e (h x), w)) ->
  forall l w, map_each l g w = (lifted e (mapM h l), w).
Proof.
  intros Hg. induction l as [| x l IH]; intros w; cbn [map_each].
  - reflexivity.
  - unfold bind at 1. rewrite Hg. cbn [mapM].
    destruct (h x) as [y |]; cbn; [| reflexivity].
    unfold bind at 1. rewrite IH.
    destruct (mapM h l); reflexivity.
Qed.

Lemma list_reminders_quiet (w : world) :
  quiet w ->
  list_reminders w
  = (lifted ValueError
       (mapM reminder_of_row (merge_sort Sqlite.when_le (rows (conn w)))), w).
Proof.
  intros Hq. unfold ReminderManager.list_reminders,
    Sqlite.execute_select_ordered.
  unfold bind at 1. unfold bind at 1. rewrite (step_quiet w Hq).
  unfold bind at 1. cbn [Sqlite.get_conn ret].
  apply map_each_lifted. intros r w0.
  unfold bind at 1. rewrite fromiso_utc_run. unfold reminder_of_row.
  destruct (instant_of (row_when_utc r)) as [dw |];
    cbv beta iota delta [lifted mbind option_bind]; [| reflexivity].
  unfold bind at 1. rewrite fromiso_utc_run.
  destruct (instant_of (row_created_utc r)) as [dc |]; reflexivity.
Qed.

Lemma instant_of_utc_text (s : string) :
  is_utc_text s = true ->
  exists d, Valid d /\ tzinfo_of d = Some UTC /\ instant_of s = Some d /\
            forall off', isoformat off' d = s.
Proof.
  intros H. destruct (IsoFacts.is_utc_text_spec s H) as (d & Hv & Htz & Hf & Hi).
  exists d. split; [assumption |]. split; [assumption |].
  split; [| assumption].
  unfold instant_of. rewrite Hf. cbv beta iota delta [mbind option_bind].
  f_equal. clear Hf Hi Hv.
  destruct d as [y m dd h mi se us tz]. cbn in Htz. subst tz. reflexivity.
Qed.

Lemma reminder_of_wf_row (r : row) :
  wf_row r ->
  exists dw dc,
    reminder_of_row r = Some (mkReminder (row_id r) (row_text r) dw dc) /\
    Valid dw /\ tzinfo_of dw = Some UTC /\
    (forall off', isoformat off' dw = row_when_utc r) /\
    Valid dc /\ tzinfo_of dc = Some UTC.
Proof.
  intros [Hw Hc].
  destruct (instant_of_utc_text _ Hw) as (dw & Hvw & Htw & Hiw & Hsw).
  destruct (instant_of_utc_text _ Hc) as (dc & Hvc & Htc & Hic & Hsc).
  exists dw, dc. unfold reminder_of_row. rewrite Hiw, Hic.
  cbv beta iota delta [mbind option_bind]. tauto.
Qed.

Lemma datetime_cmp_UTC (a b : datetime) :
  tzinfo_of a = Some UTC -> tzinfo_of b = Some UTC ->
  datetime_cmp off a b = Some (cmp_fields a b).
Proof.
  intros Ha Hb. unfold datetime_cmp. rewrite Ha, Hb.
  rewrite decide_True by reflexivity. reflexivity.
Qed.

(** For two stored rows the order of the texts is Python's order of the
    instants they hold. *)
Lemma when_le_dt_le (r1 r2 : row) (R1 R2 : Reminder) :
  wf_row r1 -> wf_row r2 ->
  reminder_of_row r1 = Some R1 -> reminder_of_row r2 = Some R2 ->
  Sqlite.when_le r1 r2 -> dt_le off (when_utc R1) (when_utc R2).
Proof.
  intros W1 W2 E1 E2 Hle.
  destruct (reminder_of_wf_row r1 W1) as (d1 & c1 & F1 & Hv1 & Ht1 & Hs1 & _).
  destruct (reminder_of_wf_row r2 W2) as (d2 & c2 & F2 & Hv2 & Ht2 & Hs2 & _).
  rewrite F1 in E1. rewrite F2 in E2.
  injection E1 as <-. injection E2 as <-. cbn [when_utc].
  unfold Sqlite.when_le in Hle. apply IsoFacts.text_le_compare in Hle.
  rewrite <- (Hs1 off), <- (Hs2 off) in Hle.
  rewrite (IsoFacts.isoformat_compare off d1 d2 Hv1 Hv2 Ht1 Ht2) in Hle.
  unfold dt_le, datetime_le. rewrite (datetime_cmp_UTC d1 d2 Ht1 Ht2). cbn.
  destruct (cmp_fields d1 d2); congruence.
Qed.

Lemma StronglySorted_Forall2 {A B} (R1 : relation A) (R2 : relation B)
    (P : A -> Prop) (Q : A -> B -> Prop) (l1 : list A) (l2 : list B) :
  (forall x y x' y', P x -> P y -> Q x x' -> Q y y' -> R1 x y -> R2 x' y') ->
  Forall P l1 -> Forall2 Q l1 l2 ->
  StronglySorted R1 l1 -> StronglySorted R2 l2.
Proof.
  intros HR HP HQ. induction HQ as [| x x' l1 l2 Hx HQ IH]; intros HS.
  - constructor.
  - apply StronglySorted_inv in HS as [HS Hall].
    apply Forall_cons in HP as [Px HP].
    constructor; [auto |].
    clear IH HS. induction HQ as [| y y' l1 l2 Hy HQ IH]; constructor.
    + apply Forall_cons in HP as [Py _]. apply Forall_cons in Hall as [Hxy _].
      eauto.
    + apply Forall_cons in HP as [_ HP]. apply Forall_cons in Hall as [_ Hall].
      auto.
Qed.

Lemma list_reminders_wf (w : world) :
  wf_db (conn w) -> quiet w ->
  exists (l : list Reminder) (sorted : list row),
    list_reminders w = (Returns l, w) /\
    sorted ≡ₚ rows (conn w) /\
    mapM reminder_of_row sorted = Some l /\
    StronglySorted (fun a b => dt_le off (when_utc a) (when_utc b)) l /\
    (rows (conn w) = [] -> l = []).
Proof.
  intros (Hrows & _ & _) Hq.
  set (sorted := merge_sort Sqlite.when_le (rows (conn w))).
  assert (Hperm : sorted ≡ₚ rows (conn w)) by apply merge_sort_Permutation.
  assert (Hwf : Forall wf_row sorted) by (rewrite Hperm; exact Hrows).
  assert (Hsome : is_Some (mapM reminder_of_row sorted)).
  { apply mapM_is_Some. eapply Forall_impl; [exact Hwf |].
    intros r Hr. destruct (reminder_of_wf_row r Hr) as (? & ? & E & _).
    unfold compose. rewrite E. eauto. }
  destruct Hsome as [l Hl].
  exists l, sorted. rewrite (list_reminders_quiet w Hq). fold sorted.
  rewrite Hl. repeat split; try assumption.
  - apply mapM_Some in Hl.
    eapply (StronglySorted_Forall2 Sqlite.when_le _ wf_row
              (fun r R => reminder_of_row r = Some R) sorted l);
      [| exact Hwf | exact Hl | apply StronglySorted_merge_sort; apply _].
    intros x y x' y' Wx Wy Ex Ey Hle.
    exact (when_le_dt_le x y x' y' Wx Wy Ex Ey Hle).
  - intros Hnil. unfold sorted in Hl. rewrite Hnil in Hl.
    change (Some [] = Some l) in Hl. congruence.
Qed.


(** C3.  [add_reminder] commits the row before it arms the job, and arms
    nothing when the row is not committed.  Once [when_local] is converted:
    when the INSERT fails, the storage error reaches the caller and nothing
    has changed; when the COMMIT fails, the storage error reaches the
    caller, the row is pending on the connection but not in the file, and
    no job is armed; when both succeed, the call returns the reminder, the
    file holds the new row and the job is armed, and what the call wrote
    is, in this order, the commit of the table with the new row and then
    the job.  When the conversion fails ([OverflowError]) nothing is
    written at all. *)
Theorem add_reminder_durable_before_armed
    (task : string) (when_local utcnow : datetime) (w : world) :
  let cu := replace_tzinfo utcnow (Some UTC) in
  let rid := Sqlite.next_rowid (conn w) in
  (astimezone_UTC off (localized when_local) = None ->
   add_reminder task when_local utcnow w = (Raises OverflowError, w)) /\
  (forall wu, astimezone_UTC off (localized when_local) = Some wu ->
   let new := mkrow rid task (isoformat off wu) (isoformat off cu) in
   let db := mkdb (rows (conn w) ++ [new]) rid in
   let j := mkjob wu (rid, task) in
   (forall fs, faults w = true :: fs ->
      add_reminder task when_local utcnow w
      = (Raises sqlite3_Error, with_faults w fs)) /\
   (forall fs, faults w = false :: true :: fs ->
      exists w',
        add_reminder task when_local utcnow w = (Raises sqlite3_Error, w') /\
        conn w' = db /\ disk w' = disk w /\ jobs w' = jobs w /\
        journal w' = journal w) /\
   (Forall (fun b => b = false) (take 2 (faults w)) ->
      exists w',
        add_reminder task when_local utcnow w
        = (Returns (mkReminder rid task wu cu), w') /\
        conn w' = db /\ disk w' = db /\ new ∈ rows (disk w') /\
        jobs w' = <[job_id rid := j]> (jobs w) /\
        journal w' = journal w ++ [Committed db; Armed (job_id rid) j])).
Proof.
  intros cu rid. unfold ReminderManager.add_reminder.
  fold (localized when_local). split.
  - intros ->. reflexivity.
  - intros wu ->. cbv zeta. subst cu rid.
    destruct w as [c d j s f jl]. cbn [faults conn disk jobs journal].
    split; [| split].
    + intros fs ->. reflexivity.
    + intros fs ->. eexists. split; [reflexivity |]. repeat split.
    + intros Hok.
      destruct f as [| [] [| [] f]];
        try (exfalso; cbn in Hok;
             repeat match goal with
                    | H : Forall _ (_ :: _) |- _ =>
                        apply Forall_cons in H as [? H]
                    end; discriminate).
      all: run; eexists; split; [reflexivity |];
           cbn [conn disk jobs journal rows];
           repeat split;
           try (apply elem_of_app; right; apply list_elem_of_singleton;
                reflexivity);
           rewrite <- app_assoc; reflexivity.
Qed.

Lemma list_reminders_cases (w : world) :
  list_reminders w =
  let listing :=
    lifted ValueError
      (mapM reminder_of_row (merge_sort Sqlite.when_le (rows (conn w)))) in
  match faults w with
  | true :: fs => (Raises sqlite3_Error, with_faults w fs)
  | false :: fs => (listing, with_faults w fs)
  | [] => (listing, w)
  end.
Proof.
  assert (Hbody : forall r w0,
    (x <- ReminderManager.fromiso_utc (row_when_utc r) ;;
     c <- ReminderManager.fromiso_utc (row_created_utc r) ;;
     ret (mkReminder (row_id r) (row_text r) x c)) w0
    = (lifted ValueError (reminder_of_row r), w0)).
  { intros r w0. unfold bind at 1. rewrite fromiso_utc_run.
    unfold reminder_of_row.
    destruct (instant_of (row_when_utc r)) as [dw |];
      cbv beta iota delta [lifted mbind option_bind]; [| reflexivity].
    unfold bind at 1. rewrite fromiso_utc_run.
    destruct (instant_of (row_created_utc r)) as [dc |]; reflexivity. }
  unfold ReminderManager.list_reminders, Sqlite.execute_select_ordered.
  destruct w as [c d j s [| [] fs]];
    unfold bind at 1; unfold bind at 1;
    cbv beta iota delta [Sqlite.step faults conn disk jobs spoken];
    try reflexivity;
    unfold bind at 1; cbv beta iota delta [Sqlite.get_conn ret];
    rewrite (map_each_lifted _ reminder_of_row ValueError Hbody); reflexivity.
Qed.

(** The listing only looks at the connection and the coming faults. *)
Lemma list_reminders_frame (w1 w2 : world) :
  conn w1 = conn w2 -> faults w1 = faults w2 ->
  fst (list_reminders w1) = fst (list_reminders w2).
Proof.
  intros Hc Hf. rewrite !list_reminders_cases. cbv zeta.
  rewrite Hc, Hf. destruct (faults w2) as [| [] fs]; reflexivity.
Qed.

Lemma scheduler_fire_effect (jid : string) (w : world) :
  let w' := snd (scheduler_fire jid w) in
  conn w' = conn w /\ disk w' = disk w /\
  jobs w' = delete jid (jobs w) /\ faults w' = faults w /\
  match jobs w !! jid with
  | Some j => spoken w' = spoken w ++ ["Reminder: " +:+ snd (job_args j)]
  | None => spoken w' = spoken w
  end.
Proof.
  unfold scheduler_fire. destruct w as [c d j s f]. run.
  destruct (j !! jid) as [jb |] eqn:Ej; cbn.
  - repeat split.
  - repeat split; try (symmetry; apply delete_id; assumption).
Qed.

(** C8.  Firing a reminder only speaks: [_alert] hands "Reminder: <text>"
    to the notifier and leaves the table, the database file and the job
    store as they were, so the listing is the same before and after; the
    same holds when the scheduler runs the job, which only drops that job
    from its own store.  The row stays until [delete_reminder] removes
    it. *)
Theorem alert_only_notifies (reminder_id : Z) (task : string) (jid : string)
    (w : world) :
  _alert reminder_id task w
    = (Returns tt,
       mkworld (conn w) (disk w) (jobs w)
               (spoken w ++ ["Reminder: " +:+ task]) (faults w)
               (journal w)) /\
  fst (list_reminders (snd (_alert reminder_id task w)))
    = fst (list_reminders w) /\
  (let w' := snd (scheduler_fire jid w) in
   conn w' = conn w /\ disk w' = disk w /\
   jobs w' = delete jid (jobs w) /\
   fst (list_reminders w') = fst (list_reminders w) /\
   match jobs w !! jid with
   | Some j => spoken w' = spoken w ++ ["Reminder: " +:+ snd (job_args j)]
   | None => spoken w' = spoken w
   end).
Proof.
  split; [reflexivity |]. split; [apply list_reminders_frame; reflexivity |].
  destruct (scheduler_fire_effect jid w) as (Hc & Hd & Hj & Hf & Hs).
  cbv zeta. repeat split; try assumption.
  apply list_reminders_frame; assumption.
Qed.

Lemma filter_all {A} (P : A -> Prop) `{!forall x, Decision (P x)}
    (l : list A) :
  Forall P l -> filter P l = l.
Proof.
  induction 1 as [| x l Hx Hl IH]; [reflexivity |].
  rewrite filter_cons_True by assumption. f_equal. exact IH.
Qed.

Lemma rowcount_positive (rid : Z) (l : list row) :
  (0 <? Z.of_nat (length l)
        - Z.of_nat (length (filter (fun r => row_id r ≠ rid) l))) = true
  <-> exists r, r ∈ l /\ row_id r = rid.
Proof.
  rewrite Z.ltb_lt. split.
  - intros Hlt.
    destruct (decide (Forall (fun r => row_id r ≠ rid) l)) as [Hall | Hex].
    + rewrite (filter_all _ l Hall) in Hlt. lia.
    + apply not_Forall_Exists in Hex; [| apply _].
      apply Exists_exists in Hex as (r & Hr & Hid).
      exists r. split; [assumption |].
      destruct (decide (row_id r = rid)); [assumption | contradiction].
  - intros (r & Hr & Hid).
    pose proof (length_filter_lt (fun r => row_id r ≠ rid) l r Hr) as H.
    cbn in H. specialize (H ltac:(intros Hn; apply Hn; exact Hid)). lia.
Qed.

(** ** Ids SQLite can hold *)

Lemma bind_int_ok (n : Z) :
  - 2 ^ 63 <= n < 2 ^ 63 -> ((- 2 ^ 63 <=? n) && (n <? 2 ^ 63)) = true.
Proof. intros H. apply andb_true_iff. split; [apply Z.leb_le | apply Z.ltb_lt]; lia. Qed.

Lemma bind_int_overflow (n : Z) :
  ~ - 2 ^ 63 <= n < 2 ^ 63 -> ((- 2 ^ 63 <=? n) && (n <? 2 ^ 63)) = false.
Proof.
  intros H. apply andb_false_iff.
  destruct (Z.leb_spec (- 2 ^ 63) n); [| left; reflexivity].
  right. apply Z.ltb_ge. lia.
Qed.

(** An id outside the signed 64-bit range never reaches the table. *)
Lemma delete_reminder_overflow (rid : Z) (w : world) :
  ~ - 2 ^ 63 <= rid < 2 ^ 63 ->
  delete_reminder rid w = (Raises OverflowError, w).
Proof.
  intros H. unfold ReminderManager.delete_reminder, Sqlite.execute_delete.
  run. rewrite (bind_int_overflow rid H). reflexivity.
Qed.

(** C4 (amended).  For an id SQLite can hold (a signed 64-bit integer),
    [delete_reminder] returns [True] exactly when a row with that id was
    in the table, and then the row is gone from table and file; for an
    id that is not there it returns [False] without raising and the table,
    hence the listing, is unchanged.  The job of that id is removed from
    the scheduler whenever it is there, and a cancellation that fails (no
    such job) is swallowed: the only error [delete_reminder] then raises
    is the storage error of the DELETE or of the COMMIT.  For an id
    outside that range the binding of the parameter raises
    [OverflowError], and nothing is changed. *)
Theorem delete_reminder_result (rid : Z) (w : world) :
  (~ - 2 ^ 63 <= rid < 2 ^ 63 ->
   delete_reminder rid w = (Raises OverflowError, w)) /\
  (- 2 ^ 63 <= rid < 2 ^ 63 ->
   (forall e w', delete_reminder rid w = (Raises e, w') ->
      e = sqlite3_Error /\ ~ quiet w) /\
   (quiet w ->
    exists b w',
      delete_reminder rid w = (Returns b, w') /\
      (b = true <-> exists r, r ∈ rows (conn w) /\ row_id r = rid) /\
      rows (conn w') = filter (fun r => row_id r ≠ rid) (rows (conn w)) /\
      (forall r, r ∈ rows (conn w') -> row_id r ≠ rid) /\
      disk w' = conn w' /\
      jobs w' = delete (job_id rid) (jobs w) /\
      (b = false ->
         conn w' = conn w /\
         fst (list_reminders w') = fst (list_reminders w)))).
Proof.
  split; [apply delete_reminder_overflow |]. intros Hrid.
  pose proof (bind_int_ok rid Hrid) as Hbind.
  unfold ReminderManager.delete_reminder, Sqlite.execute_delete, quiet.
  destruct w as [c d j s f jl]. split.
  - intros e w'.
    destruct f as [| [] [| [] f]]; run; rewrite Hbind;
      cbv beta iota; destruct (j !! job_id rid); intros [= <- <-];
      split; try reflexivity; discriminate.
  - cbn [faults]. intros ->. run. rewrite Hbind. cbv beta iota.
    set (kept := filter (fun r => row_id r ≠ rid) (rows c)).
    eexists _, (mkworld (mkdb kept (sqlite_sequence c))
                        (mkdb kept (sqlite_sequence c))
                        (delete (job_id rid) j) s []
                        (jl ++ [Committed (mkdb kept (sqlite_sequence c))])).
    split.
    { destruct (j !! job_id rid) eqn:Ej; [reflexivity |].
      rewrite (delete_id j _ Ej). reflexivity. }
    split; [apply rowcount_positive |].
    split; [reflexivity |].
    split.
    { intros r Hr. cbn in Hr. subst kept.
      apply list_elem_of_filter in Hr. tauto. }
    split; [reflexivity |]. split; [reflexivity |].
    intros Hb.
    assert (Hkept : kept = rows c).
    { subst kept. apply filter_all, Forall_forall.
      intros r Hr.
      destruct (decide (row_id r = rid)) as [E | N]; [| exact N].
      exfalso.
      assert (Ht : (0 <? Z.of_nat (length (rows c)) - Z.of_nat (length
                 (filter (fun r => row_id r ≠ rid) (rows c)))) = true)
        by (apply rowcount_positive; eauto).
      pose proof (eq_trans (eq_sym Ht) Hb) as Habs. discriminate Habs. }
    assert (Hconn : mkdb kept (sqlite_sequence c) = c)
      by (rewrite Hkept; destruct c; reflexivity).
    split; [exact Hconn |].
    apply list_reminders_frame; [exact Hconn | reflexivity].
Qed.

Lemma astimezone_UTC_tzinfo (d r : datetime) :
  astimezone_UTC off d = Some r -> tzinfo_of r = Some UTC.
Proof.
  unfold astimezone_UTC.
  destruct (tzinfo_of d) as [[| |] |] eqn:Etz;
    try (intros [= <-]; exact Etz);
    destruct (timedelta_add d _); cbn; intros [= <-]; reflexivity.
Qed.

Lemma add_reminder_returns (text : string) (when_local utcnow : datetime)
    (w w' : world) (r : Reminder) :
  add_reminder text when_local utcnow w = (Returns r, w') ->
  exists wu,
    astimezone_UTC off (localized when_local) = Some wu /\
    r = mkReminder (Sqlite.next_rowid (conn w)) text wu
          (replace_tzinfo utcnow (Some UTC)) /\
    conn w' = mkdb (rows (conn w) ++
                    [mkrow (id r) text (isoformat off wu)
                       (isoformat off (replace_tzinfo utcnow (Some UTC)))])
                   (id r) /\
    disk w' = conn w' /\
    jobs w' = <[job_id (id r) := mkjob wu (id r, text)]> (jobs w) /\
    spoken w' = spoken w.
Proof.
  unfold ReminderManager.add_reminder. fold (localized when_local).
  destruct w as [c d j s f].
  destruct (astimezone_UTC off (localized when_local)) as [wu |] eqn:Ewu;
    [| run; discriminate].
  destruct f as [| [] [| [] f]]; run; intros [= <- <-];
    exists wu; repeat split; reflexivity.
Qed.

Lemma timedelta_add_valid (d r : datetime) (us : Z) :
  timedelta_add d us = Some r -> Valid r.
Proof.
  unfold timedelta_add. cbv zeta.
  destruct ((0 <? _) && (_ <=? MAXORDINAL)); [| discriminate].
  destruct (ord2ymd _) as [[y m] dd].
  match goal with
  | |- (if valid_fields ?x then _ else _) = _ -> _ =>
      destruct (valid_fields x) eqn:Ev; [| discriminate]
  end.
  intros [= <-]. apply TimeFacts.valid_fields_spec. exact Ev.
Qed.

Lemma astimezone_UTC_valid (d r : datetime) :
  Valid d -> astimezone_UTC off d = Some r -> Valid r.
Proof.
  intros Hv. unfold astimezone_UTC.
  destruct (tzinfo_of d) as [[| |] |];
    try (intros [= <-]; exact Hv);
    destruct (timedelta_add d _) as [r0 |] eqn:E; cbn; intros [= <-];
    exact (timedelta_add_valid _ _ _ E).
Qed.

Lemma add_reminder_quiet (text : string) (when_local utcnow wu : datetime)
    (w : world) :
  quiet w ->
  astimezone_UTC off (localized when_local) = Some wu ->
  let rid := Sqlite.next_rowid (conn w) in
  let cu := replace_tzinfo utcnow (Some UTC) in
  let db := mkdb (rows (conn w) ++
                  [mkrow rid text (isoformat off wu) (isoformat off cu)]) rid in
  add_reminder text when_local utcnow w
  = (Returns (mkReminder rid text wu cu),
     mkworld db db (<[job_id rid := mkjob wu (rid, text)]> (jobs w))
             (spoken w) []
             (journal w ++ [Committed db;
                            Armed (job_id rid) (mkjob wu (rid, text))])).
Proof.
  unfold quiet. destruct w as [c d j s f jl]. cbn [faults]. intros -> Hwu.
  unfold ReminderManager.add_reminder. fold (localized when_local).
  rewrite Hwu. run. rewrite <- app_assoc. reflexivity.
Qed.

(** C10.  Reminders cross the interface normalised to UTC.  A naive
    [when_local] is read as being in the process zone [USER_TZ]: the call
    behaves exactly as with that zone attached.  With storage working and
    the conversion within the calendar, [add_reminder] returns a reminder
    whose [when_utc] is the conversion of [when_local] to UTC and whose
    [created_utc] is the reading of the UTC clock, both carrying
    [tzinfo = UTC]; whenever it returns, that is what it returns.  On a
    table the program wrote, [list_reminders] returns one reminder per
    row, and every reminder it returns, on any table, carries
    [tzinfo = UTC] in [when_utc] and in [created_utc]. *)
Theorem reminders_are_utc (text : string) (when_local utcnow : datetime)
    (w : world) :
  (tzinfo_of when_local = None ->
     add_reminder text when_local utcnow w
     = add_reminder text (replace_tzinfo when_local (Some USER_TZ)) utcnow w) /\
  (forall wu, quiet w ->
     astimezone_UTC off (localized when_local) = Some wu ->
     exists r w',
       add_reminder text when_local utcnow w = (Returns r, w') /\
       when_utc r = wu /\ tzinfo_of (when_utc r) = Some UTC /\
       created_utc r = replace_tzinfo utcnow (Some UTC) /\
       tzinfo_of (created_utc r) = Some UTC) /\
  (forall r w', add_reminder text when_local utcnow w = (Returns r, w') ->
     astimezone_UTC off (localized when_local) = Some (when_utc r) /\
     tzinfo_of (when_utc r) = Some UTC /\
     created_utc r = replace_tzinfo utcnow (Some UTC) /\
     tzinfo_of (created_utc r) = Some UTC) /\
  (wf_db (conn w) -> quiet w ->
     exists l,
       list_reminders w = (Returns l, w) /\
       length l = length (rows (conn w)) /\
       Forall (fun r => tzinfo_of (when_utc r) = Some UTC /\
                        tzinfo_of (created_utc r) = Some UTC) l) /\
  (forall l w', list_reminders w = (Returns l, w') ->
     Forall (fun r => tzinfo_of (when_utc r) = Some UTC /\
                      tzinfo_of (created_utc r) = Some UTC) l).
Proof.
  assert (Hall : forall sorted l0, mapM reminder_of_row sorted = Some l0 ->
            Forall (fun r => tzinfo_of (when_utc r) = Some UTC /\
                             tzinfo_of (created_utc r) = Some UTC) l0).
  { intros sorted l0 Hl0. apply mapM_Some in Hl0.
    induction Hl0 as [| x y xs ys Hxy _ IH]; constructor; [| exact IH].
    unfold reminder_of_row, instant_of in Hxy.
    destruct (fromisoformat (row_when_utc x)); [| discriminate].
    destruct (fromisoformat (row_created_utc x)); [| discriminate].
    cbv beta iota delta [mbind option_bind] in Hxy.
    injection Hxy as <-. split; reflexivity. }
  split; [| split; [| split; [| split]]].
  - intros Hnaive. unfold ReminderManager.add_reminder.
    rewrite Hnaive. reflexivity.
  - intros wu Hq Hwu. eexists _, _.
    split; [exact (add_reminder_quiet text when_local utcnow wu w Hq Hwu) |].
    cbn [when_utc created_utc].
    split; [reflexivity |].
    split; [exact (astimezone_UTC_tzinfo _ _ Hwu) |]. split; reflexivity.
  - intros r w' Hadd.
    destruct (add_reminder_returns _ _ _ _ _ _ Hadd) as (wu & Hwu & -> & _).
    cbn [when_utc created_utc].
    split; [exact Hwu |].
    split; [exact (astimezone_UTC_tzinfo _ _ Hwu) |]. split; reflexivity.
  - intros Hwf Hq.
    destruct (list_reminders_wf w Hwf Hq) as (l & sorted & Hl & Hperm & Hm & _).
    exists l. split; [exact Hl |]. split; [| exact (Hall sorted l Hm)].
    apply mapM_Some, Forall2_length in Hm. rewrite <- Hm, Hperm. reflexivity.
  - intros l w'. rewrite list_reminders_cases. cbv zeta.
    set (sorted := merge_sort Sqlite.when_le (rows (conn w))).
    pose proof (Hall sorted) as Hs.
    destruct (faults w) as [| [] fs];
      destruct (mapM reminder_of_row sorted) as [l0 |];
      cbn [lifted]; intros [= <- <-] || discriminate; auto.
Qed.

Lemma max_rowid_ge (l : list row) (r : row) :
  r ∈ l -> row_id r <= Sqlite.max_rowid l.
Proof.
  unfold Sqlite.max_rowid.
  induction l as [| x l IH]; [intros H; inversion H |].
  intros H. apply elem_of_cons in H as [-> | H]; cbn [fold_right].
  - lia.
  - specialize (IH H). lia.
Qed.

Lemma max_rowid_nonneg (l : list row) : 0 <= Sqlite.max_rowid l.
Proof.
  unfold Sqlite.max_rowid.
  induction l as [| x l IH]; cbn [fold_right]; lia.
Qed.

Lemma next_rowid_fresh (db : database) :
  0 < Sqlite.next_rowid db /\ sqlite_sequence db < Sqlite.next_rowid db /\
  forall r, r ∈ rows db -> row_id r < Sqlite.next_rowid db.
Proof.
  unfold Sqlite.next_rowid. pose proof (max_rowid_nonneg (rows db)).
  repeat split; try lia.
  intros r Hr. pose proof (max_rowid_ge _ _ Hr). lia.
Qed.

(** Inserting a UTC instant keeps the table well formed. *)
Lemma wf_db_insert (db : database) (text : string) (wu cu : datetime) :
  wf_db db -> Valid wu -> tzinfo_of wu = Some UTC ->
  Valid cu -> tzinfo_of cu = Some UTC ->
  wf_db (mkdb (rows db ++ [mkrow (Sqlite.next_rowid db) text
                             (isoformat off wu) (isoformat off cu)])
              (Sqlite.next_rowid db)).
Proof.
  intros (Hrows & Hnd & Hle) Hvw Htw Hvc Htc.
  destruct (next_rowid_fresh db) as (_ & _ & Hfresh).
  unfold wf_db. cbn [rows sqlite_sequence]. repeat split.
  - apply Forall_app. split; [exact Hrows |].
    constructor; [| constructor]. split; cbn.
    + apply IsoFacts.is_utc_text_isoformat; assumption.
    + apply IsoFacts.is_utc_text_isoformat; assumption.
  - rewrite fmap_app. apply NoDup_app. split; [exact Hnd |]. split.
    + intros x Hx Hx'. apply list_elem_of_singleton in Hx'. subst x.
      apply list_elem_of_fmap in Hx as (r & Hr & Hin).
      cbn [row_id] in Hr. specialize (Hfresh r Hin). lia.
    + cbn. apply NoDup_singleton.
  - apply Forall_app. split.
    + apply Forall_forall. intros r Hr. specialize (Hfresh r Hr). lia.
    + constructor; [cbn; lia | constructor].
Qed.

Lemma reminder_or_filler_id_text (r : row) :
  id (reminder_or_filler r) = row_id r /\
  text (reminder_or_filler r) = row_text r.
Proof.
  unfold reminder_or_filler, reminder_of_row.
  destruct (instant_of (row_when_utc r));
    cbv beta iota delta [mbind option_bind default]; [| split; reflexivity].
  destruct (instant_of (row_created_utc r)); split; reflexivity.
Qed.

Lemma mapM_reminder_fmap (l : list row) (k : list Reminder) :
  mapM reminder_of_row l = Some k -> k = reminder_or_filler <$> l.
Proof.
  intros H. apply mapM_Some in H.
  induction H as [| x y xs ys Hxy _ IH]; [reflexivity |].
  rewrite fmap_cons. unfold reminder_or_filler at 1. rewrite Hxy.
  change (default _ (Some y)) with y. f_equal. exact IH.
Qed.

Lemma filter_none {A} (P : A -> Prop) `{!forall x, Decision (P x)}
    (l : list A) :
  Forall (fun x => ~ P x) l -> filter P l = [].
Proof.
  induction 1 as [| x l Hx Hl IH]; [reflexivity |].
  rewrite filter_cons_False by assumption. exact IH.
Qed.

Lemma instant_of_isoformat (d : datetime) :
  Valid d -> tzinfo_of d = Some UTC -> instant_of (isoformat off d) = Some d.
Proof.
  intros Hv Htz. unfold instant_of.
  rewrite (IsoFacts.fromisoformat_isoformat off d Hv Htz).
  cbv beta iota delta [mbind option_bind]. f_equal.
  clear Hv. destruct d as [y m dd h mi se us tz]. cbn in Htz. subst tz.
  reflexivity.
Qed.

(** C6 (amended).  Round trip: on a table the program wrote, with storage
    working, [add_reminder] of a valid [(task, when_local)] returns a
    reminder with a positive id, and the listing that follows contains
    exactly one entry with that id, the returned reminder itself, whose
    [when_utc] is the UTC conversion of [when_local] (to the microsecond).
    It is the only entry with that text when no row stored before carries
    the same text, and the only entry with that text and that instant when
    no row stored before carries both. *)
Theorem add_then_list_round_trip (task : string)
    (when_local utcnow wu : datetime) (w : world) :
  wf_db (conn w) -> quiet w -> Valid when_local -> Valid utcnow ->
  astimezone_UTC off (localized when_local) = Some wu ->
  exists (r : Reminder) (w1 : world) (l : list Reminder),
    add_reminder task when_local utcnow w = (Returns r, w1) /\
    0 < id r /\ text r = task /\ when_utc r = wu /\
    list_reminders w1 = (Returns l, w1) /\
    filter (fun x => id x = id r) l = [r] /\
    ((forall x, x ∈ rows (conn w) -> row_text x ≠ task) ->
     filter (fun x => text x = task) l = [r]) /\
    ((forall x, x ∈ rows (conn w) -> row_text x = task ->
        instant_of (row_when_utc x) ≠ Some wu) ->
     filter (fun x => text x = task /\ when_utc x = wu) l = [r]).
Proof.
  intros Hwf Hq Hvl Hvn Hwu.
  assert (Hvloc : Valid (localized when_local)).
  { unfold localized. destruct (tzinfo_of when_local); exact Hvl. }
  pose proof (astimezone_UTC_valid _ _ Hvloc Hwu) as Hvwu.
  pose proof (astimezone_UTC_tzinfo _ _ Hwu) as Htwu.
  set (cu := replace_tzinfo utcnow (Some UTC)).
  assert (Hvcu : Valid cu) by exact Hvn.
  set (rid := Sqlite.next_rowid (conn w)).
  set (new := mkrow rid task (isoformat off wu) (isoformat off cu)).
  set (db := mkdb (rows (conn w) ++ [new]) rid).
  set (r := mkReminder rid task wu cu).
  set (w1 := mkworld db db (<[job_id rid := mkjob wu (rid, task)]> (jobs w))
                     (spoken w) []
                     (journal w ++ [Committed db;
                                    Armed (job_id rid) (mkjob wu (rid, task))])).
  assert (Hwf1 : wf_db (conn w1))
    by (apply wf_db_insert; auto).
  destruct (list_reminders_wf w1 Hwf1 eq_refl)
    as (l & sorted & Hlist & Hperm & Hl & _ & _).
  destruct (next_rowid_fresh (conn w)) as (Hpos & _ & Hfresh).
  exists r, w1, l.
  split; [exact (add_reminder_quiet task when_local utcnow wu w Hq Hwu) |].
  split; [exact Hpos |]. split; [reflexivity |]. split; [reflexivity |].
  split; [exact Hlist |].
  apply mapM_reminder_fmap in Hl.
  assert (Hnew : reminder_or_filler new = r).
  { unfold reminder_or_filler, reminder_of_row. cbn [row_when_utc row_created_utc new].
    rewrite (instant_of_isoformat wu Hvwu Htwu).
    rewrite (instant_of_isoformat cu Hvcu eq_refl). reflexivity. }
  assert (Hl' : l ≡ₚ (reminder_or_filler <$> rows (conn w)) ++ [r]).
  { rewrite Hl, Hperm. cbn [conn w1 rows db].
    rewrite fmap_app. cbn [fmap list_fmap]. rewrite Hnew. reflexivity. }
  split.
  - apply Permutation_singleton_r. rewrite Hl', filter_app.
    rewrite (filter_none (fun x => id x = id r)).
    + cbn [app]. rewrite filter_cons_True by reflexivity. reflexivity.
    + apply Forall_fmap, Forall_forall. intros x Hx.
      cbv beta delta [compose].
      destruct (reminder_or_filler_id_text x) as [-> _].
      specialize (Hfresh x Hx). cbn [id r]. fold rid in Hfresh. lia.
  - split.
    + intros Hfreshtext.
      apply Permutation_singleton_r. rewrite Hl', filter_app.
      rewrite (filter_none (fun x => text x = task)).
      * cbn [app]. rewrite filter_cons_True by reflexivity. reflexivity.
      * apply Forall_fmap, Forall_forall. intros x Hx.
        cbv beta delta [compose].
        destruct (reminder_or_filler_id_text x) as [_ ->]. auto.
    + intros Hfreshpair.
      apply Permutation_singleton_r. rewrite Hl', filter_app.
      rewrite (filter_none (fun x => text x = task /\ when_utc x = wu)).
      * cbn [app]. rewrite filter_cons_True by (split; reflexivity).
        reflexivity.
      * apply Forall_fmap, Forall_forall. intros x Hx.
        cbv beta delta [compose]. intros [Htext Hwhen].
        destruct (reminder_or_filler_id_text x) as [_ Etext].
        rewrite Etext in Htext.
        destruct Hwf as (Hrows & _).
        assert (Hwx : wf_row x) by (eapply Forall_forall in Hrows; eauto).
        destruct (reminder_of_wf_row x Hwx) as (dw & dc & Hrem & _).
        apply (Hfreshpair x Hx Htext).
        unfold reminder_or_filler in Hwhen. rewrite Hrem in Hwhen.
        cbn in Hwhen. subst dw.
        unfold reminder_of_row in Hrem.
        destruct (instant_of (row_when_utc x)) as [y |]; [| discriminate].
        destruct (instant_of (row_created_utc x)) as [z |]; [| discriminate].
        cbv beta iota delta [mbind option_bind] in Hrem. congruence.
Qed.

(** ** Every way a call can end *)

Lemma add_reminder_cases (task : string) (when_local utcnow : datetime)
    (w : world) :
  exists fs,
    add_reminder task when_local utcnow w
      = (Raises OverflowError, with_faults w fs) \/
    add_reminder task when_local utcnow w
      = (Raises sqlite3_Error, with_faults w fs) \/
    exists wu,
      astimezone_UTC off (localized when_local) = Some wu /\
      let rid := Sqlite.next_rowid (conn w) in
      let cu := replace_tzinfo utcnow (Some UTC) in
      let db := mkdb (rows (conn w) ++
                      [mkrow rid task (isoformat off wu) (isoformat off cu)])
                     rid in
      add_reminder task when_local utcnow w
        = (Raises sqlite3_Error,
           mkworld db (disk w) (jobs w) (spoken w) fs (journal w)) \/
      add_reminder task when_local utcnow w
        = (Returns (mkReminder rid task wu cu),
           mkworld db db (<[job_id rid := mkjob wu (rid, task)]> (jobs w))
                   (spoken w) fs
                   (journal w ++ [Committed db;
                                  Armed (job_id rid) (mkjob wu (rid, task))])).
Proof.
  unfold ReminderManager.add_reminder. fold (localized when_local).
  destruct w as [c d j s f jl].
  destruct (astimezone_UTC off (localized when_local)) as [wu |];
    [| exists f; left; reflexivity].
  destruct f as [| [] [| [] f]];
    eexists; first
      [ right; left; reflexivity
      | right; right; exists wu; split; [reflexivity |]; left; reflexivity
      | right; right; exists wu; split; [reflexivity |]; right;
        run; rewrite <- app_assoc; reflexivity ].
Qed.

Lemma delete_reminder_cases (rid : Z) (w : world) :
  let db := mkdb (filter (fun r => row_id r ≠ rid) (rows (conn w)))
                 (sqlite_sequence (conn w)) in
  exists fs,
    (exists e, delete_reminder rid w = (Raises e, with_faults w fs)) \/
    delete_reminder rid w
      = (Raises sqlite3_Error,
         mkworld db (disk w) (jobs w) (spoken w) fs (journal w)) \/
    exists b,
      delete_reminder rid w
        = (Returns b,
           mkworld db db (delete (job_id rid) (jobs w)) (spoken w) fs
                   (journal w ++ [Committed db])).
Proof.
  destruct (decide (- 2 ^ 63 <= rid < 2 ^ 63)) as [Hrid | Hrid].
  - pose proof (bind_int_ok rid Hrid) as Hbind.
    unfold ReminderManager.delete_reminder, Sqlite.execute_delete.
    destruct w as [c d j s f jl].
    destruct f as [| [] [| [] f]]; run; rewrite Hbind; cbv beta iota;
      eexists; first
        [ left; eexists; reflexivity
        | right; left; reflexivity
        | right; right; eexists;
          destruct (j !! job_id rid) eqn:Ej;
            [reflexivity | rewrite (delete_id j _ Ej); reflexivity] ].
  - exists (faults w). left. exists OverflowError.
    rewrite (delete_reminder_overflow rid w Hrid). destruct w; reflexivity.
Qed.

Lemma list_reminders_state (w : world) :
  exists fs, snd (list_reminders w) = with_faults w fs.
Proof.
  rewrite list_reminders_cases. cbv zeta.
  destruct w as [c d j s [| [] fs]]; eexists; reflexivity.
Qed.

(** ** Job ids *)

Lemma string_app_inv_head (p s t : string) : p +:+ s = p +:+ t -> s = t.
Proof.
  induction p as [| c p IH]; cbn; [auto |]. intros [= H]. auto.
Qed.

Lemma str_int_inj (a b : Z) : str_int a = str_int b -> a = b.
Proof.
  unfold str_int. intros H. apply DecimalZ.to_int_inj.
  pose proof (NilEmpty.isi (Z.to_int a)) as Ha.
  pose proof (NilEmpty.isi (Z.to_int b)) as Hb.
  rewrite H in Ha. congruence.
Qed.

(** Distinct reminders have distinct job ids. *)
Lemma job_id_inj (a b : Z) : job_id a = job_id b -> a = b.
Proof.
  unfold job_id. intros H. apply str_int_inj.
  exact (string_app_inv_head _ _ _ H).
Qed.

(** ** Startup recovery *)

Local Abbreviation __init__ := (ReminderManager.__init__ off).

Lemma reschedule_body_wf (now_utc : datetime) (r : row) (w0 : world) :
  wf_row r -> tzinfo_of now_utc = Some UTC ->
  (when_utc <- ReminderManager.fromiso_utc (row_when_utc r) ;;
   later <- lift_or TypeError (datetime_gt off when_utc now_utc) ;;
   if later : bool then
     created <- ReminderManager.fromiso_utc (row_created_utc r) ;;
     _schedule_job (mkReminder (row_id r) (row_text r) when_utc created)
   else ret tt) w0
  = (Returns tt,
     mkworld (conn w0) (disk w0) (arm off now_utc (jobs w0) r) (spoken w0)
             (faults w0) (journal w0 ++ arm_event off now_utc r)).
Proof.
  intros Hwf Hnow.
  destruct (reminder_of_wf_row r Hwf) as (dw & dc & Hrem & Hvw & Htw & _).
  assert (Hiw : instant_of (row_when_utc r) = Some dw /\
                instant_of (row_created_utc r) = Some dc).
  { unfold reminder_of_row in Hrem.
    destruct (instant_of (row_when_utc r)) as [x |]; [| discriminate].
    destruct (instant_of (row_created_utc r)) as [y |]; [| discriminate].
    cbv beta iota delta [mbind option_bind] in Hrem.
    injection Hrem as -> ->. split; reflexivity. }
  destruct Hiw as [Hiw Hic].
  unfold arm, arm_event, due_later. rewrite Hrem, Hiw.
  unfold bind at 1. rewrite fromiso_utc_run, Hiw.
  cbv beta iota delta [lifted].
  unfold datetime_gt. rewrite (datetime_cmp_UTC dw now_utc Htw Hnow).
  cbv beta iota delta [mbind option_bind default from_option].
  unfold bind at 1. cbv beta iota delta [lift_or ret].
  destruct (cmp_fields dw now_utc).
  - destruct w0; cbn; rewrite app_nil_r; reflexivity.
  - destruct w0; cbn; rewrite app_nil_r; reflexivity.
  - unfold bind at 1. rewrite fromiso_utc_run, Hic.
    cbv beta iota delta [lifted]. destruct w0; reflexivity.
Qed.

Lemma for_each_arm (now_utc : datetime) (l : list row) :
  Forall wf_row l -> tzinfo_of now_utc = Some UTC ->
  forall w0,
    for_each l (fun r =>
      when_utc <- ReminderManager.fromiso_utc (row_when_utc r) ;;
      later <- lift_or TypeError (datetime_gt off when_utc now_utc) ;;
      if later : bool then
        created <- ReminderManager.fromiso_utc (row_created_utc r) ;;
        _schedule_job (mkReminder (row_id r) (row_text r) when_utc created)
      else ret tt) w0
    = (Returns tt,
       mkworld (conn w0) (disk w0) (foldl (arm off now_utc) (jobs w0) l)
               (spoken w0) (faults w0)
               (journal w0 ++ concat (arm_event off now_utc <$> l))).
Proof.
  intros Hall Hnow. induction Hall as [| r l Hr Hl IH]; intros w0.
  - destruct w0; cbn; rewrite app_nil_r; reflexivity.
  - cbn [for_each foldl]. unfold bind at 1.
    rewrite (reschedule_body_wf now_utc r w0 Hr Hnow).
    rewrite IH. cbn [conn disk jobs spoken faults journal].
    rewrite fmap_cons. cbn [concat]. rewrite app_assoc. reflexivity.
Qed.

Lemma init_quiet (utcnow : datetime) (w : world) :
  wf_db (disk w) -> quiet w ->
  __init__ utcnow w
  = (Returns tt,
     mkworld (disk w) (disk w)
       (foldl (arm off (replace_tzinfo utcnow (Some UTC))) ∅ (rows (disk w)))
       (spoken w) []
       (journal w ++ Committed (disk w)
          :: concat (arm_event off (replace_tzinfo utcnow (Some UTC))
                       <$> rows (disk w)))).
Proof.
  intros (Hrows & _) Hq. unfold quiet in Hq.
  destruct w as [c d j s f jl]. cbn [faults disk journal spoken] in *. subst f.
  unfold ReminderManager.__init__, ReminderManager._reschedule_existing.
  unfold bind at 1. cbn [Sqlite.connect disk jobs spoken faults journal].
  unfold bind at 1.
  cbn [Sqlite.execute_create_table Sqlite.step faults].
  unfold bind at 1. unfold Sqlite.commit at 1. unfold bind at 1.
  cbn [Sqlite.step faults conn disk jobs spoken journal].
  unfold bind at 1. cbn [Scheduler.start_new Scheduler.set_jobs
                         conn disk jobs spoken faults journal].
  unfold bind at 1. unfold Sqlite.execute_select at 1.
  unfold bind at 1. cbn [Sqlite.step faults].
  unfold bind at 1. cbn [Sqlite.get_conn ret conn].
  rewrite (for_each_arm (replace_tzinfo utcnow (Some UTC)) (rows d) Hrows
             eq_refl).
  cbn [conn disk jobs spoken faults journal].
  rewrite <- app_assoc. reflexivity.
Qed.

Lemma NoDup_fmap_eq {A B} (g : A -> B) (l : list A) (x y : A) :
  NoDup (g <$> l) -> x ∈ l -> y ∈ l -> g x = g y -> x = y.
Proof.
  induction l as [| a l IH]; [intros _ H; inversion H |].
  rewrite fmap_cons, NoDup_cons. intros [Hna Hnd] Hx Hy Hg.
  apply elem_of_cons in Hx as [-> | Hx];
    apply elem_of_cons in Hy as [-> | Hy]; auto.
  - exfalso. apply Hna. rewrite Hg. apply list_elem_of_fmap_2. exact Hy.
  - exfalso. apply Hna. rewrite <- Hg. apply list_elem_of_fmap_2. exact Hx.
Qed.

(** A job is in the store after looking at the rows [l] iff it was there
    before or one of the rows put it there. *)
Lemma foldl_arm_lookup (now_utc : datetime) (l : list row) :
  Forall wf_row l ->
  forall (js : gmap string job) (jid : string),
    is_Some (foldl (arm off now_utc) js l !! jid) <->
    is_Some (js !! jid) \/
    exists r, r ∈ l /\ due_later off now_utc r = true /\
              job_id (row_id r) = jid.
Proof.
  induction 1 as [| r l Hr Hl IH]; intros js jid; cbn [foldl].
  - split; [auto |]. intros [H | (r & Hr & _)]; [exact H | inversion Hr].
  - rewrite IH. unfold arm at 1.
    destruct (reminder_of_wf_row r Hr) as (dw & dc & -> & _).
    cbn [id when_utc text].
    destruct (due_later off now_utc r) eqn:Edue.
    + rewrite lookup_insert_is_Some. split.
      * intros [[E | [_ H]] | (x & Hx & Hd & Hj)].
        -- right. exists r. split; [left | auto].
        -- left. exact H.
        -- right. exists x. split; [right; exact Hx | auto].
      * intros [H | (x & Hx & Hd & Hj)].
        -- destruct (decide (job_id (row_id r) = jid)); [left; left | left; right];
             auto.
        -- apply elem_of_cons in Hx as [-> | Hx].
           ++ left. left. exact Hj.
           ++ right. exists x. auto.
    + split.
      * intros [H | (x & Hx & Hd & Hj)]; [left; exact H |].
        right. exists x. split; [right; exact Hx | auto].
      * intros [H | (x & Hx & Hd & Hj)]; [left; exact H |].
        apply elem_of_cons in Hx as [-> | Hx]; [congruence |].
        right. exists x. auto.
Qed.

(** ** What recovery leaves of the store, whatever fails *)

Lemma snd_bind {A B} (m : M A) (k : A -> M B) (w : world) :
  snd (bind m k w)
  = match m w with
    | (Returns a, w1) => snd (k a w1)
    | (Raises _, w1) => w1
    end.
Proof. unfold bind. destruct (m w) as [[a | e] w1]; reflexivity. Qed.

Lemma get_jobs_preserves {X} (f : world -> X) : preserves f Scheduler.get_jobs.
Proof. intros w. reflexivity. Qed.

Lemma set_jobs_preserves_conn js : preserves conn (Scheduler.set_jobs js).
Proof. intros w. reflexivity. Qed.
Lemma set_jobs_preserves_disk js : preserves disk (Scheduler.set_jobs js).
Proof. intros w. reflexivity. Qed.

Lemma get_conn_preserves {X} (f : world -> X) : preserves f Sqlite.get_conn.
Proof. intros w. reflexivity. Qed.

#[local] Hint Resolve get_jobs_preserves set_jobs_preserves_conn
  set_jobs_preserves_disk get_conn_preserves : frame.

Lemma fromiso_utc_preserves {X} (f : world -> X) (s : string) :
  preserves f (ReminderManager.fromiso_utc s).
Proof. intros w. rewrite fromiso_utc_run. reflexivity. Qed.

#[local] Hint Resolve fromiso_utc_preserves : frame.

Lemma schedule_job_preserves_conn (r : Reminder) :
  preserves conn (_schedule_job r).
Proof. intros w. reflexivity. Qed.
Lemma schedule_job_preserves_disk (r : Reminder) :
  preserves disk (_schedule_job r).
Proof. intros w. reflexivity. Qed.

#[local] Hint Resolve schedule_job_preserves_conn schedule_job_preserves_disk
  : frame.

Lemma reschedule_preserves_conn (utcnow : datetime) :
  preserves conn (ReminderManager._reschedule_existing off utcnow).
Proof.
  unfold ReminderManager._reschedule_existing, Sqlite.execute_select.
  apply preserves_bind.
  - apply preserves_bind; [auto with frame |]. intros _.
    apply preserves_bind; [auto with frame |]. intros db.
    apply preserves_ret.
  - intros cur. apply preserves_for_each. intros r.
    apply preserves_bind; [auto with frame |]. intros d.
    apply preserves_bind; [auto with frame |]. intros [|].
    + apply preserves_bind; auto with frame.
    + apply preserves_ret.
Qed.

Lemma reschedule_preserves_disk (utcnow : datetime) :
  preserves disk (ReminderManager._reschedule_existing off utcnow).
Proof.
  unfold ReminderManager._reschedule_existing, Sqlite.execute_select.
  apply preserves_bind.
  - apply preserves_bind; [auto with frame |]. intros _.
    apply preserves_bind; [auto with frame |]. intros db.
    apply preserves_ret.
  - intros cur. apply preserves_for_each. intros r.
    apply preserves_bind; [auto with frame |]. intros d.
    apply preserves_bind; [auto with frame |]. intros [|].
    + apply preserves_bind; auto with frame.
    + apply preserves_ret.
Qed.

Lemma commit_cases (w : world) :
  exists fs,
    Sqlite.commit w = (Raises sqlite3_Error, with_faults w fs) \/
    Sqlite.commit w
      = (Returns tt,
         mkworld (conn w) (conn w) (jobs w) (spoken w) fs
                 (journal w ++ [Committed (conn w)])).
Proof.
  destruct w as [c d j s [| [] fs]]; eexists; cbn; eauto.
Qed.

(** After [__init__] the connection and the file hold what the file held,
    whichever step failed. *)
Lemma init_store (utcnow : datetime) (w : world) :
  conn (snd (__init__ utcnow w)) = disk w /\
  disk (snd (__init__ utcnow w)) = disk w.
Proof.
  unfold ReminderManager.__init__.
  rewrite snd_bind. cbn [Sqlite.connect].
  set (w0 := mkworld (disk w) (disk w) (jobs w) (spoken w) (faults w)
                     (journal w)).
  rewrite snd_bind. unfold Sqlite.execute_create_table.
  destruct (step_cases w0) as (fs & [-> | ->]); [| split; reflexivity].
  rewrite snd_bind.
  destruct (commit_cases (with_faults w0 fs)) as (fs' & [-> | ->]);
    [split; reflexivity |].
  rewrite snd_bind. cbn [Scheduler.start_new Scheduler.set_jobs].
  rewrite (reschedule_preserves_conn utcnow _).
  rewrite (reschedule_preserves_disk utcnow _). split; reflexivity.
Qed.

(** ** Histories *)

Lemma snd_exec (c : call) (w : world) :
  snd (exec off c w)
  = match c with
    | Add task when_local utcnow => snd (add_reminder task when_local utcnow w)
    | Delete rid => snd (delete_reminder rid w)
    | List => snd (list_reminders w)
    | Fire jid => snd (scheduler_fire jid w)
    | Restart utcnow => snd (__init__ utcnow w)
    end.
Proof.
  destruct c; cbn [exec];
    match goal with |- context [let '(_, _) := ?m in _] => destruct m end;
    reflexivity.
Qed.

Lemma run_calls_cons (c : call) (cs : list call) (w : world) :
  run_calls off (c :: cs) w
  = (fst (exec off c w) :: fst (run_calls off cs (snd (exec off c w))),
     snd (run_calls off cs (snd (exec off c w)))).
Proof.
  cbn [run_calls]. destruct (exec off c w) as [r w1]. cbn [fst snd].
  destruct (run_calls off cs w1); reflexivity.
Qed.

(** A job that is not armed for an id the table already went past stays
    unarmed through every call but a restart: [add_reminder] only arms the
    id it has just been given, which is larger. *)
Lemma exec_keeps_unarmed (rid : Z) (c : call) (w : world) :
  is_restart c = false ->
  jobs w !! job_id rid = None /\ rid <= sqlite_sequence (conn w) ->
  jobs (snd (exec off c w)) !! job_id rid = None /\
  rid <= sqlite_sequence (conn (snd (exec off c w))).
Proof.
  intros Hc [Hj Hseq]. rewrite snd_exec. destruct c as [t wl un | d | | jid | un];
    [| | | | discriminate].
  - destruct (next_rowid_fresh (conn w)) as (_ & Hnext & _).
    destruct (add_reminder_cases t wl un w)
      as (fs & [-> | [-> | (wu & _ & [-> | ->])]]); cbn;
      try (split; [assumption | lia]).
    split; [| lia].
    rewrite lookup_insert_ne; [assumption |].
    intros E. apply job_id_inj in E. lia.
  - destruct (delete_reminder_cases d w)
      as (fs & [(e & ->) | [-> | (b & ->)]]);
      cbn; try (split; assumption).
    split; [| assumption]. apply lookup_delete_None. auto.
  - destruct (list_reminders_state w) as (fs & ->). cbn. split; assumption.
  - destruct (scheduler_fire_effect jid w) as (Hc' & _ & Hj' & _).
    cbv zeta in Hc', Hj'. rewrite Hc', Hj'.
    split; [| assumption]. apply lookup_delete_None. auto.
Qed.

Lemma run_keeps_unarmed (rid : Z) (cs : list call) :
  forallb (fun c => negb (is_restart c)) cs = true ->
  forall w,
    jobs w !! job_id rid = None /\ rid <= sqlite_sequence (conn w) ->
    jobs (snd (run_calls off cs w)) !! job_id rid = None.
Proof.
  induction cs as [| c cs IH]; intros Hcs w Hw.
  - exact (proj1 Hw).
  - cbn [forallb] in Hcs. apply andb_true_iff in Hcs as [Hc Hcs].
    apply negb_true_iff in Hc.
    rewrite run_calls_cons. cbn [snd].
    apply (IH Hcs). apply exec_keeps_unarmed; assumption.
Qed.

Lemma delete_reminder_quiet (rid : Z) (w : world) :
  - 2 ^ 63 <= rid < 2 ^ 63 -> quiet w ->
  let kept := filter (fun r => row_id r ≠ rid) (rows (conn w)) in
  let db := mkdb kept (sqlite_sequence (conn w)) in
  delete_reminder rid w
  = (Returns (0 <? Z.of_nat (length (rows (conn w)))
                   - Z.of_nat (length kept)),
     mkworld db db (delete (job_id rid) (jobs w)) (spoken w) []
                     (journal w ++ [Committed db])).
Proof.
  intros Hrid. pose proof (bind_int_ok rid Hrid) as Hbind.
  unfold quiet, ReminderManager.delete_reminder, Sqlite.execute_delete.
  destruct w as [c d j s f jl]. cbn [faults]. intros ->. run.
  rewrite Hbind. cbv beta iota.
  destruct (j !! job_id rid) eqn:Ej; [reflexivity |].
  rewrite (delete_id j _ Ej). reflexivity.
Qed.

(** ** Ids along a history *)

Lemma ids_ok_db_insert (db : database) (task when_text created_text : string) :
  ids_ok_db db ->
  ids_ok_db (mkdb (rows db ++ [mkrow (Sqlite.next_rowid db) task when_text
                                 created_text])
                  (Sqlite.next_rowid db)).
Proof.
  intros (Hnd & Hle).
  destruct (next_rowid_fresh db) as (_ & _ & Hfresh).
  unfold ids_ok_db. cbn [rows sqlite_sequence]. split.
  - rewrite fmap_app. apply NoDup_app. split; [exact Hnd |]. split.
    + intros x Hx Hx'. apply list_elem_of_singleton in Hx'. subst x.
      apply list_elem_of_fmap in Hx as (r & Hr & Hin).
      cbn [row_id] in Hr. specialize (Hfresh r Hin). lia.
    + cbn. apply NoDup_singleton.
  - apply Forall_app. split.
    + apply Forall_forall. intros r Hr. specialize (Hfresh r Hr). lia.
    + constructor; [cbn; lia | constructor].
Qed.

Lemma ids_ok_db_delete (db : database) (rid : Z) :
  ids_ok_db db ->
  ids_ok_db (mkdb (filter (fun r => row_id r ≠ rid) (rows db))
                  (sqlite_sequence db)).
Proof.
  intros (Hnd & Hle). unfold ids_ok_db. cbn [rows sqlite_sequence]. split.
  - eapply sublist_NoDup; [exact Hnd |].
    apply fmap_sublist, sublist_filter.
  - apply Forall_forall. intros r Hr. apply list_elem_of_filter in Hr as [_ Hr].
    eapply Forall_forall in Hle; eauto.
Qed.

Lemma exec_ids (c : call) (w : world) :
  ids_ok w ->
  ids_ok (snd (exec off c w)) /\
  sqlite_sequence (disk w) <= sqlite_sequence (disk (snd (exec off c w))) /\
  forall r, fst (exec off c w) = Added r ->
    sqlite_sequence (disk w) < id r /\
    id r <= sqlite_sequence (disk (snd (exec off c w))).
Proof.
  intros (Hc & Hd & Hseq).
  destruct c as [t wl un | d | | jid | un]; cbn [exec].
  - destruct (next_rowid_fresh (conn w)) as (_ & Hnext & _).
    pose proof (ids_ok_db_insert (conn w) t) as Hins.
    destruct (add_reminder_cases t wl un w)
      as (fs & [-> | [-> | (wu & _ & [-> | ->])]]); cbn.
    + split; [exact (conj Hc (conj Hd Hseq)) | split; [lia |]].
      intros r; discriminate.
    + split; [exact (conj Hc (conj Hd Hseq)) | split; [lia |]].
      intros r; discriminate.
    + split; [| split; [lia | intros r; discriminate]].
      split; [apply Hins; exact Hc |]. split; [exact Hd |]. cbn. lia.
    + split; [| split; [cbn; lia |]].
      * split; [apply Hins; exact Hc |]. split; [apply Hins; exact Hc |].
        cbn. lia.
      * intros r [= <-]. cbn. lia.
  - pose proof (ids_ok_db_delete (conn w) d Hc) as Hdel.
    destruct (delete_reminder_cases d w)
      as (fs & [(e & ->) | [-> | (b & ->)]]);
      cbn.
    + split; [exact (conj Hc (conj Hd Hseq)) | split; [lia |]].
      intros r; discriminate.
    + split; [| split; [lia | intros r; discriminate]].
      split; [exact Hdel |]. split; [exact Hd |]. cbn. lia.
    + split; [| split; [cbn; lia | intros r; discriminate]].
      split; [exact Hdel |]. split; [exact Hdel |]. cbn. lia.
  - destruct (list_reminders w) as [o w1] eqn:E.
    destruct (list_reminders_state w) as (fs & Hs). rewrite E in Hs.
    cbn [snd] in Hs. subst w1. cbv beta iota zeta. cbn [fst snd].
    unfold ids_ok.
    change (conn (with_faults w fs)) with (conn w).
    change (disk (with_faults w fs)) with (disk w).
    split; [| split; [lia |]].
    + split; [exact Hc |]. split; [exact Hd |]. exact Hseq.
    + intros r. destruct o; cbn; discriminate.
  - destruct (scheduler_fire jid w) as [o w1] eqn:E.
    destruct (scheduler_fire_effect jid w) as (Hc' & Hd' & _).
    rewrite E in Hc', Hd'. cbn [snd] in Hc', Hd'.
    cbv beta iota zeta. cbn [fst snd]. unfold ids_ok. rewrite Hc', Hd'.
    split; [| split; [lia |]].
    + split; [exact Hc |]. split; [exact Hd |]. exact Hseq.
    + intros r. destruct o; cbn; discriminate.
  - destruct (__init__ un w) as [o w1] eqn:E.
    destruct (init_store un w) as (Hc' & Hd').
    rewrite E in Hc', Hd'. cbn [snd] in Hc', Hd'.
    cbv beta iota zeta. cbn [fst snd]. unfold ids_ok. rewrite Hc', Hd'.
    split; [| split; [lia |]].
    + split; [exact Hd |]. split; [exact Hd |]. lia.
    + intros r. destruct o; cbn; discriminate.
Qed.

Lemma run_ids (cs : list call) :
  forall w, ids_ok w ->
    let rs := fst (run_calls off cs w) in
    let w' := snd (run_calls off cs w) in
    ids_ok w' /\
    sqlite_sequence (disk w) <= sqlite_sequence (disk w') /\
    Forall (fun i => sqlite_sequence (disk w) < i) (added_ids rs) /\
    StronglySorted Z.lt (added_ids rs).
Proof.
  induction cs as [| c cs IH]; intros w Hw; cbv zeta.
  - cbn [run_calls fst snd].
    split; [exact Hw | split; [lia | split; constructor]].
  - rewrite run_calls_cons. cbn [fst snd].
    destruct (exec_ids c w Hw) as (Hw1 & Hmono & Hadd).
    destruct (IH _ Hw1) as (Hw' & Hmono' & Hall & Hsorted).
    cbv zeta in Hw', Hmono', Hall, Hsorted.
    split; [exact Hw' |]. split; [lia |].
    unfold added_ids in *. cbn [omap list_omap].
    destruct (fst (exec off c w)) as [r | | | |] eqn:Erep;
      try (split; [| exact Hsorted];
           eapply Forall_impl; [exact Hall |]; cbn; intros; lia).
    destruct (Hadd r eq_refl) as [Hlo Hhi]. split.
    + constructor; [exact Hlo |].
      eapply Forall_impl; [exact Hall |]. cbn. intros; lia.
    + constructor; [exact Hsorted |].
      eapply Forall_impl; [exact Hall |]. cbn. intros; lia.
Qed.

(** ** Well-formedness along a history *)

Lemma wf_db_delete (db : database) (rid : Z) :
  wf_db db ->
  wf_db (mkdb (filter (fun r => row_id r ≠ rid) (rows db))
              (sqlite_sequence db)).
Proof.
  intros (Hrows & Hids).
  destruct (ids_ok_db_delete db rid Hids) as [Hnd Hle].
  split; [| split; assumption].
  cbn [rows]. apply Forall_forall. intros r Hr.
  apply list_elem_of_filter in Hr as [_ Hr].
  eapply Forall_forall in Hrows; eauto.
Qed.

(** Every call the program makes with constructible datetimes keeps the
    table and the file well formed, whatever fails. *)
Lemma exec_wf (c : call) (w : world) :
  wf w -> call_valid c -> wf (snd (exec off c w)).
Proof.
  intros (Hc & Hd & Hseq) Hv. rewrite snd_exec.
  destruct c as [t wl un | d | | jid | un].
  - destruct Hv as [Hvl Hvn].
    destruct (next_rowid_fresh (conn w)) as (_ & Hnext & _).
    destruct (add_reminder_cases t wl un w)
      as (fs & [-> | [-> | (wu & Hwu & Hcase)]]);
      [exact (conj Hc (conj Hd Hseq)) | exact (conj Hc (conj Hd Hseq)) |].
    assert (Hvloc : Valid (localized wl)).
    { unfold localized. destruct (tzinfo_of wl); exact Hvl. }
    pose proof (wf_db_insert (conn w) t wu (replace_tzinfo un (Some UTC)) Hc
                  (astimezone_UTC_valid _ _ Hvloc Hwu)
                  (astimezone_UTC_tzinfo _ _ Hwu) Hvn eq_refl) as Hins.
    cbv zeta in Hcase. destruct Hcase as [-> | ->]; cbn [snd].
    + split; [exact Hins |]. split; [exact Hd |]. cbn. lia.
    + split; [exact Hins |]. split; [exact Hins |]. cbn. lia.
  - pose proof (wf_db_delete (conn w) d Hc) as Hdel.
    destruct (delete_reminder_cases d w)
      as (fs & [(e & ->) | [-> | (b & ->)]]);
      cbn [snd].
    + exact (conj Hc (conj Hd Hseq)).
    + split; [exact Hdel |]. split; [exact Hd |]. cbn. lia.
    + split; [exact Hdel |]. split; [exact Hdel |]. cbn. lia.
  - destruct (list_reminders_state w) as (fs & ->).
    exact (conj Hc (conj Hd Hseq)).
  - destruct (scheduler_fire_effect jid w) as (Hc' & Hd' & _).
    cbv zeta in Hc', Hd'. unfold wf. rewrite Hc', Hd'.
    exact (conj Hc (conj Hd Hseq)).
  - destruct (init_store un w) as (Hc' & Hd').
    unfold wf. rewrite Hc', Hd'. split; [exact Hd |]. split; [exact Hd | lia].
Qed.

Lemma run_calls_wf (cs : list call) :
  Forall call_valid cs ->
  forall w, wf w -> wf (snd (run_calls off cs w)).
Proof.
  induction 1 as [| c cs Hc Hcs IH]; intros w Hw; [exact Hw |].
  rewrite run_calls_cons. cbn [snd]. apply IH. apply exec_wf; assumption.
Qed.

(** Every state reached from an empty store is well formed. *)
Lemma reachable_wf (cs : list call) (js : gmap string job)
    (said : list string) (fs : list bool) (jl : list event) :
  Forall call_valid cs ->
  wf (snd (run_calls off cs
             (mkworld (mkdb [] 0) (mkdb [] 0) js said fs jl))).
Proof.
  intros Hcs. apply run_calls_wf; [exact Hcs |].
  assert (Hempty : wf_db (mkdb [] 0)).
  { split; [constructor |]. split; [cbn; constructor | constructor]. }
  split; [exact Hempty |]. split; [exact Hempty |]. cbn. lia.
Qed.

(** C5.  Every state the program reaches from an empty store, through
    reminders added and deleted in any order, has a well-formed table; and
    on every well-formed table, whatever the order of its rows,
    [list_reminders] returns the reminders of the rows in ascending order
    of [when_utc] (each entry is [<=] every later one), and the empty list
    when there is no row. *)
Theorem list_reminders_ascending (w : world) (cs : list call)
    (js : gmap string job) (said : list string) (fs : list bool)
    (jl : list event) :
  (Forall call_valid cs ->
   wf_db (conn (snd (run_calls off cs
                       (mkworld (mkdb [] 0) (mkdb [] 0) js said fs jl))))) /\
  (wf_db (conn w) -> quiet w ->
   exists (l : list Reminder) (sorted : list row),
     list_reminders w = (Returns l, w) /\
     sorted ≡ₚ rows (conn w) /\
     mapM reminder_of_row sorted = Some l /\
     StronglySorted (fun a b => dt_le off (when_utc a) (when_utc b)) l /\
     (rows (conn w) = [] -> l = [])).
Proof.
  split.
  - intros Hcs. exact (proj1 (reachable_wf cs js said fs jl Hcs)).
  - exact (list_reminders_wf w).
Qed.

(** C9.  Ids come from the store: [add_reminder] returns the rowid the
    INSERT was given, one more than the largest the table ever held.  Along
    any history of calls (adds, deletes, listings, firings, restarts, with
    storage failing or not) the ids handed out are strictly increasing,
    hence pairwise distinct, each is larger than every id the store had
    used before the history began, whether or not that row was deleted
    since, and no two rows of the table ever share an id. *)
Theorem reminder_ids_never_reused (cs : list call) (w : world) :
  ids_ok w ->
  let rs := fst (run_calls off cs w) in
  let w' := snd (run_calls off cs w) in
  (forall task when_local utcnow r w1,
     add_reminder task when_local utcnow w = (Returns r, w1) ->
     id r = Sqlite.next_rowid (conn w) /\
     exists stored, stored ∈ rows (conn w1) /\ row_id stored = id r) /\
  StronglySorted Z.lt (added_ids rs) /\
  NoDup (added_ids rs) /\
  Forall (fun i => sqlite_sequence (disk w) < i /\
                   forall r, r ∈ rows (disk w) -> row_id r < i)
         (added_ids rs) /\
  NoDup (row_id <$> rows (conn w')) /\
  NoDup (row_id <$> rows (disk w')).
Proof.
  intros Hw. cbv zeta.
  destruct (run_ids cs w Hw) as (Hw' & _ & Hall & Hsorted).
  cbv zeta in Hw', Hall, Hsorted.
  split; [| split; [exact Hsorted | split; [| split]]].
  - intros task wl un r w1 Hadd.
    destruct (add_reminder_returns _ _ _ _ _ _ Hadd)
      as (wu & _ & -> & Hconn & _).
    split; [reflexivity |]. rewrite Hconn. cbn [rows id].
    eexists. split; [apply elem_of_app; right; apply list_elem_of_singleton;
                     reflexivity | reflexivity].
  - clear -Hsorted. induction Hsorted as [| x l Hs IH Hx]; constructor; auto.
    intros Hin. eapply Forall_forall in Hx; eauto. lia.
  - eapply Forall_impl; [exact Hall |]. cbn. intros i Hi.
    split; [exact Hi |]. intros r Hr.
    destruct Hw as (_ & (_ & Hle) & _).
    eapply Forall_forall in Hle; eauto. cbn in Hle. lia.
  - destruct Hw' as ((Hnd & _) & (Hnd' & _) & _). split; assumption.
Qed.

End Manager.

(* ===================================================================== *)
(** * Calendar arithmetic: every ordinal is a date                        *)
(* ===================================================================== *)

Module CalendarFacts.

Import TimeFacts.

(** Every day number of the calendar is the ordinal of a date. *)
Lemma ordinal_date (n : Z) :
  1 <= n <= MAXORDINAL ->
  exists y m d,
    1 <= y <= 9999 /\ 1 <= m <= 12 /\ 1 <= d <= days_in_month y m /\
    ymd2ord y m d = n.
Proof.
  intros Hn.
  assert (H : forall k : nat, 1 + Z.of_nat k <= MAXORDINAL ->
            exists y m d,
              1 <= y <= 9999 /\ 1 <= m <= 12 /\ 1 <= d <= days_in_month y m /\
              ymd2ord y m d = 1 + Z.of_nat k).
  { induction k as [| k IH]; intros Hk.
    - exists 1, 1, 1. vm_compute. repeat split; congruence.
    - destruct IH as (y & m & d & Hy & Hm & Hd & Hord); [lia |].
      set (dt := mkdt y m d 0 0 0 0 None).
      assert (Hv : Valid dt) by (unfold Valid; cbn; lia).
      assert (Hlast : ymd2ord (year dt) (month dt) (day dt) < MAXORDINAL)
        by (cbn; lia).
      pose proof (next_day_valid dt Hv Hlast) as (Hy' & Hm' & Hd' & _).
      pose proof (ymd2ord_next_day dt Hv) as Hnext. cbn [year month day dt] in Hnext.
      exists (year (next_day dt)), (month (next_day dt)), (day (next_day dt)).
      repeat split; try lia. }
  destruct (H (Z.to_nat (n - 1))) as (y & m & d & Hy & Hm & Hd & Hord); [lia |].
  exists y, m, d. repeat split; try lia.
Qed.

Lemma ord2ymd_valid (n : Z) :
  1 <= n <= MAXORDINAL ->
  exists y m d,
    ord2ymd n = (y, m, d) /\
    1 <= y <= 9999 /\ 1 <= m <= 12 /\ 1 <= d <= days_in_month y m /\
    ymd2ord y m d = n.
Proof.
  intros Hn. destruct (ordinal_date n Hn) as (y & m & d & Hy & Hm & Hd & Hord).
  exists y, m, d. split; [| tauto].
  rewrite <- Hord. apply ord2ymd_ymd2ord; lia.
Qed.

Lemma wall_us_bounds (d : datetime) :
  Valid d -> 0 <= wall_us d < MAXORDINAL * US_PER_DAY.
Proof.
  intros (Hy & Hm & Hd & Hh & Hmi & Hs & Hus).
  pose proof (ymd2ord_bounds _ _ _ Hy Hm Hd) as Hb.
  destruct (time_of_day_split _ _ _ _ Hh Hmi Hs Hus) as (Ht & _).
  unfold wall_us. unfold US_PER_DAY in *. nia.
Qed.

Lemma rest_split (rest : Z) :
  0 <= rest < US_PER_DAY ->
  0 <= rest / 3600000000 < 24 /\ 0 <= rest / 60000000 mod 60 < 60 /\
  0 <= rest / 1000000 mod 60 < 60 /\ 0 <= rest mod 1000000 < 1000000 /\
  ((rest / 3600000000 * 60 + rest / 60000000 mod 60) * 60
   + rest / 1000000 mod 60) * 1000000 + rest mod 1000000 = rest.
Proof.
  unfold US_PER_DAY. intros H.
  repeat split; try (Z.to_euclidean_division_equations; lia).
Qed.

(** [d + timedelta(microseconds=us)] moves the wall clock by exactly [us]
    and keeps the [tzinfo]; it raises exactly when the result is not a
    date of the calendar. *)
Lemma timedelta_add_spec (d : datetime) (us : Z) :
  let t := wall_us d + us in
  (0 <= t < MAXORDINAL * US_PER_DAY ->
   exists r, timedelta_add d us = Some r /\ Valid r /\ wall_us r = t /\
             tzinfo_of r = tzinfo_of d) /\
  (~ 0 <= t < MAXORDINAL * US_PER_DAY -> timedelta_add d us = None).
Proof.
  intros t. unfold timedelta_add. fold t. cbv zeta.
  assert (HUS : 0 < US_PER_DAY) by (unfold US_PER_DAY; lia).
  split.
  - intros Ht.
    assert (Hord : 1 <= t / US_PER_DAY + 1 <= MAXORDINAL).
    { unfold MAXORDINAL, US_PER_DAY in *.
      Z.to_euclidean_division_equations; lia. }
    assert (Hrest : 0 <= t mod US_PER_DAY < US_PER_DAY)
      by (apply Z.mod_pos_bound; exact HUS).
    replace ((0 <? t / US_PER_DAY + 1) && (t / US_PER_DAY + 1 <=? MAXORDINAL))
      with true by lia.
    destruct (ord2ymd_valid _ Hord) as (y & m & dd & -> & Hy & Hm & Hd & Hymd).
    destruct (rest_split _ Hrest) as (Hh & Hmi & Hs & Hu & Hsum).
    set (r := mkdt y m dd (t mod US_PER_DAY / 3600000000)
                (t mod US_PER_DAY / 60000000 mod 60)
                (t mod US_PER_DAY / 1000000 mod 60)
                (t mod US_PER_DAY mod 1000000) (tzinfo_of d)).
    assert (Hv : Valid r) by (unfold Valid; cbn; tauto).
    rewrite (proj2 (valid_fields_spec r) Hv).
    exists r. split; [reflexivity |]. split; [exact Hv |].
    split; [| reflexivity].
    unfold wall_us. cbn [year month day hour minute second microsecond r].
    rewrite Hymd.
    pose proof (Z.div_mod t US_PER_DAY ltac:(lia)) as Hdm.
    lia.
  - intros Ht.
    replace ((0 <? t / US_PER_DAY + 1) && (t / US_PER_DAY + 1 <=? MAXORDINAL))
      with false; [reflexivity |].
    symmetry. apply andb_false_iff.
    rewrite Z.ltb_ge, Z.leb_gt.
    unfold MAXORDINAL, US_PER_DAY in *.
    Z.to_euclidean_division_equations; lia.
Qed.

(** The wall clock in microseconds identifies the fields. *)
Lemma wall_us_inj (a b : datetime) :
  Valid a -> Valid b -> wall_us a = wall_us b ->
  tzinfo_of a = tzinfo_of b -> a = b.
Proof.
  intros (Hya & Hma & Hda & Hha & Hmia & Hsa & Husa)
         (Hyb & Hmb & Hdb & Hhb & Hmib & Hsb & Husb) Hw Htz.
  pose proof (ymd2ord_bounds _ _ _ Hya Hma Hda) as Hoa.
  pose proof (ymd2ord_bounds _ _ _ Hyb Hmb Hdb) as Hob.
  destruct (time_of_day_split _ _ _ _ Hha Hmia Hsa Husa)
    as (Hta & Eha & Emia & Esa & Eusa).
  destruct (time_of_day_split _ _ _ _ Hhb Hmib Hsb Husb)
    as (Htb & Ehb & Emib & Esb & Eusb).
  unfold wall_us in Hw.
  set (ta := ((hour a * 60 + minute a) * 60 + second a) * 1000000
             + microsecond a) in *.
  set (tb := ((hour b * 60 + minute b) * 60 + second b) * 1000000
             + microsecond b) in *.
  assert (Hord : ymd2ord (year a) (month a) (day a)
                 = ymd2ord (year b) (month b) (day b))
    by (unfold US_PER_DAY in *; nia).
  assert (Ht : ta = tb) by (unfold US_PER_DAY in *; nia).
  pose proof (ord2ymd_ymd2ord _ _ _ (proj1 Hya) Hma Hda) as Ea.
  pose proof (ord2ymd_ymd2ord _ _ _ (proj1 Hyb) Hmb Hdb) as Eb.
  rewrite Hord, Eb in Ea. injection Ea as Ey Em Ed.
  rewrite Ht in Eha, Emia, Esa, Eusa.
  destruct a, b; cbn in *. congruence.
Qed.

End CalendarFacts.

(* ===================================================================== *)
(** * Life cycle of a reminder                                            *)
(* ===================================================================== *)

Section Lifecycle.

Variable off : datetime -> Z.

Local Open Scope py_scope.

Local Abbreviation add_reminder := (ReminderManager.add_reminder off).
Local Abbreviation list_reminders := ReminderManager.list_reminders.
Local Abbreviation delete_reminder := ReminderManager.delete_reminder.
Local Abbreviation __init__ := (ReminderManager.__init__ off).

(** The listing is a function of the rows and of the coming faults. *)
Lemma list_reminders_rows (w1 w2 : world) :
  rows (conn w1) = rows (conn w2) -> faults w1 = faults w2 ->
  fst (list_reminders w1) = fst (list_reminders w2).
Proof.
  intros Hr Hf. rewrite !list_reminders_cases. cbv zeta.
  rewrite Hr, Hf. destruct (faults w2) as [| [] fs]; reflexivity.
Qed.

Lemma filter_new_row (l : list row) (new : row) :
  (forall r, r ∈ l -> row_id r < row_id new) ->
  filter (fun r => row_id r ≠ row_id new) (l ++ [new]) = l.
Proof.
  intros Hfresh. rewrite filter_app.
  rewrite (filter_all (fun r => row_id r ≠ row_id new) l).
  - rewrite filter_cons_False by (intros H; apply H; reflexivity).
    rewrite filter_nil. apply app_nil_r.
  - apply Forall_forall. intros r Hr. specialize (Hfresh r Hr). lia.
Qed.

(** X1.  Adding a reminder and deleting it again by the id that was
    returned: the deletion returns [True], the table holds the rows it
    held before the addition, table and file agree, the job armed for it
    is gone, and the listing is what it was.  Only the AUTOINCREMENT
    counter remembers the id.  (The id the table hands out next is one
    SQLite can hold.) *)
Theorem add_then_delete_restores (task : string)
    (when_local utcnow wu : datetime) (w : world) :
  quiet w -> Sqlite.next_rowid (conn w) < 2 ^ 63 ->
  astimezone_UTC off (localized when_local) = Some wu ->
  exists r w1 w2,
    add_reminder task when_local utcnow w = (Returns r, w1) /\
    delete_reminder (id r) w1 = (Returns true, w2) /\
    rows (conn w2) = rows (conn w) /\
    disk w2 = conn w2 /\
    sqlite_sequence (conn w2) = id r /\
    jobs w2 = delete (job_id (id r)) (jobs w) /\
    (jobs w !! job_id (id r) = None -> jobs w2 = jobs w) /\
    fst (list_reminders w2) = fst (list_reminders w).
Proof.
  intros Hq Hceiling Hwu.
  pose proof (add_reminder_quiet off task when_local utcnow wu w Hq Hwu) as Hadd.
  cbv zeta in Hadd.
  destruct (next_rowid_fresh (conn w)) as (Hpos & _ & Hfresh).
  set (rid := Sqlite.next_rowid (conn w)) in *.
  set (cu := replace_tzinfo utcnow (Some UTC)) in *.
  set (new := mkrow rid task (isoformat off wu) (isoformat off cu)) in *.
  set (db := mkdb (rows (conn w) ++ [new]) rid) in *.
  set (w1 := mkworld db db (<[job_id rid := mkjob wu (rid, task)]> (jobs w))
                     (spoken w) []
                     (journal w ++ [Committed db;
                                    Armed (job_id rid) (mkjob wu (rid, task))])) in *.
  pose proof (delete_reminder_quiet rid w1 ltac:(lia) eq_refl) as Hdel.
  cbv zeta in Hdel.
  assert (Hkept : filter (fun r => row_id r ≠ rid) (rows (conn w1))
                  = rows (conn w)).
  { cbn [conn w1 rows db]. apply (filter_new_row (rows (conn w)) new).
    exact Hfresh. }
  rewrite Hkept in Hdel.
  assert (Hcount : (0 <? Z.of_nat (length (rows (conn w1)))
                        - Z.of_nat (length (rows (conn w)))) = true).
  { cbn [conn w1 rows db]. rewrite length_app. cbn [length]. apply Z.ltb_lt. rewrite Nat2Z.inj_add. lia. }
  rewrite Hcount in Hdel.
  eexists _, w1, _. split; [exact Hadd |]. cbn [id].
  split; [exact Hdel |]. cbn [conn disk jobs rows sqlite_sequence w1 db].
  split; [reflexivity |]. split; [reflexivity |]. split; [reflexivity |].
  split; [apply delete_insert_eq |].
  split; [intros Hnone; apply delete_insert_id; exact Hnone |].
  apply list_reminders_rows; [reflexivity |].
  cbn [faults]. symmetry. exact Hq.
Qed.

(** X2.  Deleting the same id twice, for an id SQLite can hold and with
    storage working: once [delete_reminder] has returned, a second call
    for that id returns [False] and changes nothing, neither table nor
    file nor job store, and nothing is said. *)
Theorem delete_reminder_twice (rid : Z) (w : world) :
  - 2 ^ 63 <= rid < 2 ^ 63 -> quiet w ->
  exists b w1 w2,
    delete_reminder rid w = (Returns b, w1) /\
    delete_reminder rid w1 = (Returns false, w2) /\
    conn w2 = conn w1 /\ disk w2 = disk w1 /\ jobs w2 = jobs w1 /\
    spoken w2 = spoken w1.
Proof.
  intros Hrid Hq.
  pose proof (delete_reminder_quiet rid w Hrid Hq) as Hdel. cbv zeta in Hdel.
  set (kept := filter (fun r => row_id r ≠ rid) (rows (conn w))) in *.
  set (db := mkdb kept (sqlite_sequence (conn w))) in *.
  set (w1 := mkworld db db (delete (job_id rid) (jobs w)) (spoken w) []
                     (journal w ++ [Committed db])) in *.
  eexists _, w1, _. split; [exact Hdel |].
  rewrite (delete_reminder_quiet rid w1 Hrid eq_refl). cbv zeta.
  assert (Hkept : filter (fun r => row_id r ≠ rid) (rows (conn w1)) = kept).
  { cbn [conn w1 rows db]. apply filter_all, Forall_forall.
    intros r Hr. subst kept. apply list_elem_of_filter in Hr. tauto. }
  rewrite Hkept. cbn [conn disk jobs spoken rows sqlite_sequence w1 db].
  rewrite Z.sub_diag, delete_delete_eq. repeat split.
Qed.

Lemma filter_fmap_comm {A B} (g : A -> B) (P : B -> Prop)
    `{!forall y, Decision (P y)} (l : list A) :
  filter P (g <$> l) = g <$> filter (fun x => P (g x)) l.
Proof.
  induction l as [| x l IH]; [reflexivity |].
  rewrite fmap_cons. destruct (decide (P (g x))) as [Hx | Hx].
  - rewrite !filter_cons_True by assumption. rewrite fmap_cons. f_equal.
    exact IH.
  - rewrite !filter_cons_False by assumption. exact IH.
Qed.

Lemma filter_ext_in {A} (P Q : A -> Prop) `{!forall x, Decision (P x)}
    `{!forall x, Decision (Q x)} (l : list A) :
  (forall x, x ∈ l -> (P x <-> Q x)) -> filter P l = filter Q l.
Proof.
  induction l as [| x l IH]; intros Hpq; [reflexivity |].
  assert (Hx : P x <-> Q x) by (apply Hpq; left).
  assert (Hl : filter P l = filter Q l)
    by (apply IH; intros y Hy; apply Hpq; right; exact Hy).
  destruct (decide (P x)) as [Px | Px].
  - rewrite !filter_cons_True by tauto. f_equal. exact Hl.
  - rewrite !filter_cons_False by tauto. exact Hl.
Qed.

(** The listing of a well-formed table, in terms of its rows. *)
Lemma listing_of_rows (w : world) :
  wf_db (conn w) -> quiet w ->
  exists l, list_reminders w = (Returns l, w) /\
            l ≡ₚ reminder_or_filler <$> rows (conn w).
Proof.
  intros Hwf Hq.
  destruct (list_reminders_wf off w Hwf Hq) as (l & sorted & Hl & Hperm & Hm & _).
  exists l. split; [exact Hl |].
  rewrite (mapM_reminder_fmap _ _ Hm), Hperm. reflexivity.
Qed.

(** X3.  Adding a reminder never alters or drops another one: on a table
    the program wrote, with storage working, the listing after
    [add_reminder] holds the reminders listed before, each unchanged, and
    the one that was returned, and nothing else. *)
Theorem add_reminder_keeps_others (task : string)
    (when_local utcnow wu : datetime) (w : world) :
  wf_db (conn w) -> quiet w -> Valid when_local -> Valid utcnow ->
  astimezone_UTC off (localized when_local) = Some wu ->
  exists r w1 l0 l1,
    list_reminders w = (Returns l0, w) /\
    add_reminder task when_local utcnow w = (Returns r, w1) /\
    list_reminders w1 = (Returns l1, w1) /\
    l1 ≡ₚ r :: l0 /\
    length l1 = S (length l0) /\
    (forall x, x ∈ l0 -> x ∈ l1 /\ id x < id r).
Proof.
  intros Hwf Hq Hvl Hvn Hwu.
  assert (Hvloc : Valid (localized when_local)).
  { unfold localized. destruct (tzinfo_of when_local); exact Hvl. }
  pose proof (astimezone_UTC_valid off _ _ Hvloc Hwu) as Hvwu.
  pose proof (astimezone_UTC_tzinfo off _ _ Hwu) as Htwu.
  pose proof (add_reminder_quiet off task when_local utcnow wu w Hq Hwu) as Hadd.
  cbv zeta in Hadd.
  set (rid := Sqlite.next_rowid (conn w)) in *.
  set (cu := replace_tzinfo utcnow (Some UTC)) in *.
  set (new := mkrow rid task (isoformat off wu) (isoformat off cu)) in *.
  set (db := mkdb (rows (conn w) ++ [new]) rid) in *.
  set (r := mkReminder rid task wu cu) in *.
  set (w1 := mkworld db db (<[job_id rid := mkjob wu (rid, task)]> (jobs w))
                     (spoken w) []
                     (journal w ++ [Committed db;
                                    Armed (job_id rid) (mkjob wu (rid, task))])) in *.
  assert (Hwf1 : wf_db (conn w1)) by (apply wf_db_insert; auto).
  destruct (listing_of_rows w Hwf Hq) as (l0 & Hl0 & Hp0).
  destruct (listing_of_rows w1 Hwf1 eq_refl) as (l1 & Hl1 & Hp1).
  assert (Hnew : reminder_or_filler new = r).
  { unfold reminder_or_filler, reminder_of_row.
    cbn [row_when_utc row_created_utc new].
    rewrite (instant_of_isoformat off wu Hvwu Htwu).
    rewrite (instant_of_isoformat off cu Hvn eq_refl). reflexivity. }
  assert (Hperm : l1 ≡ₚ r :: l0).
  { rewrite Hp1, Hp0. cbn [conn w1 rows db]. rewrite fmap_app.
    cbn [fmap list_fmap]. rewrite Hnew.
    symmetry. apply Permutation_cons_append. }
  exists r, w1, l0, l1.
  split; [exact Hl0 |]. split; [exact Hadd |]. split; [exact Hl1 |].
  split; [exact Hperm |]. split; [rewrite Hperm; reflexivity |].
  intros x Hx. split; [rewrite Hperm; right; exact Hx |].
  rewrite Hp0 in Hx. apply list_elem_of_fmap in Hx as (y & -> & Hy).
  destruct (reminder_or_filler_id_text y) as [-> _].
  destruct (next_rowid_fresh (conn w)) as (_ & _ & Hfresh).
  exact (Hfresh y Hy).
Qed.

Lemma NoDup_filter_one (l : list row) (rid : Z) (r : row) :
  NoDup (row_id <$> l) -> r ∈ l -> row_id r = rid ->
  length l = S (length (filter (fun x => row_id x ≠ rid) l)).
Proof.
  induction l as [| x l IH]; [intros _ H; inversion H |].
  rewrite fmap_cons, NoDup_cons. intros [Hx Hnd] Hr Hid.
  apply elem_of_cons in Hr as [<- | Hr].
  - rewrite filter_cons_False by (intros H; apply H; exact Hid).
    rewrite (filter_all (fun x => row_id x ≠ rid) l); [reflexivity |].
    apply Forall_forall. intros y Hy E. apply Hx.
    rewrite Hid, <- E. apply list_elem_of_fmap_2. exact Hy.
  - assert (Hne : row_id x ≠ rid).
    { intros E. apply Hx. rewrite E, <- Hid. apply list_elem_of_fmap_2.
      exact Hr. }
    rewrite filter_cons_True by exact Hne. cbn [length].
    f_equal. apply IH; assumption.
Qed.

(** X4.  Deleting a reminder removes that one and no other: on a table the
    program wrote, with storage working, and for an id SQLite can hold,
    the listing after [delete_reminder(rid)] holds exactly the reminders
    listed before whose id is not [rid]; it is one entry shorter when the
    call returns [True] and the same list when it returns [False]. *)
Theorem delete_reminder_removes_one (rid : Z) (w : world) :
  - 2 ^ 63 <= rid < 2 ^ 63 -> wf_db (conn w) -> quiet w ->
  exists l0 b w1 l1,
    list_reminders w = (Returns l0, w) /\
    delete_reminder rid w = (Returns b, w1) /\
    list_reminders w1 = (Returns l1, w1) /\
    l1 ≡ₚ filter (fun x => id x ≠ rid) l0 /\
    (b = true -> length l0 = S (length l1)) /\
    (b = false -> l1 = l0).
Proof.
  intros Hrid Hwf Hq.
  pose proof (delete_reminder_quiet rid w Hrid Hq) as Hdel. cbv zeta in Hdel.
  set (kept := filter (fun r => row_id r ≠ rid) (rows (conn w))) in *.
  set (db := mkdb kept (sqlite_sequence (conn w))) in *.
  set (w1 := mkworld db db (delete (job_id rid) (jobs w)) (spoken w) []
                     (journal w ++ [Committed db])) in *.
  assert (Hwf1 : wf_db (conn w1)) by (apply wf_db_delete; exact Hwf).
  destruct (listing_of_rows w Hwf Hq) as (l0 & Hl0 & Hp0).
  destruct (listing_of_rows w1 Hwf1 eq_refl) as (l1 & Hl1 & Hp1).
  assert (Hperm : l1 ≡ₚ filter (fun x => id x ≠ rid) l0).
  { rewrite Hp1, Hp0. cbn [conn w1 rows db].
    rewrite filter_fmap_comm. subst kept.
    rewrite (filter_ext_in (fun x => id (reminder_or_filler x) ≠ rid)
               (fun r => row_id r ≠ rid)); [reflexivity |].
    intros x _. destruct (reminder_or_filler_id_text x) as [-> _]. tauto. }
  eexists l0, _, w1, l1.
  split; [exact Hl0 |]. split; [exact Hdel |]. split; [exact Hl1 |].
  split; [exact Hperm |]. split.
  - intros Hb. apply rowcount_positive in Hb as (r & Hr & Hid).
    destruct Hwf as (_ & Hnd & _).
    rewrite Hp1, Hp0, !length_fmap. cbn [conn w1 rows db]. subst kept.
    exact (NoDup_filter_one _ rid r Hnd Hr Hid).
  - intros Hb.
    assert (Hkept : kept = rows (conn w)).
    { subst kept. apply filter_all, Forall_forall. intros r Hr.
      destruct (decide (row_id r = rid)) as [E | N]; [| exact N].
      exfalso.
      assert (Ht : (0 <? Z.of_nat (length (rows (conn w))) - Z.of_nat (length
                 (filter (fun r => row_id r ≠ rid) (rows (conn w))))) = true)
        by (apply rowcount_positive; eauto).
      pose proof (eq_trans (eq_sym Ht) Hb) as Habs. discriminate Habs. }
    pose proof (list_reminders_rows w1 w) as Hsame.
    rewrite Hl1, Hl0 in Hsame. cbn [fst] in Hsame.
    assert (E : Returns l1 = Returns l0).
    { apply Hsame; [cbn [conn w1 rows db]; exact Hkept |].
      cbn [faults w1]. symmetry. exact Hq. }
    congruence.
Qed.

(** ** What recovery arms *)

(** Rows with other ids leave a job alone. *)
Lemma foldl_arm_other (now_utc : datetime) (l : list row) (jid : string) :
  (forall r, r ∈ l -> job_id (row_id r) ≠ jid) ->
  forall js, foldl (arm off now_utc) js l !! jid = js !! jid.
Proof.
  induction l as [| x l IH]; intros Hne js; [reflexivity |].
  cbn [foldl]. rewrite IH by (intros r Hr; apply Hne; right; exact Hr).
  unfold arm. destruct (due_later off now_utc x); [| reflexivity].
  unfold reminder_of_row.
  destruct (instant_of (row_when_utc x)); [| reflexivity].
  destruct (instant_of (row_created_utc x)); [| reflexivity].
  cbn. apply lookup_insert_ne. apply Hne. left.
Qed.

Lemma arm_due (now_utc : datetime) (js : gmap string job) (r : row)
    (d : datetime) :
  wf_row r -> instant_of (row_when_utc r) = Some d ->
  due_later off now_utc r = true ->
  arm off now_utc js r
  = <[job_id (row_id r) := mkjob d (row_id r, row_text r)]> js.
Proof.
  intros Hwf Hd Hdue. unfold arm. rewrite Hdue.
  destruct (reminder_of_wf_row off r Hwf) as (dw & dc & Hrem & _).
  rewrite Hrem. cbn [id text when_utc].
  unfold reminder_of_row in Hrem. rewrite Hd in Hrem.
  destruct (instant_of (row_created_utc r)); [| discriminate].
  cbn in Hrem. injection Hrem as -> _. reflexivity.
Qed.

(** The job recovery arms for a due row carries the row's instant, id and
    text. *)
Lemma foldl_arm_value (now_utc : datetime) (l : list row) (r : row)
    (d : datetime) :
  Forall wf_row l -> NoDup (row_id <$> l) -> r ∈ l ->
  instant_of (row_when_utc r) = Some d ->
  due_later off now_utc r = true ->
  forall js,
    foldl (arm off now_utc) js l !! job_id (row_id r)
    = Some (mkjob d (row_id r, row_text r)).
Proof.
  intros Hwf. revert r d.
  induction Hwf as [| x l Hx Hl IH]; intros r d Hnd Hr Hd Hdue js;
    [inversion Hr |].
  rewrite fmap_cons, NoDup_cons in Hnd. destruct Hnd as [Hnx Hnd].
  cbn [foldl]. apply elem_of_cons in Hr as [-> | Hr].
  - rewrite foldl_arm_other.
    + rewrite (arm_due now_utc js x d Hx Hd Hdue). apply lookup_insert_eq.
    + intros y Hy E. apply job_id_inj in E. apply Hnx. rewrite <- E.
      apply list_elem_of_fmap_2. exact Hy.
  - apply IH; assumption.
Qed.

(** Every job recovery leaves in the store was there before or belongs to
    a due row. *)
Lemma foldl_arm_backed (now_utc : datetime) (l : list row) :
  forall (js : gmap string job) (jid : string) (j : job),
    foldl (arm off now_utc) js l !! jid = Some j ->
    js !! jid = Some j \/
    exists r, r ∈ l /\ jid = job_id (row_id r) /\
              job_args j = (row_id r, row_text r) /\
              instant_of (row_when_utc r) = Some (run_date j) /\
              due_later off now_utc r = true.
Proof.
  induction l as [| x l IH]; intros js jid j; cbn [foldl]; [auto |].
  intros H. apply IH in H as [H | (r & Hr & Hrest)].
  - unfold arm in H. destruct (due_later off now_utc x) eqn:Hdue; [| auto].
    destruct (reminder_of_row x) as [R |] eqn:HR; [| auto].
    destruct (decide (jid = job_id (id R))) as [-> | Hne].
    + rewrite lookup_insert_eq in H. injection H as <-.
      right. exists x. split; [left |].
      unfold reminder_of_row in HR.
      destruct (instant_of (row_when_utc x)) as [dw |]; [| discriminate].
      destruct (instant_of (row_created_utc x)) as [dc |]; [| discriminate].
      cbn in HR. injection HR as <-. cbn. auto.
    + rewrite lookup_insert_ne in H by congruence. auto.
  - right. exists r. split; [right; exact Hr | exact Hrest].
Qed.

Lemma due_later_gt (now_utc : datetime) (r : row) (d : datetime) :
  instant_of (row_when_utc r) = Some d ->
  (due_later off now_utc r = true
   <-> default false (datetime_gt off d now_utc) = true).
Proof. intros Hd. unfold due_later. rewrite Hd. reflexivity. Qed.

(** C2.  Startup recovery, on a database file the program wrote and with
    storage working: a persisted row is armed in the scheduler if and only
    if its [when_utc] is strictly after the current instant.  A row that
    is after it is armed under [reminder_<id>] with its own instant as run
    date and its own id and text as arguments, so that the job says
    "Reminder: <text>" when it fires.  A row at or before the current
    instant is not armed, and no later call short of a restart arms it,
    so the scheduler has nothing to run for it; it is still in the listing
    and [delete_reminder] still removes it (its id being one SQLite can
    hold). *)
Theorem recovery_arms_future_rows_only (utcnow : datetime) (w : world) :
  wf_db (disk w) -> quiet w ->
  let now_utc := replace_tzinfo utcnow (Some UTC) in
  exists w',
    __init__ utcnow w = (Returns tt, w') /\
    forall r, r ∈ rows (disk w) ->
      exists d,
        instant_of (row_when_utc r) = Some d /\
        (is_Some (jobs w' !! job_id (row_id r))
           <-> datetime_gt off d now_utc = Some true) /\
        (datetime_gt off d now_utc = Some true ->
           jobs w' !! job_id (row_id r)
             = Some (mkjob d (row_id r, row_text r)) /\
           spoken (snd (scheduler_fire (job_id (row_id r)) w'))
             = spoken w' ++ ["Reminder: " +:+ row_text r]) /\
        (datetime_le off d now_utc = Some true ->
           jobs w' !! job_id (row_id r) = None /\
           (forall cs, forallb (fun c => negb (is_restart c)) cs = true ->
              jobs (snd (run_calls off cs w')) !! job_id (row_id r) = None) /\
           spoken (snd (scheduler_fire (job_id (row_id r)) w')) = spoken w' /\
           (exists l R, list_reminders w' = (Returns l, w') /\
                        R ∈ l /\ id R = row_id r /\ when_utc R = d) /\
           (- 2 ^ 63 <= row_id r < 2 ^ 63 ->
            exists w'',
              delete_reminder (row_id r) w' = (Returns true, w'') /\
              forall x, x ∈ rows (conn w'') -> row_id x <> row_id r)).
Proof.
  intros Hwf Hq now_utc.
  pose proof Hwf as (Hrows & Hnd & Hle).
  set (js := foldl (arm off now_utc) ∅ (rows (disk w))).
  set (w' := mkworld (disk w) (disk w) js (spoken w) []
              (journal w ++ Committed (disk w)
                 :: concat (arm_event off now_utc <$> rows (disk w)))).
  exists w'. split; [exact (init_quiet off utcnow w Hwf Hq) |].
  intros r Hr.
  assert (Hwr : wf_row r) by (eapply Forall_forall in Hrows; eauto).
  destruct (reminder_of_wf_row off r Hwr) as (d & dc & Hrem & Hvd & Htd & _).
  assert (Hinst : instant_of (row_when_utc r) = Some d).
  { unfold reminder_of_row in Hrem.
    destruct (instant_of (row_when_utc r)) as [x |]; [| discriminate].
    destruct (instant_of (row_created_utc r)) as [y |]; [| discriminate].
    cbv beta iota delta [mbind option_bind] in Hrem. congruence. }
  assert (Hcmp : datetime_cmp off d now_utc = Some (cmp_fields d now_utc))
    by (apply datetime_cmp_UTC; [exact Htd | reflexivity]).
  assert (Hdue : due_later off now_utc r = true
                 <-> datetime_gt off d now_utc = Some true).
  { unfold due_later. rewrite Hinst. unfold datetime_gt. rewrite Hcmp.
    cbv beta iota delta [mbind option_bind default from_option Datatypes.id].
    destruct (cmp_fields d now_utc); split; congruence. }
  assert (Harmed : is_Some (js !! job_id (row_id r))
                   <-> datetime_gt off d now_utc = Some true).
  { rewrite <- Hdue. unfold js. rewrite (foldl_arm_lookup off now_utc _ Hrows).
    split.
    - intros [H | (x & Hx & Hd & Hj)].
      + rewrite lookup_empty in H. destruct H; discriminate.
      + apply job_id_inj in Hj.
        rewrite <- (NoDup_fmap_eq row_id _ x r Hnd Hx Hr Hj). exact Hd.
    - intros Hd. right. exists r. auto. }
  destruct (scheduler_fire_effect (job_id (row_id r)) w')
    as (_ & _ & _ & _ & Hfire).
  cbn [jobs w'] in Hfire.
  exists d. split; [exact Hinst |]. split; [exact Harmed |]. split.
  { intros Hgt.
    pose proof (foldl_arm_value now_utc _ r d Hrows Hnd Hr Hinst
                  (proj2 Hdue Hgt) ∅) as Hjob.
    fold js in Hjob. split; [exact Hjob |].
    rewrite Hjob in Hfire. exact Hfire. }
  intros Hpast.
  assert (Hnone : js !! job_id (row_id r) = None).
  { apply eq_None_not_Some. rewrite Harmed.
    unfold datetime_le in Hpast. unfold datetime_gt.
    rewrite Hcmp in Hpast |- *.
    cbv beta iota delta [mbind option_bind] in Hpast |- *.
    destruct (cmp_fields d now_utc); congruence. }
  assert (Hseq : row_id r <= sqlite_sequence (conn w'))
    by (eapply Forall_forall in Hle; eauto).
  split; [exact Hnone |]. split.
  { intros cs Hcs. apply run_keeps_unarmed; [exact Hcs |]. split; assumption. }
  split; [rewrite Hnone in Hfire; exact Hfire |].
  split.
  - destruct (list_reminders_wf off w' Hwf eq_refl)
      as (l & sorted & Hlist & Hperm & Hl & _).
    exists l, (reminder_or_filler r). split; [exact Hlist |].
    apply mapM_reminder_fmap in Hl. split.
    + rewrite Hl. apply list_elem_of_fmap_2. rewrite Hperm. exact Hr.
    + unfold reminder_or_filler. rewrite Hrem. split; reflexivity.
  - intros Hrid. eexists.
    rewrite (delete_reminder_quiet (row_id r) w' Hrid eq_refl).
    cbv zeta. split.
    + f_equal. f_equal. apply rowcount_positive. eauto.
    + intros x Hx. cbn [conn rows] in Hx.
      apply list_elem_of_filter in Hx. tauto.
Qed.

(** X5.  What a restart leaves in the scheduler, on a database file the
    program wrote and with storage working: for every stored row whose
    instant is strictly after the current instant there is a job under
    [reminder_<id>] whose run date is the stored instant and whose
    arguments are the row's id and text, so that firing it speaks
    "Reminder: <text>"; and the store holds no other job. *)
Theorem recovery_restores_jobs (utcnow : datetime) (w : world) :
  wf_db (disk w) -> quiet w ->
  let now_utc := replace_tzinfo utcnow (Some UTC) in
  exists w',
    __init__ utcnow w = (Returns tt, w') /\
    (forall r d, r ∈ rows (disk w) ->
       instant_of (row_when_utc r) = Some d ->
       datetime_gt off d now_utc = Some true ->
       jobs w' !! job_id (row_id r)
         = Some (mkjob d (row_id r, row_text r)) /\
       spoken (snd (scheduler_fire (job_id (row_id r)) w'))
         = spoken w ++ ["Reminder: " +:+ row_text r]) /\
    (forall jid j, jobs w' !! jid = Some j ->
       exists r, r ∈ rows (disk w) /\ jid = job_id (row_id r) /\
                 job_args j = (row_id r, row_text r) /\
                 instant_of (row_when_utc r) = Some (run_date j) /\
                 datetime_gt off (run_date j) now_utc = Some true).
Proof.
  intros Hwf Hq now_utc.
  pose proof Hwf as (Hrows & Hnd & _).
  set (js := foldl (arm off now_utc) ∅ (rows (disk w))).
  set (w' := mkworld (disk w) (disk w) js (spoken w) []
              (journal w ++ Committed (disk w)
                 :: concat (arm_event off now_utc <$> rows (disk w)))).
  exists w'. split; [exact (init_quiet off utcnow w Hwf Hq) |]. split.
  - intros r d Hr Hd Hgt.
    assert (Hdue : due_later off now_utc r = true).
    { apply (due_later_gt now_utc r d Hd). rewrite Hgt. reflexivity. }
    pose proof (foldl_arm_value now_utc _ r d Hrows Hnd Hr Hd Hdue ∅) as Hjob.
    split; [exact Hjob |].
    destruct (scheduler_fire_effect (job_id (row_id r)) w')
      as (_ & _ & _ & _ & Hs).
    cbn [jobs w'] in Hs. fold js in Hjob. rewrite Hjob in Hs. exact Hs.
  - intros jid j Hj. cbn [jobs w'] in Hj.
    apply foldl_arm_backed in Hj as [Hj | (r & Hr & Hjid & Hargs & Hinst & Hdue)].
    + rewrite lookup_empty in Hj. discriminate.
    + exists r. repeat split; try assumption.
      apply (due_later_gt now_utc r _ Hinst) in Hdue.
      destruct (datetime_gt off (run_date j) now_utc) as [[|] |];
        cbn in Hdue; congruence.
Qed.

(** X6.  A reminder outlives a restart.  On a table the program wrote and
    with storage working, a reminder that [add_reminder] returned is still
    in table and file after the process is started again, and when its
    instant is strictly after the instant of the restart it is armed again
    with the run date and the arguments [add_reminder] had armed it with;
    when its instant has passed by then, it is not armed. *)
Theorem reminder_survives_restart (task : string)
    (when_local utcnow restart_utcnow wu : datetime) (w : world) :
  wf_db (conn w) -> quiet w -> Valid when_local -> Valid utcnow ->
  astimezone_UTC off (localized when_local) = Some wu ->
  let now_utc := replace_tzinfo restart_utcnow (Some UTC) in
  exists r w1 w2,
    add_reminder task when_local utcnow w = (Returns r, w1) /\
    __init__ restart_utcnow w1 = (Returns tt, w2) /\
    conn w2 = conn w1 /\ disk w2 = disk w1 /\
    (exists stored, stored ∈ rows (disk w2) /\ row_id stored = id r /\
                    row_text stored = task /\
                    instant_of (row_when_utc stored) = Some wu) /\
    (datetime_gt off wu now_utc = Some true ->
       jobs w2 !! job_id (id r) = Some (mkjob wu (id r, task)) /\
       jobs w2 !! job_id (id r) = jobs w1 !! job_id (id r)) /\
    (datetime_le off wu now_utc = Some true ->
       jobs w2 !! job_id (id r) = None).
Proof.
  intros Hwf Hq Hvl Hvn Hwu now_utc.
  assert (Hvloc : Valid (localized when_local)).
  { unfold localized. destruct (tzinfo_of when_local); exact Hvl. }
  pose proof (astimezone_UTC_valid off _ _ Hvloc Hwu) as Hvwu.
  pose proof (astimezone_UTC_tzinfo off _ _ Hwu) as Htwu.
  pose proof (add_reminder_quiet off task when_local utcnow wu w Hq Hwu) as Hadd.
  cbv zeta in Hadd.
  set (rid := Sqlite.next_rowid (conn w)) in *.
  set (cu := replace_tzinfo utcnow (Some UTC)) in *.
  set (new := mkrow rid task (isoformat off wu) (isoformat off cu)) in *.
  set (db := mkdb (rows (conn w) ++ [new]) rid) in *.
  set (w1 := mkworld db db (<[job_id rid := mkjob wu (rid, task)]> (jobs w))
                     (spoken w) []
                     (journal w ++ [Committed db;
                                    Armed (job_id rid) (mkjob wu (rid, task))])) in *.
  assert (Hwf1 : wf_db (disk w1)) by (apply wf_db_insert; auto).
  pose proof (init_quiet off restart_utcnow w1 Hwf1 eq_refl) as Hinit.
  fold now_utc in Hinit.
  set (js := foldl (arm off now_utc) ∅ (rows (disk w1))) in *.
  assert (Hnew : new ∈ rows (disk w1)).
  { cbn [disk w1 rows db]. apply elem_of_app. right.
    apply list_elem_of_singleton. reflexivity. }
  assert (Hinst : instant_of (row_when_utc new) = Some wu)
    by (apply instant_of_isoformat; assumption).
  assert (Hcmp : datetime_cmp off wu now_utc = Some (cmp_fields wu now_utc))
    by (apply datetime_cmp_UTC; [exact Htwu | reflexivity]).
  eexists _, w1, _. split; [exact Hadd |]. split; [exact Hinit |].
  cbn [conn disk jobs id w1].
  split; [reflexivity |]. split; [reflexivity |]. split.
  { exists new. repeat split; assumption. }
  destruct Hwf1 as (Hrows1 & Hnd1 & _). split.
  - intros Hgt.
    assert (Hdue : due_later off now_utc new = true).
    { apply (due_later_gt now_utc new wu Hinst). rewrite Hgt. reflexivity. }
    pose proof (foldl_arm_value now_utc _ new wu Hrows1 Hnd1 Hnew Hinst Hdue ∅)
      as Hjob.
    cbn [row_id row_text new] in Hjob. fold js in Hjob.
    split; [exact Hjob |]. rewrite Hjob. symmetry. apply lookup_insert_eq.
  - intros Hle.
    destruct (js !! job_id rid) as [j |] eqn:Hj; [| reflexivity].
    exfalso. apply foldl_arm_backed in Hj
      as [Hj | (r & Hr & Hjid & _ & _ & Hdue)].
    + rewrite lookup_empty in Hj. discriminate.
    + apply job_id_inj in Hjid.
      assert (r = new) as ->.
      { symmetry. apply (NoDup_fmap_eq row_id _ new r Hnd1 Hnew Hr).
        cbn [row_id new]. exact Hjid. }
      apply (due_later_gt now_utc new wu Hinst) in Hdue.
      unfold datetime_le in Hle. unfold datetime_gt in Hdue.
      rewrite Hcmp in Hle, Hdue. cbn in Hle, Hdue.
      destruct (cmp_fields wu now_utc); congruence.
Qed.

(** ** No job without a row *)



(** ** The instant that is stored *)

(** [astimezone(tz.UTC)] takes the UTC offset off the wall clock, and
    raises exactly when the result is not a date of the calendar. *)
Lemma astimezone_UTC_spec (d : datetime) :
  Valid d ->
  let z := default USER_TZ (tzinfo_of d) in
  let t := wall_us d - utcoffset off z d * 1000000 in
  (0 <= t < MAXORDINAL * US_PER_DAY ->
   exists wu, astimezone_UTC off d = Some wu /\ wall_us wu = t) /\
  (~ 0 <= t < MAXORDINAL * US_PER_DAY -> astimezone_UTC off d = None).
Proof.
  intros Hv z t. unfold astimezone_UTC. subst t z.
  destruct (tzinfo_of d) as [[| |s] |] eqn:Etz;
    cbn [from_option Datatypes.id utcoffset].
  1: { split.
       - intros _. exists d. split; [reflexivity | lia].
       - intros Hout. exfalso. apply Hout.
         pose proof (CalendarFacts.wall_us_bounds d Hv). lia. }
  all: match goal with
       | |- context [timedelta_add ?x ?us] =>
           destruct (CalendarFacts.timedelta_add_spec x us) as [Hin Hout]
       end;
       cbv zeta in Hin, Hout; split;
       [ intros Ht; destruct Hin as (r & -> & _ & Hr & _); [lia |];
         exists (replace_tzinfo r (Some UTC)); split; [reflexivity |];
         unfold wall_us in *; cbn; lia
       | intros Ht; rewrite Hout by lia; reflexivity ].
Qed.

End Lifecycle.

(* ===================================================================== *)
(** * The time resolver                                                   *)
(* ===================================================================== *)

Section Resolution.

Variable off : datetime -> Z.
Variable parse : string -> datetime -> option datetime.

Local Open Scope py_scope.

Lemma cmp_fields_next_day (a b : datetime) :
  same_date a b -> cmp_fields (next_day a) b = Gt.
Proof.
  intros (Hy & Hm & Hd). unfold next_day, cmp_fields.
  destruct (Z.ltb_spec (day a) (days_in_month (year a) (month a))).
  - cbn. rewrite Hy, Hm, !Z.compare_refl. cbn.
    replace (day a + 1 ?= day b) with Gt; [reflexivity |].
    symmetry. apply Z.compare_gt_iff. lia.
  - destruct (Z.ltb_spec (month a) 12).
    + cbn. rewrite Hy, Z.compare_refl. cbn.
      replace (month a + 1 ?= month b) with Gt; [reflexivity |].
      symmetry. apply Z.compare_gt_iff. lia.
    + cbn. replace (year a + 1 ?= year b) with Gt; [reflexivity |].
      symmetry. apply Z.compare_gt_iff. lia.
Qed.

Lemma wall_us_next_day (d : datetime) :
  Valid d -> wall_us (next_day d) = wall_us d + US_PER_DAY.
Proof.
  intros Hv. unfold wall_us. rewrite (TimeFacts.ymd2ord_next_day d Hv).
  assert (hour (next_day d) = hour d /\ minute (next_day d) = minute d /\
          second (next_day d) = second d /\
          microsecond (next_day d) = microsecond d) as (-> & -> & -> & ->).
  { unfold next_day.
    destruct (day d <? days_in_month (year d) (month d)); [cbn; tauto |].
    destruct (month d <? 12); cbn; tauto. }
  lia.
Qed.

(** Every way the resolver can go, for a text dateutil turns into a
    datetime Python can hold. *)
Lemma parse_time_local_outcome (text : string) (clock dt : datetime) :
  let now := replace_tzinfo clock (Some USER_TZ) in
  parse text now = Some dt -> Valid dt ->
  exists b,
    datetime_le off (localized dt) now = Some b /\
    parse_time_local off parse text clock
    = (if b then timedelta_add (localized dt) one_day
       else Some (localized dt)) /\
    (ymd2ord (year dt) (month dt) (day dt) < MAXORDINAL ->
     timedelta_add (localized dt) one_day = Some (next_day (localized dt))) /\
    (ymd2ord (year dt) (month dt) (day dt) = MAXORDINAL ->
     timedelta_add (localized dt) one_day = None).
Proof.
  intros now Hparse Hvalid. unfold parse_time_local. fold now.
  rewrite Hparse. cbn [mbind option_bind]. fold (localized dt).
  set (dt' := localized dt).
  assert (Hv' : Valid dt').
  { subst dt'. unfold localized. destruct (tzinfo_of dt); exact Hvalid. }
  assert (Htz : exists z, tzinfo_of dt' = Some z).
  { subst dt'. unfold localized. destruct (tzinfo_of dt) eqn:E; eauto. }
  destruct Htz as (z & Htz).
  assert (Hord : ymd2ord (year dt') (month dt') (day dt')
                 = ymd2ord (year dt) (month dt) (day dt)).
  { subst dt'. unfold localized. destruct (tzinfo_of dt); reflexivity. }
  assert (Hle : exists b, datetime_le off dt' now = Some b).
  { unfold datetime_le, datetime_cmp. rewrite Htz.
    cbn [tzinfo_of now replace_tzinfo].
    destruct (decide (z = USER_TZ)); [eauto |].
    destruct (_ =? _); eauto. }
  destruct Hle as (b & Hle). exists b. rewrite Hle.
  cbn [mbind option_bind].
  split; [reflexivity |]. split; [reflexivity |]. split.
  - intros Hlt. apply TimeFacts.timedelta_add_one_day; [exact Hv' | lia].
  - intros Hlast.
    destruct (CalendarFacts.timedelta_add_spec dt' one_day) as [_ Hout].
    cbv zeta in Hout. apply Hout.
    pose proof (CalendarFacts.wall_us_bounds dt' Hv') as Hw.
    unfold wall_us in *. rewrite Hord, Hlast in *.
    destruct Hv' as (_ & _ & _ & Hh & Hmi & Hs & Hus).
    destruct (TimeFacts.time_of_day_split _ _ _ _ Hh Hmi Hs Hus) as (Ht & _).
    cbv zeta in Ht. unfold one_day, US_PER_DAY, MAXORDINAL in *. lia.
Qed.

(** The wall clock of two readings of one day is ordered as Python orders
    their fields. *)
Lemma cmp_fields_same_date (a b : datetime) :
  Valid a -> Valid b -> same_date a b ->
  cmp_fields a b = (wall_us a ?= wall_us b).
Proof.
  intros (_ & _ & _ & Hha & Hmia & Hsa & Husa)
         (_ & _ & _ & Hhb & Hmib & Hsb & Husb) (Hy & Hm & Hd).
  unfold cmp_fields, wall_us. rewrite Hy, Hm, Hd, !Z.compare_refl.
  cbn [cmp_then].
  destruct (Z.compare_spec (hour a) (hour b)) as [Eh | Lh | Gh];
    cbn [cmp_then].
  2: { symmetry. apply Z.compare_lt_iff. lia. }
  2: { symmetry. apply Z.compare_gt_iff. lia. }
  rewrite Eh.
  destruct (Z.compare_spec (minute a) (minute b)) as [Emi | Lmi | Gmi];
    cbn [cmp_then].
  2: { symmetry. apply Z.compare_lt_iff. lia. }
  2: { symmetry. apply Z.compare_gt_iff. lia. }
  rewrite Emi.
  destruct (Z.compare_spec (second a) (second b)) as [Es | Ls | Gs];
    cbn [cmp_then].
  2: { symmetry. apply Z.compare_lt_iff. lia. }
  2: { symmetry. apply Z.compare_gt_iff. lia. }
  rewrite Es.
  destruct (Z.compare_spec (microsecond a) (microsecond b)) as [Eu | Lu | Gu].
  - symmetry. apply Z.compare_eq_iff. lia.
  - symmetry. apply Z.compare_lt_iff. lia.
  - symmetry. apply Z.compare_gt_iff. lia.
Qed.

(** What [astimezone(tz.UTC)] makes of a reading of the process zone. *)
Lemma astimezone_UTC_local (d u : datetime) :
  Valid d -> tzinfo_of d = Some USER_TZ ->
  astimezone_UTC off d = Some u ->
  wall_us u = wall_us d - off d * 1000000.
Proof.
  intros Hv Htz. unfold astimezone_UTC. rewrite Htz.
  cbn [default from_option Datatypes.id utcoffset].
  destruct (CalendarFacts.timedelta_add_spec d (- (off d * 1000000)))
    as [Hin Hout].
  cbv zeta in Hin, Hout.
  destruct (decide (0 <= wall_us d + - (off d * 1000000)
                    < MAXORDINAL * US_PER_DAY)) as [Hok | Hno].
  - destruct (Hin Hok) as (r & -> & _ & Hr & _). cbn [mbind option_bind].
    intros [= <-]. unfold wall_us in *. cbn. lia.
  - rewrite (Hout Hno). discriminate.
Qed.

(** C1 (amended).  Any text the resolver accepts is rolled forward once
    at most: the result is the parsed datetime (read in [USER_TZ] when it
    names no zone) or that datetime plus one day.  For a text whose parse
    keeps the calendar date and the zone of the reference reading "now" (a
    bare clock time such as "23:00"), with "now" before 9999-12-31: the
    result is the parsed reading itself when that is after "now", and
    otherwise the same wall clock time on the next calendar day, exactly
    24 hours of wall clock later; it is strictly after "now" as the
    program compares the two, that is on the local wall clock, and its
    conversion to UTC is strictly after the conversion of "now" whenever
    the zone has the same UTC offset at both readings. *)
Theorem parse_time_local_same_day (text : string) (clock : datetime) :
  let now := replace_tzinfo clock (Some USER_TZ) in
  (forall r, parse_time_local off parse text clock = Some r ->
     exists dt, parse text now = Some dt /\
                (r = localized dt \/
                 timedelta_add (localized dt) one_day = Some r)) /\
  (forall dt,
     let dt' := replace_tzinfo dt (Some USER_TZ) in
     parse text now = Some dt ->
     (tzinfo_of dt = Some USER_TZ \/ tzinfo_of dt = None) ->
     Valid dt -> Valid clock -> same_date dt clock ->
     ymd2ord (year clock) (month clock) (day clock) < MAXORDINAL ->
     exists r,
       parse_time_local off parse text clock = Some r /\
       datetime_gt off r now = Some true /\
       wall_us now < wall_us r /\
       (forall ru nu,
          astimezone_UTC off r = Some ru ->
          astimezone_UTC off now = Some nu ->
          off r = off now -> wall_us nu < wall_us ru) /\
       (r = dt' \/ r = next_day dt') /\
       (datetime_le off dt' now = Some true ->
          r = next_day dt' /\
          wall_us r = wall_us dt' + 24 * 3600 * 1000000) /\
       (datetime_le off dt' now = Some false -> r = dt')).
Proof.
  intros now. split.
  - intros r. unfold parse_time_local. fold now.
    destruct (parse text now) as [dt |]; [| discriminate].
    cbn [mbind option_bind]. fold (localized dt).
    destruct (datetime_le off (localized dt) now) as [[|] |];
      cbn [mbind option_bind]; [| | discriminate].
    + intros H. exists dt. auto.
    + intros [= <-]. exists dt. auto.
  - intros dt dt' Hparse Htz Hv Hvc Hsame Hlast.
    assert (Hdt' : localized dt = dt').
    { unfold localized. destruct Htz as [Htz | Htz]; rewrite Htz;
        [| reflexivity].
      subst dt'. unfold replace_tzinfo. destruct dt; cbn in Htz |- *.
      rewrite Htz. reflexivity. }
    assert (Hv' : Valid dt') by exact Hv.
    assert (Hvn : Valid now) by exact Hvc.
    assert (Hsame' : same_date dt' now) by exact Hsame.
    assert (Hord : ymd2ord (year dt) (month dt) (day dt) < MAXORDINAL).
    { destruct Hsame as (-> & -> & ->). exact Hlast. }
    destruct (parse_time_local_outcome text clock dt Hparse Hv)
      as (b & Hle & Hres & Hnext & _).
    fold now in Hle. rewrite Hdt' in Hle, Hres, Hnext.
    specialize (Hnext Hord).
    assert (Hcmp : forall x, tzinfo_of x = Some USER_TZ ->
              datetime_cmp off x now = Some (cmp_fields x now)).
    { intros x Hx. unfold datetime_cmp. rewrite Hx. cbn.
      destruct (decide (USER_TZ = USER_TZ)); [reflexivity | congruence]. }
    assert (Hinst : forall r, Valid r -> tzinfo_of r = Some USER_TZ ->
              wall_us now < wall_us r ->
              forall ru nu,
                astimezone_UTC off r = Some ru ->
                astimezone_UTC off now = Some nu ->
                off r = off now -> wall_us nu < wall_us ru).
    { intros r Hvr Htr Hlt ru nu Hru Hnu Hoff.
      rewrite (astimezone_UTC_local r ru Hvr Htr Hru).
      rewrite (astimezone_UTC_local now nu Hvn eq_refl Hnu). lia. }
    pose proof (cmp_fields_same_date dt' now Hv' Hvn Hsame') as Hwall.
    unfold datetime_le in Hle. rewrite (Hcmp dt' eq_refl) in Hle.
    cbn [mbind option_bind] in Hle.
    assert (Hday : wall_us now < wall_us (next_day dt')).
    { rewrite (wall_us_next_day dt' Hv').
      destruct Hsame' as (Hy & Hm & Hd).
      destruct Hv' as (_ & _ & _ & Hh & Hmi & Hs & Hus).
      destruct Hvn as (_ & _ & _ & Hh' & Hmi' & Hs' & Hus').
      destruct (TimeFacts.time_of_day_split _ _ _ _ Hh Hmi Hs Hus) as (Ht & _).
      destruct (TimeFacts.time_of_day_split _ _ _ _ Hh' Hmi' Hs' Hus')
        as (Ht' & _).
      cbv zeta in Ht, Ht'. unfold wall_us. rewrite Hy, Hm, Hd.
      unfold US_PER_DAY in *. lia. }
    assert (Htzn : tzinfo_of (next_day dt') = Some USER_TZ).
    { unfold next_day. destruct (_ <? _); [reflexivity |].
      destruct (_ <? _); reflexivity. }
    unfold datetime_le, datetime_gt.
    destruct b.
    + exists (next_day dt'). rewrite Hres, Hnext.
      split; [reflexivity |].
      rewrite (Hcmp _ Htzn), (cmp_fields_next_day dt' now Hsame').
      rewrite (Hcmp dt' eq_refl). cbn [mbind option_bind].
      split; [reflexivity |]. split; [exact Hday |].
      split.
      { apply Hinst; [| exact Htzn | exact Hday].
        apply TimeFacts.next_day_valid; [exact Hv' |].
        change (ymd2ord (year dt) (month dt) (day dt) < MAXORDINAL).
        exact Hord. }
      split; [right; reflexivity |]. split.
      * intros _. split; [reflexivity |].
        rewrite (wall_us_next_day dt' Hv'). unfold US_PER_DAY. lia.
      * intros Hf. exfalso.
        destruct (cmp_fields dt' now); congruence.
    + exists dt'. rewrite Hres. split; [reflexivity |].
      rewrite (Hcmp dt' eq_refl). cbn [mbind option_bind].
      assert (Hgt : cmp_fields dt' now = Gt)
        by (destruct (cmp_fields dt' now); congruence).
      rewrite Hgt. split; [reflexivity |].
      assert (Hlt : wall_us now < wall_us dt').
      { rewrite Hwall in Hgt. apply Z.compare_gt_iff in Hgt. exact Hgt. }
      split; [exact Hlt |].
      split; [apply Hinst; [exact Hv' | reflexivity | exact Hlt] |].
      split; [left; reflexivity |]. split; [discriminate | reflexivity].
Qed.

(** C7 (amended).  What dateutil refuses, the resolver refuses: it returns
    [None]; and whenever the resolver returns [None] the command layer
    only tells the user it could not understand the time, so that nothing
    is inserted, committed or armed and no exception reaches the caller.
    The resolver has no check of its own: whatever dateutil turns into a
    datetime, however little of it the text spells, is resolved (to that
    datetime (one Python can hold) or to the day after it and handed to
    [add_reminder]; the one exception is a datetime of 9999-12-31, which
    cannot be rolled. *)
Theorem unrecognized_time_creates_nothing (task time_text : string)
    (clock utcnow : datetime) (w : world) :
  let now := replace_tzinfo clock (Some USER_TZ) in
  (parse time_text now = None ->
     parse_time_local off parse time_text clock = None) /\
  (parse_time_local off parse time_text clock = None ->
     handle_reminder_at off parse task time_text clock utcnow w
     = (Returns true, says ["Sorry, I couldn't understand the time."] w)) /\
  (forall dt, parse time_text now = Some dt -> Valid dt ->
     ymd2ord (year dt) (month dt) (day dt) < MAXORDINAL ->
     exists when,
       parse_time_local off parse time_text clock = Some when /\
       (when = localized dt \/ when = next_day (localized dt)) /\
       handle_reminder_at off parse task time_text clock utcnow w
       = (r <- ReminderManager.add_reminder off task when utcnow ;;
          tts_say ("Reminder set for " +:+ strftime_I_M_p when +:+ " to "
                   +:+ task +:+ ".") ;;
          ret true) w).
Proof.
  intros now. split; [| split].
  - intros Hnone. unfold parse_time_local. fold now. rewrite Hnone.
    reflexivity.
  - intros Hnone. unfold handle_reminder_at. rewrite Hnone. reflexivity.
  - intros dt Hparse Hvalid Hord.
    destruct (parse_time_local_outcome time_text clock dt Hparse Hvalid)
      as (b & _ & Hres & Hnext & _).
    rewrite (Hnext Hord) in Hres.
    exists (if b then next_day (localized dt) else localized dt).
    split; [rewrite Hres; destruct b; reflexivity |].
    split; [destruct b; auto |].
    unfold handle_reminder_at. rewrite Hres. destruct b; reflexivity.
Qed.

(** X9.  The resolver gives up only where it must.  For a text dateutil
    accepts (as a datetime Python can hold), [parse_time_local] returns a
    zone-aware instant: the parsed one, read in [USER_TZ] when it names no
    zone, or the same wall clock time on the next calendar day when the
    parsed one is not after "now".  It returns [None] only for a text
    dateutil refuses, or when the day to roll over from is 9999-12-31. *)
Theorem parse_time_local_gives_up_only (text : string) (clock : datetime) :
  let now := replace_tzinfo clock (Some USER_TZ) in
  (forall dt, parse text now = Some dt -> Valid dt) ->
  (parse_time_local off parse text clock = None <->
   parse text now = None \/
   exists dt, parse text now = Some dt /\
              datetime_le off (localized dt) now = Some true /\
              ymd2ord (year dt) (month dt) (day dt) = MAXORDINAL) /\
  (forall r, parse_time_local off parse text clock = Some r ->
     exists dt, parse text now = Some dt /\ tzinfo_of r <> None /\
                Valid r /\
                (r = localized dt \/ r = next_day (localized dt))).
Proof.
  intros now Hvalid. unfold parse_time_local. fold now.
  destruct (parse text now) as [dt |] eqn:Hparse; cbn [mbind option_bind].
  2: { split; [split; auto | intros r; discriminate]. }
  specialize (Hvalid dt eq_refl). fold (localized dt).
  set (dt' := localized dt).
  assert (Hv' : Valid dt').
  { subst dt'. unfold localized. destruct (tzinfo_of dt); exact Hvalid. }
  assert (Htz : exists z, tzinfo_of dt' = Some z).
  { subst dt'. unfold localized. destruct (tzinfo_of dt) eqn:E; eauto. }
  destruct Htz as (z & Htz).
  assert (Hord : ymd2ord (year dt') (month dt') (day dt')
                 = ymd2ord (year dt) (month dt) (day dt)).
  { subst dt'. unfold localized. destruct (tzinfo_of dt); reflexivity. }
  assert (Hle : exists b, datetime_le off dt' now = Some b).
  { unfold datetime_le, datetime_cmp. rewrite Htz. cbn [tzinfo_of now replace_tzinfo].
    destruct (decide (z = USER_TZ)); [eauto |].
    destruct (_ =? _); eauto. }
  destruct Hle as (b & Hle). rewrite Hle. cbn [mbind option_bind].
  pose proof (TimeFacts.ymd2ord_bounds _ _ _
                (proj1 Hv') (proj1 (proj2 Hv')) (proj1 (proj2 (proj2 Hv'))))
    as Hbound.
  destruct b.
  - destruct (Z.eq_dec (ymd2ord (year dt) (month dt) (day dt)) MAXORDINAL)
      as [Hlast | Hnot].
    + destruct (CalendarFacts.timedelta_add_spec dt' one_day) as [_ Hout].
      cbv zeta in Hout. rewrite Hout.
      * split; [| intros r; discriminate].
        split; [| reflexivity]. intros _. right. exists dt. auto.
      * pose proof (CalendarFacts.wall_us_bounds dt' Hv') as Hw.
        unfold wall_us in *. rewrite Hord, Hlast in *.
        destruct Hv' as (_ & _ & _ & Hh & Hmi & Hs & Hus).
        destruct (TimeFacts.time_of_day_split _ _ _ _ Hh Hmi Hs Hus) as (Ht & _).
        cbv zeta in Ht. unfold one_day, US_PER_DAY, MAXORDINAL in *. lia.
    + assert (Hlt : ymd2ord (year dt') (month dt') (day dt') < MAXORDINAL)
        by lia.
      rewrite (TimeFacts.timedelta_add_one_day dt' Hv' Hlt). split.
      * split; [discriminate |].
        intros [Hn | (dt0 & [= <-] & _ & Hmax)]; [discriminate | lia].
      * intros r [= <-]. exists dt. split; [reflexivity |].
        split; [| split; [apply TimeFacts.next_day_valid; assumption | auto]].
        unfold next_day. destruct (_ <? _); [cbn; congruence |].
        destruct (_ <? _); cbn; congruence.
  - split.
    + split; [discriminate |].
      intros [Hn | (dt0 & [= <-] & Hle' & _)]; [discriminate |].
      fold dt' in Hle'. congruence.
    + intros r [= <-]. exists dt. split; [reflexivity |].
      split; [congruence | auto].
Qed.

End Resolution.


(* ===================================================================== *)
(** * Text: facts about the [str] methods                               *)
(* ===================================================================== *)

Module TextFacts.

Lemma chars_text_of (l : list ascii) : chars (text_of l) = l.
Proof. apply String.list_ascii_of_string_of_list_ascii. Qed.

Lemma text_of_chars (s : string) : text_of (chars s) = s.
Proof. apply String.string_of_list_ascii_of_string. Qed.

Lemma chars_inj (s t : string) : chars s = chars t -> s = t.
Proof.
  intros H. rewrite <- (text_of_chars s), <- (text_of_chars t), H. reflexivity.
Qed.

Lemma chars_lower (s : string) : chars (lower s) = lower_char <$> chars s.
Proof. unfold lower. apply chars_text_of. Qed.

Lemma lower_char_idemp (c : ascii) : lower_char (lower_char c) = lower_char c.
Proof.
  unfold lower_char, code.
  destruct ((65 <=? Z.of_N (N_of_ascii c)) && (Z.of_N (N_of_ascii c) <=? 90))
    eqn:E; [| rewrite E; reflexivity].
  assert (H : N_of_ascii (ascii_of_N (N_of_ascii c + 32))
              = (N_of_ascii c + 32)%N).
  { apply N_ascii_embedding. apply andb_true_iff in E as [_ E2].
    apply Z.leb_le in E2. lia. }
  rewrite H.
  apply andb_true_iff in E as [E1 E2].
  apply Z.leb_le in E1, E2.
  assert (F : (Z.of_N (N_of_ascii c + 32) <=? 90) = false)
    by (apply Z.leb_gt; lia).
  rewrite F, andb_false_r. reflexivity.
Qed.

(** ** Stripping *)

Lemma skip_spaces_suffix s2 s3 (l : list ascii) :
  exists a, l = a ++ skip_spaces s2 s3 l.
Proof.
  remember (length l) as n eqn:Hn. revert l Hn.
  induction n as [n IH] using lt_wf_ind. intros l Hn.
  destruct l as [| a l1]; [exists []; reflexivity |].
  cbn [skip_spaces]. destruct (space1 (code a)).
  { destruct (IH (length l1) ltac:(subst n; cbn; lia) l1 eq_refl) as (x & Hx).
    exists (a :: x). cbn. f_equal. exact Hx. }
  destruct l1 as [| b l2]; [exists []; reflexivity |].
  destruct (s2 (code a) (code b)).
  { destruct (IH (length l2) ltac:(subst n; cbn; lia) l2 eq_refl) as (x & Hx).
    exists (a :: b :: x). cbn. do 2 f_equal. exact Hx. }
  destruct l2 as [| c l3]; [exists []; reflexivity |].
  destruct (s3 (code a) (code b) (code c)).
  { destruct (IH (length l3) ltac:(subst n; cbn; lia) l3 eq_refl) as (x & Hx).
    exists (a :: b :: c :: x). cbn. do 3 f_equal. exact Hx. }
  exists []. reflexivity.
Qed.

Lemma skip_spaces_head s2 s3 (l : list ascii) (c : ascii) (l' : list ascii) :
  skip_spaces s2 s3 l = c :: l' -> space1 (code c) = false.
Proof.
  remember (length l) as n eqn:Hn. revert l Hn.
  induction n as [n IH] using lt_wf_ind. intros l Hn.
  destruct l as [| a l1]; [discriminate |].
  cbn [skip_spaces]. destruct (space1 (code a)) eqn:Ea.
  { apply (IH (length l1)); [subst n; cbn; lia | reflexivity]. }
  destruct l1 as [| b l2]; [intros [= <- _]; exact Ea |].
  destruct (s2 (code a) (code b)).
  { apply (IH (length l2)); [subst n; cbn; lia | reflexivity]. }
  destruct l2 as [| x l3]; [intros [= <- _]; exact Ea |].
  destruct (s3 (code a) (code b) (code x)).
  { apply (IH (length l3)); [subst n; cbn; lia | reflexivity]. }
  intros [= <- _]. exact Ea.
Qed.

(** The stripped text is a piece of the text. *)
Lemma strip_infix (s : string) :
  exists a b, chars s = a ++ chars (strip s) ++ b.
Proof.
  unfold strip. rewrite chars_text_of. unfold rstrip, lstrip.
  destruct (skip_spaces_suffix space2 space3 (chars s)) as (a & Ha).
  set (l := skip_spaces space2 space3 (chars s)) in *.
  destruct (skip_spaces_suffix (fun a b => space2 b a)
              (fun a b c => space3 c b a) (rev l)) as (b & Hb).
  exists a, (rev b). rewrite Ha at 1. f_equal.
  rewrite <- rev_app_distr, <- Hb. symmetry. apply rev_involutive.
Qed.

(** It does not end in a whitespace character of one byte: a blank, a tab,
    a line feed. *)
Lemma strip_last (s : string) (l : list ascii) (c : ascii) :
  chars (strip s) = l ++ [c] -> space1 (code c) = false.
Proof.
  unfold strip. rewrite chars_text_of. unfold rstrip. intros H.
  apply (f_equal (@rev ascii)) in H.
  rewrite rev_involutive, rev_app_distr in H. cbn in H.
  exact (skip_spaces_head _ _ _ _ _ H).
Qed.

Lemma is_ascii_chars (s : string) :
  is_ascii s = true <-> Forall (fun c => code c < 128) (chars s).
Proof.
  unfold is_ascii. rewrite forallb_forall, Forall_forall.
  split; intros H c Hc.
  - apply Z.ltb_lt. apply H. apply list_elem_of_In. exact Hc.
  - apply Z.ltb_lt. apply H. apply list_elem_of_In. exact Hc.
Qed.

End TextFacts.

(* ===================================================================== *)
(** * Patterns: the matcher finds what the pattern describes            *)
(* ===================================================================== *)

Module ReFacts.

Import TextFacts.

Lemma ci_eq_refl (m : list ascii) : ci_eq m m.
Proof. reflexivity. Qed.

Lemma ci_eq_length (p m : list ascii) : ci_eq p m -> length p = length m.
Proof.
  unfold ci_eq. intros H. apply (f_equal length) in H.
  rewrite !length_fmap in H. exact H.
Qed.

Lemma ci_eq_app_inv (p1 p2 m : list ascii) :
  ci_eq (p1 ++ p2) m ->
  exists m1 m2, m = m1 ++ m2 /\ ci_eq p1 m1 /\ ci_eq p2 m2.
Proof.
  unfold ci_eq. rewrite fmap_app. intros H. symmetry in H.
  apply fmap_app_inv in H as (m1 & m2 & H1 & H2 & ->).
  exists m1, m2. auto.
Qed.

Lemma ci_eq_app (p1 p2 m1 m2 : list ascii) :
  ci_eq p1 m1 -> ci_eq p2 m2 -> ci_eq (p1 ++ p2) (m1 ++ m2).
Proof. unfold ci_eq. rewrite !fmap_app. intros -> ->. reflexivity. Qed.

Lemma ci_eq_trans (a b c : list ascii) : ci_eq a b -> ci_eq b c -> ci_eq a c.
Proof. unfold ci_eq. congruence. Qed.

Lemma ci_eq_sym (a b : list ascii) : ci_eq a b -> ci_eq b a.
Proof. unfold ci_eq. congruence. Qed.

Lemma ci_eq_lower (m : list ascii) : ci_eq m (lower_char <$> m).
Proof.
  unfold ci_eq. rewrite <- list_fmap_compose.
  apply list_fmap_ext. intros i x _. cbn. symmetry. apply lower_char_idemp.
Qed.

(** ** Reading a literal *)

Lemma skip_lit_spec (p s rest : list ascii) :
  skip_lit p s = Some rest <-> exists m, s = m ++ rest /\ ci_eq p m.
Proof.
  revert s. induction p as [| a p IH]; intros s; cbn [skip_lit].
  - split.
    + intros [= ->]. exists []. split; reflexivity.
    + intros (m & -> & Hm). apply ci_eq_length in Hm.
      destruct m; [reflexivity | discriminate].
  - destruct s as [| c s].
    + split; [discriminate |]. intros (m & Hs & Hm).
      apply ci_eq_length in Hm. destruct m; discriminate.
    + destruct (Ascii.eqb_spec (lower_char c) (lower_char a)) as [E | N].
      * rewrite IH. split.
        -- intros (m & -> & Hm). exists (c :: m). split; [reflexivity |].
           unfold ci_eq in *. cbn. rewrite E, Hm. reflexivity.
        -- intros (m & Hs & Hm). destruct m as [| x m]; [discriminate |].
           injection Hs as <- ->. exists m. split; [reflexivity |].
           unfold ci_eq in *. cbn in Hm. congruence.
      * split; [discriminate |]. intros (m & Hs & Hm).
        destruct m as [| x m]; [discriminate |].
        injection Hs as <- ->. unfold ci_eq in Hm. cbn in Hm. congruence.
Qed.

Lemma occurs_ci_spec (p s : list ascii) :
  occurs_ci p s = true <->
  exists a m b, s = a ++ m ++ b /\ ci_eq p m.
Proof.
  induction s as [| c s IH]; cbn [occurs_ci].
  - destruct (skip_lit p []) as [rest |] eqn:E.
    + split; [intros _ | reflexivity].
      apply skip_lit_spec in E as (m & Hs & Hm).
      exists [], m, rest. auto.
    + split; [discriminate |]. intros (a & m & b & Hs & Hm).
      destruct a; [| discriminate]. cbn in Hs.
      assert (skip_lit p [] = Some b)
        by (apply skip_lit_spec; exists m; auto).
      congruence.
  - destruct (skip_lit p (c :: s)) as [rest |] eqn:E.
    + split; [intros _ | reflexivity].
      apply skip_lit_spec in E as (m & Hs & Hm).
      exists [], m, rest. auto.
    + rewrite IH. split.
      * intros (a & m & b & -> & Hm). exists (c :: a), m, b. auto.
      * intros (a & m & b & Hs & Hm). destruct a as [| x a].
        -- cbn in Hs.
           assert (skip_lit p (c :: s) = Some b)
             by (apply skip_lit_spec; exists m; auto).
           congruence.
        -- injection Hs as <- ->. exists a, m, b. auto.
Qed.

Lemma contains_ci_spec (p s : string) :
  contains_ci p s = true <->
  exists a m b, chars s = a ++ m ++ b /\ ci_eq (chars p) m.
Proof. apply occurs_ci_spec. Qed.

(** Containment passes to a larger text. *)
Lemma occurs_ci_infix (p s a b : list ascii) :
  occurs_ci p s = true -> occurs_ci p (a ++ s ++ b) = true.
Proof.
  rewrite !occurs_ci_spec. intros (x & m & y & -> & Hm).
  exists (a ++ x), m, (y ++ b). split; [| exact Hm].
  rewrite <- !app_assoc. reflexivity.
Qed.

Lemma occurs_ci_ci_eq (p s t : list ascii) :
  ci_eq s t -> occurs_ci p s = true -> occurs_ci p t = true.
Proof.
  rewrite !occurs_ci_spec. intros Hst (a & m & b & -> & Hm).
  apply ci_eq_app_inv in Hst as (a' & t1 & -> & _ & Hst).
  apply ci_eq_app_inv in Hst as (m' & b' & -> & Hmm & _).
  exists a', m', b'. split; [reflexivity |].
  exact (ci_eq_trans _ _ _ Hm Hmm).
Qed.

(** ** The matcher finds only matches *)

Lemma star_loop_sound {R} (total : nat) (gr : bool) (cls : charclass)
    (s : list ascii) (k : list ascii -> option R) (res : R) :
  star_loop gr cls s k = Some res ->
  exists m rest, s = m ++ rest /\
                 Forall (fun c => class_test cls c = true) m /\
                 k rest = Some res.
Proof.
  induction s as [| c s IH]; cbn [star_loop].
  - intros H. exists [], []. auto.
  - destruct (class_test cls c) eqn:Ec.
    + assert (Hmore : star_loop gr cls s k = Some res ->
                exists m rest, c :: s = m ++ rest /\
                  Forall (fun c => class_test cls c = true) m /\
                  k rest = Some res).
      { intros H. destruct (IH H) as (m & rest & -> & Hm & Hk).
        exists (c :: m), rest. split; [reflexivity |]. split; [| exact Hk].
        constructor; assumption. }
      assert (Hstop : k (c :: s) = Some res ->
                exists m rest, c :: s = m ++ rest /\
                  Forall (fun c => class_test cls c = true) m /\
                  k rest = Some res).
      { intros H. exists [], (c :: s). auto. }
      destruct gr.
      * destruct (star_loop true cls s k) eqn:E.
        -- intros [= <-]. auto.
        -- auto.
      * destruct (k (c :: s)) eqn:E.
        -- intros [= <-]. auto.
        -- auto.
    + intros H. exists [], (c :: s). auto.
Qed.

Lemma mt_sound (total : nat) (r : regex) :
  forall (s : list ascii) (g : groups)
         (k : list ascii -> groups -> option groups) (res : groups),
    mt total r s g k = Some res ->
    exists m rest g', s = m ++ rest /\ run r m g g' /\ k rest g' = Some res.
Proof.
  induction r as [| p | cls | r1 IH1 r2 IH2 | r1 IH1 r2 IH2 | gr cls
                  | name r1 IH1 | |];
    intros s g k res; cbn [mt run].
  - intros H. exists [], s, g. auto.
  - destruct (skip_lit (chars p) s) as [rest |] eqn:E; [| discriminate].
    apply skip_lit_spec in E as (m & -> & Hm).
    intros H. exists m, rest, g. auto.
  - destruct s as [| c s]; [discriminate |].
    destruct (class_test cls c) eqn:Ec; [| discriminate].
    intros H. exists [c], s, g. split; [reflexivity |]. split; [| exact H].
    split; [eauto | reflexivity].
  - intros H. apply IH1 in H as (m1 & rest1 & g1 & -> & H1 & H).
    apply IH2 in H as (m2 & rest & g2 & -> & H2 & H).
    exists (m1 ++ m2), rest, g2. rewrite <- app_assoc.
    split; [reflexivity |]. split; [| exact H].
    exists m1, m2, g1. auto.
  - destruct (mt total r1 s g k) as [x |] eqn:E.
    + intros [= <-]. apply IH1 in E as (m & rest & g' & -> & H1 & H).
      exists m, rest, g'. auto.
    + intros H. apply IH2 in H as (m & rest & g' & -> & H2 & H).
      exists m, rest, g'. auto.
  - intros H. apply (star_loop_sound total) in H as (m & rest & -> & Hm & H).
    exists m, rest, g. auto.
  - intros H. apply IH1 in H as (m & rest & g1 & -> & H1 & H).
    exists m, rest, ((name, m) :: g1). split; [reflexivity |].
    split; [eauto |].
    rewrite length_app in H.
    replace (length m + length rest - length rest)%nat with (length m) in H
      by lia.
    rewrite take_app_length in H. exact H.
  - destruct (length s =? total)%nat; [| discriminate].
    intros H. exists [], s, g. auto.
  - destruct s as [| c [| c' s]]; try discriminate.
    + intros H. exists [], [], g. auto.
    + destruct (code c =? 10); [| discriminate].
      intros H. exists [], [c], g. auto.
Qed.

Lemma search_from_sound (total : nat) (r : regex) (s : list ascii)
    (res : groups) :
  search_from total r s = Some res ->
  exists a m b, s = a ++ m ++ b /\ run r m [] res.
Proof.
  induction s as [| c s IH]; cbn [search_from].
  - destruct (mt total r [] [] (fun _ g => Some g)) as [x |] eqn:E;
      [| discriminate].
    intros [= <-]. apply mt_sound in E as (m & rest & g' & Hs & Hr & [= <-]).
    exists [], m, rest. auto.
  - destruct (mt total r (c :: s) [] (fun _ g => Some g)) as [x |] eqn:E.
    + intros [= <-]. apply mt_sound in E as (m & rest & g' & Hs & Hr & [= <-]).
      exists [], m, rest. auto.
    + intros H. apply IH in H as (a & m & b & -> & Hr).
      exists (c :: a), m, b. auto.
Qed.

Lemma search_sound (r : regex) (text : string) (res : groups) :
  search r text = Some res ->
  exists a m b, chars text = a ++ m ++ b /\ run r m [] res.
Proof. apply search_from_sound. Qed.

Lemma run_lang (r : regex) :
  forall m g g', run r m g g' -> lang r m.
Proof.
  induction r; intros m g g'; cbn [run lang]; try tauto.
  - intros (m1 & m2 & g1 & -> & H1 & H2). exists m1, m2. eauto.
  - intros [H | H]; eauto.
  - intros (g1 & H & _). eauto.
Qed.

(** ** The matcher finds a match when there is one *)

Lemma star_loop_stop {R} (gr : bool) (cls : charclass) (s : list ascii)
    (k : list ascii -> option R) :
  is_Some (k s) -> is_Some (star_loop gr cls s k).
Proof.
  intros Hk. destruct s as [| c s]; cbn [star_loop]; [exact Hk |].
  destruct (class_test cls c); [| exact Hk].
  destruct gr.
  - destruct (star_loop true cls s k); [eauto | exact Hk].
  - destruct Hk as [x ->]. eauto.
Qed.

Lemma star_loop_complete {R} (gr : bool) (cls : charclass)
    (m rest : list ascii) (k : list ascii -> option R) :
  Forall (fun c => class_test cls c = true) m ->
  is_Some (k rest) -> is_Some (star_loop gr cls (m ++ rest) k).
Proof.
  intros Hm Hk. induction Hm as [| c m Hc Hm IH].
  - apply star_loop_stop. exact Hk.
  - cbn [app star_loop]. rewrite Hc. destruct gr.
    + destruct IH as [x ->]. eauto.
    + destruct (k (c :: m ++ rest)); [eauto | exact IH].
Qed.

Lemma mt_complete (total : nat) (r : regex) :
  unanchored r = true ->
  forall (m rest : list ascii) (g : groups)
         (k : list ascii -> groups -> option groups),
    lang r m -> (forall g', is_Some (k rest g')) ->
    is_Some (mt total r (m ++ rest) g k).
Proof.
  induction r as [| p | cls | r1 IH1 r2 IH2 | r1 IH1 r2 IH2 | gr cls
                  | name r1 IH1 | |];
    cbn [unanchored]; intros Hu m rest g k; cbn [lang mt]; try discriminate.
  - intros -> Hk. apply Hk.
  - intros Hm Hk.
    assert (E : skip_lit (chars p) (m ++ rest) = Some rest)
      by (apply skip_lit_spec; eauto).
    rewrite E. apply Hk.
  - intros (c & -> & Hc) Hk. cbn. rewrite Hc. apply Hk.
  - apply andb_true_iff in Hu as [Hu1 Hu2].
    intros (m1 & m2 & -> & H1 & H2) Hk. rewrite <- app_assoc.
    apply (IH1 Hu1); [exact H1 |]. intros g1.
    apply (IH2 Hu2); [exact H2 | exact Hk].
  - apply andb_true_iff in Hu as [Hu1 Hu2].
    intros [H | H] Hk.
    + destruct (IH1 Hu1 m rest g k H Hk) as [x ->]. eauto.
    + destruct (mt total r1 (m ++ rest) g k); [eauto |].
      exact (IH2 Hu2 m rest g k H Hk).
  - intros Hm Hk. apply star_loop_complete; [exact Hm | apply Hk].
  - intros H Hk. apply (IH1 Hu); [exact H |]. intros g1. apply Hk.
Qed.

Lemma search_from_complete (total : nat) (r : regex) (a m b : list ascii) :
  unanchored r = true -> lang r m ->
  is_Some (search_from total r (a ++ m ++ b)).
Proof.
  intros Hu Hm. induction a as [| c a IH].
  - cbn [app].
    assert (H : is_Some (mt total r (m ++ b) [] (fun _ g => Some g)))
      by (apply mt_complete; eauto).
    destruct H as [x H].
    destruct (m ++ b); cbn [search_from]; rewrite H; eauto.
  - cbn [app search_from].
    destruct (mt total r (c :: a ++ m ++ b) [] (fun _ g => Some g)); eauto.
Qed.

Lemma search_complete (r : regex) (text : string) (a m b : list ascii) :
  unanchored r = true -> chars text = a ++ m ++ b -> lang r m ->
  is_Some (search r text).
Proof.
  intros Hu Ht Hm. unfold search. rewrite Ht.
  apply search_from_complete; assumption.
Qed.

(** ** What every match contains *)

Lemma requires_ci_lang (p : list ascii) (r : regex) :
  requires_ci p r = true -> forall m, lang r m -> occurs_ci p m = true.
Proof.
  induction r as [| s | cls | r1 IH1 r2 IH2 | r1 IH1 r2 IH2 | gr cls
                  | name r1 IH1 | |];
    cbn [requires_ci lang]; try discriminate.
  - intros Hp m Hm. exact (occurs_ci_ci_eq _ _ _ Hm Hp).
  - intros Hp m (m1 & m2 & -> & H1 & H2).
    apply orb_true_iff in Hp as [Hp | Hp].
    + apply (occurs_ci_infix p m1 [] m2). auto.
    + replace (m1 ++ m2) with (m1 ++ m2 ++ []) by (rewrite app_nil_r; reflexivity).
      apply occurs_ci_infix. auto.
  - intros Hp m [H | H]; apply andb_true_iff in Hp as [Hp1 Hp2]; auto.
  - auto.
Qed.

(** A text in which the pattern is found contains what the pattern
    requires. *)
Lemma search_requires (p : string) (r : regex) (text : string) :
  requires_ci (chars p) r = true ->
  is_Some (search r text) -> contains_ci p text = true.
Proof.
  intros Hp [res H]. apply search_sound in H as (a & m & b & Ht & Hr).
  unfold contains_ci. rewrite Ht. apply occurs_ci_infix.
  apply (requires_ci_lang _ r Hp). exact (run_lang _ _ _ _ Hr).
Qed.

End ReFacts.


(* ===================================================================== *)
(** * What is spoken                                                    *)
(* ===================================================================== *)

Section Speech.

Local Open Scope py_scope.

Lemma says_says (l1 l2 : list string) (w : world) :
  says l2 (says l1 w) = says (l1 ++ l2) w.
Proof. unfold says. cbn. rewrite app_assoc. reflexivity. Qed.

Lemma tts_say_run (t : string) (w : world) :
  tts_say t w = (Returns tt, says [t] w).
Proof. reflexivity. Qed.

Lemma for_each_say {A} (f : A -> string) (body : A -> M unit)
    (l : list A) :
  (forall x w, body x w = (Returns tt, says [f x] w)) ->
  forall w, for_each l body w = (Returns tt, says (f <$> l) w).
Proof.
  intros Hbody. induction l as [| x l IH]; intros w.
  - cbn. unfold ret, says. rewrite app_nil_r. destruct w; reflexivity.
  - cbn [for_each]. unfold bind at 1. rewrite Hbody, IH, says_says.
    reflexivity.
Qed.

Lemma keeps_ret {A} (a : A) : keeps_speech (ret a).
Proof. intros w x w' [= _ <-]. exists []. symmetry. apply app_nil_r. Qed.

Lemma keeps_raise {A} (e : exn) : keeps_speech (raise e : M A).
Proof. intros w x w'. discriminate. Qed.

Lemma keeps_lift_or {A} (e : exn) (o : option A) :
  keeps_speech (lift_or e o).
Proof. destruct o; [apply keeps_ret | apply keeps_raise]. Qed.

Lemma keeps_tts_say (t : string) : keeps_speech (tts_say t).
Proof. intros w x w' [= _ <-]. exists [t]. reflexivity. Qed.

Lemma speaks_tts_say (t : string) : speaks (tts_say t).
Proof.
  intros w x w' [= _ <-]. exists [t]. split; [discriminate | reflexivity].
Qed.

Lemma speaks_keeps {A} (m : M A) : speaks m -> keeps_speech m.
Proof. intros H w a w' E. destruct (H w a w' E) as (l & _ & Hl). eauto. Qed.

Lemma keeps_bind {A B} (m : M A) (k : A -> M B) :
  keeps_speech m -> (forall a, keeps_speech (k a)) ->
  keeps_speech (bind m k).
Proof.
  intros Hm Hk w b w'. unfold bind.
  destruct (m w) as [[a | e] w1] eqn:E; [| discriminate].
  intros E'. destruct (Hm w a w1 E) as (l1 & H1).
  destruct (Hk a w1 b w' E') as (l2 & H2).
  exists (l1 ++ l2). rewrite H2, H1, app_assoc. reflexivity.
Qed.

Lemma speaks_bind_l {A B} (m : M A) (k : A -> M B) :
  speaks m -> (forall a, keeps_speech (k a)) -> speaks (bind m k).
Proof.
  intros Hm Hk w b w'. unfold bind.
  destruct (m w) as [[a | e] w1] eqn:E; [| discriminate].
  intros E'. destruct (Hm w a w1 E) as (l1 & Hne & H1).
  destruct (Hk a w1 b w' E') as (l2 & H2).
  exists (l1 ++ l2). split.
  - destruct l1; [congruence | discriminate].
  - rewrite H2, H1, app_assoc. reflexivity.
Qed.

Lemma speaks_bind_r {A B} (m : M A) (k : A -> M B) :
  keeps_speech m -> (forall a, speaks (k a)) -> speaks (bind m k).
Proof.
  intros Hm Hk w b w'. unfold bind.
  destruct (m w) as [[a | e] w1] eqn:E; [| discriminate].
  intros E'. destruct (Hm w a w1 E) as (l1 & H1).
  destruct (Hk a w1 b w' E') as (l2 & Hne & H2).
  exists (l1 ++ l2). split.
  - destruct l1; [exact Hne | discriminate].
  - rewrite H2, H1, app_assoc. reflexivity.
Qed.

Lemma keeps_for_each {A} (l : list A) (body : A -> M unit) :
  (forall x, keeps_speech (body x)) -> keeps_speech (for_each l body).
Proof.
  intros Hb. induction l as [| x l IH]; cbn [for_each].
  - apply keeps_ret.
  - apply keeps_bind; auto.
Qed.

End Speech.

(* ===================================================================== *)
(** * Assistant.handle: which branch answers                            *)
(* ===================================================================== *)

Section Dispatch.

Variable off : datetime -> Z.
Variable off_at_utc : datetime -> Z.
Variable parse : string -> datetime -> option datetime.
Variable weather : string -> string.

Local Open Scope py_scope.

Local Abbreviation handle feed := (handle off off_at_utc parse weather feed).

(** ** The branches that only speak *)

Lemma say_headlines_run (items : list string) (w : world) :
  exists l, l <> [] /\ say_headlines items w = (Returns tt, says l w).
Proof.
  destruct items as [| x items].
  - eexists. split; [| reflexivity]. discriminate.
  - unfold say_headlines. unfold bind at 1. rewrite tts_say_run.
    rewrite (for_each_say (fun p => str_int (fst p) +:+ ". " +:+ snd p)).
    + rewrite says_says. eexists. split; [| reflexivity]. discriminate.
    + intros [i line] w0. reflexivity.
Qed.

(** [handle] takes one of the branches that only speak when the utterance
    is empty, or asks for the weather or the news, or fits none of the
    patterns of the reminder commands. *)
Lemma handle_speech_only feed (u : string) (clock utcnow : datetime)
    (w : world) :
  let text := strip u in
  u = "" \/ is_Some (search WEATHER_RE text) \/ is_Some (search NEWS_RE text)
  \/ (search REMIND_IN_RE text = None /\ search REMIND_AT_RE text = None /\
      search REMIND_SIMPLE_RE text = None /\
      search LIST_REMS_RE text = None /\ search DELETE_REM_RE text = None) ->
  exists b said,
    said <> [] /\ handle feed u clock utcnow w = (Returns b, says said w) /\
    (b = false -> is_Some (match_ QUIT_RE (lower text))).
Proof.
  intros text H. unfold Assistant.handle. fold text.
  case_bool_decide as Hu.
  { exists true. eexists.
    refine (conj _ (conj eq_refl _)); discriminate. }
  destruct H as [H | H]; [contradiction |].
  case_bool_decide as Hquit.
  { exists false. eexists.
    refine (conj _ (conj eq_refl _)); [discriminate | auto]. }
  case_bool_decide as Hhelp.
  { exists true. eexists.
    refine (conj _ (conj eq_refl _)); discriminate. }
  case_bool_decide as Htime.
  { exists true. eexists.
    refine (conj _ (conj eq_refl _)); discriminate. }
  case_bool_decide as Hdate.
  { exists true. eexists.
    refine (conj _ (conj eq_refl _)); discriminate. }
  destruct (search WEATHER_RE text) as [m |] eqn:Ew.
  { exists true. eexists.
    refine (conj _ (conj eq_refl _)); discriminate. }
  destruct H as [[x H] | H]; [discriminate |].
  destruct (search NEWS_RE text) as [m |] eqn:En.
  { destruct (say_headlines_run
                (NewsClient.headlines feed (group_opt m "topic") 5) w)
      as (l & Hl & Hrun).
    exists true, l. split; [exact Hl |]. split; [| discriminate].
    unfold bind at 1. rewrite Hrun. reflexivity. }
  destruct H as [[x H] | (R1 & R2 & R3 & R4 & R5)]; [discriminate |].
  rewrite R1, R2, R3, R4, R5.
  rewrite bool_decide_eq_false_2 by (intros [x Hx]; discriminate).
  exists true. eexists.
  refine (conj _ (conj eq_refl _)); discriminate.
Qed.

Lemma contains_ci_strip (p u : string) :
  contains_ci p (strip u) = true -> contains_ci p u = true.
Proof.
  unfold contains_ci. destruct (TextFacts.strip_infix u) as (a & b & ->).
  apply ReFacts.occurs_ci_infix.
Qed.

(** X10.  An utterance without the letters "remind", in whatever case, is
    no reminder command: [handle] returns after speaking at least once,
    and the table, the database file and the job store are as before; no
    exception escapes.  (All five patterns that lead to the reminder store
    spell "remind".) *)
Theorem handle_without_remind feed (u : string) (clock utcnow : datetime)
    (w : world) :
  is_ascii u = true -> contains_ci "remind" u = false ->
  exists b said,
    said <> [] /\ handle feed u clock utcnow w = (Returns b, says said w).
Proof.
  intros _ Hno.
  assert (Hnone : forall r, requires_ci (chars "remind") r = true ->
                            search r (strip u) = None).
  { intros r Hr. destruct (search r (strip u)) as [m |] eqn:E; [| reflexivity].
    exfalso.
    assert (Hc : contains_ci "remind" (strip u) = true)
      by (apply (ReFacts.search_requires _ r); eauto).
    apply contains_ci_strip in Hc. congruence. }
  destruct (handle_speech_only feed u clock utcnow w) as (b & said & H1 & H2 & _).
  { cbv zeta. right; right; right.
    repeat split; apply Hnone; vm_compute; reflexivity. }
  eauto.
Qed.

(** ** Asking for the news or the weather *)

Lemma lower_char_other (c x : ascii) :
  lower_char c = x -> code x < 97 \/ 122 < code x -> c = x.
Proof.
  unfold lower_char, code.
  destruct ((65 <=? Z.of_N (N_of_ascii c)) && (Z.of_N (N_of_ascii c) <=? 90))
    eqn:E; [| auto].
  intros <- Hx. exfalso.
  apply andb_true_iff in E as [E1 E2]. apply Z.leb_le in E1, E2.
  rewrite N_ascii_embedding in Hx by lia. lia.
Qed.

Lemma ci_eq_blank (m : list ascii) : ci_eq [" "%char] m -> m = [" "%char].
Proof.
  unfold ci_eq. destruct m as [| c [| c' m]]; try discriminate.
  cbn. intros [= H]. f_equal. symmetry in H.
  apply (lower_char_other c " "%char H). left. vm_compute. reflexivity.
Qed.

Lemma lang_news (m : list ascii) :
  lang NEWS_RE m ->
  occurs_ci (chars "news ") m = true \/
  occurs_ci (chars "headlines ") m = true.
Proof.
  cbn [NEWS_RE seqs foldr lang Opt Plus].
  intros (m1 & r1 & -> & Hkw & m2 & r2 & -> & Hopt & m3 & r3 & -> & Hsp & _).
  assert (Hblank : exists x rest, m2 ++ m3 ++ r3 = x :: rest /\
                                  ci_eq [" "%char] [x]).
  { destruct Hopt as [[Ho | [Ho | Ho]] | ->].
    1-3: apply (ReFacts.ci_eq_app_inv [" "%char]) in Ho
           as (x & y & -> & Hx & _);
         pose proof (ReFacts.ci_eq_length _ _ Hx) as Hlen;
         destruct x as [| x [| ? ?]]; try discriminate;
         exists x; eexists; split; [reflexivity | exact Hx].
    pose proof (ReFacts.ci_eq_length _ _ Hsp) as Hlen.
    destruct m3 as [| x [| ? ?]]; try discriminate.
    exists x. eexists. split; [reflexivity | exact Hsp]. }
  destruct Hblank as (x & rest & -> & Hx).
  destruct Hkw as [Hkw | Hkw]; [left | right];
    apply ReFacts.occurs_ci_spec;
    exists [], (m1 ++ [x]), rest;
    (split; [cbn; rewrite <- app_assoc; reflexivity |]);
    exact (ReFacts.ci_eq_app _ _ _ _ Hkw Hx).
Qed.

(** [NEWS_RE] is found exactly in the texts that contain "news " or
    "headlines ", blank included, in whatever case. *)
Lemma search_news (text : string) :
  is_Some (search NEWS_RE text) <->
  contains_ci "news " text = true \/ contains_ci "headlines " text = true.
Proof.
  split.
  - intros [res H]. apply ReFacts.search_sound in H as (a & m & b & Ht & Hr).
    apply ReFacts.run_lang, lang_news in Hr.
    unfold contains_ci. rewrite Ht.
    destruct Hr as [Hr | Hr]; [left | right];
      apply ReFacts.occurs_ci_infix; exact Hr.
  - intros H.
    assert (Hm : exists a m b, chars text = a ++ m ++ b /\ lang NEWS_RE m).
    { destruct H as [H | H];
        apply ReFacts.contains_ci_spec in H as (a & m & b & Ht & Hm);
        exists a, m, b; (split; [exact Ht |]);
        cbn [NEWS_RE seqs foldr lang Opt Plus];
        [ apply (ReFacts.ci_eq_app_inv (chars "news") (chars " ")) in Hm
            as (m1 & m2 & -> & H1 & H2)
        | apply (ReFacts.ci_eq_app_inv (chars "headlines") (chars " ")) in Hm
            as (m1 & m2 & -> & H1 & H2) ];
        exists m1, m2; (split; [reflexivity |]); (split; [auto |]);
        exists [], m2; (split; [reflexivity |]); (split; [auto |]);
        exists m2, []; (split; [symmetry; apply app_nil_r |]);
        (split; [exact H2 |]);
        exists [], []; auto. }
    destruct Hm as (a & m & b & Ht & Hm).
    apply (ReFacts.search_complete NEWS_RE text a m b); auto.
Qed.

Lemma weather_phrase_parts (p : string) :
  p ∈ WEATHER_PHRASES ->
  exists kw prep,
    chars p = chars kw ++ [" "%char] ++ chars prep ++ [" "%char] /\
    (kw = "weather" \/ kw = "temperature") /\
    (prep = "in" \/ prep = "at" \/ prep = "for").
Proof.
  unfold WEATHER_PHRASES. intros H.
  repeat (apply elem_of_cons in H as [-> | H]).
  - exists "weather", "in". auto.
  - exists "weather", "at". auto 6.
  - exists "weather", "for". auto 6.
  - exists "temperature", "in". auto.
  - exists "temperature", "at". auto 6.
  - exists "temperature", "for". auto 6.
  - inversion H.
Qed.

Lemma weather_phrase_found (text p : string) :
  p ∈ WEATHER_PHRASES -> contains_ci p text = true ->
  (forall l c, chars text = l ++ [c] -> space1 (code c) = false) ->
  Forall (fun c => code c <> 10) (chars text) ->
  is_Some (search WEATHER_RE text).
Proof.
  intros Hp Hc Hlast Hnl.
  destruct (weather_phrase_parts p Hp) as (kw & prep & Hparts & Hkw & Hprep).
  apply ReFacts.contains_ci_spec in Hc as (a & m & b & Ht & Hm).
  rewrite Hparts in Hm.
  apply ReFacts.ci_eq_app_inv in Hm as (m1 & r1 & -> & H1 & Hm).
  apply ReFacts.ci_eq_app_inv in Hm as (m2 & r2 & -> & H2 & Hm).
  apply ReFacts.ci_eq_app_inv in Hm as (m3 & m4 & -> & H3 & H4).
  apply ci_eq_blank in H2, H4. subst m2 m4.
  destruct b as [| c b].
  { exfalso. specialize (Hlast (a ++ m1 ++ [" "%char] ++ m3) " "%char).
    rewrite Ht in Hlast. rewrite <- !app_assoc in Hlast.
    specialize (Hlast eq_refl). vm_compute in Hlast. discriminate. }
  assert (Hdot : class_test Dot c = true).
  { rewrite Ht in Hnl. rewrite !Forall_app in Hnl.
    destruct Hnl as (_ & _ & Hnl). apply Forall_cons in Hnl as [Hc _].
    cbn. apply negb_true_iff, Z.eqb_neq. exact Hc. }
  apply (ReFacts.search_complete WEATHER_RE text a
           (m1 ++ [" "%char] ++ m3 ++ [" "%char] ++ [c]) b);
    [reflexivity | rewrite Ht; rewrite <- !app_assoc; reflexivity |].
  cbn [WEATHER_RE seqs foldr lang Opt Plus].
  exists m1. eexists. split; [reflexivity |]. split.
  { destruct Hkw as [-> | ->]; auto. }
  exists [" "%char]. eexists. split; [reflexivity |].
  split; [reflexivity |].
  exists m3. eexists. split; [reflexivity |]. split.
  { destruct Hprep as [-> | [-> | ->]]; auto. }
  exists [" "%char]. eexists. split; [reflexivity |].
  split; [reflexivity |].
  exists [c], []. split; [reflexivity |]. split; [| reflexivity].
  exists [c], []. split; [reflexivity |]. split; [eauto | constructor].
Qed.

(** ** The words that end the session *)

(** A pattern anchored at both ends matches the whole text, but for a
    line feed at its end. *)
Lemma match_anchored (A : regex) (text : string) :
  unanchored A = true ->
  (is_Some (match_ (seqs [Bos; A; Eos]) text) <->
   exists m rest, chars text = m ++ rest /\ lang A m /\
                  (rest = [] \/ exists c, rest = [c] /\ code c = 10)).
Proof.
  intros Hu. unfold match_. cbn [seqs foldr mt].
  rewrite Nat.eqb_refl. split.
  - intros [res H]. apply ReFacts.mt_sound in H as (m & rest & g' & Ht & Hr & H).
    exists m, rest. split; [exact Ht |].
    split; [exact (ReFacts.run_lang _ _ _ _ Hr) |].
    destruct rest as [| c [| c' rest]]; [auto | | discriminate].
    destruct (Z.eqb_spec (code c) 10); [eauto | discriminate].
  - intros (m & rest & -> & Hm & Hrest).
    apply (ReFacts.mt_complete _ A Hu); [exact Hm |].
    intros g'. destruct Hrest as [-> | (c & -> & Hc)]; cbn; [eauto |].
    rewrite Hc. cbn. eauto.
Qed.

Lemma stripped_lower_last (u : string) (l : list ascii) (c : ascii) :
  chars (lower (strip u)) = l ++ [c] -> code c <> 10.
Proof.
  rewrite TextFacts.chars_lower. intros H Hc.
  apply fmap_app_inv in H as (l1 & l2 & _ & H2 & Hs).
  destruct l2 as [| c' [| ? ?]]; try discriminate.
  injection H2 as H2.
  assert (c' = c).
  { apply (lower_char_other c' c); [congruence | lia]. }
  subst c'. apply TextFacts.strip_last in Hs.
  unfold space1 in Hs. rewrite Hc in Hs. discriminate.
Qed.

Lemma ci_eq_lowered (p : string) (t : string) :
  lower_char <$> chars p = chars p ->
  ci_eq (chars p) (chars (lower t)) -> lower t = p.
Proof.
  intros Hp H. apply TextFacts.chars_inj.
  unfold ci_eq in H. rewrite Hp in H. rewrite H.
  rewrite TextFacts.chars_lower, <- list_fmap_compose.
  apply list_fmap_ext. intros i x _. cbn.
  symmetry. apply TextFacts.lower_char_idemp.
Qed.

(** [QUIT_RE] matches the lowered command exactly when it is one of the
    three words. *)
Lemma match_quit (u : string) :
  is_Some (match_ QUIT_RE (lower (strip u))) <->
  lower (strip u) ∈ QUIT_WORDS.
Proof.
  unfold QUIT_RE. rewrite match_anchored by reflexivity. split.
  - intros (m & rest & Ht & Hm & Hrest).
    destruct Hrest as [-> | (c & -> & Hc)].
    2: { exfalso. exact (stripped_lower_last u m c Ht Hc). }
    rewrite app_nil_r in Ht. subst m. unfold QUIT_WORDS. cbn [lang] in Hm.
    destruct Hm as [Hm | [Hm | Hm]];
      apply ci_eq_lowered in Hm; try reflexivity; rewrite Hm.
    + left.
    + right; left.
    + right; right; left.
  - intros Hin. exists (chars (lower (strip u))), [].
    split; [symmetry; apply app_nil_r |]. split; [| auto].
    unfold QUIT_WORDS in Hin. cbn [lang].
    repeat (apply elem_of_cons in Hin as [-> | Hin]).
    + left. reflexivity.
    + right; left. reflexivity.
    + right; right. reflexivity.
    + inversion Hin.
Qed.

Lemma occurs_ci_length (p s : list ascii) :
  occurs_ci p s = true -> (length p <= length s)%nat.
Proof.
  rewrite ReFacts.occurs_ci_spec. intros (a & m & b & -> & Hm).
  apply ReFacts.ci_eq_length in Hm. rewrite !length_app. lia.
Qed.

(** X11.  The weather and the news come before the reminders.  An
    utterance of one line that, stripped, contains "news " or "headlines "
    or one of the six weather phrases ("weather in ", "temperature for ",
    ...), in whatever case, is answered as a request for the news or the
    weather, whatever else it says: [handle] speaks at least once and
    returns [True], and the table, the database file and the job store are
    as before.  "remind me to read the news at 5 pm" sets no reminder. *)
Theorem weather_and_news_come_first feed (u : string)
    (clock utcnow : datetime) (w : world) :
  is_ascii u = true ->
  Forall (fun c => code c <> 10) (chars u) ->
  contains_ci "news " (strip u) = true \/
  contains_ci "headlines " (strip u) = true \/
  Exists (fun p => contains_ci p (strip u) = true) WEATHER_PHRASES ->
  exists said,
    said <> [] /\ handle feed u clock utcnow w = (Returns true, says said w).
Proof.
  intros _ Hnl Hc.
  assert (Hlen : (5 <= length (chars (strip u)))%nat).
  { destruct Hc as [Hc | [Hc | Hc]].
    - apply occurs_ci_length in Hc. cbn in Hc. lia.
    - apply occurs_ci_length in Hc. cbn in Hc. lia.
    - apply Exists_exists in Hc as (p & Hp & Hc).
      destruct (weather_phrase_parts p Hp) as (kw & prep & Hparts & Hkw & Hprep).
      unfold contains_ci in Hc. apply occurs_ci_length in Hc.
      rewrite Hparts, !length_app in Hc.
      destruct Hkw as [-> | ->], Hprep as [-> | [-> | ->]]; cbn in Hc; lia. }
  destruct (handle_speech_only feed u clock utcnow w)
    as (b & said & Hne & Hrun & Hb).
  { cbv zeta. right.
    destruct Hc as [Hc | [Hc | Hc]].
    - right; left. apply search_news. auto.
    - right; left. apply search_news. auto.
    - left. apply Exists_exists in Hc as (p & Hp & Hc).
      apply (weather_phrase_found _ p Hp Hc).
      + intros l c. apply TextFacts.strip_last.
      + destruct (TextFacts.strip_infix u) as (a & b & Hu).
        rewrite Hu, !Forall_app in Hnl. tauto. }
  exists said. split; [exact Hne |].
  destruct b; [exact Hrun |]. exfalso.
  specialize (Hb eq_refl). apply match_quit in Hb.
  assert (Hl : (length (chars (lower (strip u))) <= 4)%nat).
  { unfold QUIT_WORDS in Hb.
    repeat (apply elem_of_cons in Hb as [-> | Hb]); cbn; try lia.
    inversion Hb. }
  rewrite TextFacts.chars_lower, length_fmap in Hl. lia.
Qed.

(** X12.  Asking for the news takes a word after the keyword.  When the
    utterance, stripped, contains neither "news " nor "headlines " with
    the blank (so "read the news" and "technology headlines", keyword
    last), the news client is not consulted: [handle] does the same
    whatever the feed would deliver.  [NEWS_RE] is found in a text exactly
    when the text contains one of the two. *)
Theorem news_takes_a_following_word feed1 feed2 (u : string)
    (clock utcnow : datetime) (w : world) :
  is_ascii u = true ->
  (is_Some (search NEWS_RE (strip u)) <->
   contains_ci "news " (strip u) = true \/
   contains_ci "headlines " (strip u) = true) /\
  (contains_ci "news " (strip u) = false ->
   contains_ci "headlines " (strip u) = false ->
   handle feed1 u clock utcnow w = handle feed2 u clock utcnow w).
Proof.
  intros _. split; [apply search_news |].
  intros H1 H2.
  assert (Hn : search NEWS_RE (strip u) = None).
  { apply eq_None_not_Some. intros Hs.
    apply search_news in Hs as [Hs | Hs]; congruence. }
  unfold Assistant.handle. rewrite Hn. reflexivity.
Qed.

(** ** Every branch but one returns [True] *)

Lemma bind_not_false {A} (m : M A) (k : A -> M bool) :
  (forall a w w', k a w <> (Returns false, w')) ->
  forall w w', bind m k w <> (Returns false, w').
Proof.
  intros Hk w w'. unfold bind. destruct (m w) as [[a | e] w1].
  - apply Hk.
  - discriminate.
Qed.

Lemma ret_true_not_false (w w' : world) :
  (ret true : M bool) w <> (Returns false, w').
Proof. discriminate. Qed.

Ltac not_false :=
  repeat first
    [ apply ret_true_not_false
    | apply bind_not_false; intros ].

Lemma handle_remind_in_not_false (t n un : string) (clock utcnow : datetime)
    (w w' : world) :
  handle_remind_in off t n un clock utcnow w <> (Returns false, w').
Proof. unfold handle_remind_in. revert w w'. not_false. Qed.

Lemma handle_reminder_at_not_false (t x : string) (clock utcnow : datetime)
    (w w' : world) :
  handle_reminder_at off parse t x clock utcnow w <> (Returns false, w').
Proof.
  unfold handle_reminder_at. revert w w'.
  destruct (parse_time_local off parse x clock); not_false.
Qed.

Lemma handle_list_not_false (w w' : world) :
  handle_list off off_at_utc w <> (Returns false, w').
Proof. unfold handle_list. revert w w'. not_false. Qed.

Lemma handle_delete_not_false (x : string) (w w' : world) :
  handle_delete x w <> (Returns false, w').
Proof. unfold handle_delete. revert w w'. not_false. Qed.

(** [False] comes from the quit branch alone. *)
Lemma handle_false_is_quit feed (u : string) (clock utcnow : datetime)
    (w w' : world) :
  handle feed u clock utcnow w = (Returns false, w') ->
  u <> "" /\ is_Some (match_ QUIT_RE (lower (strip u))) /\
  w' = says ["Goodbye!"] w.
Proof.
  unfold Assistant.handle.
  case_bool_decide as Hu; [discriminate |].
  case_bool_decide as Hquit.
  { intros [= <-]. auto. }
  intros H. exfalso. revert H.
  repeat case_bool_decide; try discriminate.
  all: destruct (search WEATHER_RE (strip u)); [discriminate |].
  all: destruct (search NEWS_RE (strip u));
         [apply bind_not_false; intros; apply ret_true_not_false |].
  all: destruct (search REMIND_IN_RE (strip u));
         [apply handle_remind_in_not_false |].
  all: destruct (search REMIND_AT_RE (strip u));
         [apply handle_reminder_at_not_false |].
  all: destruct (search REMIND_SIMPLE_RE (strip u));
         [apply handle_reminder_at_not_false |].
  all: try apply handle_list_not_false.
  all: destruct (search DELETE_REM_RE (strip u));
         [apply handle_delete_not_false | discriminate].
Qed.

(** X13.  The session ends on the three words only.  [handle] returns
    [False], which stops the loop, exactly when the utterance is not empty
    and, stripped and lowered, is "quit", "exit" or "bye"; it then says
    "Goodbye!" and touches nothing else.  Every other utterance is
    answered with [True] or ends in an exception. *)
Theorem handle_stops_on_quit_only feed (u : string)
    (clock utcnow : datetime) (w : world) :
  is_ascii u = true ->
  (forall w', handle feed u clock utcnow w = (Returns false, w') ->
     u <> "" /\ lower (strip u) ∈ QUIT_WORDS /\
     w' = says ["Goodbye!"] w) /\
  (u <> "" -> lower (strip u) ∈ QUIT_WORDS ->
   handle feed u clock utcnow w = (Returns false, says ["Goodbye!"] w)).
Proof.
  intros _. split.
  - intros w' Hrun.
    destruct (handle_false_is_quit _ _ _ _ _ _ Hrun) as (Hu & Hm & Hw).
    apply match_quit in Hm. auto.
  - intros Hu Hq. unfold Assistant.handle.
    rewrite bool_decide_eq_false_2 by exact Hu.
    rewrite bool_decide_eq_true_2 by (apply match_quit; exact Hq).
    reflexivity.
Qed.

(** ** Every answer is spoken *)

Lemma keeps_add_reminder (t : string) (when_local utcnow : datetime) :
  keeps_speech (ReminderManager.add_reminder off t when_local utcnow).
Proof.
  intros w r w' H.
  destruct (add_reminder_returns off _ _ _ _ _ _ H) as (wu & _ & _ & _ & _ & _ & Hs).
  exists []. rewrite Hs. symmetry. apply app_nil_r.
Qed.

Lemma keeps_delete_reminder (rid : Z) :
  keeps_speech (ReminderManager.delete_reminder rid).
Proof.
  intros w b w' H. exists [].
  destruct (delete_reminder_cases rid w) as (fs & [(e & E) | [E | (b' & E)]]);
    rewrite E in H; try discriminate.
  injection H as _ <-. cbn. symmetry. apply app_nil_r.
Qed.

Lemma keeps_list_reminders : keeps_speech ReminderManager.list_reminders.
Proof.
  intros w l w' H. exists [].
  destruct (list_reminders_state w) as (fs & E). rewrite H in E.
  cbn in E. subst w'. cbn. symmetry. apply app_nil_r.
Qed.

Ltac speech :=
  repeat first
    [ apply keeps_ret | apply keeps_raise | apply keeps_lift_or
    | apply keeps_tts_say | apply keeps_add_reminder
    | apply keeps_delete_reminder | apply keeps_list_reminders
    | apply keeps_for_each; intros
    | apply keeps_bind; [| intros] ].

Lemma speaks_handle_remind_in (t n un : string) (clock utcnow : datetime) :
  speaks (handle_remind_in off t n un clock utcnow).
Proof.
  unfold handle_remind_in.
  do 4 (apply speaks_bind_r; [speech | intros]).
  apply speaks_bind_l; [apply speaks_tts_say | intros; speech].
Qed.

Lemma speaks_handle_reminder_at (t x : string) (clock utcnow : datetime) :
  speaks (handle_reminder_at off parse t x clock utcnow).
Proof.
  unfold handle_reminder_at. destruct (parse_time_local off parse x clock).
  - apply speaks_bind_r; [speech | intros].
    apply speaks_bind_l; [apply speaks_tts_say | intros; speech].
  - apply speaks_bind_l; [apply speaks_tts_say | intros; speech].
Qed.

Lemma speaks_handle_list : speaks (handle_list off off_at_utc).
Proof.
  unfold handle_list. apply speaks_bind_r; [speech | intros items].
  apply speaks_bind_l; [| intros; speech].
  destruct items as [| r items]; [apply speaks_tts_say |].
  apply speaks_bind_l; [apply speaks_tts_say | intros; speech].
Qed.

Lemma speaks_handle_delete (x : string) : speaks (handle_delete x).
Proof.
  unfold handle_delete.
  apply speaks_bind_r; [speech | intros rid].
  apply speaks_bind_r; [speech | intros ok].
  apply speaks_bind_l; [| intros; speech].
  destruct ok; apply speaks_tts_say.
Qed.

(** X14.  Every utterance gets an answer: whenever [handle] returns, it
    has handed at least one text to the speech output, whatever branch it
    took; the assistant stays silent only when an exception escapes. *)
Theorem handle_always_answers feed (u : string) (clock utcnow : datetime)
    (w w' : world) (b : bool) :
  is_ascii u = true ->
  handle feed u clock utcnow w = (Returns b, w') ->
  exists said, said <> [] /\ spoken w' = spoken w ++ said.
Proof.
  intros _. revert w b w'. change (speaks (handle feed u clock utcnow)).
  assert (Hsay : forall t (b : bool), speaks (tts_say t ;; ret b)%py).
  { intros t b. apply speaks_bind_l; [apply speaks_tts_say | intros; speech]. }
  unfold Assistant.handle.
  repeat (case_bool_decide; [apply Hsay |]).
  destruct (search WEATHER_RE (strip u)); [apply Hsay |].
  destruct (search NEWS_RE (strip u)) as [m |].
  { intros w b w' Hret.
    destruct (say_headlines_run
                (NewsClient.headlines feed (group_opt m "topic") 5) w)
      as (l & Hl & Hrun).
    unfold bind in Hret. rewrite Hrun in Hret. injection Hret as _ <-.
    exists l. auto. }
  destruct (search REMIND_IN_RE (strip u)); [apply speaks_handle_remind_in |].
  destruct (search REMIND_AT_RE (strip u)); [apply speaks_handle_reminder_at |].
  destruct (search REMIND_SIMPLE_RE (strip u));
    [apply speaks_handle_reminder_at |].
  case_bool_decide; [apply speaks_handle_list |].
  destruct (search DELETE_REM_RE (strip u));
    [apply speaks_handle_delete | apply Hsay].
Qed.

End Dispatch.

(* ===================================================================== *)
(** * Assistant.handle: the reminder branches                           *)
(* ===================================================================== *)

Module BranchFacts.

Lemma digits_value_ge (l : list ascii) :
  forall acc n, 0 <= acc -> digits_value acc l = Some n -> acc <= n.
Proof.
  induction l as [| c l IH]; intros acc n Hacc; cbn [digits_value].
  - intros [= <-]. lia.
  - unfold digit_val.
    destruct ((48 <=? Z.of_N (N_of_ascii c)) && (Z.of_N (N_of_ascii c) <=? 57))
      eqn:E; [| discriminate].
    intros H. apply IH in H; lia.
Qed.

Lemma py_int_nonneg (s : string) (n : Z) : py_int s = Some n -> 0 <= n.
Proof.
  unfold py_int. destruct (chars s) as [| c l]; [discriminate |].
  destruct (_ <=? _); [| discriminate].
  apply digits_value_ge. lia.
Qed.

End BranchFacts.

Section Branches.

Variable off : datetime -> Z.

Local Open Scope py_scope.

Local Abbreviation add_reminder := (ReminderManager.add_reminder off).
Local Abbreviation delete_reminder := ReminderManager.delete_reminder.
Local Abbreviation list_reminders := ReminderManager.list_reminders.

(** X15.  "Remind me ... in N minutes" counts on the wall clock.  With
    storage working, the branch of [handle] for [REMIND_IN_RE] adds a
    reminder for the stripped task at the local wall clock time N minutes
    (or N hours, when the unit does not start with "min") after the
    reading of the clock, and says so; the instant it stores is that wall
    clock time minus the UTC offset the zone has then, so it is exactly N
    minutes after now when the offset of the zone is the same at both
    ends.  When the sum is past the year 9999 the branch raises
    [OverflowError] and nothing is stored, armed or said. *)
Theorem remind_in_counts_on_the_wall_clock
    (task_group num_group unit_group : string) (n : Z)
    (clock utcnow : datetime) (w : world) :
  Valid clock -> quiet w -> py_int num_group = Some n ->
  let task := strip task_group in
  let per := if startswith "min" (lower unit_group) then 60 else 3600 in
  let delay := n * per * 1000000 in
  let now := replace_tzinfo clock (Some USER_TZ) in
  let t := wall_us clock + delay in
  (t < MAXORDINAL * US_PER_DAY ->
   exists when,
     timedelta_add now delay = Some when /\
     Valid when /\ wall_us when = t /\ tzinfo_of when = Some USER_TZ /\
     let t_utc := t - off when * 1000000 in
     (0 <= t_utc < MAXORDINAL * US_PER_DAY ->
      exists r w1,
        add_reminder task when utcnow w = (Returns r, w1) /\
        handle_remind_in off task_group num_group unit_group clock utcnow w
        = (Returns true,
           says ["Okay, I'll remind you at " +:+ strftime_I_M_p when
                 +:+ " to " +:+ task +:+ "."] w1) /\
        text r = task /\ wall_us (when_utc r) = t_utc /\
        jobs w1 !! job_id (id r) = Some (mkjob (when_utc r) (id r, task)) /\
        (off when = off now ->
         wall_us (when_utc r)
         = wall_us clock - off now * 1000000 + delay))) /\
  (MAXORDINAL * US_PER_DAY <= t ->
   handle_remind_in off task_group num_group unit_group clock utcnow w
   = (Raises OverflowError, w)).
Proof.
  intros Hv Hq Hint task per delay now t.
  pose proof (BranchFacts.py_int_nonneg _ _ Hint) as Hn.
  assert (Hper : per = 60 \/ per = 3600)
    by (subst per; destruct (startswith _ _); auto).
  assert (Hdelay : 0 <= delay) by (subst delay; nia).
  pose proof (CalendarFacts.wall_us_bounds clock Hv) as Hclock.
  assert (Hnow : wall_us now = wall_us clock) by reflexivity.
  destruct (CalendarFacts.timedelta_add_spec now delay) as [Hin Hout].
  cbv zeta in Hin, Hout. rewrite Hnow in Hin, Hout. fold t in Hin, Hout.
  assert (Hdelta :
    (if startswith "min" (lower unit_group)
     then timedelta (n * 60 * 1000000) else timedelta (n * 3600 * 1000000))
    = timedelta delay).
  { subst delay per. destruct (startswith _ _); reflexivity. }
  assert (Hrun0 :
    handle_remind_in off task_group num_group unit_group clock utcnow w
    = (delta <- lift_or OverflowError (timedelta delay) ;;
       when <- lift_or OverflowError (timedelta_add now delta) ;;
       r <- add_reminder task when utcnow ;;
       tts_say ("Okay, I'll remind you at " +:+ strftime_I_M_p when
                +:+ " to " +:+ task +:+ ".") ;;
       ret true) w).
  { unfold handle_remind_in. cbv zeta. rewrite Hint. cbn [lift_or].
    unfold bind at 1. cbn [ret]. rewrite Hdelta. reflexivity. }
  rewrite Hrun0. clear Hrun0.
  split.
  - intros Ht.
    destruct Hin as (when & Hadd & Hvw & Hwall & Htz); [lia |].
    change (tzinfo_of now) with (Some USER_TZ) in Htz.
    exists when. split; [exact Hadd |]. split; [exact Hvw |].
    split; [exact Hwall |]. split; [exact Htz |].
    intros t_utc Hutc.
    assert (Hloc : localized when = when).
    { unfold localized. rewrite Htz. reflexivity. }
    destruct (astimezone_UTC_spec off when Hvw) as [Hconv _].
    cbv zeta in Hconv. rewrite Htz in Hconv.
    cbn [from_option Datatypes.id utcoffset] in Hconv.
    rewrite Hwall in Hconv. destruct (Hconv Hutc) as (wu & Hwu & Hwuwall).
    assert (Hwu' : astimezone_UTC off (localized when) = Some wu)
      by (rewrite Hloc; exact Hwu).
    pose proof (add_reminder_quiet off task when utcnow wu w Hq Hwu') as Hrun.
    cbv zeta in Hrun.
    eexists _, _. split; [exact Hrun |].
    assert (Htd : timedelta delay = Some delay).
    { unfold timedelta.
      replace (Z.abs (delay / US_PER_DAY) <=? 999999999) with true;
        [reflexivity |].
      symmetry. apply Z.leb_le.
      unfold MAXORDINAL, US_PER_DAY in *.
      Z.to_euclidean_division_equations; lia. }
    rewrite Htd. cbn [lift_or]. unfold bind at 1. cbn [ret].
    unfold bind at 1. cbn [ret].
    rewrite Hadd. cbn [lift_or]. unfold bind at 1. cbn [ret].
    unfold bind at 1. rewrite Hrun.
    split; [reflexivity |]. cbn [text when_utc id].
    split; [reflexivity |]. split; [exact Hwuwall |].
    split; [cbn [jobs]; apply lookup_insert_eq |].
    intros Hoff. rewrite Hwuwall. unfold t. lia.
  - intros Ht. unfold timedelta.
    destruct (_ <=? _); [| reflexivity].
    cbn [lift_or]. unfold bind at 1. cbn [ret].
    rewrite (Hout ltac:(lia)). reflexivity.
Qed.

(** The deletion branch on a number that fits the database. *)
Lemma handle_delete_run (id_group : string) (n : Z) (w : world) :
  quiet w -> py_int id_group = Some n -> n < 2 ^ 63 ->
  exists b w1,
    delete_reminder n w = (Returns b, w1) /\
    (b = true <-> exists r, r ∈ rows (conn w) /\ row_id r = n) /\
    (forall r, r ∈ rows (conn w1) -> row_id r <> n) /\
    (b = false -> conn w1 = conn w) /\
    handle_delete id_group w
    = (Returns true,
       says [if b then "Deleted reminder " +:+ str_int n +:+ "."
             else "I couldn't find reminder " +:+ str_int n +:+ "."] w1).
Proof.
  intros Hq Hint Hn. unfold handle_delete. rewrite Hint. cbn [lift_or].
  unfold bind at 1. cbn [ret].
  pose proof (BranchFacts.py_int_nonneg id_group n Hint) as Hpos.
  pose proof (delete_reminder_quiet n w ltac:(lia) Hq) as Hdel.
  cbv zeta in Hdel.
  set (kept := filter (fun r => row_id r ≠ n) (rows (conn w))) in *.
  set (b := 0 <? Z.of_nat (length (rows (conn w))) - Z.of_nat (length kept))
    in *.
  eexists b, _. split; [exact Hdel |].
  split; [apply rowcount_positive |]. split.
  { intros r Hr. cbn [conn rows] in Hr. subst kept.
    apply list_elem_of_filter in Hr. tauto. }
  split.
  { intros Hb. cbn [conn].
    assert (Hkept : kept = rows (conn w)).
    { subst kept. apply filter_all, Forall_forall. intros r Hr.
      destruct (decide (row_id r = n)) as [E | N]; [| exact N].
      exfalso.
      assert (Ht : b = true) by (apply rowcount_positive; eauto).
      congruence. }
    rewrite Hkept. destruct (conn w); reflexivity. }
  unfold bind at 1. rewrite Hdel.
  destruct b; reflexivity.
Qed.

(** X16.  "Delete reminder N" reports what the store did.  With storage
    working, the branch of [handle] for [DELETE_REM_RE] reads the digits
    as a number N, deletes that id and says "Deleted reminder N." exactly
    when a row with the id was in the table, and "I couldn't find
    reminder N." when there was none, in which case the table is as
    before.  A number of 2^63 or more ends in [OverflowError] with nothing
    changed and nothing said. *)
Theorem delete_command_reports (id_group : string) (n : Z) (w : world) :
  quiet w -> py_int id_group = Some n ->
  (n < 2 ^ 63 ->
   exists b w1,
     delete_reminder n w = (Returns b, w1) /\
     (b = true <-> exists r, r ∈ rows (conn w) /\ row_id r = n) /\
     (forall r, r ∈ rows (conn w1) -> row_id r <> n) /\
     (b = false -> conn w1 = conn w) /\
     handle_delete id_group w
     = (Returns true,
        says [if b then "Deleted reminder " +:+ str_int n +:+ "."
              else "I couldn't find reminder " +:+ str_int n +:+ "."] w1)) /\
  (2 ^ 63 <= n -> handle_delete id_group w = (Raises OverflowError, w)).
Proof.
  intros Hq Hint. split.
  - intros Hn. exact (handle_delete_run id_group n w Hq Hint Hn).
  - intros Hn. unfold handle_delete. rewrite Hint. cbn [lift_or].
    unfold bind at 1. cbn [ret]. unfold bind at 1.
    rewrite (delete_reminder_overflow n w ltac:(lia)). reflexivity.
Qed.

Variable off_at_utc : datetime -> Z.

Lemma wall_us_replace_tzinfo (d : datetime) (z : option tzinfo) :
  wall_us (replace_tzinfo d z) = wall_us d.
Proof. unfold wall_us, replace_tzinfo. cbn [year month day hour minute second microsecond]. reflexivity. Qed.

Lemma Valid_replace_tzinfo (d : datetime) (z : option tzinfo) :
  Valid d -> Valid (replace_tzinfo d z).
Proof. unfold Valid, replace_tzinfo. cbn [year month day hour minute second microsecond]. exact (fun H => H). Qed.

Lemma option_bind_unit {A B} (f : A -> option B) (x : A) :
  Some x ≫= f = f x.
Proof. reflexivity. Qed.

(** The local wall clock of a stored instant. *)
Lemma astimezone_USER_TZ_spec (d : datetime) :
  Valid d -> tzinfo_of d = Some UTC ->
  let t := wall_us d + off_at_utc d * 1000000 in
  (0 <= t < MAXORDINAL * US_PER_DAY ->
   exists local,
     astimezone_USER_TZ off off_at_utc d = Some local /\
     Valid local /\ wall_us local = t /\ tzinfo_of local = Some USER_TZ) /\
  (~ 0 <= t < MAXORDINAL * US_PER_DAY ->
   astimezone_USER_TZ off off_at_utc d = None).
Proof.
  intros Hv Htz t. unfold astimezone_USER_TZ. rewrite Htz.
  cbn [from_option Datatypes.id utcoffset].
  destruct (CalendarFacts.timedelta_add_spec d (- (0 * 1000000))) as [H0 _].
  cbv zeta in H0.
  destruct H0 as (d0 & E0 & Hv0 & Hw0 & Htz0).
  { pose proof (CalendarFacts.wall_us_bounds d Hv). lia. }
  assert (d0 = d) as ->
    by (apply CalendarFacts.wall_us_inj; try assumption; lia).
  rewrite E0, option_bind_unit.
  destruct (CalendarFacts.timedelta_add_spec d (off_at_utc d * 1000000))
    as [Hin Hout].
  cbv zeta in Hin, Hout. fold t in Hin, Hout. split.
  - intros Ht. destruct (Hin Ht) as (r & -> & Hvr & Hwr & _).
    rewrite option_bind_unit. exists (replace_tzinfo r (Some USER_TZ)).
    split; [reflexivity |]. split; [apply Valid_replace_tzinfo, Hvr |].
    split; [| reflexivity]. rewrite wall_us_replace_tzinfo. exact Hwr.
  - intros Ht. rewrite (Hout Ht). reflexivity.
Qed.

(** X17.  "List reminders" reads the table out in order.  On a table the
    program wrote, with storage working: for an empty table the branch
    says "You have no reminders."; otherwise it says "Here are your
    reminders:" and then one line for each reminder of the listing, in
    the order of the listing (ascending [when_utc]), each with the id, the
    text and the local wall clock time, which is the stored instant moved
    by the UTC offset the zone has at that instant.  Nothing is stored or
    armed.  (The stored instants are taken far enough from the ends of the
    calendar for the local time to be a date.) *)
Theorem list_command_reads_in_order (w : world) :
  wf_db (conn w) -> quiet w ->
  exists l,
    list_reminders w = (Returns l, w) /\
    StronglySorted (fun a b => dt_le off (when_utc a) (when_utc b)) l /\
    (l = [] ->
     handle_list off off_at_utc w
     = (Returns true, says ["You have no reminders."] w)) /\
    (l <> [] ->
     Forall (fun r => 0 <= wall_us (when_utc r)
                           + off_at_utc (when_utc r) * 1000000
                      < MAXORDINAL * US_PER_DAY) l ->
     exists lines,
       handle_list off off_at_utc w
       = (Returns true, says ("Here are your reminders:" :: lines) w) /\
       Forall2 (fun r line =>
                  exists local,
                    wall_us local
                    = wall_us (when_utc r)
                      + off_at_utc (when_utc r) * 1000000 /\
                    Valid local /\
                    line = str_int (id r) +:+ ": " +:+ text r +:+ " at "
                           +:+ strftime_I_M_p_on_b_d local +:+ ".")
               l lines).
Proof.
  intros Hwf Hq.
  destruct (list_reminders_wf off w Hwf Hq)
    as (l & sorted & Hlist & Hperm & Hl & Hsorted & _).
  exists l. split; [exact Hlist |]. split; [exact Hsorted |].
  assert (Hutc : Forall (fun r => Valid (when_utc r) /\
                                  tzinfo_of (when_utc r) = Some UTC) l).
  { apply mapM_Some in Hl.
    assert (Hws : Forall wf_row sorted).
    { rewrite Hperm. exact (proj1 Hwf). }
    revert Hws. clear Hperm Hsorted Hlist.
    induction Hl as [| x y xs ys Hxy _ IH]; intros Hws; constructor.
    - apply Forall_cons in Hws as [Hx _].
      destruct (reminder_of_wf_row off x Hx) as (dw & dc & E & Hv & Ht & _).
      rewrite E in Hxy. injection Hxy as <-. cbn. auto.
    - apply IH. apply Forall_cons in Hws as [_ Hws]. exact Hws. }
  split.
  - intros ->. unfold handle_list. unfold bind at 1. rewrite Hlist.
    reflexivity.
  - intros Hne Hrange.
    destruct l as [| r0 l0]; [contradiction |].
    set (l := r0 :: l0) in *.
    assert (Hloop : forall k w0,
      Forall (fun r => Valid (when_utc r) /\
                       tzinfo_of (when_utc r) = Some UTC) k ->
      Forall (fun r => 0 <= wall_us (when_utc r)
                            + off_at_utc (when_utc r) * 1000000
                       < MAXORDINAL * US_PER_DAY) k ->
      exists lines,
        for_each k (fun r =>
          local <- lift_or OverflowError
                     (astimezone_USER_TZ off off_at_utc (when_utc r)) ;;
          tts_say (str_int (id r) +:+ ": " +:+ text r +:+ " at "
                   +:+ strftime_I_M_p_on_b_d local +:+ ".")) w0
        = (Returns tt, says lines w0) /\
        Forall2 (fun r line =>
                   exists local,
                     wall_us local
                     = wall_us (when_utc r)
                       + off_at_utc (when_utc r) * 1000000 /\
                     Valid local /\
                     line = str_int (id r) +:+ ": " +:+ text r +:+ " at "
                            +:+ strftime_I_M_p_on_b_d local +:+ ".")
                k lines).
    { induction k as [| r k IH]; intros w0 Hu Hr.
      - exists []. split; [| constructor].
        cbn. unfold ret, says. rewrite app_nil_r. destruct w0; reflexivity.
      - apply Forall_cons in Hu as [[Hvr Htr] Hu].
        apply Forall_cons in Hr as [Hrr Hr].
        destruct (astimezone_USER_TZ_spec (when_utc r) Hvr Htr) as [Hin _].
        destruct (Hin Hrr) as (local & Eloc & Hvl & Hwl & _).
        cbn [for_each]. unfold bind at 1. unfold bind at 1.
        rewrite Eloc. cbn [lift_or ret]. rewrite tts_say_run.
        destruct (IH (says [str_int (id r) +:+ ": " +:+ text r +:+ " at "
                            +:+ strftime_I_M_p_on_b_d local +:+ "."] w0)
                    Hu Hr) as (lines & Erun & Hlines).
        rewrite Erun, says_says. eexists. split; [reflexivity |].
        constructor; [| exact Hlines]. exists local. auto. }
    destruct (Hloop l (says ["Here are your reminders:"] w) Hutc Hrange)
      as (lines & Erun & Hlines).
    exists lines. split; [| exact Hlines].
    subst l. unfold handle_list. unfold bind at 1. rewrite Hlist.
    cbv beta iota. unfold bind at 1. unfold bind at 1.
    rewrite tts_say_run, Erun, says_says. reflexivity.
Qed.

End Branches.

(* ===================================================================== *)
(** * Stripping and splitting                                           *)
(* ===================================================================== *)

Module StripFacts.

Import TextFacts.

Lemma skip_spaces_length s2 s3 (l : list ascii) :
  (length (skip_spaces s2 s3 l) <= length l)%nat.
Proof.
  destruct (skip_spaces_suffix s2 s3 l) as (a & Ha).
  rewrite Ha at 2. rewrite length_app. lia.
Qed.

Lemma skip_spaces_stops s2 s3 (l : list ascii) :
  skip_spaces s2 s3 l = l <-> stops s2 s3 l.
Proof.
  destruct l as [| a l1]; [cbn; tauto |].
  cbn [skip_spaces stops]. destruct (space1 (code a)).
  { split; [| intros [? _]; discriminate]. intros H.
    pose proof (skip_spaces_length s2 s3 l1) as Hl.
    rewrite H in Hl. cbn in Hl. lia. }
  destruct l1 as [| b l2]; [tauto |].
  destruct (s2 (code a) (code b)).
  { split; [| intros [_ [? _]]; discriminate]. intros H.
    pose proof (skip_spaces_length s2 s3 l2) as Hl.
    rewrite H in Hl. cbn in Hl. lia. }
  destruct l2 as [| c l3]; [tauto |].
  destruct (s3 (code a) (code b) (code c)).
  { split; [| intros [_ [_ ?]]; discriminate]. intros H.
    pose proof (skip_spaces_length s2 s3 l3) as Hl.
    rewrite H in Hl. cbn in Hl. lia. }
  tauto.
Qed.

Lemma skip_spaces_idemp s2 s3 (l : list ascii) :
  skip_spaces s2 s3 (skip_spaces s2 s3 l) = skip_spaces s2 s3 l.
Proof.
  remember (length l) as n eqn:Hn. revert l Hn.
  induction n as [n IH] using lt_wf_ind. intros l Hn.
  destruct l as [| a l1]; [reflexivity |].
  cbn [skip_spaces]. destruct (space1 (code a)) eqn:Ea.
  { apply (IH (length l1)); [subst n; cbn; lia | reflexivity]. }
  destruct l1 as [| b l2].
  { apply skip_spaces_stops. cbn. auto. }
  destruct (s2 (code a) (code b)) eqn:Eb.
  { apply (IH (length l2)); [subst n; cbn; lia | reflexivity]. }
  destruct l2 as [| c l3].
  { apply skip_spaces_stops. cbn. auto. }
  destruct (s3 (code a) (code b) (code c)) eqn:Ec.
  { apply (IH (length l3)); [subst n; cbn; lia | reflexivity]. }
  apply skip_spaces_stops. cbn. auto.
Qed.

Lemma stops_prefix s2 s3 (m k : list ascii) :
  stops s2 s3 (m ++ k) -> stops s2 s3 m.
Proof.
  destruct m as [| a [| b [| c m]]]; cbn; tauto.
Qed.

(** [strip] has nothing left to do on what it returns. *)
Lemma strip_idemp (s : string) : strip (strip s) = strip s.
Proof.
  unfold strip. rewrite chars_text_of.
  set (x := lstrip (chars s)).
  assert (Hx : lstrip x = x) by apply skip_spaces_idemp.
  set (m := rstrip x).
  assert (Hrev : rev m = skip_spaces (fun a b => space2 b a)
                           (fun a b c => space3 c b a) (rev x)).
  { subst m. unfold rstrip. apply rev_involutive. }
  assert (Hm : lstrip m = m).
  { destruct (skip_spaces_suffix (fun a b => space2 b a)
                (fun a b c => space3 c b a) (rev x)) as (k & Hk).
    rewrite <- Hrev in Hk. apply (f_equal (@rev ascii)) in Hk.
    rewrite rev_involutive, rev_app_distr, rev_involutive in Hk.
    apply skip_spaces_stops. apply (stops_prefix _ _ m (rev k)).
    rewrite <- Hk. apply skip_spaces_stops. exact Hx. }
  rewrite Hm. unfold rstrip at 1. rewrite Hrev, skip_spaces_idemp, <- Hrev.
  rewrite rev_involutive. reflexivity.
Qed.

(** ** Splitting at a separator *)

Lemma skip_exact_spec (p s rest : list ascii) :
  skip_exact p s = Some rest <-> s = p ++ rest.
Proof.
  revert s. induction p as [| a p IH]; intros s; cbn [skip_exact].
  - split; [intros [= ->] | intros ->]; reflexivity.
  - destruct s as [| c s]; [split; discriminate |].
    destruct (Ascii.eqb c a) eqn:E.
    + apply Ascii.eqb_eq in E as ->. rewrite IH. cbn.
      split; [intros -> | intros [= ->]]; reflexivity.
    + split; [discriminate |]. cbn. intros [= -> _].
      rewrite Ascii.eqb_refl in E. discriminate.
Qed.

Lemma rsplit1_last (sep s : list ascii) :
  sep <> [] ->
  match rsplit1 sep s with
  | Some (a, b) =>
      s = a ++ sep ++ b /\
      forall a' b', s = a' ++ sep ++ b' -> (length a' <= length a)%nat
  | None => forall a' b', s <> a' ++ sep ++ b'
  end.
Proof.
  intros Hsep. induction s as [| c s IH].
  - cbn. intros a' b' H. symmetry in H.
    apply app_eq_nil in H as [_ H]. apply app_eq_nil in H as [H _].
    contradiction.
  - cbn [rsplit1]. destruct (rsplit1 sep s) as [[a b] |].
    + destruct IH as [-> Hmax]. split; [reflexivity |].
      intros a' b' H. destruct a' as [| c' a']; [cbn; lia |].
      cbn in H. injection H as _ H. apply Hmax in H. cbn. lia.
    + destruct (skip_exact sep (c :: s)) as [rest |] eqn:E.
      * apply skip_exact_spec in E. split; [exact E |].
        intros a' b' H. destruct a' as [| c' a']; [cbn; lia |].
        cbn in H. injection H as _ H. exfalso. exact (IH _ _ H).
      * intros a' b' H. destruct a' as [| c' a'].
        -- cbn in H. apply skip_exact_spec in H. congruence.
        -- cbn in H. injection H as _ H. exact (IH _ _ H).
Qed.

End StripFacts.

(* ===================================================================== *)
(** * NewsClient.headlines and Assistant.loop_text                      *)
(* ===================================================================== *)

Section News.

Import NewsClient.

(** X18.  The line of a headline.  An entry with a source that has a
    title gives "title — source", the title stripped.  Without one, the
    stripped title is cut at its last " - ": what follows becomes the
    source (and nothing is appended when nothing follows); a title
    without " - " is the whole line. *)
Theorem headline_splits_at_last_dash (e : entry) :
  let title := strip (default "" (entry_title e)) in
  let dash := chars " - " in
  (forall s, entry_source e = Some (Some s) -> s <> "" ->
     headline e = title +:+ " — " +:+ s) /\
  (truthy (entry_source e ≫= Datatypes.id) = false ->
   (forall a b,
      chars title = a ++ dash ++ b ->
      (forall a' b', chars title = a' ++ dash ++ b' ->
                     (length a' <= length a)%nat) ->
      headline e
      = text_of a +:+ (if bool_decide (b = []) then ""
                       else " — " +:+ text_of b)) /\
   ((forall a b, chars title <> a ++ dash ++ b) -> headline e = title)).
Proof.
  intros title dash. split.
  - intros s Hs Hne.
    assert (Ht : truthy (Some s) = true).
    { unfold truthy. rewrite bool_decide_eq_false_2 by exact Hne.
      reflexivity. }
    unfold headline. rewrite Hs.
    change (Some (Some s) ≫= Datatypes.id) with (Some s).
    rewrite Ht. cbv beta iota zeta. rewrite Ht. reflexivity.
  - intros Hsrc. unfold headline. fold title. rewrite Hsrc.
    pose proof (StripFacts.rsplit1_last dash (chars title)
                  ltac:(discriminate)) as Hsplit.
    fold dash. destruct (rsplit1 dash (chars title)) as [[a0 b0] |]; split.
    + intros a b Hab Hmax. destruct Hsplit as [H0 Hmax0].
      assert (Hlen : length a = length a0).
      { apply Nat.le_antisymm; [apply (Hmax0 a b Hab) | apply (Hmax a0 b0 H0)]. }
      rewrite Hab in H0. apply app_inj_1 in H0 as [-> H0]; [| exact Hlen].
      apply app_inv_head in H0 as ->.
      cbn [truthy default from_option Datatypes.id].
      destruct b0 as [| c b0]; reflexivity.
    + intros Hno. exfalso. destruct Hsplit as [H0 _]. exact (Hno _ _ H0).
    + intros a b Hab _. exfalso. exact (Hsplit _ _ Hab).
    + intros _. rewrite Hsrc. cbn. unfold title.
      generalize (strip (default "" (entry_title e))).
      induction s as [| c s IH]; [reflexivity |].
      change (String c s +:+ "") with (String c (s +:+ "")).
      f_equal. exact IH.
Qed.

End News.

Section Loop.

Variable off : datetime -> Z.
Variable off_at_utc : datetime -> Z.
Variable parse : string -> datetime -> option datetime.
Variable weather : string -> string.
Variable feed : string -> option (list NewsClient.entry).

Local Open Scope py_scope.

Local Abbreviation handle := (handle off off_at_utc parse weather feed).
Local Abbreviation read_lines :=
  (read_lines off off_at_utc parse weather feed).
Local Abbreviation loop_text :=
  (loop_text off off_at_utc parse weather feed).

Lemma quit_word_not_empty (s : string) : lower s ∈ QUIT_WORDS -> s <> "".
Proof.
  intros H ->. unfold QUIT_WORDS in H.
  repeat (apply elem_of_cons in H as [H | H]; [discriminate |]).
  inversion H.
Qed.

Lemma read_lines_quit (before after : list (string * datetime * datetime))
    (q : string) (c u : datetime) :
  Forall (fun e => lower (strip e.1.1) ∉ QUIT_WORDS) before ->
  lower (strip q) ∈ QUIT_WORDS ->
  forall w w1,
    read_lines before w = (Returns tt, w1) ->
    read_lines (before ++ (q, c, u) :: after) w
    = (Returns tt, says ["Goodbye!"] w1).
Proof.
  intros Hbefore Hq. induction Hbefore as [| [[l c'] u'] before Hl _ IH];
    intros w w1 Hrun.
  - cbn in Hrun. injection Hrun as <-.
    cbn [app Assistant.read_lines]. unfold bind.
    assert (Hh : handle (strip q) c u w
                 = (Returns false, says ["Goodbye!"] w)).
    { unfold Assistant.handle.
      rewrite bool_decide_eq_false_2
        by (apply quit_word_not_empty; exact Hq).
      rewrite StripFacts.strip_idemp.
      rewrite bool_decide_eq_true_2 by (apply match_quit; exact Hq).
      reflexivity. }
    rewrite Hh. reflexivity.
  - cbn [app Assistant.read_lines] in *. unfold bind in *.
    destruct (handle (strip l) c' u' w) as [[[|] | e] w2] eqn:Eh.
    + apply IH. exact Hrun.
    + exfalso. apply Hl. cbn.
      destruct (handle_false_is_quit off off_at_utc parse weather feed
                  _ _ _ _ _ Eh) as (_ & Hm & _).
      rewrite StripFacts.strip_idemp in Hm. apply match_quit in Hm.
      exact Hm.
    + discriminate.
Qed.

Lemma read_lines_raises (before rest : list (string * datetime * datetime))
    (e : exn) :
  forall w w1,
    read_lines before w = (Raises e, w1) ->
    read_lines (before ++ rest) w = (Raises e, w1).
Proof.
  induction before as [| [[l c'] u'] before IH]; intros w w1 Hrun.
  - discriminate.
  - cbn [app Assistant.read_lines] in *. unfold bind in *.
    destruct (handle (strip l) c' u' w) as [[[|] | e'] w2].
    + apply IH. exact Hrun.
    + discriminate.
    + exact Hrun.
Qed.

(** X19.  The text loop reads up to the first quit.  When the lines
    before it were handled and none of them is a quit word, a line that
    is "quit", "exit" or "bye" once stripped and lowered ends the loop
    with "Goodbye!"; the lines after it are not read.  And an exception
    a command raises ends the loop with that exception, the loop does
    not catch it: the lines after it are not read either. *)
Theorem loop_text_reads_up_to_quit
    (before after : list (string * datetime * datetime))
    (q : string) (c u : datetime) (w w1 : world) :
  Forall (fun e => is_ascii e.1.1 = true) (before ++ [(q, c, u)]) ->
  Forall (fun e => lower (strip e.1.1) ∉ QUIT_WORDS) before ->
  (lower (strip q) ∈ QUIT_WORDS ->
   loop_text before w = (Returns tt, w1) ->
   loop_text (before ++ (q, c, u) :: after) w
   = (Returns tt, says ["Goodbye!"] w1)) /\
  (forall e, loop_text before w = (Raises e, w1) ->
             loop_text (before ++ (q, c, u) :: after) w = (Raises e, w1)).
Proof.
  intros _ Hbefore. unfold Assistant.loop_text, bind. rewrite tts_say_run. split.
  - intros Hq Hrun. apply read_lines_quit; assumption.
  - intros e Hrun. apply read_lines_raises. exact Hrun.
Qed.

End Loop.


(* ===================================================================== *)
(** * Which match the matcher returns                                     *)
(* ===================================================================== *)

Module MatchFacts.

Import TextFacts ReFacts.

Section Steps.

Variable total : nat.

Lemma mt_lit_app (p : string) (m s : list ascii) (g : groups)
    (k : list ascii -> groups -> option groups) :
  ci_eq (chars p) m -> mt total (Lit p) (m ++ s) g k = k s g.
Proof.
  intros Hm. cbn [mt].
  assert (H : skip_lit (chars p) (m ++ s) = Some s)
    by (apply skip_lit_spec; exists m; auto).
  rewrite H. reflexivity.
Qed.

Lemma mt_lit_none (p : string) (s : list ascii) (g : groups)
    (k : list ascii -> groups -> option groups) :
  (forall m rest, s = m ++ rest -> ci_eq (chars p) m -> k rest g = None) ->
  mt total (Lit p) s g k = None.
Proof.
  intros H. cbn [mt]. destruct (skip_lit (chars p) s) as [rest |] eqn:E;
    [| reflexivity].
  apply skip_lit_spec in E as (m & Hs & Hm). exact (H m rest Hs Hm).
Qed.

Lemma mt_seq (r1 r2 : regex) (s : list ascii) (g : groups)
    (k : list ascii -> groups -> option groups) :
  mt total (Seq r1 r2) s g k
  = mt total r1 s g (fun s1 g1 => mt total r2 s1 g1 k).
Proof. reflexivity. Qed.

Lemma mt_alt_first (r1 r2 : regex) (s : list ascii) (g : groups)
    (k : list ascii -> groups -> option groups) (res : groups) :
  mt total r1 s g k = Some res -> mt total (Alt r1 r2) s g k = Some res.
Proof. intros H. cbn [mt]. rewrite H. reflexivity. Qed.

Lemma mt_alt_second (r1 r2 : regex) (s : list ascii) (g : groups)
    (k : list ascii -> groups -> option groups) :
  mt total r1 s g k = None ->
  mt total (Alt r1 r2) s g k = mt total r2 s g k.
Proof. intros H. cbn [mt]. rewrite H. reflexivity. Qed.

Lemma mt_eps (s : list ascii) (g : groups)
    (k : list ascii -> groups -> option groups) :
  mt total Eps s g k = k s g.
Proof. reflexivity. Qed.

Lemma mt_group (name : string) (r : regex) (s : list ascii) (g : groups)
    (k : list ascii -> groups -> option groups) :
  mt total (Group name r) s g k
  = mt total r s g
      (fun s1 g1 => k s1 ((name, take (length s - length s1) s) :: g1)).
Proof. reflexivity. Qed.

Lemma mt_chr_cons (cls : charclass) (c : ascii) (s : list ascii)
    (g : groups) (k : list ascii -> groups -> option groups) :
  class_test cls c = true -> mt total (Chr cls) (c :: s) g k = k s g.
Proof. intros H. cbn [mt]. rewrite H. reflexivity. Qed.

Lemma mt_star (gr : bool) (cls : charclass) (s : list ascii) (g : groups)
    (k : list ascii -> groups -> option groups) :
  mt total (Star gr cls) s g k = star_loop gr cls s (fun s1 => k s1 g).
Proof. reflexivity. Qed.

Lemma search_from_head (r : regex) (s : list ascii) (res : groups) :
  mt total r s [] (fun _ g => Some g) = Some res ->
  search_from total r s = Some res.
Proof. intros H. destruct s; cbn [search_from]; rewrite H; reflexivity. Qed.

(** A repetition hands to [k] a suffix of the text only. *)
Lemma star_loop_none {R} (gr : bool) (cls : charclass) (s : list ascii)
    (k : list ascii -> option R) :
  (forall t, t `suffix_of` s -> k t = None) ->
  star_loop gr cls s k = None.
Proof.
  induction s as [| c s IH]; intros H; cbn [star_loop].
  - apply H. reflexivity.
  - assert (Hs : star_loop gr cls s k = None).
    { apply IH. intros t Ht. apply H. apply suffix_cons_r. exact Ht. }
    assert (Hk : k (c :: s) = None) by (apply H; reflexivity).
    rewrite Hs, Hk. destruct (class_test cls c), gr; reflexivity.
Qed.

(** A greedy repetition stops at the last place where the rest of the
    pattern matches. *)
Lemma star_loop_greedy_last {R} (cls : charclass) (s1 s2 : list ascii)
    (k : list ascii -> option R) (r : R) :
  Forall (fun c => class_test cls c = true) s1 ->
  k s2 = Some r ->
  (forall c t, s2 = c :: t ->
     forall t', t' `suffix_of` t -> k t' = None) ->
  star_loop true cls (s1 ++ s2) k = Some r.
Proof.
  intros H1 Hk Hlater. induction H1 as [| c s1 Hc _ IH].
  - cbn [app]. destruct s2 as [| c t]; cbn [star_loop]; [exact Hk |].
    rewrite (star_loop_none true cls t k (Hlater c t eq_refl)), Hk.
    destruct (class_test cls c); reflexivity.
  - cbn [app star_loop]. rewrite Hc, IH. reflexivity.
Qed.

(** It does not go past a character outside the class. *)
Lemma star_loop_greedy_stop {R} (cls : charclass) (s1 s2 : list ascii)
    (k : list ascii -> option R) (r : R) :
  Forall (fun c => class_test cls c = true) s1 ->
  k s2 = Some r ->
  match s2 with [] => True | c :: _ => class_test cls c = false end ->
  star_loop true cls (s1 ++ s2) k = Some r.
Proof.
  intros H1 Hk Hstop. induction H1 as [| c s1 Hc _ IH].
  - cbn [app]. destruct s2 as [| c t]; cbn [star_loop]; [exact Hk |].
    rewrite Hstop. exact Hk.
  - cbn [app star_loop]. rewrite Hc, IH. reflexivity.
Qed.

(** A lazy one stops at the first. *)
Lemma star_loop_lazy_first {R} (cls : charclass) (s1 s2 : list ascii)
    (k : list ascii -> option R) (r : R) :
  Forall (fun c => class_test cls c = true) s1 ->
  k s2 = Some r ->
  (forall a b, s1 = a ++ b -> b <> [] -> k (b ++ s2) = None) ->
  star_loop false cls (s1 ++ s2) k = Some r.
Proof.
  intros H1 Hk. induction H1 as [| c s1 Hc _ IH]; intros Hearly.
  - cbn [app]. destruct s2 as [| c t]; cbn [star_loop]; [exact Hk |].
    rewrite Hk. destruct (class_test cls c); reflexivity.
  - cbn [app star_loop]. rewrite Hc.
    pose proof (Hearly [] (c :: s1) eq_refl ltac:(discriminate)) as Hk0.
    cbn [app] in Hk0. rewrite Hk0.
    apply IH. intros a b -> Hb. apply (Hearly (c :: a) b); auto.
Qed.

End Steps.

Lemma chars_app (s t : string) : chars (s +:+ t) = chars s ++ chars t.
Proof.
  induction s as [| c s IH]; [reflexivity |].
  change (String c s +:+ t) with (String c (s +:+ t)).
  change (chars (String c (s +:+ t))) with (c :: chars (s +:+ t)).
  rewrite IH. reflexivity.
Qed.

Lemma take_app_suffix {A} (a b : list A) :
  take (length (a ++ b) - length b) (a ++ b) = a.
Proof.
  rewrite length_app.
  replace (length a + length b - length b)%nat with (length a) by lia.
  apply take_app_length.
Qed.

Lemma take_all_nil {A} (a : list A) :
  take (length a - length (@nil A)) a = a.
Proof. cbn. rewrite Nat.sub_0_r. apply firstn_all. Qed.

Lemma dot_no_line_feed (l : list ascii) :
  Forall (fun c => code c <> 10) l ->
  Forall (fun c => class_test Dot c = true) l.
Proof.
  intros H. apply (Forall_impl _ _ _ H). intros c Hc. cbn.
  destruct (Z.eqb_spec (code c) 10); [contradiction | reflexivity].
Qed.

Lemma ci_eq_no_line_feed (p m : list ascii) :
  ci_eq p m -> Forall (fun c => code c <> 10) p ->
  Forall (fun c => code c <> 10) m.
Proof.
  unfold ci_eq. revert m. induction p as [| a p IH]; intros m H Hp.
  - destruct m; [constructor | discriminate].
  - destruct m as [| c m]; [discriminate |]. cbn in H.
    injection H as Hc Hm. apply Forall_cons in Hp as [Ha Hp].
    constructor; [| exact (IH m Hm Hp)].
    intros E. apply Ha.
    assert (Hl : lower_char c = c).
    { unfold lower_char. rewrite E. reflexivity. }
    rewrite Hl in Hc.
    apply lower_char_other in Hc; [subst; exact E |]. lia.
Qed.

(** ** "remind me to <task> at <time>" *)

(** The pattern finds the task up to the last " at " and the time after
    it. *)
Lemma search_remind_simple (text : string) (p T a X : list ascii) :
  chars text = p ++ T ++ a ++ X ->
  ci_eq (chars "remind me to ") p -> ci_eq (chars " at ") a ->
  T <> [] -> X <> [] ->
  Forall (fun c => code c <> 10) (T ++ X) ->
  occurs_ci (chars " at ") (chars "at " ++ X) = false ->
  search REMIND_SIMPLE_RE text = Some [("time", X); ("task", T)].
Proof.
  intros Htext Hp Ha HT HX Hnl Hlast.
  apply Forall_app in Hnl as [HnlT HnlX].
  apply dot_no_line_feed in HnlT, HnlX.
  apply (ci_eq_app_inv (chars "remind me ") (chars "to ")) in Hp
    as (p1 & p2 & -> & Hp1 & Hp2).
  unfold search. rewrite Htext.
  set (total := length ((p1 ++ p2) ++ T ++ a ++ X)).
  apply search_from_head.
  unfold REMIND_SIMPLE_RE. cbn [seqs foldr].
  rewrite <- app_assoc, mt_seq, (mt_lit_app _ _ _ _ _ _ Hp1), mt_seq.
  apply mt_alt_first. rewrite (mt_lit_app _ _ _ _ _ _ Hp2).
  destruct T as [| t0 T]; [contradiction |].
  destruct X as [| x0 X]; [contradiction |].
  apply Forall_cons in HnlT as [Ht0 HnlT].
  apply Forall_cons in HnlX as [Hx0 HnlX].
  rewrite mt_seq, mt_group. unfold Plus. rewrite mt_seq.
  cbn [app]. rewrite (mt_chr_cons _ _ _ _ _ _ Ht0), mt_star.
  apply star_loop_greedy_last; [exact HnlT | |].
  - change (t0 :: T ++ a ++ x0 :: X) with ((t0 :: T) ++ a ++ x0 :: X).
    rewrite take_app_suffix.
    rewrite mt_seq, (mt_lit_app _ _ _ _ _ _ Ha), mt_seq, mt_group, mt_seq.
    rewrite (mt_chr_cons _ _ _ _ _ _ Hx0), mt_star.
    rewrite <- (app_nil_r X) at 1.
    apply star_loop_greedy_last; [exact HnlX | | discriminate].
    rewrite take_all_nil. reflexivity.
  - intros c t Hct t' [pre Hpre].
    rewrite mt_seq. apply mt_lit_none. intros m rest Hm Hci. exfalso.
    assert (Ha3 : exists a3, a = c :: a3 /\ ci_eq (chars "at ") a3).
    { pose proof (ci_eq_length _ _ Ha) as Hlen.
      destruct a as [| a0 a3]; [discriminate |].
      injection Hct as -> _. exists a3. split; [reflexivity |].
      unfold ci_eq in *. cbn in Ha. injection Ha. auto. }
    destruct Ha3 as (a3 & -> & Ha3).
    injection Hct as <-.
    assert (Hocc : occurs_ci (chars " at ") (a3 ++ x0 :: X) = true).
    { apply occurs_ci_spec. exists pre, m, rest.
      split; [congruence | exact Hci]. }
    apply (occurs_ci_ci_eq _ _ (chars "at " ++ x0 :: X)) in Hocc.
    + congruence.
    + apply ci_eq_sym, ci_eq_app; [exact Ha3 | apply ci_eq_refl].
Qed.

(** ** "remind me to <task> in <n> minutes" *)

Lemma ci_eq_cons_inv (a : ascii) (p m : list ascii) :
  ci_eq (a :: p) m ->
  exists c m', m = c :: m' /\ lower_char c = lower_char a /\ ci_eq p m'.
Proof.
  unfold ci_eq. destruct m as [| c m]; [discriminate |]. cbn.
  intros [= Hc Hm]. exists c, m. auto.
Qed.

Lemma mt_lit_mismatch (total : nat) (w : string) (a : ascii) (w' : string)
    (c : ascii) (s : list ascii) (g : groups)
    (k : list ascii -> groups -> option groups) :
  w = String a w' -> lower_char c <> lower_char a ->
  mt total (Lit w) (c :: s) g k = None.
Proof.
  intros -> H. cbn [mt chars String.list_ascii_of_string skip_lit].
  destruct (Ascii.eqb_spec (lower_char c) (lower_char a));
    [contradiction | reflexivity].
Qed.

Lemma mt_lit_end (total : nat) (w : string) (a : ascii) (w' : string)
    (g : groups) (k : list ascii -> groups -> option groups) :
  w = String a w' -> mt total (Lit w) [] g k = None.
Proof. intros ->. reflexivity. Qed.

(** A letter is neither a digit nor a blank. *)
Lemma letter_classes (c a : ascii) :
  lower_char c = lower_char a -> 97 <= code (lower_char a) <= 122 ->
  class_test Digit c = false /\ class_test Space c = false.
Proof.
  intros Hc Ha. rewrite <- Hc in Ha. revert Ha. clear Hc.
  unfold lower_char, class_test, space1.
  destruct ((65 <=? code c) && (code c <=? 90)) eqn:E.
  - intros _. apply andb_true_iff in E as [E1 E2].
    apply Z.leb_le in E1, E2.
    repeat match goal with
           | |- context [?x <=? ?y] => destruct (Z.leb_spec x y)
           end; cbn; try lia; auto.
  - intros Ha.
    repeat match goal with
           | |- context [?x <=? ?y] => destruct (Z.leb_spec x y)
           end; cbn; try lia; auto.
Qed.

Lemma space_not_digit (c : ascii) :
  class_test Space c = true -> class_test Digit c = false.
Proof.
  unfold class_test, space1.
  repeat match goal with
         | |- context [?x <=? ?y] => destruct (Z.leb_spec x y)
         end; cbn; try lia; auto.
Qed.

(** "minute" or "hour", with or without the s. *)
Lemma word_s_matches (total : nat) (w : string) (U : list ascii)
    (g res : groups) (k : list ascii -> groups -> option groups) :
  ci_eq (chars w) U \/ ci_eq (chars w ++ chars "s") U ->
  k [] g = Some res ->
  mt total (Seq (Lit w) (Opt (Lit "s"))) U g k = Some res.
Proof.
  intros [HU | HU] Hk; rewrite mt_seq.
  - rewrite <- (app_nil_r U), (mt_lit_app _ _ _ _ _ _ HU).
    unfold Opt. rewrite mt_alt_second by reflexivity. exact Hk.
  - apply ci_eq_app_inv in HU as (m1 & m2 & -> & H1 & H2).
    rewrite (mt_lit_app _ _ _ _ _ _ H1). unfold Opt.
    apply mt_alt_first.
    rewrite <- (app_nil_r m2), (mt_lit_app _ _ _ _ _ _ H2). exact Hk.
Qed.

Lemma unit_matches (total : nat) (u : string) (U : list ascii)
    (g res : groups) (k : list ascii -> groups -> option groups) :
  u ∈ UNIT_WORDS -> ci_eq (chars u) U ->
  k [] (("unit", U) :: g) = Some res ->
  mt total
    (Group "unit" (Alt (Seq (Lit "minute") (Opt (Lit "s")))
                       (Seq (Lit "hour") (Opt (Lit "s"))))) U g k
  = Some res.
Proof.
  intros Hu HU Hk. rewrite mt_group.
  assert (Hk' : (fun s1 g1 => k s1 (("unit", take (length U - length s1) U)
                                      :: g1)) [] g = Some res).
  { cbv beta. rewrite take_all_nil. exact Hk. }
  unfold UNIT_WORDS in Hu.
  repeat (apply elem_of_cons in Hu as [-> | Hu]).
  - apply mt_alt_first, word_s_matches; [left; exact HU | exact Hk'].
  - apply mt_alt_first, word_s_matches; [right; exact HU | exact Hk'].
  - destruct (ci_eq_cons_inv _ _ _ HU) as (c & U' & -> & Hc & _).
    rewrite mt_alt_second.
    + apply word_s_matches; [left; exact HU | exact Hk'].
    + rewrite mt_seq.
      apply (mt_lit_mismatch _ _ "m" "inute"); [reflexivity |].
      rewrite Hc. vm_compute. discriminate.
  - destruct (ci_eq_cons_inv _ _ _ HU) as (c & U' & -> & Hc & _).
    rewrite mt_alt_second.
    + apply word_s_matches; [right; exact HU | exact Hk'].
    + rewrite mt_seq.
      apply (mt_lit_mismatch _ _ "m" "inute"); [reflexivity |].
      rewrite Hc. vm_compute. discriminate.
  - inversion Hu.
Qed.

Lemma unit_starts_with_letter (u : string) (U : list ascii) :
  u ∈ UNIT_WORDS -> ci_eq (chars u) U ->
  exists c U', U = c :: U' /\ class_test Digit c = false /\
               class_test Space c = false.
Proof.
  intros Hu HU. unfold UNIT_WORDS in Hu.
  repeat (apply elem_of_cons in Hu as [-> | Hu]); [| | | | inversion Hu].
  all: destruct (ci_eq_cons_inv _ _ _ HU) as (c & U' & -> & Hc & _);
       exists c, U'; split; [reflexivity |];
       apply (letter_classes c _ Hc); vm_compute; split; discriminate.
Qed.

(** An occurrence that begins before a place ends before the separator
    that begins there does. *)
Lemma occurs_before (sep b i3 tail m rest : list ascii) :
  b ++ i3 ++ tail = m ++ rest ->
  (length m <= length b + length i3)%nat -> ci_eq sep m ->
  occurs_ci sep (b ++ i3) = true.
Proof.
  intros H Hlen Hm. apply occurs_ci_spec.
  exists [], m, (drop (length m) (b ++ i3)). split; [| exact Hm].
  cbn [app]. rewrite <- (take_drop (length m) (b ++ i3)) at 1. f_equal.
  rewrite app_assoc in H.
  apply (f_equal (take (length m))) in H.
  rewrite take_app_le in H by (rewrite length_app; lia).
  rewrite take_app_length in H. exact H.
Qed.

(** The pattern finds the task up to the first " in " and the number and
    the unit after it. *)
Lemma search_remind_in (text u : string) (p T i N S U : list ascii) :
  chars text = p ++ T ++ i ++ N ++ S ++ U ->
  ci_eq (chars "remind me to ") p -> ci_eq (chars " in ") i ->
  T <> [] -> Forall (fun c => code c <> 10) T ->
  occurs_ci (chars " in ") (T ++ chars " in") = false ->
  N <> [] -> Forall (fun c => class_test Digit c = true) N ->
  Forall (fun c => class_test Space c = true) S ->
  u ∈ UNIT_WORDS -> ci_eq (chars u) U ->
  search REMIND_IN_RE text = Some [("unit", U); ("num", N); ("task", T)].
Proof.
  intros Htext Hp Hi HT HnlT Hfirst HN HdN HsS Hu HU.
  apply dot_no_line_feed in HnlT.
  apply (ci_eq_app_inv (chars "remind me") (chars " to ")) in Hp
    as (p1 & p23 & -> & Hp1 & Hp23).
  apply (ci_eq_app_inv (chars " to") (chars " ")) in Hp23
    as (p2 & p3 & -> & Hp2 & Hp3).
  destruct (unit_starts_with_letter u U Hu HU)
    as (c0 & U' & HU0 & Hc0d & Hc0s).
  unfold search. rewrite Htext.
  set (total := length ((p1 ++ p2 ++ p3) ++ T ++ i ++ N ++ S ++ U)).
  apply search_from_head.
  unfold REMIND_IN_RE. cbn [seqs foldr].
  rewrite <- !app_assoc, mt_seq, (mt_lit_app _ _ _ _ _ _ Hp1), mt_seq.
  apply mt_alt_first.
  rewrite (mt_lit_app _ _ _ _ _ _ Hp2), mt_seq, (mt_lit_app _ _ _ _ _ _ Hp3).
  destruct T as [| t0 T]; [contradiction |].
  destruct N as [| n0 N]; [contradiction |].
  apply Forall_cons in HnlT as [Ht0 HnlT].
  apply Forall_cons in HdN as [Hn0 HdN].
  rewrite mt_seq, mt_group. unfold Plus. rewrite mt_seq.
  cbn [app]. rewrite (mt_chr_cons _ _ _ _ _ _ Ht0), mt_star.
  apply star_loop_lazy_first; [exact HnlT | |].
  - change (t0 :: T ++ i ++ n0 :: N ++ S ++ U)
      with ((t0 :: T) ++ i ++ n0 :: N ++ S ++ U).
    rewrite take_app_suffix.
    rewrite mt_seq, (mt_lit_app _ _ _ _ _ _ Hi), mt_seq, mt_group, mt_seq.
    rewrite (mt_chr_cons _ _ _ _ _ _ Hn0), mt_star.
    apply star_loop_greedy_stop; [exact HdN | |].
    + change (n0 :: N ++ S ++ U) with ((n0 :: N) ++ S ++ U).
      rewrite take_app_suffix.
      rewrite mt_seq, mt_star.
      apply star_loop_greedy_stop; [exact HsS | |].
      * rewrite mt_seq. apply (unit_matches _ u); [exact Hu | exact HU |].
        reflexivity.
      * rewrite HU0. exact Hc0s.
    + destruct S as [| s0 S]; cbn [app].
      * rewrite HU0. exact Hc0d.
      * apply Forall_cons in HsS as [Hs0 _]. exact (space_not_digit _ Hs0).
  - intros a b HTab Hb. rewrite mt_seq. apply mt_lit_none.
    intros m rest Hm Hci. exfalso.
    pose proof (ci_eq_length _ _ Hi) as Hleni.
    pose proof (ci_eq_length _ _ Hci) as Hlenm.
    destruct i as [| i0 [| i1 [| i2 [| i3 [| ? ?]]]]]; try discriminate.
    assert (Hocc : occurs_ci (chars " in ") (b ++ [i0; i1; i2]) = true).
    { apply (occurs_before _ b [i0; i1; i2] (i3 :: n0 :: N ++ S ++ U)
               m rest).
      - rewrite <- Hm. reflexivity.
      - rewrite <- Hlenm. destruct b; [contradiction |]. cbn. lia.
      - exact Hci. }
    apply (occurs_ci_infix _ _ (t0 :: a) []) in Hocc.
    rewrite app_nil_r in Hocc.
    apply (occurs_ci_ci_eq _ _ ((t0 :: T) ++ chars " in")) in Hocc.
    + congruence.
    + rewrite HTab.
      replace ((t0 :: a) ++ b ++ [i0; i1; i2])
        with ((t0 :: a ++ b) ++ [i0; i1; i2])
        by (cbn [app]; rewrite <- app_assoc; reflexivity).
      apply ci_eq_app; [apply ci_eq_refl |].
      apply ci_eq_sym. unfold ci_eq in *. cbn in Hi |- *.
      injection Hi as H0 H1 H2 H3. congruence.
Qed.

(** ** "delete reminder <n>" *)

Lemma search_delete (text kw : string) (K N : list ascii) :
  chars text = K ++ N ->
  kw ∈ DELETE_PHRASES -> ci_eq (chars kw) K ->
  N <> [] -> Forall (fun c => class_test Digit c = true) N ->
  search DELETE_REM_RE text = Some [("id", N)].
Proof.
  intros Htext Hkw HK HN HdN.
  unfold search. rewrite Htext. set (total := length (K ++ N)).
  apply search_from_head.
  unfold DELETE_REM_RE. cbn [seqs foldr].
  destruct N as [| n0 N]; [contradiction |].
  apply Forall_cons in HdN as [Hn0 HdN].
  assert (Hid : forall g,
    mt total (Seq (Group "id" (Plus true Digit)) Eps) (n0 :: N) g
      (fun _ g' => Some g') = Some (("id", n0 :: N) :: g)).
  { intros g. rewrite mt_seq, mt_group. unfold Plus. rewrite mt_seq.
    rewrite (mt_chr_cons _ _ _ _ _ _ Hn0), mt_star.
    rewrite <- (app_nil_r N) at 1.
    apply star_loop_greedy_stop; [exact HdN | | exact I].
    rewrite take_all_nil. reflexivity. }
  unfold DELETE_PHRASES in Hkw.
  repeat (apply elem_of_cons in Hkw as [-> | Hkw]); [| | | inversion Hkw].
  - apply (ci_eq_app_inv (chars "delete") (chars " reminder ")) in HK
      as (k1 & k2 & -> & Hk1 & Hk2).
    rewrite <- app_assoc, mt_seq. apply mt_alt_first.
    rewrite (mt_lit_app _ _ _ _ _ _ Hk1), mt_seq,
      (mt_lit_app _ _ _ _ _ _ Hk2).
    apply Hid.
  - apply (ci_eq_app_inv (chars "remove") (chars " reminder ")) in HK
      as (k1 & k2 & -> & Hk1 & Hk2).
    destruct (ci_eq_cons_inv _ _ _ Hk1) as (c & k1' & E & Hc & _).
    rewrite <- app_assoc, mt_seq. rewrite mt_alt_second.
    + apply mt_alt_first.
      rewrite (mt_lit_app _ _ _ _ _ _ Hk1), mt_seq,
        (mt_lit_app _ _ _ _ _ _ Hk2).
      apply Hid.
    + rewrite E. cbn [app].
      apply (mt_lit_mismatch _ _ "d" "elete"); [reflexivity |].
      rewrite Hc. vm_compute. discriminate.
  - apply (ci_eq_app_inv (chars "cancel") (chars " reminder ")) in HK
      as (k1 & k2 & -> & Hk1 & Hk2).
    destruct (ci_eq_cons_inv _ _ _ Hk1) as (c & k1' & E & Hc & _).
    rewrite <- app_assoc, mt_seq. rewrite mt_alt_second.
    + rewrite mt_alt_second.
      * rewrite (mt_lit_app _ _ _ _ _ _ Hk1), mt_seq,
          (mt_lit_app _ _ _ _ _ _ Hk2).
        apply Hid.
      * rewrite E. cbn [app].
        apply (mt_lit_mismatch _ _ "r" "emove"); [reflexivity |].
        rewrite Hc. vm_compute. discriminate.
    + rewrite E. cbn [app].
      apply (mt_lit_mismatch _ _ "d" "elete"); [reflexivity |].
      rewrite Hc. vm_compute. discriminate.
Qed.

(** A phrase that does not end in a digit is not found across the end of
    a text into the digits that follow it. *)
Lemma occurs_ci_digits_tail (ph pre N : list ascii) (c : ascii) :
  last ph = Some c -> class_test Digit c = false ->
  Forall (fun d => class_test Digit d = true) N ->
  occurs_ci ph (pre ++ N) = true -> occurs_ci ph pre = true.
Proof.
  intros Hlast Hc HN Hocc.
  apply last_Some in Hlast as [ph0 ->].
  apply occurs_ci_spec in Hocc as (a & m & b & E & Hm).
  apply ci_eq_app_inv in Hm as (m0 & m1 & -> & H0 & H1).
  destruct (ci_eq_cons_inv _ _ _ H1) as (c' & m1' & -> & Hc' & Hnil).
  apply ci_eq_length in Hnil. destruct m1'; [| discriminate].
  assert (Hat : (pre ++ N) !! length (a ++ m0) = Some c').
  { rewrite E, <- !app_assoc, app_assoc.
    rewrite lookup_app_r by lia. rewrite Nat.sub_diag. reflexivity. }
  destruct (decide (length (a ++ m0) < length pre)%nat) as [Hlt | Hge].
  - apply occurs_ci_spec.
    exists a, (m0 ++ [c']), (drop (S (length (a ++ m0))) pre).
    split; [| apply ci_eq_app; assumption].
    rewrite <- (take_drop (S (length (a ++ m0))) pre) at 1.
    rewrite app_assoc. f_equal.
    apply (f_equal (take (S (length (a ++ m0))))) in E.
    rewrite take_app_le in E by lia. rewrite E.
    rewrite app_assoc, app_assoc, <- (app_assoc a).
    apply take_app_length'. rewrite !length_app. cbn. lia.
  - exfalso. rewrite lookup_app_r in Hat by lia.
    rewrite Forall_lookup in HN. apply HN in Hat.
    assert (Hlow : lower_char c' = c').
    { unfold lower_char. cbn [class_test] in Hat.
      apply andb_true_iff in Hat as [E1 E2]. apply Z.leb_le in E1, E2.
      destruct (Z.leb_spec 65 (code c')); [| reflexivity].
      destruct (Z.leb_spec (code c') 90); [lia | reflexivity]. }
    rewrite Hlow in Hc'. symmetry in Hc'.
    apply lower_char_other in Hc'.
    + subst c'. congruence.
    + cbn [class_test] in Hat.
      apply andb_true_iff in Hat as [E1 E2]. apply Z.leb_le in E1, E2. lia.
Qed.

Lemma lang_remind_at (m : list ascii) :
  lang REMIND_AT_RE m ->
  occurs_ci (chars "reminder for ") m = true \/
  occurs_ci (chars "reminder at ") m = true.
Proof.
  cbn [REMIND_AT_RE seqs foldr lang Opt Plus].
  intros (m0 & r0 & -> & _ & m1 & r1 & -> & Hrem & m2 & r2 & -> & Hprep & _).
  destruct Hprep as [Hp | Hp]; [left | right];
    apply occurs_ci_spec; exists m0, (m1 ++ m2), r2;
    (split; [rewrite <- !app_assoc; reflexivity |]);
    exact (ci_eq_app _ _ _ _ Hrem Hp).
Qed.

(** In a text [REMIND_IN_RE] matches, " in " comes after "remind me", a
    blank and a first letter of the task: eleven characters at least. *)
Lemma lang_remind_in_far (m : list ascii) :
  lang REMIND_IN_RE m ->
  exists A i R, m = A ++ i ++ R /\ (11 <= length A)%nat /\
                ci_eq (chars " in ") i.
Proof.
  cbn [REMIND_IN_RE seqs foldr lang Opt Plus].
  intros (m1 & r1 & -> & Hrem & m2 & r2 & -> & _ & m3 & r3 & -> & Hsp
          & m4 & r4 & -> & Htask & m5 & r5 & -> & Hin & _).
  destruct Htask as (t1 & t2 & -> & (c & -> & _) & _).
  exists (m1 ++ m2 ++ m3 ++ [c] ++ t2), m5, r5.
  split; [rewrite <- !app_assoc; reflexivity |].
  split; [| exact Hin].
  apply ci_eq_length in Hrem, Hsp. rewrite !length_app.
  cbn in Hrem, Hsp |- *. lia.
Qed.

(** ** "set a reminder at <time> to <task>" *)

Lemma mt_chr_fail (total : nat) (cls : charclass) (c : ascii)
    (s : list ascii) (g : groups)
    (k : list ascii -> groups -> option groups) :
  class_test cls c = false -> mt total (Chr cls) (c :: s) g k = None.
Proof. intros H. cbn [mt]. rewrite H. reflexivity. Qed.

Lemma mt_lit_one (total : nat) (p : string) (d : ascii) (s : list ascii)
    (g : groups) (k : list ascii -> groups -> option groups) :
  ci_eq (chars p) [d] -> mt total (Lit p) (d :: s) g k = k s g.
Proof. intros H. exact (mt_lit_app total p [d] s g k H). Qed.

Lemma blank_is_blank (c : ascii) :
  lower_char c = lower_char " " -> c = " "%char.
Proof.
  intros H. apply lower_char_other in H; [exact H |]. vm_compute. left.
  reflexivity.
Qed.

Lemma not_blank (c : ascii) :
  code c <> 32 -> class_test (NoneOf [" "%char]) c = true.
Proof.
  intros H. cbn [class_test char_in existsb]. rewrite orb_false_r.
  apply negb_true_iff. apply Ascii.eqb_neq. intros E.
  apply blank_is_blank in E. subst c. apply H. reflexivity.
Qed.

(** The part of [REMIND_AT_RE] after "reminder at ". *)
Lemma time_and_task (total : nat) (mer : string)
    (X1 X2 sto T : list ascii) :
  X1 <> [] -> Forall (fun c => code c <> 32) X1 ->
  mer ∈ MERIDIEMS -> ci_eq (chars mer) X2 ->
  ci_eq (chars " to ") sto ->
  T <> [] -> Forall (fun c => code c <> 10) T ->
  mt total
    (seqs [ Group "time"
              (Seq (Plus true (NoneOf [" "%char]))
                 (Opt (seqs [Star true Space;
                             Chr (OneOf ["a"%char; "p"%char]); Lit "m"])));
            Lit " "; Opt (Lit "to "); Group "task" (Plus true Dot) ])
    (X1 ++ X2 ++ sto ++ T) [] (fun _ g => Some g)
  = Some [("task", T); ("time", X1 ++ X2)].
Proof.
  intros HX1 Hns Hmer HX2 Hsto HT HnlT.
  apply dot_no_line_feed in HnlT.
  assert (Hcls : Forall (fun c => class_test (NoneOf [" "%char]) c = true)
                   X1)
    by (apply (Forall_impl _ _ _ Hns); exact not_blank).
  clear Hns.
  destruct X1 as [| x0 X1]; [contradiction |].
  destruct T as [| t0 T]; [contradiction |].
  apply Forall_cons in Hcls as [Hx0 Hcls].
  apply Forall_cons in HnlT as [Ht0 HnlT].
  apply (ci_eq_app_inv (chars " ") (chars "to ")) in Hsto
    as (s0 & s123 & -> & Hs0 & Hs123).
  destruct (ci_eq_cons_inv _ _ _ Hs0) as (b0 & s0' & -> & Hb0 & Hnil).
  apply ci_eq_length in Hnil. destruct s0'; [| discriminate].
  apply blank_is_blank in Hb0. subst b0.
  destruct (ci_eq_cons_inv _ _ _ Hs123) as (c1 & s23 & -> & Hc1 & _).
  (* the task, once the time is read *)
  assert (Htask : forall g,
    mt total (seqs [Lit " "; Opt (Lit "to "); Group "task" (Plus true Dot)])
      ([" "%char] ++ (c1 :: s23) ++ t0 :: T) g (fun _ g' => Some g')
    = Some (("task", t0 :: T) :: g)).
  { intros g. cbn [seqs foldr].
    rewrite mt_seq, (mt_lit_app _ _ _ _ _ _ Hs0), mt_seq.
    apply mt_alt_first. rewrite (mt_lit_app _ _ _ _ _ _ Hs123).
    rewrite mt_seq, mt_group. unfold Plus. rewrite mt_seq.
    rewrite (mt_chr_cons _ _ _ _ _ _ Ht0), mt_star.
    rewrite <- (app_nil_r T) at 1.
    apply star_loop_greedy_stop; [exact HnlT | | exact I].
    rewrite take_all_nil. reflexivity. }
  cbn [seqs foldr] in Htask |- *.
  rewrite mt_seq, mt_group, mt_seq. unfold Plus at 1. rewrite mt_seq.
  cbn [app]. rewrite (mt_chr_cons _ _ _ _ _ _ Hx0), mt_star.
  unfold MERIDIEMS in Hmer.
  apply elem_of_cons in Hmer as [-> | Hmer].
  - (* no am or pm *)
    apply ci_eq_length in HX2. destruct X2; [| discriminate].
    cbn [app].
    apply star_loop_greedy_stop; [exact Hcls | | reflexivity].
    unfold Opt at 1. rewrite mt_alt_second.
    + rewrite mt_eps.
      pose proof (take_app_suffix (x0 :: X1)
                    (" "%char :: c1 :: s23 ++ t0 :: T)) as Htk.
      cbn [app] in Htk. rewrite Htk, app_nil_r. apply Htask.
    + rewrite mt_seq, mt_star. cbn [star_loop app].
      assert (Hsp1 : class_test Space c1 = false).
      { apply (letter_classes c1 _ Hc1). vm_compute. split; discriminate. }
      assert (Hap1 : class_test (OneOf ["a"%char; "p"%char]) c1 = false).
      { cbn [class_test char_in existsb]. rewrite Hc1. reflexivity. }
      change (class_test Space " ") with true. cbv iota.
      rewrite Hsp1, mt_seq, (mt_chr_fail _ _ _ _ _ _ Hap1), mt_seq.
      apply mt_chr_fail. reflexivity.
  - (* " am" or " pm" *)
    assert (Hshape : exists c d,
      X2 = [" "%char; c; d] /\
      class_test (OneOf ["a"%char; "p"%char]) c = true /\
      class_test Space c = false /\ ci_eq (chars "m") [d]).
    { repeat (apply elem_of_cons in Hmer as [-> | Hmer]);
        [| | inversion Hmer].
      all: destruct (ci_eq_cons_inv _ _ _ HX2) as (b & X2' & -> & Hb & HX2');
           destruct (ci_eq_cons_inv _ _ _ HX2') as (c & X2'' & -> & Hc & Hd);
           apply blank_is_blank in Hb; subst b;
           pose proof (ci_eq_length _ _ Hd) as Hlen;
           destruct X2'' as [| d [| ? ?]]; try discriminate;
           exists c, d; split; [reflexivity |];
           split; [cbn [class_test char_in existsb]; rewrite Hc; reflexivity |];
           split; [| exact Hd];
           apply (letter_classes c _ Hc); vm_compute; split; discriminate. }
    destruct Hshape as (c & d & -> & Hap & Hsp & Hd).
    apply star_loop_greedy_stop; [exact Hcls | | reflexivity].
    unfold Opt at 1. apply mt_alt_first. cbn [seqs foldr app].
    rewrite mt_seq, mt_star.
    apply (star_loop_greedy_stop _ [" "%char]
             (c :: d :: " "%char :: c1 :: s23 ++ t0 :: T));
      [repeat constructor | | exact Hsp].
    rewrite mt_seq, (mt_chr_cons _ _ _ _ _ _ Hap), mt_seq,
      (mt_lit_one _ _ _ _ _ _ Hd), mt_eps.
    pose proof (take_app_suffix (x0 :: X1 ++ [" "%char; c; d])
                  (" "%char :: c1 :: s23 ++ t0 :: T)) as Htk.
    cbn [app] in Htk. rewrite <- app_assoc in Htk. cbn [app] in Htk.
    rewrite Htk.
    apply Htask.
Qed.

(** The whole pattern, for a text that begins with one of the four
    phrases. *)
Lemma search_remind_at (text ph mer : string)
    (pre X1 X2 sto T : list ascii) :
  chars text = pre ++ X1 ++ X2 ++ sto ++ T ->
  ph ∈ REMINDER_AT_PHRASES -> ci_eq (chars ph) pre ->
  X1 <> [] -> Forall (fun c => code c <> 32) X1 ->
  mer ∈ MERIDIEMS -> ci_eq (chars mer) X2 ->
  ci_eq (chars " to ") sto ->
  T <> [] -> Forall (fun c => code c <> 10) T ->
  search REMIND_AT_RE text = Some [("task", T); ("time", X1 ++ X2)].
Proof.
  intros Htext Hph Hpre HX1 Hns Hmer HX2 Hsto HT HnlT.
  unfold search. rewrite Htext.
  set (total := length (pre ++ X1 ++ X2 ++ sto ++ T)).
  pose proof (time_and_task total mer X1 X2 sto T HX1 Hns Hmer HX2 Hsto HT
                HnlT) as Hrest.
  apply search_from_head.
  unfold REMIND_AT_RE. cbn [seqs foldr] in Hrest |- *.
  unfold REMINDER_AT_PHRASES in Hph.
  repeat (apply elem_of_cons in Hph as [-> | Hph]); [| | | | inversion Hph].
  - apply (ci_eq_app_inv (chars "set a ") (chars "reminder at ")) in Hpre
      as (q1 & q23 & -> & H1 & H23).
    apply (ci_eq_app_inv (chars "reminder ") (chars "at ")) in H23
      as (q2 & q3 & -> & H2 & H3).
    destruct (ci_eq_cons_inv _ _ _ H3) as (c & q3' & E & Hc & _).
    rewrite <- !app_assoc, mt_seq. apply mt_alt_first.
    rewrite (mt_lit_app _ _ _ _ _ _ H1), mt_seq,
      (mt_lit_app _ _ _ _ _ _ H2), mt_seq.
    rewrite mt_alt_second.
    + rewrite (mt_lit_app _ _ _ _ _ _ H3). exact Hrest.
    + rewrite E. cbn [app].
      apply (mt_lit_mismatch _ _ "f" "or "); [reflexivity |].
      rewrite Hc. vm_compute. discriminate.
  - apply (ci_eq_app_inv (chars "set a ") (chars "reminder for ")) in Hpre
      as (q1 & q23 & -> & H1 & H23).
    apply (ci_eq_app_inv (chars "reminder ") (chars "for ")) in H23
      as (q2 & q3 & -> & H2 & H3).
    rewrite <- !app_assoc, mt_seq. apply mt_alt_first.
    rewrite (mt_lit_app _ _ _ _ _ _ H1), mt_seq,
      (mt_lit_app _ _ _ _ _ _ H2), mt_seq.
    apply mt_alt_first.
    rewrite (mt_lit_app _ _ _ _ _ _ H3). exact Hrest.
  - apply (ci_eq_app_inv (chars "reminder ") (chars "at ")) in Hpre
      as (q2 & q3 & -> & H2 & H3).
    destruct (ci_eq_cons_inv _ _ _ H2) as (c2 & q2' & E2 & Hc2 & _).
    destruct (ci_eq_cons_inv _ _ _ H3) as (c & q3' & E & Hc & _).
    rewrite <- !app_assoc, mt_seq. unfold Opt at 1. rewrite mt_alt_second.
    + rewrite mt_eps, mt_seq, (mt_lit_app _ _ _ _ _ _ H2), mt_seq.
      rewrite mt_alt_second.
      * rewrite (mt_lit_app _ _ _ _ _ _ H3). exact Hrest.
      * rewrite E. cbn [app].
        apply (mt_lit_mismatch _ _ "f" "or "); [reflexivity |].
        rewrite Hc. vm_compute. discriminate.
    + rewrite E2. cbn [app].
      apply (mt_lit_mismatch _ _ "s" "et a "); [reflexivity |].
      rewrite Hc2. vm_compute. discriminate.
  - apply (ci_eq_app_inv (chars "reminder ") (chars "for ")) in Hpre
      as (q2 & q3 & -> & H2 & H3).
    destruct (ci_eq_cons_inv _ _ _ H2) as (c2 & q2' & E2 & Hc2 & _).
    rewrite <- !app_assoc, mt_seq. unfold Opt at 1. rewrite mt_alt_second.
    + rewrite mt_eps, mt_seq, (mt_lit_app _ _ _ _ _ _ H2), mt_seq.
      apply mt_alt_first.
      rewrite (mt_lit_app _ _ _ _ _ _ H3). exact Hrest.
    + rewrite E2. cbn [app].
      apply (mt_lit_mismatch _ _ "s" "et a "); [reflexivity |].
      rewrite Hc2. vm_compute. discriminate.
Qed.

End MatchFacts.

(* ===================================================================== *)
(** * Commands, from the utterance to the store                           *)
(* ===================================================================== *)

Section EndToEnd.

Import TextFacts ReFacts MatchFacts.

Variable off : datetime -> Z.
Variable off_at_utc : datetime -> Z.
Variable parse : string -> datetime -> option datetime.
Variable weather : string -> string.
Variable feed : string -> option (list NewsClient.entry).

Local Open Scope py_scope.

Local Abbreviation handle := (handle off off_at_utc parse weather feed).

(** ** The commands that are a word *)

Lemma word_command_match (X : regex) (u : string) :
  X ∈ [QUIT_RE; HELP_RE; TIME_RE; DATE_RE] ->
  is_Some (match_ X (lower (strip u))) ->
  lower (strip u) ∈ WORD_COMMANDS.
Proof.
  intros HX.
  repeat (apply elem_of_cons in HX as [-> | HX]); [| | | | inversion HX].
  all: match goal with
       | |- is_Some (match_ ?X _) -> _ => unfold X
       end;
       rewrite match_anchored by reflexivity;
       intros (m & rest & Ht & Hm & Hrest);
       (destruct Hrest as [-> | (c & -> & Hc)];
        [| exfalso; exact (stripped_lower_last u m c Ht Hc)]);
       rewrite app_nil_r in Ht; subst m; cbn [lang] in Hm;
       repeat (destruct Hm as [Hm | Hm]);
       apply ci_eq_lowered in Hm; try reflexivity; rewrite Hm;
       apply (bool_decide_unpack _); vm_compute; reflexivity.
Qed.

Lemma not_word_command (u w0 : string) (p q : list ascii) :
  chars (strip u) = p ++ q -> ci_eq (chars w0) p ->
  starts_no_word w0 = true ->
  lower (strip u) ∉ WORD_COMMANDS.
Proof.
  intros Ht Hp Hno Hin.
  unfold starts_no_word in Hno. rewrite forallb_forall in Hno.
  specialize (Hno (lower (strip u)) (proj1 (list_elem_of_In _ _) Hin)).
  apply negb_true_iff, bool_decide_eq_false in Hno. apply Hno.
  assert (Hci : ci_eq (p ++ q) (chars (lower (strip u)))).
  { rewrite chars_lower, Ht. apply ci_eq_lower. }
  apply ci_eq_app_inv in Hci as (m1 & m2 & E & H1 & H2).
  exists m2. apply skip_lit_spec. exists m1.
  split; [exact E | exact (ci_eq_trans _ _ _ Hp H1)].
Qed.

(** ** Weather and news *)

Lemma search_weather_phrase (text : string) :
  is_Some (search WEATHER_RE text) ->
  Exists (fun ph => contains_ci ph text = true) WEATHER_PHRASES.
Proof.
  intros [res Hs].
  apply search_sound in Hs as (a & m & b & Ht & Hrun).
  apply run_lang in Hrun. revert Hrun.
  cbn [WEATHER_RE seqs foldr lang Plus].
  intros (m1 & r1 & -> & Hkw & m2 & r2 & -> & Hsp & m3 & r3 & -> & Hprep
          & m4 & r4 & -> & Hsp' & _).
  apply Exists_exists.
  assert (Hfound : forall kw prep : string,
    ci_eq (chars kw) m1 -> ci_eq (chars prep) m3 ->
    contains_ci (kw +:+ " " +:+ prep +:+ " ") text = true).
  { intros kw prep H1 H3. apply contains_ci_spec.
    exists a, (m1 ++ m2 ++ m3 ++ m4), (r4 ++ b).
    split; [rewrite Ht, <- !app_assoc; reflexivity |].
    rewrite !chars_app. repeat apply ci_eq_app; assumption. }
  destruct Hkw as [Hkw | Hkw]; destruct Hprep as [Hp | [Hp | Hp]];
    eexists; (split; [| exact (Hfound _ _ Hkw Hp)]);
    apply (bool_decide_unpack _); vm_compute; reflexivity.
Qed.

Lemma lacks_asks (text : string) :
  lacks ASKS text ->
  search WEATHER_RE text = None /\ search NEWS_RE text = None.
Proof.
  unfold lacks, ASKS. rewrite Forall_app. intros [Hw Hn]. split.
  - apply eq_None_not_Some. intros Hs.
    apply search_weather_phrase, Exists_exists in Hs as (ph & Hph & Hc).
    rewrite Forall_forall in Hw. rewrite (Hw ph Hph) in Hc. discriminate.
  - apply eq_None_not_Some. intros Hs.
    apply Forall_cons in Hn as [H1 Hn]. apply Forall_cons in Hn as [H2 _].
    apply search_news in Hs as [Hs | Hs]; congruence.
Qed.

(** Past the word commands, the weather and the news. *)
Lemma handle_after_words (u : string) (clock utcnow : datetime)
    (w : world) :
  strip u <> "" -> lower (strip u) ∉ WORD_COMMANDS ->
  lacks ASKS (strip u) ->
  handle u clock utcnow w
  = match search REMIND_IN_RE (strip u) with
    | Some m =>
        handle_remind_in off (group m "task") (group m "num")
          (group m "unit") clock utcnow
    | None =>
    match (match search REMIND_AT_RE (strip u) with
           | Some m => Some m
           | None => search REMIND_SIMPLE_RE (strip u)
           end) with
    | Some m =>
        handle_reminder_at off parse (strip (group m "task"))
          (strip (group m "time")) clock utcnow
    | None =>
    if bool_decide (is_Some (search LIST_REMS_RE (strip u)))
    then handle_list off off_at_utc
    else
      match search DELETE_REM_RE (strip u) with
      | Some m => handle_delete (group m "id")
      | None =>
          tts_say "I can help with weather, news, and reminders. Say 'help' to see examples." ;;
          ret true
      end
    end end w.
Proof.
  intros Hne Hnot Hlacks.
  destruct (lacks_asks _ Hlacks) as [Hw Hn].
  assert (Hword : forall X, X ∈ [QUIT_RE; HELP_RE; TIME_RE; DATE_RE] ->
                            ~ is_Some (match_ X (lower (strip u)))).
  { intros X HX Hm. apply Hnot. exact (word_command_match X u HX Hm). }
  assert (Hu : u <> "") by (intros ->; apply Hne; reflexivity).
  unfold Assistant.handle.
  rewrite (bool_decide_eq_false_2 _ Hu).
  rewrite !bool_decide_eq_false_2
    by (apply Hword;
        repeat first [apply list_elem_of_here | apply list_elem_of_further]).
  rewrite Hw, Hn. reflexivity.
Qed.

Lemma handle_after_asks (u w0 : string) (p q : list ascii)
    (clock utcnow : datetime) (w : world) :
  chars (strip u) = p ++ q -> ci_eq (chars w0) p ->
  starts_no_word w0 = true -> lacks ASKS (strip u) ->
  handle u clock utcnow w
  = match search REMIND_IN_RE (strip u) with
    | Some m =>
        handle_remind_in off (group m "task") (group m "num")
          (group m "unit") clock utcnow
    | None =>
    match (match search REMIND_AT_RE (strip u) with
           | Some m => Some m
           | None => search REMIND_SIMPLE_RE (strip u)
           end) with
    | Some m =>
        handle_reminder_at off parse (strip (group m "task"))
          (strip (group m "time")) clock utcnow
    | None =>
    if bool_decide (is_Some (search LIST_REMS_RE (strip u)))
    then handle_list off off_at_utc
    else
      match search DELETE_REM_RE (strip u) with
      | Some m => handle_delete (group m "id")
      | None =>
          tts_say "I can help with weather, news, and reminders. Say 'help' to see examples." ;;
          ret true
      end
    end end w.
Proof.
  intros Ht Hp Hno Hlacks.
  apply handle_after_words; [| exact (not_word_command u w0 p q Ht Hp Hno)
                             | exact Hlacks].
  intros E. rewrite E in Ht. destruct p as [| c p]; [| discriminate].
  apply ci_eq_length in Hp. destruct w0; [| discriminate].
  vm_compute in Hno. discriminate.
Qed.

(** X20.  "Remind me to <task> at <time>", from the utterance to the
    reminder branch.  When the stripped utterance is "remind me to ",
    a task, " at " and a time (letters in whatever case, no line feed),
    the time holds no further " at " and does not begin with "at ", and
    the utterance has none of the phrases that ask for the weather or the
    news nor " in " nor "reminder ", then [handle] is the reminder branch
    on the stripped task and the stripped time: what comes after the last
    " at " is what the time parser is given. *)
Theorem remind_me_at_end_to_end (u : string) (p T a X : list ascii)
    (clock utcnow : datetime) (w : world) :
  is_ascii u = true ->
  chars (strip u) = p ++ T ++ a ++ X ->
  ci_eq (chars "remind me to ") p -> ci_eq (chars " at ") a ->
  T <> [] -> X <> [] ->
  Forall (fun c => code c <> 10) (T ++ X) ->
  occurs_ci (chars " at ") (chars "at " ++ X) = false ->
  lacks (ASKS ++ [" in "; "reminder "]) (strip u) ->
  handle u clock utcnow w
  = handle_reminder_at off parse (strip (text_of T)) (strip (text_of X))
      clock utcnow w.
Proof.
  intros _ Ht Hp Ha HT HX Hnl Hlast Hlacks.
  unfold lacks in Hlacks. rewrite Forall_app in Hlacks.
  destruct Hlacks as [Hasks Hrest].
  apply Forall_cons in Hrest as [Hin Hrest].
  apply Forall_cons in Hrest as [Hrem _].
  rewrite (handle_after_asks u "remind me to " p (T ++ a ++ X) clock utcnow w
             Ht Hp eq_refl Hasks).
  assert (R1 : search REMIND_IN_RE (strip u) = None).
  { apply eq_None_not_Some. intros Hs.
    apply (search_requires " in ") in Hs; [congruence | reflexivity]. }
  assert (R2 : search REMIND_AT_RE (strip u) = None).
  { apply eq_None_not_Some. intros Hs.
    apply (search_requires "reminder ") in Hs; [congruence | reflexivity]. }
  rewrite R1, R2,
    (search_remind_simple (strip u) p T a X Ht Hp Ha HT HX Hnl Hlast).
  reflexivity.
Qed.

(** X21.  "Remind me to <task> in <n> minutes", from the utterance to
    the branch.  When the stripped utterance is "remind me to ", a task,
    " in ", digits, blanks if any, and "minute", "minutes", "hour" or
    "hours" (letters in whatever case), the task holds no " in " and does
    not end with " in", and the utterance has none of the phrases that
    ask for the weather or the news, then [handle] is the branch for
    [REMIND_IN_RE] on that task, those digits and that unit. *)
Theorem remind_me_in_end_to_end (u unit : string)
    (p T i N S U : list ascii) (clock utcnow : datetime) (w : world) :
  is_ascii u = true ->
  chars (strip u) = p ++ T ++ i ++ N ++ S ++ U ->
  ci_eq (chars "remind me to ") p -> ci_eq (chars " in ") i ->
  T <> [] -> Forall (fun c => code c <> 10) T ->
  occurs_ci (chars " in ") (T ++ chars " in") = false ->
  N <> [] -> Forall (fun c => class_test Digit c = true) N ->
  Forall (fun c => class_test Space c = true) S ->
  unit ∈ UNIT_WORDS -> ci_eq (chars unit) U ->
  lacks ASKS (strip u) ->
  handle u clock utcnow w
  = handle_remind_in off (text_of T) (text_of N) (text_of U) clock utcnow w.
Proof.
  intros _ Ht Hp Hi HT HnlT Hfirst HN HdN HsS Hunit HU Hasks.
  rewrite (handle_after_asks u "remind me to " p (T ++ i ++ N ++ S ++ U)
             clock utcnow w Ht Hp eq_refl Hasks).
  rewrite (search_remind_in (strip u) unit p T i N S U Ht Hp Hi HT HnlT
             Hfirst HN HdN HsS Hunit HU).
  reflexivity.
Qed.

Lemma delete_text_lacks (text kw ph : string) (K N : list ascii) :
  chars text = K ++ N -> kw ∈ DELETE_PHRASES -> ci_eq (chars kw) K ->
  Forall (fun c => class_test Digit c = true) N ->
  ph ∈ ASKS ++ ["remind me"; "reminder for "; "reminder at ";
                " reminders"] ->
  contains_ci ph text = false.
Proof.
  intros Ht Hkw HK HN Hph.
  destruct (contains_ci ph text) eqn:E; [exfalso | reflexivity].
  unfold contains_ci in E. rewrite Ht in E.
  assert (Hpre : occurs_ci (chars ph) (chars kw) = true).
  { apply (occurs_ci_ci_eq _ K); [apply ci_eq_sym; exact HK |].
    unfold ASKS, WEATHER_PHRASES in Hph. cbn [app] in Hph.
    repeat (apply elem_of_cons in Hph as [-> | Hph]);
      [.. | inversion Hph].
    all: eapply occurs_ci_digits_tail;
         [reflexivity | reflexivity | exact HN | exact E]. }
  unfold DELETE_PHRASES in Hkw.
  unfold ASKS, WEATHER_PHRASES in Hph. cbn [app] in Hph.
  repeat (apply elem_of_cons in Hkw as [-> | Hkw]); [.. | inversion Hkw].
  all: repeat (apply elem_of_cons in Hph as [-> | Hph]);
       [.. | inversion Hph].
  all: vm_compute in Hpre; discriminate.
Qed.

(** A deletion phrase and digits are the deletion branch. *)
Lemma handle_delete_phrase (u kw : string) (K N : list ascii)
    (clock utcnow : datetime) (w : world) :
  chars (strip u) = K ++ N ->
  kw ∈ DELETE_PHRASES -> ci_eq (chars kw) K ->
  N <> [] -> Forall (fun c => class_test Digit c = true) N ->
  handle u clock utcnow w = handle_delete (text_of N) w.
Proof.
  intros Ht Hkw HK HN HdN.
  pose proof (delete_text_lacks (strip u) kw) as Hno.
  specialize (fun ph => Hno ph K N Ht Hkw HK HdN).
  assert (Hasks : lacks ASKS (strip u)).
  { apply Forall_forall. intros ph Hph. apply Hno.
    apply elem_of_app. left. exact Hph. }
  assert (Hstart : starts_no_word kw = true).
  { unfold DELETE_PHRASES in Hkw.
    repeat (apply elem_of_cons in Hkw as [-> | Hkw]);
      [reflexivity | reflexivity | reflexivity | inversion Hkw]. }
  rewrite (handle_after_asks u kw K N clock utcnow w Ht HK Hstart Hasks).
  assert (Hmore : forall ph,
    ph ∈ ["remind me"; "reminder for "; "reminder at "; " reminders"] ->
    contains_ci ph (strip u) = false).
  { intros ph Hph. apply Hno. apply elem_of_app. right. exact Hph. }
  assert (R1 : search REMIND_IN_RE (strip u) = None).
  { apply eq_None_not_Some. intros Hs.
    apply (search_requires "remind me") in Hs; [| reflexivity].
    rewrite Hmore in Hs; [discriminate |].
    apply list_elem_of_here. }
  assert (R2 : search REMIND_AT_RE (strip u) = None).
  { apply eq_None_not_Some. intros [res Hs].
    apply search_sound in Hs as (a & m & b & Hchars & Hrun).
    apply run_lang, lang_remind_at in Hrun.
    destruct Hrun as [Hocc | Hocc];
      apply (occurs_ci_infix _ _ a b) in Hocc;
      rewrite <- Hchars in Hocc;
      [pose proof (Hmore "reminder for ") as Hf
      | pose proof (Hmore "reminder at ") as Hf];
      unfold contains_ci in Hf; rewrite Hf in Hocc;
      try discriminate;
      repeat first [apply list_elem_of_here | apply list_elem_of_further]. }
  assert (R3 : search REMIND_SIMPLE_RE (strip u) = None).
  { apply eq_None_not_Some. intros Hs.
    apply (search_requires "remind me") in Hs; [| reflexivity].
    rewrite Hmore in Hs; [discriminate |].
    apply list_elem_of_here. }
  assert (R4 : ~ is_Some (search LIST_REMS_RE (strip u))).
  { intros Hs.
    apply (search_requires " reminders") in Hs; [| reflexivity].
    rewrite Hmore in Hs; [discriminate |].
    repeat first [apply list_elem_of_here | apply list_elem_of_further]. }
  rewrite R1, R2, R3, (bool_decide_eq_false_2 _ R4),
    (search_delete (strip u) kw K N Ht Hkw HK HN HdN).
  reflexivity.
Qed.

(** X22.  "Delete reminder <n>", from the utterance to the branch.  When
    the stripped utterance is "delete reminder ", "remove reminder " or
    "cancel reminder " (letters in whatever case) and digits, [handle] is
    the deletion branch on those digits: no other command takes it. *)
Theorem delete_reminder_end_to_end (u kw : string) (K N : list ascii)
    (clock utcnow : datetime) (w : world) :
  is_ascii u = true ->
  chars (strip u) = K ++ N ->
  kw ∈ DELETE_PHRASES -> ci_eq (chars kw) K ->
  N <> [] -> Forall (fun c => class_test Digit c = true) N ->
  handle u clock utcnow w = handle_delete (text_of N) w.
Proof.
  intros _ Ht Hkw HK HN HdN.
  exact (handle_delete_phrase u kw K N clock utcnow w Ht Hkw HK HN HdN).
Qed.

(** X23.  "List reminders", from the utterance to the branch.  An
    utterance that holds "list reminders" or "show reminders", in
    whatever case, and none of the phrases that ask for the weather or
    the news, nor "remind me", "reminder for " or "reminder at ", is
    answered by the listing branch, whatever else it says. *)
Theorem list_reminders_end_to_end (u ph : string)
    (clock utcnow : datetime) (w : world) :
  is_ascii u = true ->
  ph ∈ ["list reminders"; "show reminders"] ->
  contains_ci ph (strip u) = true ->
  lacks (ASKS ++ ["remind me"; "reminder for "; "reminder at "]) (strip u) ->
  handle u clock utcnow w = handle_list off off_at_utc w.
Proof.
  intros _ Hph Hc Hlacks.
  unfold lacks in Hlacks. rewrite Forall_app in Hlacks.
  destruct Hlacks as [Hasks Hrest].
  apply Forall_cons in Hrest as [Hrm Hrest].
  apply Forall_cons in Hrest as [Hfor Hrest].
  apply Forall_cons in Hrest as [Hat _].
  assert (Hlen : (14 <= length (chars (strip u)))%nat).
  { apply occurs_ci_length in Hc.
    repeat (apply elem_of_cons in Hph as [-> | Hph]);
      [exact Hc | exact Hc | inversion Hph]. }
  rewrite handle_after_words; [| | | exact Hasks].
  - assert (R1 : search REMIND_IN_RE (strip u) = None).
    { apply eq_None_not_Some. intros Hs.
      apply (search_requires "remind me") in Hs; [congruence | reflexivity]. }
    assert (R2 : search REMIND_AT_RE (strip u) = None).
    { apply eq_None_not_Some. intros [res Hs].
      apply search_sound in Hs as (a & m & b & Hchars & Hrun).
      apply run_lang, lang_remind_at in Hrun.
      unfold contains_ci in Hfor, Hat.
      destruct Hrun as [Hocc | Hocc];
        apply (occurs_ci_infix _ _ a b) in Hocc;
        rewrite <- Hchars in Hocc; congruence. }
    assert (R3 : search REMIND_SIMPLE_RE (strip u) = None).
    { apply eq_None_not_Some. intros Hs.
      apply (search_requires "remind me") in Hs; [congruence | reflexivity]. }
    assert (R4 : is_Some (search LIST_REMS_RE (strip u))).
    { apply contains_ci_spec in Hc as (a & m & b & Hchars & Hm).
      apply (search_complete _ _ a m b); [reflexivity | exact Hchars |].
      cbn [LIST_REMS_RE seqs foldr lang].
      repeat (apply elem_of_cons in Hph as [-> | Hph]); [| | inversion Hph].
      - apply (ci_eq_app_inv (chars "list") (chars " reminders")) in Hm
          as (m1 & m2 & -> & H1 & H2).
        exists m1, m2. split; [reflexivity |]. split; [left; exact H1 |].
        exists m2, []. rewrite app_nil_r. auto.
      - apply (ci_eq_app_inv (chars "show") (chars " reminders")) in Hm
          as (m1 & m2 & -> & H1 & H2).
        exists m1, m2. split; [reflexivity |]. split; [right; exact H1 |].
        exists m2, []. rewrite app_nil_r. auto. }
    rewrite R1, R2, R3, (bool_decide_eq_true_2 _ R4). reflexivity.
  - intros E. rewrite E in Hlen. cbn in Hlen. lia.
  - intros Hin.
    assert (Hocc : occurs_ci (chars ph) (chars (lower (strip u))) = true).
    { apply (occurs_ci_ci_eq _ (chars (strip u))); [| exact Hc].
      rewrite chars_lower. apply ci_eq_lower. }
    unfold WORD_COMMANDS, QUIT_WORDS in Hin. cbn [app] in Hin.
    repeat (apply elem_of_cons in Hph as [-> | Hph]); [| | inversion Hph].
    all: repeat (apply elem_of_cons in Hin as [Hin | Hin];
                 [rewrite Hin in Hocc; vm_compute in Hocc; discriminate |]);
         inversion Hin.
Qed.

(** X24.  The order the help text gives is not understood.  An utterance
    that, stripped, begins with "remind me in " (as in "remind me in 10
    minutes to <task>") and has no " in " further on, no " at ", no
    "reminder " and no " reminders", nor a phrase that asks for the
    weather or the news, fits no pattern: [handle] says the hint and
    returns [True]; nothing is stored and nothing is armed. *)
Theorem remind_me_in_first_is_not_understood (u : string)
    (p rest : list ascii) (clock utcnow : datetime) (w : world) :
  is_ascii u = true ->
  chars (strip u) = p ++ rest ->
  ci_eq (chars "remind me in ") p ->
  occurs_ci (chars " in ") (chars "n " ++ rest) = false ->
  lacks (ASKS ++ [" at "; "reminder "; " reminders"]) (strip u) ->
  handle u clock utcnow w
  = (Returns true,
     says ["I can help with weather, news, and reminders. Say 'help' to see examples."] w).
Proof.
  intros _ Ht Hp Hfar Hlacks.
  unfold lacks in Hlacks. rewrite Forall_app in Hlacks.
  destruct Hlacks as [Hasks Hrest].
  apply Forall_cons in Hrest as [Hat Hrest].
  apply Forall_cons in Hrest as [Hrem Hrest].
  apply Forall_cons in Hrest as [Hrems _].
  rewrite (handle_after_asks u "remind me in " p rest clock utcnow w
             Ht Hp eq_refl Hasks).
  assert (R1 : search REMIND_IN_RE (strip u) = None).
  { apply eq_None_not_Some. intros [res Hs].
    apply search_sound in Hs as (a & m & b & Hchars & Hrun).
    apply run_lang, lang_remind_in_far in Hrun
      as (A & i & R & -> & HA & Hi).
    apply (ci_eq_app_inv (chars "remind me i") (chars "n ")) in Hp
      as (p11 & p2 & -> & Hp11 & Hp2).
    apply ci_eq_length in Hp11.
    assert (Hdrop : drop 11 (chars (strip u)) = p2 ++ rest).
    { rewrite Ht, <- app_assoc. rewrite drop_app_length'; [reflexivity |].
      rewrite <- Hp11. reflexivity. }
    rewrite Hchars in Hdrop.
    replace (a ++ (A ++ i ++ R) ++ b) with ((a ++ A) ++ i ++ R ++ b)
      in Hdrop by (rewrite <- !app_assoc; reflexivity).
    rewrite drop_app_le in Hdrop by (rewrite length_app; lia).
    assert (Hocc : occurs_ci (chars " in ") (p2 ++ rest) = true).
    { rewrite <- Hdrop. apply occurs_ci_spec.
      exists (drop 11 (a ++ A)), i, (R ++ b). auto. }
    apply (occurs_ci_ci_eq _ _ (chars "n " ++ rest)) in Hocc;
      [congruence |].
    apply ci_eq_app; [apply ci_eq_sym; exact Hp2 | apply ci_eq_refl]. }
  assert (R2 : search REMIND_AT_RE (strip u) = None).
  { apply eq_None_not_Some. intros Hs.
    apply (search_requires "reminder ") in Hs; [congruence | reflexivity]. }
  assert (R3 : search REMIND_SIMPLE_RE (strip u) = None).
  { apply eq_None_not_Some. intros Hs.
    apply (search_requires " at ") in Hs; [congruence | reflexivity]. }
  assert (R4 : ~ is_Some (search LIST_REMS_RE (strip u))).
  { intros Hs.
    apply (search_requires " reminders") in Hs; [congruence | reflexivity]. }
  assert (R5 : search DELETE_REM_RE (strip u) = None).
  { apply eq_None_not_Some. intros Hs.
    apply (search_requires "reminder ") in Hs; [congruence | reflexivity]. }
  rewrite R1, R2, R3, (bool_decide_eq_false_2 _ R4), R5. reflexivity.
Qed.

(** X25.  "Set a reminder at <time> to <task>", from the utterance to
    the reminder branch.  When the stripped utterance is "set a reminder
    at ", "set a reminder for ", "reminder at " or "reminder for ", a time
    without a blank, " am" or " pm" if any, " to " and a task (letters in
    whatever case, no line feed in the task), and the utterance has none
    of the phrases that ask for the weather or the news nor "remind me",
    then [handle] is the reminder branch on the stripped task and on the
    time with its " am" or " pm". *)
Theorem set_a_reminder_end_to_end (u ph mer : string)
    (pre X1 X2 sto T : list ascii) (clock utcnow : datetime) (w : world) :
  is_ascii u = true ->
  chars (strip u) = pre ++ X1 ++ X2 ++ sto ++ T ->
  ph ∈ REMINDER_AT_PHRASES -> ci_eq (chars ph) pre ->
  X1 <> [] -> Forall (fun c => code c <> 32) X1 ->
  mer ∈ MERIDIEMS -> ci_eq (chars mer) X2 ->
  ci_eq (chars " to ") sto ->
  T <> [] -> Forall (fun c => code c <> 10) T ->
  lacks (ASKS ++ ["remind me"]) (strip u) ->
  handle u clock utcnow w
  = handle_reminder_at off parse (strip (text_of T))
      (strip (text_of (X1 ++ X2))) clock utcnow w.
Proof.
  intros _ Ht Hph Hpre HX1 Hns Hmer HX2 Hsto HT HnlT Hlacks.
  unfold lacks in Hlacks. rewrite Forall_app in Hlacks.
  destruct Hlacks as [Hasks Hrest].
  apply Forall_cons in Hrest as [Hrm _].
  assert (Hstart : starts_no_word ph = true).
  { unfold REMINDER_AT_PHRASES in Hph.
    repeat (apply elem_of_cons in Hph as [-> | Hph]);
      [reflexivity | reflexivity | reflexivity | reflexivity
      | inversion Hph]. }
  rewrite (handle_after_asks u ph pre (X1 ++ X2 ++ sto ++ T) clock utcnow w
             Ht Hpre Hstart Hasks).
  assert (R1 : search REMIND_IN_RE (strip u) = None).
  { apply eq_None_not_Some. intros Hs.
    apply (search_requires "remind me") in Hs; [congruence | reflexivity]. }
  rewrite R1,
    (search_remind_at (strip u) ph mer pre X1 X2 sto T Ht Hph Hpre HX1 Hns
       Hmer HX2 Hsto HT HnlT).
  reflexivity.
Qed.

End EndToEnd.

(* ===================================================================== *)
(** * Numbers as they are read out and typed                              *)
(* ===================================================================== *)

Module NumberFacts.

Import TextFacts.

Lemma digits_value_uint_acc (l : Decimal.uint) :
  forall acc : positive,
    digits_value (Z.pos acc) (chars (NilEmpty.string_of_uint l))
    = Some (Z.pos (Pos.of_uint_acc l acc)).
Proof.
  induction l; intros acc;
    cbn [NilEmpty.string_of_uint chars String.list_ascii_of_string
         digits_value Pos.of_uint_acc];
    [reflexivity | ..].
  all: match goal with
       | |- context [digit_val ?c] =>
           change (digit_val c) with (Some (Z.of_N (N_of_ascii c) - 48))
       end;
       cbv beta iota;
       match goal with
       | |- digits_value ?v _ = Some (Z.pos (Pos.of_uint_acc _ ?a)) =>
           replace v with (Z.pos a) by (vm_compute (Z.of_N _); lia)
       end;
       apply IHl.
Qed.

Lemma digits_value_uint (d : Decimal.uint) :
  digits_value 0 (chars (NilEmpty.string_of_uint d))
  = Some (Z.of_N (Pos.of_uint d)).
Proof.
  induction d;
    cbn [NilEmpty.string_of_uint chars String.list_ascii_of_string
         digits_value Pos.of_uint];
    [reflexivity | exact IHd | ..].
  all: match goal with
       | |- context [digit_val ?c] =>
           change (digit_val c) with (Some (Z.of_N (N_of_ascii c) - 48))
       end;
       cbv beta iota;
       match goal with
       | |- digits_value ?v _ = Some (Z.of_N (N.pos (Pos.of_uint_acc _ ?a))) =>
           replace v with (Z.pos a) by (vm_compute; reflexivity)
       end;
       apply digits_value_uint_acc.
Qed.

Lemma uint_digits (d : Decimal.uint) :
  Forall (fun c => class_test Digit c = true)
    (chars (NilEmpty.string_of_uint d)).
Proof.
  induction d;
    cbn [NilEmpty.string_of_uint chars String.list_ascii_of_string];
    constructor; try reflexivity; exact IHd.
Qed.

(** The decimal form of a number that is not negative: digits, and one at
    least. *)
Lemma str_int_digits (n : Z) :
  0 <= n ->
  chars (str_int n) <> [] /\
  Forall (fun c => class_test Digit c = true) (chars (str_int n)).
Proof.
  intros Hn. unfold str_int. destruct n as [| p | p]; [| | lia].
  - split; [discriminate | repeat constructor].
  - cbn [Z.to_int NilEmpty.string_of_int]. split; [| apply uint_digits].
    pose proof (DecimalPos.Unsigned.to_uint_nonnil p) as Hnil.
    destruct (Pos.to_uint p); [contradiction | discriminate ..].
Qed.

(** It has no zero in front. *)
Lemma to_uint_head (p : positive) :
  forall l, Pos.to_uint p <> Decimal.D0 l.
Proof.
  intros l E.
  assert (Hnorm : Decimal.unorm (Pos.to_uint p) = Pos.to_uint p).
  { rewrite <- DecimalPos.Unsigned.to_of, DecimalPos.Unsigned.of_to.
    reflexivity. }
  rewrite E in Hnorm. rewrite DecimalFacts.unorm_D0 in Hnorm.
  destruct l as [| l | l | l | l | l | l | l | l | l | l];
    [exact (DecimalPos.Unsigned.to_uint_nonzero p E) | ..].
  all: match type of Hnorm with
       | Decimal.unorm ?u = _ =>
           pose proof (DecimalFacts.nb_digits_unorm u ltac:(discriminate))
             as Hlen
       end;
       rewrite Hnorm in Hlen; cbn in Hlen; lia.
Qed.

Lemma digits_value_ge_pow (l : list ascii) :
  forall acc v, 0 < acc -> digits_value acc l = Some v ->
                acc * 10 ^ Z.of_nat (length l) <= v.
Proof.
  induction l as [| c l IH]; intros acc v Hacc; cbn [digits_value length].
  - intros [= <-]. cbn. lia.
  - unfold digit_val.
    destruct ((48 <=? Z.of_N (N_of_ascii c)) && (Z.of_N (N_of_ascii c) <=? 57))
      eqn:E; [| discriminate].
    apply andb_true_iff in E as [E1 E2]. apply Z.leb_le in E1, E2.
    intros H. apply IH in H; [| lia].
    rewrite Nat2Z.inj_succ, Z.pow_succ_r by lia. nia.
Qed.

(** A number below 2^63 has nineteen digits at most. *)
Lemma str_int_length (n : Z) :
  0 <= n < 2 ^ 63 -> (length (chars (str_int n)) <= 19)%nat.
Proof.
  intros [Hn Hlt]. unfold str_int. destruct n as [| p | p]; [| | lia].
  - cbn. lia.
  - cbn [Z.to_int NilEmpty.string_of_int].
    pose proof (digits_value_uint (Pos.to_uint p)) as Hval.
    rewrite DecimalPos.Unsigned.of_to in Hval. cbn [Z.of_N] in Hval.
    pose proof (to_uint_head p) as Hhead.
    pose proof (DecimalPos.Unsigned.to_uint_nonnil p) as Hnil.
    destruct (Pos.to_uint p) as [| l | l | l | l | l | l | l | l | l | l];
      [contradiction | exfalso; exact (Hhead l eq_refl) | ..].
    all: cbn [NilEmpty.string_of_uint chars String.list_ascii_of_string
              digits_value length] in Hval |- *;
         match type of Hval with
         | context [digit_val ?c] =>
             change (digit_val c) with (Some (Z.of_N (N_of_ascii c) - 48))
               in Hval
         end;
         cbv beta iota in Hval;
         apply digits_value_ge_pow in Hval; [| vm_compute; reflexivity];
         match type of Hval with
         | _ * 10 ^ Z.of_nat ?len <= _ =>
             destruct (le_lt_dec len 18) as [Hok | Hbig]; [lia |];
             exfalso;
             assert (Hpow : 10 ^ 19 <= 10 ^ Z.of_nat len)
               by (apply Z.pow_le_mono_r; lia);
             assert (H63 : 2 ^ 63 < 10 ^ 19) by (vm_compute; reflexivity);
             match type of Hval with
             | ?a * _ <= _ =>
                 let v := eval vm_compute in a in change a with v in Hval
             end;
             nia
         end.
Qed.

(** [int] reads back what [str] wrote. *)
Lemma py_int_str_int (n : Z) :
  0 <= n < 2 ^ 63 -> py_int (str_int n) = Some n.
Proof.
  intros Hn. pose proof (str_int_length n Hn) as Hlen.
  destruct (str_int_digits n (proj1 Hn)) as [Hne _].
  unfold py_int. destruct (chars (str_int n)) as [| c l] eqn:E;
    [contradiction |].
  replace (Z.of_nat (length (c :: l)) <=? MAX_STR_DIGITS) with true
    by (symmetry; apply Z.leb_le; unfold MAX_STR_DIGITS; lia).
  rewrite <- E. unfold str_int. destruct n as [| p | p]; [reflexivity | | lia].
  cbn [Z.to_int NilEmpty.string_of_int].
  rewrite digits_value_uint, DecimalPos.Unsigned.of_to. reflexivity.
Qed.

(** ** Text that has nothing to strip *)

Lemma lstrip_ascii_head (a : ascii) (l : list ascii) :
  code a < 128 -> space1 (code a) = false -> lstrip (a :: l) = a :: l.
Proof.
  intros Ha Hs. unfold lstrip. cbn [skip_spaces]. rewrite Hs.
  assert (H2 : forall b, space2 (code a) b = false).
  { intros b. unfold space2. destruct (Z.eqb_spec (code a) 194); [lia |].
    reflexivity. }
  assert (H3 : forall b c, space3 (code a) b c = false).
  { intros b c. unfold space3.
    destruct (Z.eqb_spec (code a) 225); [lia |].
    destruct (Z.eqb_spec (code a) 226); [lia |].
    destruct (Z.eqb_spec (code a) 227); [lia |]. reflexivity. }
  destruct l as [| b [| c l]]; [reflexivity | |].
  - rewrite H2. reflexivity.
  - rewrite H2, H3. reflexivity.
Qed.

Lemma rstrip_ascii_last (l : list ascii) (a : ascii) :
  Forall (fun c => code c < 128) l ->
  code a < 128 -> space1 (code a) = false ->
  rstrip (l ++ [a]) = l ++ [a].
Proof.
  intros Hl Ha Hs. unfold rstrip. rewrite rev_app_distr. cbn [rev app].
  cbn [skip_spaces]. rewrite Hs.
  apply Forall_rev in Hl.
  destruct (rev l) as [| b [| c k]] eqn:E.
  - rewrite <- (rev_involutive l), E. reflexivity.
  - apply Forall_cons in Hl as [Hb _].
    assert (H2 : space2 (code b) (code a) = false).
    { unfold space2. destruct (Z.eqb_spec (code b) 194); [lia |].
      reflexivity. }
    rewrite H2. cbn [rev app].
    rewrite <- (rev_involutive l), E. reflexivity.
  - apply Forall_cons in Hl as [Hb Hl]. apply Forall_cons in Hl as [Hc _].
    assert (H2 : space2 (code b) (code a) = false).
    { unfold space2. destruct (Z.eqb_spec (code b) 194); [lia |].
      reflexivity. }
    assert (H3 : space3 (code c) (code b) (code a) = false).
    { unfold space3.
      destruct (Z.eqb_spec (code c) 225); [lia |].
      destruct (Z.eqb_spec (code c) 226); [lia |].
      destruct (Z.eqb_spec (code c) 227); [lia |]. reflexivity. }
    rewrite H2, H3.
    change (a :: b :: c :: k) with ([a] ++ b :: c :: k).
    rewrite <- E, rev_app_distr, rev_involutive. reflexivity.
Qed.

Lemma digit_is_ascii (c : ascii) :
  class_test Digit c = true -> code c < 128 /\ space1 (code c) = false.
Proof.
  cbn [class_test]. intros H. apply andb_true_iff in H as [H1 H2].
  apply Z.leb_le in H1, H2. split; [lia |]. unfold space1.
  repeat match goal with
         | |- context [?x <=? ?y] => destruct (Z.leb_spec x y)
         end; cbn; try lia; reflexivity.
Qed.

(** A deletion phrase and a number have nothing to strip. *)
Lemma strip_phrase_digits (kw : string) (N : list ascii) :
  kw ∈ DELETE_PHRASES -> N <> [] ->
  Forall (fun c => class_test Digit c = true) N ->
  chars (strip (kw +:+ text_of N)) = chars kw ++ N.
Proof.
  intros Hkw HN HdN. unfold strip.
  rewrite chars_text_of, MatchFacts.chars_app, chars_text_of.
  assert (Hascii : Forall (fun c => code c < 128) (chars kw ++ N)).
  { apply Forall_app. split.
    - unfold DELETE_PHRASES in Hkw.
      repeat (apply elem_of_cons in Hkw as [-> | Hkw]);
        [| | | inversion Hkw].
      all: repeat (apply Forall_cons; split; [reflexivity |]);
           apply Forall_nil_2.
    - apply (Forall_impl _ _ _ HdN). intros c Hc.
      apply digit_is_ascii in Hc. tauto. }
  assert (Hfront : lstrip (chars kw ++ N) = chars kw ++ N).
  { unfold DELETE_PHRASES in Hkw.
    repeat (apply elem_of_cons in Hkw as [-> | Hkw]);
      [| | | inversion Hkw].
    all: apply lstrip_ascii_head; [reflexivity | reflexivity]. }
  rewrite Hfront.
  destruct (exists_last HN) as (N' & d & ->).
  apply Forall_app in HdN as [_ Hd]. apply Forall_cons in Hd as [Hd _].
  destruct (digit_is_ascii d Hd) as [Hd1 Hd2].
  rewrite app_assoc. rewrite app_assoc in Hascii.
  apply Forall_app in Hascii as [Hfore _].
  apply rstrip_ascii_last; assumption.
Qed.

End NumberFacts.

Section ListedIds.

Import TextFacts ReFacts MatchFacts NumberFacts.

Variable off : datetime -> Z.
Variable off_at_utc : datetime -> Z.
Variable parse : string -> datetime -> option datetime.
Variable weather : string -> string.
Variable feed : string -> option (list NewsClient.entry).

Local Open Scope py_scope.

Local Abbreviation handle := (handle off off_at_utc parse weather feed).

(** X26.  The id the listing reads out can be typed back.  With storage
    working, "delete reminder ", "remove reminder " or "cancel reminder "
    followed by a number N from 0 up to 2^63 - 1 as [str] prints it is
    answered by "Deleted reminder N." when a row with that id is in the
    table, and the row is gone afterwards; when there is none, the answer
    is "I couldn't find reminder N." and the table is as before. *)
Theorem listed_id_can_be_typed_back (kw : string) (n : Z)
    (clock utcnow : datetime) (w : world) :
  quiet w -> kw ∈ DELETE_PHRASES -> 0 <= n < 2 ^ 63 ->
  exists (b : bool) (w1 : world),
    handle (kw +:+ str_int n) clock utcnow w
    = (Returns true,
       says [if b then "Deleted reminder " +:+ str_int n +:+ "."
             else "I couldn't find reminder " +:+ str_int n +:+ "."] w1) /\
    (b = true <-> exists r, r ∈ rows (conn w) /\ row_id r = n) /\
    (forall r, r ∈ rows (conn w1) -> row_id r <> n) /\
    (b = false -> conn w1 = conn w).
Proof.
  intros Hq Hkw Hn.
  destruct (str_int_digits n (proj1 Hn)) as [Hne Hdigits].
  set (N := chars (str_int n)) in *.
  assert (Htext : text_of N = str_int n) by apply text_of_chars.
  pose proof (strip_phrase_digits kw N Hkw Hne Hdigits) as Hstrip.
  rewrite Htext in Hstrip.
  rewrite (handle_delete_phrase off off_at_utc parse weather feed
             (kw +:+ str_int n) kw (chars kw) N clock utcnow w Hstrip Hkw
             (ci_eq_refl _) Hne Hdigits).
  rewrite Htext.
  destruct (handle_delete_run (str_int n) n w Hq (py_int_str_int n Hn)
              (proj2 Hn))
    as (b & w1 & _ & Hb & Hgone & Hsame & Hrun).
  exists b, w1. auto.
Qed.

End ListedIds.

(* ===================================================================== *)
(** * Worked instances                                                    *)
(* ===================================================================== *)

Module Instances.

Import Sample.

Local Abbreviation list_reminders := ReminderManager.list_reminders.

Ltac valid_now := unfold Valid; cbn; lia.

(** With now = 22:00 local, "21:00" has passed and resolves to tomorrow
    21:00, and "23:00" resolves to today 23:00. *)
Lemma parse_time_local_same_day_witness :
  parse_time_local ist clock_parse "21:00" clock
    = Some (mkdt 2025 3 10 21 0 0 0 (Some USER_TZ)) /\
  parse_time_local ist clock_parse "23:00" clock
    = Some (mkdt 2025 3 9 23 0 0 0 (Some USER_TZ)).
Proof.
  split.
  - destruct (proj2 (parse_time_local_same_day ist clock_parse "21:00" clock)
                (mkdt 2025 3 9 21 0 0 0 (Some USER_TZ)))
      as (r & Hr & _ & _ & _ & _ & Hroll & _);
      [reflexivity | left; reflexivity | valid_now | valid_now
      | repeat split | vm_compute; reflexivity |].
    rewrite Hr. f_equal. exact (proj1 (Hroll eq_refl)).
  - destruct (proj2 (parse_time_local_same_day ist clock_parse "23:00" clock)
                (mkdt 2025 3 9 23 0 0 0 (Some USER_TZ)))
      as (r & Hr & _ & _ & _ & _ & _ & Hkeep);
      [reflexivity | left; reflexivity | valid_now | valid_now
      | repeat split | vm_compute; reflexivity |].
    rewrite Hr. f_equal. exact (Hkeep eq_refl).
Defined.

(** Texts that are resolved to an instant that is not after "now".  At
    22:00 on 9 March 2025, "2020-01-01 10:00" carries its own date and
    resolves to 2 January 2020.  At 22:00 in Honolulu (08:00 UTC the next
    day), "07:00 UTC" is read on the local date, 9 March, and resolves to
    10 March 07:00 UTC, an hour before now.  At 01:59 on the night the
    clocks go forward in New York, "02:30" is today 02:30, after "now" as
    the program compares the two, on the wall clock, and is not rolled;
    yet the zone's offset has changed in between, and 02:30 converts to
    06:30 UTC while "now" is 06:59 UTC. *)
Lemma parse_time_local_can_stay_past :
  (parse_time_local ist clock_parse "2020-01-01 10:00" clock
     = Some (mkdt 2020 1 2 10 0 0 0 (Some USER_TZ)) /\
   datetime_gt ist (mkdt 2020 1 2 10 0 0 0 (Some USER_TZ))
     (replace_tzinfo clock (Some USER_TZ)) = Some false) /\
  (parse_time_local hst clock_parse "07:00 UTC" clock
     = Some (mkdt 2025 3 10 7 0 0 0 (Some UTC)) /\
   datetime_gt hst (mkdt 2025 3 10 7 0 0 0 (Some UTC))
     (replace_tzinfo clock (Some USER_TZ)) = Some false /\
   astimezone_UTC hst (replace_tzinfo clock (Some USER_TZ))
     = Some (mkdt 2025 3 10 8 0 0 0 (Some UTC))) /\
  (parse_time_local eastern clock_parse "02:30" (mkdt 2025 3 9 1 59 0 0 None)
     = Some (mkdt 2025 3 9 2 30 0 0 (Some USER_TZ)) /\
   astimezone_UTC eastern (mkdt 2025 3 9 2 30 0 0 (Some USER_TZ))
     = Some (mkdt 2025 3 9 6 30 0 0 (Some UTC)) /\
   astimezone_UTC eastern (mkdt 2025 3 9 1 59 0 0 (Some USER_TZ))
     = Some (mkdt 2025 3 9 6 59 0 0 (Some UTC))).
Proof. repeat split; vm_compute; reflexivity. Qed.

Ltac wf_rows_now :=
  repeat (apply Forall_cons; split; [split; vm_compute; reflexivity |]);
  apply Forall_nil_2.

Ltac ids_now :=
  split;
    [ apply (bool_decide_unpack _); vm_compute; reflexivity
    | cbn; repeat (apply Forall_cons; split; [cbn; lia |]); apply Forall_nil_2 ].

Ltac wf_db_now := split; [cbn; wf_rows_now | ids_now].

Ltac elem_now :=
  cbn; repeat first [apply list_elem_of_here | apply list_elem_of_further].

(** Recovery on a file with a past and a future row: the past row 1 is
    not armed, the future row 2 is. *)
Lemma recovery_arms_future_rows_only_witness :
  exists w',
    ReminderManager.__init__ ist utcnow at_startup = (Returns tt, w') /\
    jobs w' !! job_id 1 = None /\
    jobs w' !! job_id 2
    = Some (mkjob (mkdt 2025 3 10 10 0 0 500000 (Some UTC)) (2, "stretch")).
Proof.
  destruct (recovery_arms_future_rows_only ist utcnow at_startup)
    as (w' & Hinit & Hrows); [wf_db_now | reflexivity |].
  exists w'. split; [exact Hinit |]. split.
  - destruct (Hrows (mkrow 1 "call mom" "2025-03-08T10:00:00+00:00"
                       "2025-03-07T09:00:00+00:00"))
      as (d & Hd & _ & _ & Hpast); [elem_now |].
    vm_compute in Hd. injection Hd as <-.
    exact (proj1 (Hpast eq_refl)).
  - destruct (Hrows (mkrow 2 "stretch" "2025-03-10T10:00:00.500000+00:00"
                       "2025-03-07T09:05:00+00:00"))
      as (d & Hd & _ & Hfuture & _); [elem_now |].
    vm_compute in Hd. injection Hd as <-.
    exact (proj1 (Hfuture eq_refl)).
Defined.

(** Rows stored out of order come back in ascending order. *)
Lemma list_reminders_ascending_witness :
  exists l, list_reminders unordered = (Returns l, unordered) /\
            id <$> l = [2; 4; 1].
Proof.
  destruct (proj2 (list_reminders_ascending ist unordered [] ∅ [] [] []))
    as (l & sorted & Hlist & _ & Hl & _); [wf_db_now | reflexivity |].
  exists l. split; [exact Hlist |].
  pose proof (eq_trans (eq_sym Hlist) eq_refl) as E.
  vm_compute in E. injection E as ->. reflexivity.
Defined.

(** Deleting an id that is not in the table returns [False] and leaves
    the table alone; deleting row 2 returns [True] and leaves rows 1 and
    4, in table and file; an id below the 64-bit range raises. *)
Lemma delete_reminder_result_witness :
  (fst (ReminderManager.delete_reminder 7 unordered) = Returns false /\
   conn (snd (ReminderManager.delete_reminder 7 unordered)) = conn unordered) /\
  (exists w',
     ReminderManager.delete_reminder 2 unordered = (Returns true, w') /\
     row_id <$> rows (conn w') = [1; 4] /\ disk w' = conn w') /\
  ReminderManager.delete_reminder (- 2 ^ 63 - 1) unordered
  = (Raises OverflowError, unordered).
Proof.
  split; [| split].
  - destruct (proj2 (proj2 (delete_reminder_result 7 unordered) ltac:(lia))
                eq_refl)
      as (b & w' & Hdel & Hb & _ & _ & _ & _ & Hsame).
    assert (Hfalse : b = false).
    { destruct b; [| reflexivity]. exfalso.
      destruct (proj1 Hb eq_refl) as (r & Hr & Hid).
      cbn in Hr.
      repeat (apply elem_of_cons in Hr as [-> | Hr]; [cbn in Hid; lia |]).
      inversion Hr. }
    rewrite Hdel. cbn [fst snd]. subst b.
    split; [reflexivity | exact (proj1 (Hsame eq_refl))].
  - destruct (proj2 (proj2 (delete_reminder_result 2 unordered) ltac:(lia))
                eq_refl)
      as (b & w' & Hdel & Hb & Hrows & _ & Hdisk & _).
    assert (Htrue : b = true).
    { apply (proj2 Hb).
      exists (mkrow 2 "a" "2025-03-10T10:00:00+00:00"
                "2025-03-07T09:01:00+00:00").
      split; [elem_now | reflexivity]. }
    subst b. exists w'. split; [exact Hdel |].
    split; [rewrite Hrows; vm_compute; reflexivity | exact Hdisk].
  - apply (proj1 (delete_reminder_result (- 2 ^ 63 - 1) unordered)). lia.
Defined.

(** An id that is in no table and that SQLite cannot hold: the call does
    not return [False], it raises.  The command layer passes such an id
    on when it is typed. *)
Lemma delete_reminder_beyond_int64 :
  quiet unordered /\
  (forall r, r ∈ rows (conn unordered) -> row_id r <> 2 ^ 63) /\
  ReminderManager.delete_reminder (2 ^ 63) unordered
  = (Raises OverflowError, unordered) /\
  Assistant.handle_delete "9223372036854775808" unordered
  = (Raises OverflowError, unordered).
Proof.
  split; [reflexivity |]. split.
  - intros r Hr. cbn in Hr.
    repeat (apply elem_of_cons in Hr as [-> | Hr]; [cbn; lia |]).
    inversion Hr.
  - split; vm_compute; reflexivity.
Qed.

(** The first reminder of a fresh store gets id 1 and is the one entry of
    the listing. *)
Lemma add_then_list_round_trip_witness :
  exists r w1,
    ReminderManager.add_reminder ist "drink water" tonight utcnow fresh
      = (Returns r, w1) /\
    0 < id r /\
    when_utc r = mkdt 2025 3 9 17 45 0 0 (Some UTC) /\
    exists l, list_reminders w1 = (Returns l, w1) /\
              filter (fun x => text x = "drink water") l = [r].
Proof.
  destruct (add_then_list_round_trip ist "drink water" tonight utcnow
              (mkdt 2025 3 9 17 45 0 0 (Some UTC)) fresh)
    as (r & w1 & l & Hadd & Hpos & _ & Hwhen & Hlist & _ & Htext & _);
    [wf_db_now | reflexivity | valid_now | valid_now | reflexivity |].
  exists r, w1. repeat split; try assumption.
  exists l. split; [exact Hlist |]. apply Htext.
  intros x Hx. inversion Hx.
Defined.

(** Adding the same text for the same time twice: the listing then holds
    two entries with that text and that instant, not one. *)
Lemma add_same_text_twice_lists_two :
  exists r1 w1 r2 w2 l,
    ReminderManager.add_reminder ist "drink water" tonight utcnow fresh
      = (Returns r1, w1) /\
    ReminderManager.add_reminder ist "drink water" tonight utcnow w1
      = (Returns r2, w2) /\
    list_reminders w2 = (Returns l, w2) /\
    length (filter (fun x => text x = "drink water") l) = 2%nat /\
    length (filter (fun x => text x = "drink water" /\
                             when_utc x = when_utc r2) l) = 2%nat.
Proof.
  do 5 eexists. split; [vm_compute; reflexivity |].
  split; [vm_compute; reflexivity |].
  split; [vm_compute; reflexivity |].
  split; vm_compute; reflexivity.
Qed.

(** "tomorrow 8am" is refused: nothing but the apology happens. *)
Lemma unrecognized_time_creates_nothing_witness :
  (parse_time_local ist clock_parse "tomorrow 8am" clock = None /\
   handle_reminder_at ist clock_parse "stretch" "tomorrow 8am" clock utcnow
     unordered
   = (Returns true,
      says ["Sorry, I couldn't understand the time."] unordered)) /\
  exists when,
    parse_time_local ist clock_parse "21:00" clock = Some when /\
    (when = mkdt 2025 3 9 21 0 0 0 (Some USER_TZ) \/
     when = mkdt 2025 3 10 21 0 0 0 (Some USER_TZ)) /\
    handle_reminder_at ist clock_parse "stretch" "21:00" clock utcnow
      unordered
    = (r <- ReminderManager.add_reminder ist "stretch" when utcnow ;;
       tts_say ("Reminder set for " +:+ strftime_I_M_p when +:+ " to "
                +:+ "stretch" +:+ ".") ;;
       ret true) unordered.
Proof.
  split.
  - destruct (unrecognized_time_creates_nothing ist clock_parse "stretch"
                "tomorrow 8am" clock utcnow unordered)
      as (Hparse & Hhandle & _).
    split; [exact (Hparse eq_refl) | exact (Hhandle (Hparse eq_refl))].
  - destruct (unrecognized_time_creates_nothing ist clock_parse "stretch"
                "21:00" clock utcnow unordered) as (_ & _ & Hok).
    apply (Hok (mkdt 2025 3 9 21 0 0 0 (Some USER_TZ)));
      [reflexivity | valid_now | vm_compute; reflexivity].
Defined.

(** A text that spells no time at all is resolved all the same.  At
    22:00 on 9 March, "5" is read as the 5th of the month at the time of
    day of "now", rolled to the 6th, and a reminder is stored and armed
    for it, three days in the past. *)
Lemma lone_number_is_resolved :
  day_parse "5" (replace_tzinfo clock (Some USER_TZ))
  = Some (mkdt 2025 3 5 22 0 0 0 (Some USER_TZ)) /\
  parse_time_local ist day_parse "5" clock
  = Some (mkdt 2025 3 6 22 0 0 0 (Some USER_TZ)) /\
  exists w',
    handle_reminder_at ist day_parse "call mom" "5" clock utcnow fresh
    = (Returns true, w') /\
    rows (conn w')
    = [mkrow 1 "call mom" "2025-03-06T16:30:00+00:00"
         "2025-03-09T16:30:00+00:00"] /\
    disk w' = conn w' /\
    jobs w' !! job_id 1
    = Some (mkjob (mkdt 2025 3 6 16 30 0 0 (Some UTC)) (1, "call mom")) /\
    spoken w' = ["Reminder set for 10:00 PM to call mom."].
Proof.
  split; [vm_compute; reflexivity |]. split; [vm_compute; reflexivity |].
  eexists. split; [vm_compute; reflexivity |].
  repeat split.
Qed.

(** Ids handed out along a history with a failing INSERT, a deletion and a
    restart. *)
Lemma reminder_ids_never_reused_witness :
  added_ids (fst (run_calls ist history flaky)) = [1; 2; 3] /\
  StronglySorted Z.lt (added_ids (fst (run_calls ist history flaky))).
Proof.
  destruct (reminder_ids_never_reused ist history flaky)
    as (_ & Hsorted & _).
  - split; [ids_now | split; [ids_now | cbn; lia]].
  - split; [vm_compute; reflexivity | exact Hsorted].
Defined.

(** A naive 23:15 is read in the process zone: the reminder that comes
    back is for 17:45 UTC, created at 16:30 UTC.  The three rows of a
    table are listed as three reminders in UTC. *)
Lemma reminders_are_utc_witness :
  (exists r w',
     ReminderManager.add_reminder ist "stretch" tonight utcnow fresh
     = (Returns r, w') /\
     when_utc r = mkdt 2025 3 9 17 45 0 0 (Some UTC) /\
     created_utc r = mkdt 2025 3 9 16 30 0 0 (Some UTC)) /\
  (exists l,
     ReminderManager.list_reminders unordered = (Returns l, unordered) /\
     length l = 3%nat /\
     Forall (fun r => tzinfo_of (when_utc r) = Some UTC /\
                      tzinfo_of (created_utc r) = Some UTC) l).
Proof.
  split.
  - destruct (reminders_are_utc ist "stretch" tonight utcnow fresh)
      as (_ & Hadd & _).
    destruct (Hadd (mkdt 2025 3 9 17 45 0 0 (Some UTC)) eq_refl eq_refl)
      as (r & w' & Hr & Hwhen & _ & Hcreated & _).
    exists r, w'. split; [exact Hr |]. split; [exact Hwhen | exact Hcreated].
  - destruct (reminders_are_utc ist "stretch" tonight utcnow unordered)
      as (_ & _ & _ & Hlist & _).
    apply Hlist; [wf_db_now | reflexivity].
Defined.

(** A failing COMMIT leaves the row pending and no job; with storage
    working the table is committed first and the job armed after it; a
    local time in the first hours of year 1 has no UTC date and nothing
    is written. *)
Lemma add_reminder_durable_before_armed_witness :
  (exists w',
     ReminderManager.add_reminder ist "call mom" tonight utcnow
       (with_faults fresh [false; true])
     = (Raises sqlite3_Error, w') /\
     length (rows (conn w')) = 1%nat /\ rows (disk w') = [] /\
     jobs w' = ∅ /\ journal w' = []) /\
  (exists r w' db j,
     ReminderManager.add_reminder ist "call mom" tonight utcnow fresh
     = (Returns r, w') /\
     journal w' = [Committed db; Armed "reminder_1" j] /\
     rows db = [mkrow 1 "call mom" "2025-03-09T17:45:00+00:00"
                  "2025-03-09T16:30:00+00:00"] /\
     j = mkjob (mkdt 2025 3 9 17 45 0 0 (Some UTC)) (1, "call mom")) /\
  ReminderManager.add_reminder ist "call mom" Dialogue.dawn utcnow fresh
  = (Raises OverflowError, fresh).
Proof.
  pose proof (add_reminder_durable_before_armed ist "call mom" tonight utcnow)
    as Hadd.
  split; [| split].
  - destruct (proj2 (Hadd (with_faults fresh [false; true]))
                (mkdt 2025 3 9 17 45 0 0 (Some UTC)) eq_refl)
      as (_ & Hcommit & _).
    destruct (Hcommit [] eq_refl) as (w' & Hrun & Hconn & Hdisk & Hjobs & Hj).
    exists w'. split; [exact Hrun |].
    rewrite Hconn, Hdisk, Hjobs, Hj. repeat split.
  - destruct (proj2 (Hadd fresh) (mkdt 2025 3 9 17 45 0 0 (Some UTC)) eq_refl)
      as (_ & _ & Hboth).
    destruct (Hboth ltac:(constructor))
      as (w' & Hrun & _ & _ & _ & _ & Hj).
    eexists _, w', _, _. split; [exact Hrun |].
    split; [exact Hj |]. split; reflexivity.
  - apply (proj1 (add_reminder_durable_before_armed ist "call mom"
                    Dialogue.dawn utcnow fresh)).
    vm_compute. reflexivity.
Defined.

(** ** The life cycle of a reminder *)

Import Dialogue.

(** Adding "call mom" to a fresh store and deleting it by its id leaves an
    empty table, in step with the file, and no job. *)
Lemma add_then_delete_restores_witness :
  exists r w1 w2,
    ReminderManager.add_reminder ist "call mom" tonight utcnow fresh
      = (Returns r, w1) /\
    ReminderManager.delete_reminder (id r) w1 = (Returns true, w2) /\
    rows (conn w2) = [] /\ disk w2 = conn w2 /\ jobs w2 = ∅.
Proof.
  destruct (add_then_delete_restores ist "call mom" tonight utcnow
              (mkdt 2025 3 9 17 45 0 0 (Some UTC)) fresh)
    as (r & w1 & w2 & Hadd & Hdel & Hrows & Hdisk & _ & _ & Hjobs & _);
    [reflexivity | vm_compute; reflexivity | reflexivity |].
  exists r, w1, w2.
  split; [exact Hadd |]. split; [exact Hdel |]. split; [exact Hrows |].
  split; [exact Hdisk |]. apply Hjobs. apply lookup_empty.
Defined.

(** Row 2 is deleted once; the second call finds nothing. *)
Lemma delete_reminder_twice_witness :
  exists w1 w2,
    ReminderManager.delete_reminder 2 unordered = (Returns true, w1) /\
    ReminderManager.delete_reminder 2 w1 = (Returns false, w2) /\
    conn w2 = conn w1 /\ disk w2 = disk w1 /\ jobs w2 = jobs w1.
Proof.
  destruct (delete_reminder_twice 2 unordered)
    as (b & w1 & w2 & Hdel & Hagain & Hc & Hd & Hj & _);
    [lia | reflexivity |].
  assert (Hb : b = true).
  { pose proof (eq_trans (eq_sym Hdel) eq_refl) as E.
    vm_compute in E. congruence. }
  subst b. exists w1, w2. repeat split; assumption.
Defined.

(** A fourth reminder joins the three of the table. *)
Lemma add_reminder_keeps_others_witness :
  exists r w1 l0 l1,
    list_reminders unordered = (Returns l0, unordered) /\
    ReminderManager.add_reminder ist "water plants" tonight utcnow unordered
      = (Returns r, w1) /\
    list_reminders w1 = (Returns l1, w1) /\
    l1 ≡ₚ r :: l0 /\
    length l1 = S (length l0) /\
    (forall x, x ∈ l0 -> x ∈ l1 /\ id x < id r).
Proof.
  apply (add_reminder_keeps_others ist "water plants" tonight utcnow
           (mkdt 2025 3 9 17 45 0 0 (Some UTC)) unordered);
    [wf_db_now | reflexivity | valid_now | valid_now | reflexivity].
Defined.

(** Deleting row 2 of three leaves the two others. *)
Lemma delete_reminder_removes_one_witness :
  exists l0 w1 l1,
    list_reminders unordered = (Returns l0, unordered) /\
    ReminderManager.delete_reminder 2 unordered = (Returns true, w1) /\
    list_reminders w1 = (Returns l1, w1) /\
    l1 ≡ₚ filter (fun x => id x ≠ 2) l0 /\
    length l0 = S (length l1).
Proof.
  destruct (delete_reminder_removes_one ist 2 unordered)
    as (l0 & b & w1 & l1 & Hl0 & Hdel & Hl1 & Hperm & Htrue & _);
    [lia | wf_db_now | reflexivity |].
  assert (Hb : b = true).
  { pose proof (eq_trans (eq_sym Hdel) eq_refl) as E.
    vm_compute in E. congruence. }
  subst b. exists l0, w1, l1.
  split; [exact Hl0 |]. split; [exact Hdel |]. split; [exact Hl1 |].
  split; [exact Hperm | exact (Htrue eq_refl)].
Defined.

(** A start on the file of two rows arms row 2 with its instant and its
    text; firing the job speaks the text. *)
Lemma recovery_restores_jobs_witness :
  exists w',
    ReminderManager.__init__ ist utcnow at_startup = (Returns tt, w') /\
    jobs w' !! job_id 2
      = Some (mkjob (mkdt 2025 3 10 10 0 0 500000 (Some UTC))
                (2, "stretch")) /\
    spoken (snd (scheduler_fire (job_id 2) w')) = ["Reminder: stretch"].
Proof.
  destruct (recovery_restores_jobs ist utcnow at_startup)
    as (w' & Hinit & Hdue & _); [wf_db_now | reflexivity |].
  exists w'. split; [exact Hinit |].
  apply (Hdue (mkrow 2 "stretch" "2025-03-10T10:00:00.500000+00:00"
                 "2025-03-07T09:05:00+00:00"));
    [elem_now | reflexivity | reflexivity].
Defined.

(** A reminder for 23:15 is armed again by a restart at 22:15. *)
Lemma reminder_survives_restart_witness :
  exists r w1 w2,
    ReminderManager.add_reminder ist "call mom" tonight utcnow fresh
      = (Returns r, w1) /\
    ReminderManager.__init__ ist later w1 = (Returns tt, w2) /\
    jobs w2 !! job_id (id r)
      = Some (mkjob (mkdt 2025 3 9 17 45 0 0 (Some UTC)) (id r, "call mom")).
Proof.
  destruct (reminder_survives_restart ist "call mom" tonight utcnow later
              (mkdt 2025 3 9 17 45 0 0 (Some UTC)) fresh)
    as (r & w1 & w2 & Hadd & Hinit & _ & _ & _ & Hdue & _);
    [wf_db_now | reflexivity | valid_now | valid_now | reflexivity |].
  exists r, w1, w2. split; [exact Hadd |]. split; [exact Hinit |].
  exact (proj1 (Hdue eq_refl)).
Defined.


(** "soon" is refused by the parser and gives [None]; "21:00" resolves to
    a zone-aware datetime. *)
Lemma parse_time_local_gives_up_only_witness :
  parse_time_local ist clock_parse "soon" clock = None /\
  exists r, parse_time_local ist clock_parse "21:00" clock = Some r /\
            tzinfo_of r <> None /\ Valid r.
Proof.
  split.
  - apply (proj1 (parse_time_local_gives_up_only ist clock_parse "soon"
                    clock ltac:(intros dt H; vm_compute in H; discriminate))).
    left. reflexivity.
  - destruct (parse_time_local ist clock_parse "21:00" clock) as [r |] eqn:E;
      [| vm_compute in E; discriminate].
    exists r. split; [reflexivity |].
    destruct (proj2 (parse_time_local_gives_up_only ist clock_parse "21:00"
                       clock
                       ltac:(intros dt H; vm_compute in H;
                             injection H as <-; valid_now)) r E)
      as (dt & _ & Htz & Hv & _).
    split; [exact Htz | exact Hv].
Defined.

(** ** The command layer *)

(** "read the news" touches no reminder. *)
Lemma handle_without_remind_witness :
  exists b said,
    said <> [] /\
    handle ist ist clock_parse weather feed "read the news" clock utcnow
      unordered
    = (Returns b, says said unordered).
Proof.
  apply (handle_without_remind ist ist clock_parse weather feed
           "read the news" clock utcnow unordered);
    vm_compute; reflexivity.
Defined.

(** A reminder whose task mentions the news is answered with headlines:
    nothing is stored. *)
Lemma weather_and_news_come_first_witness :
  exists said,
    said <> [] /\
    handle ist ist clock_parse weather feed
      "remind me to read the news at 5 pm" clock utcnow fresh
    = (Returns true, says said fresh).
Proof.
  apply (weather_and_news_come_first ist ist clock_parse weather feed
           "remind me to read the news at 5 pm" clock utcnow fresh).
  - reflexivity.
  - repeat (apply Forall_cons; split; [vm_compute; discriminate |]).
    apply Forall_nil_2.
  - left. vm_compute. reflexivity.
Defined.

(** "technology headlines" is no news command: nothing follows the
    keyword, and the feed is not consulted. *)
Lemma news_takes_a_following_word_witness :
  ~ is_Some (search NEWS_RE (strip "technology headlines")) /\
  handle ist ist clock_parse weather feed "technology headlines" clock
    utcnow fresh
  = handle ist ist clock_parse weather (fun _ => None)
      "technology headlines" clock utcnow fresh.
Proof.
  destruct (news_takes_a_following_word ist ist clock_parse weather feed
              (fun _ => None) "technology headlines" clock utcnow fresh
              eq_refl) as [Hiff Hsame].
  split.
  - intros Hs. apply Hiff in Hs as [Hs | Hs]; vm_compute in Hs;
      discriminate.
  - apply Hsame; vm_compute; reflexivity.
Defined.

(** " Quit" ends the session. *)
Lemma handle_stops_on_quit_only_witness :
  handle ist ist clock_parse weather feed " Quit" clock utcnow unordered
  = (Returns false, says ["Goodbye!"] unordered).
Proof.
  apply (proj2 (handle_stops_on_quit_only ist ist clock_parse weather feed
                  " Quit" clock utcnow unordered eq_refl)).
  - discriminate.
  - apply (bool_decide_unpack _). vm_compute. reflexivity.
Defined.

(** "list reminders" is answered aloud. *)
Lemma handle_always_answers_witness :
  exists said,
    said <> [] /\
    spoken (snd (handle ist ist clock_parse weather feed "list reminders"
                   clock utcnow unordered))
    = spoken unordered ++ said.
Proof.
  apply (handle_always_answers ist ist clock_parse weather feed
           "list reminders" clock utcnow unordered
           (snd (handle ist ist clock_parse weather feed "list reminders"
                   clock utcnow unordered)) true);
    vm_compute; reflexivity.
Defined.

(** At 22:00, "in 10 Minutes" arms a job for 16:40 UTC and announces
    10:10 PM. *)
Lemma remind_in_counts_on_the_wall_clock_witness :
  exists w1,
    handle_remind_in ist " drink water" "10" "Minutes" clock utcnow fresh
    = (Returns true,
       says ["Okay, I'll remind you at 10:10 PM to drink water."] w1) /\
    jobs w1 !! job_id 1
    = Some (mkjob (mkdt 2025 3 9 16 40 0 0 (Some UTC)) (1, "drink water")).
Proof.
  destruct (proj1 (remind_in_counts_on_the_wall_clock ist " drink water"
                     "10" "Minutes" 10 clock utcnow fresh
                     ltac:(valid_now) eq_refl eq_refl))
    as (when & Hadd & _ & _ & _ & Hrest); [reflexivity |].
  vm_compute in Hadd. injection Hadd as <-.
  destruct Hrest as (r & w1 & Hrun & Hhandle & _ & _ & Hjob & _);
    [vm_compute; split; [discriminate | reflexivity] |].
  exists w1. split; [exact Hhandle |].
  pose proof (eq_trans (eq_sym Hrun) eq_refl) as E.
  vm_compute in E. injection E as Hw Hr. subst r. exact Hjob.
Defined.

(** "02" deletes row 2; a number of twenty digits is refused by the
    database binding. *)
Lemma delete_command_reports_witness :
  (exists w1,
     handle_delete "02" unordered
     = (Returns true, says ["Deleted reminder 2."] w1) /\
     forall r, r ∈ rows (conn w1) -> row_id r <> 2) /\
  handle_delete "18446744073709551616" unordered
  = (Raises OverflowError, unordered).
Proof.
  split.
  - destruct (proj1 (delete_command_reports "02" 2 unordered eq_refl
                       eq_refl))
      as (b & w1 & _ & Hb & Hgone & _ & Hhandle); [reflexivity |].
    assert (Htrue : b = true).
    { apply Hb.
      exists (mkrow 2 "a" "2025-03-10T10:00:00+00:00"
                "2025-03-07T09:01:00+00:00").
      split; [elem_now | reflexivity]. }
    subst b. exists w1. split; [exact Hhandle | exact Hgone].
  - apply (proj2 (delete_command_reports "18446744073709551616"
                    18446744073709551616 unordered eq_refl eq_refl)).
    vm_compute. discriminate.
Defined.

(** The three reminders of the table are read out under the heading. *)
Lemma list_command_reads_in_order_witness :
  exists lines,
    handle_list ist ist unordered
    = (Returns true, says ("Here are your reminders:" :: lines) unordered) /\
    length lines = 3%nat.
Proof.
  destruct (list_command_reads_in_order ist ist unordered)
    as (l & Hlist & _ & _ & Hsome); [wf_db_now | reflexivity |].
  pose proof (eq_trans (eq_sym Hlist) eq_refl) as E.
  vm_compute in E. injection E as ->.
  destruct Hsome as (lines & Hrun & Hlines).
  - discriminate.
  - repeat (apply Forall_cons; split;
            [vm_compute; split; [discriminate | reflexivity] |]).
    apply Forall_nil_2.
  - exists lines. split; [exact Hrun |].
    apply Forall2_length in Hlines. symmetry. exact Hlines.
Defined.

(** A session of three lines: the time is told, " Quit" ends it, and
    "list reminders" is never read. *)
Lemma loop_text_reads_up_to_quit_witness :
  loop_text ist ist clock_parse weather feed typed unordered
  = (Returns tt,
     says ["Text mode: type your command. Type 'help' for examples, 'quit' to exit.";
           "It's 10:00 PM"; "Goodbye!"] unordered).
Proof.
  apply (proj1 (loop_text_reads_up_to_quit ist ist clock_parse weather feed
                  [("time", clock, utcnow)]
                  [("list reminders", clock, utcnow)]
                  " Quit" clock utcnow unordered
                  (says ["Text mode: type your command. Type 'help' for examples, 'quit' to exit.";
                         "It's 10:00 PM"] unordered)
                  ltac:(repeat constructor)
                  ltac:(repeat constructor; vm_compute;
                        intros H; repeat (apply elem_of_cons in H as [H | H];
                                          [discriminate |]);
                        inversion H))).
  - apply (bool_decide_unpack _). vm_compute. reflexivity.
  - vm_compute. reflexivity.
Defined.

(** The source of the second sample entry is read off its title, after
    the last " - ". *)
Lemma headline_splits_at_last_dash_witness :
  NewsClient.headline
    (NewsClient.mkentry (Some " Rates held - for now - Reuters ") None)
  = "Rates held - for now — Reuters".
Proof.
  destruct (headline_splits_at_last_dash
              (NewsClient.mkentry (Some " Rates held - for now - Reuters ")
                 None)) as [_ Hsplit].
  destruct (Hsplit eq_refl) as [Hcut _].
  apply (Hcut (chars "Rates held - for now") (chars "Reuters")).
  - reflexivity.
  - exact (proj2 (StripFacts.rsplit1_last (chars " - ")
                    (chars "Rates held - for now - Reuters")
                    ltac:(discriminate))).
Defined.

(** ** From the utterance to the branch *)

Ltac lacks_now := apply (bool_decide_unpack _); vm_compute; reflexivity.

Ltac chars_now :=
  repeat (apply Forall_cons; split; [vm_compute; first [discriminate | reflexivity] |]);
  apply Forall_nil_2.

(** "Remind me to call mom at 21:00" is a reminder for "call mom" at
    "21:00". *)
Lemma remind_me_at_end_to_end_witness :
  handle ist ist clock_parse weather feed "Remind me to call mom at 21:00"
    clock utcnow fresh
  = handle_reminder_at ist clock_parse "call mom" "21:00" clock utcnow fresh.
Proof.
  apply (remind_me_at_end_to_end ist ist clock_parse weather feed
           "Remind me to call mom at 21:00"
           (chars "Remind me to ") (chars "call mom") (chars " at ")
           (chars "21:00") clock utcnow fresh);
    [reflexivity | reflexivity | reflexivity | reflexivity
    | discriminate | discriminate | chars_now | reflexivity | lacks_now].
Defined.

(** "remind me to stretch in 10 Minutes" is a reminder for "stretch" in
    "10" "Minutes". *)
Lemma remind_me_in_end_to_end_witness :
  handle ist ist clock_parse weather feed
    "remind me to stretch in 10 Minutes" clock utcnow fresh
  = handle_remind_in ist "stretch" "10" "Minutes" clock utcnow fresh.
Proof.
  apply (remind_me_in_end_to_end ist ist clock_parse weather feed
           "remind me to stretch in 10 Minutes" "minutes"
           (chars "remind me to ") (chars "stretch") (chars " in ")
           (chars "10") (chars " ") (chars "Minutes") clock utcnow fresh);
    [reflexivity | reflexivity | reflexivity | reflexivity
    | discriminate | chars_now | reflexivity | discriminate | chars_now
    | chars_now | lacks_now | reflexivity | lacks_now].
Defined.

(** "Cancel reminder 02" is the deletion of "02". *)
Lemma delete_reminder_end_to_end_witness :
  handle ist ist clock_parse weather feed "Cancel reminder 02" clock utcnow
    unordered
  = handle_delete "02" unordered.
Proof.
  apply (delete_reminder_end_to_end ist ist clock_parse weather feed
           "Cancel reminder 02" "cancel reminder "
           (chars "Cancel reminder ") (chars "02") clock utcnow unordered);
    [reflexivity | reflexivity | lacks_now | reflexivity
    | discriminate | chars_now].
Defined.

(** "please show reminders now" is the listing. *)
Lemma list_reminders_end_to_end_witness :
  handle ist ist clock_parse weather feed "please show reminders now" clock
    utcnow unordered
  = handle_list ist ist unordered.
Proof.
  apply (list_reminders_end_to_end ist ist clock_parse weather feed
           "please show reminders now" "show reminders" clock utcnow
           unordered);
    [reflexivity | lacks_now | reflexivity | lacks_now].
Defined.

(** The example of the help text gets the hint. *)
Lemma remind_me_in_first_is_not_understood_witness :
  handle ist ist clock_parse weather feed
    "remind me in 10 minutes to drink water" clock utcnow fresh
  = (Returns true,
     says ["I can help with weather, news, and reminders. Say 'help' to see examples."]
       fresh).
Proof.
  apply (remind_me_in_first_is_not_understood ist ist clock_parse weather
           feed "remind me in 10 minutes to drink water"
           (chars "remind me in ") (chars "10 minutes to drink water")
           clock utcnow fresh);
    [reflexivity | reflexivity | reflexivity | reflexivity | lacks_now].
Defined.

(** "Set a reminder at 5:30 pm to call mom" is a reminder for "call mom"
    at "5:30 pm". *)
Lemma set_a_reminder_end_to_end_witness :
  handle ist ist clock_parse weather feed
    "Set a reminder at 5:30 pm to call mom" clock utcnow fresh
  = handle_reminder_at ist clock_parse "call mom" "5:30 pm" clock utcnow
      fresh.
Proof.
  apply (set_a_reminder_end_to_end ist ist clock_parse weather feed
           "Set a reminder at 5:30 pm to call mom" "set a reminder at "
           " pm" (chars "Set a reminder at ") (chars "5:30") (chars " pm")
           (chars " to ") (chars "call mom") clock utcnow fresh);
    [reflexivity | reflexivity | lacks_now | reflexivity
    | discriminate | chars_now | lacks_now | reflexivity | reflexivity
    | discriminate | chars_now | lacks_now].
Defined.

(** "remove reminder 2", with the 2 as the listing prints it, deletes
    row 2. *)
Lemma listed_id_can_be_typed_back_witness :
  exists w1,
    handle ist ist clock_parse weather feed
      ("remove reminder " +:+ str_int 2) clock utcnow unordered
    = (Returns true, says ["Deleted reminder 2."] w1) /\
    forall r, r ∈ rows (conn w1) -> row_id r <> 2.
Proof.
  destruct (listed_id_can_be_typed_back ist ist clock_parse weather feed
              "remove reminder " 2 clock utcnow unordered)
    as (b & w1 & Hhandle & Hb & Hgone & _);
    [reflexivity | elem_now | lia |].
  assert (Htrue : b = true).
  { apply Hb.
    exists (mkrow 2 "a" "2025-03-10T10:00:00+00:00"
              "2025-03-07T09:01:00+00:00").
    split; [elem_now | reflexivity]. }
  subst b. exists w1. split; [exact Hhandle | exact Hgone].
Defined.
End Instances.
